(** * libavformat: the MXF demuxer (mxf.c) and the Matroska muxer (matroskaenc.c)

    A shallow embedding of the two translation units and the properties
    proved about them.  C integers are mathematical integers with the
    conversions of the C types written out ([u64], [s64], [u8]); byte
    buffers are lists of integers in [0, 256). *)

From Stdlib Require Import ZArith List Lia Bool.
Import ListNotations.
Open Scope Z_scope.

(** ** Machine integers *)

Module Mach.

Definition u8 (x : Z) : Z := x mod 2 ^ 8.
Definition u32 (x : Z) : Z := x mod 2 ^ 32.
Definition u64 (x : Z) : Z := x mod 2 ^ 64.
Definition s64 (x : Z) : Z := (x + 2 ^ 63) mod 2 ^ 64 - 2 ^ 63.
Definition s32 (x : Z) : Z := (x + 2 ^ 31) mod 2 ^ 32 - 2 ^ 31.

Definition is_byte (b : Z) : Prop := 0 <= b < 256.
Definition byteb (b : Z) : bool := (0 <=? b) && (b <? 256).
Definition bytesb (bs : list Z) : bool := forallb byteb bs.

Definition len {A} (l : list A) : Z := Z.of_nat (length l).

(** The value of a big-endian byte string. *)
Definition be_value (bs : list Z) : Z :=
  fold_left (fun acc b => acc * 256 + b) bs 0.

(** The [n] low-order bytes of [v], most significant first. *)
Fixpoint be_bytes (n : nat) (v : Z) : list Z :=
  match n with
  | O => []
  | S n' => u8 (Z.shiftr v (8 * Z.of_nat n')) :: be_bytes n' v
  end.

(** What a run of the C code comes to: a result, or a fault (a null
    pointer dereferenced, an array left, a division by zero). *)
Inductive exec (A : Type) :=
  | Done (a : A)
  | Fault.
Arguments Done {A} a.
Arguments Fault {A}.

End Mach.

Import Mach.

(** ** The MXF demuxer (mxf.c) *)

Module Mxf.

(** *** The input byte stream

    Modelled from the spec: the byte-stream abstraction ([ByteIOContext]:
    [get_byte], [get_buffer], [url_ftell], [url_fskip], [url_feof]) and
    [av_get_packet] are collaborators outside the two translation units.
    The stream is its whole content, a cursor and the end-of-file
    indicator, which a read that runs short raises; a read past the end
    yields the byte 0 ([get_byte]) or fewer bytes ([get_buffer]). *)

Record ByteIOContext := mkPB {
  buffer : list Z;
  pos : Z;
  eof_reached : bool
}.

Definition remaining (pb : ByteIOContext) : list Z :=
  skipn (Z.to_nat (pos pb)) (buffer pb).

Definition advance (n : Z) (pb : ByteIOContext) : ByteIOContext :=
  mkPB (buffer pb) (pos pb + n) (eof_reached pb).

Definition url_ftell (pb : ByteIOContext) : Z := pos pb.
Definition url_feof (pb : ByteIOContext) : bool := eof_reached pb.

Definition get_byte (pb : ByteIOContext) : Z * ByteIOContext :=
  match remaining pb with
  | b :: _ => (b, advance 1 pb)
  | [] => (0, mkPB (buffer pb) (pos pb) true)
  end.

Definition get_buffer (pb : ByteIOContext) (size : Z)
  : list Z * ByteIOContext :=
  let bs := firstn (Z.to_nat size) (remaining pb) in
  (bs, mkPB (buffer pb) (pos pb + len bs)
            (eof_reached pb || (len bs <? size))).

Definition url_fskip (pb : ByteIOContext) (offset : Z) : ByteIOContext :=
  advance offset pb.

(** *** Data model *)

Definition UID := list Z.

Inductive MXFPackageType := MaterialPackage | SourcePackage.
Inductive MXFStructuralComponentType := Timecode | SourceClip.

Record AVRational := mkRational { num : Z; den : Z }.

Record MXFStructuralComponent := mkComponent {
  sc_uid : UID;
  source_package_uid : UID;
  sc_data_definition_ul : UID;
  sc_duration : Z;
  start_position : Z;
  source_track_id : Z;
  sc_type : MXFStructuralComponentType
}.

(** Pointer arrays are lists of optional objects: [None] is the null
    pointer of a slot that no object was attached to.  The [_count]
    fields are the lengths of the lists. *)
Record MXFSequence := mkSequence {
  seq_uid : UID;
  seq_data_definition_ul : UID;
  structural_components : list (option MXFStructuralComponent);
  structural_components_refs : list UID;
  seq_duration : Z
}.

Record MXFTrack := mkTrack {
  t_uid : UID;
  sequence : option MXFSequence;
  sequence_ref : UID;
  track_id : Z;
  track_number : list Z;
  edit_rate : AVRational
}.

(** A descriptor may hold sub-descriptors (MultipleDescriptor). *)
#[local] Unset Elimination Schemes.
Inductive MXFDescriptor := mkDescriptor {
  d_uid : UID;
  essence_container_ul : UID;
  essence_codec_ul : UID;
  sample_rate : AVRational;
  aspect_ratio : AVRational;
  width : Z;
  height : Z;
  channels : Z;
  bits_per_sample : Z;
  sub_descriptors : list (option MXFDescriptor);
  sub_descriptors_refs : list UID;
  linked_track_id : Z
}.
#[local] Set Elimination Schemes.

Record MXFPackage := mkPackage {
  p_uid : UID;
  package_uid : UID;
  tracks : list (option MXFTrack);
  tracks_refs : list UID;
  descriptor : option MXFDescriptor;
  descriptor_ref : UID;
  p_type : MXFPackageType
}.

Record MXFContext := mkContext {
  packages : list (option MXFPackage);
  packages_refs : list UID;
  essence_containers_uls : list UID;
  operational_pattern_ul : UID;
  content_storage_uid : UID
}.

(** The codec identifiers and types of avcodec.h that the demuxer
    names; the header is not among the sources, so they are an
    enumeration here. *)
Inductive CodecID :=
  | CODEC_ID_NONE | CODEC_ID_MPEG2VIDEO | CODEC_ID_DVVIDEO
  | CODEC_ID_PCM_S16LE | CODEC_ID_PCM_S16BE
  | CODEC_ID_PCM_S24LE | CODEC_ID_PCM_S24BE
  | CODEC_ID_PCM_S32LE | CODEC_ID_PCM_S32BE.

Inductive CodecType :=
  | CODEC_TYPE_UNKNOWN | CODEC_TYPE_VIDEO | CODEC_TYPE_AUDIO | CODEC_TYPE_DATA.

Record MXFCodecUL := mkCodecUL { ul_uid : UID; ul_id : CodecID }.

(** An output stream with the fields the demuxer sets; [priv_data] is
    the source track. *)
Record AVStream := mkStream {
  st_index : Z;
  st_id : Z;
  priv_data : MXFTrack;
  st_duration : Z;
  start_time : Z;
  time_base : AVRational;
  codec_type : CodecType;
  codec_id : CodecID;
  codec_width : Z;
  codec_height : Z;
  codec_channels : Z;
  codec_bits_per_sample : Z;
  codec_sample_rate : Z
}.

Record KLVPacket := mkKLV {
  key : list Z;
  offset : Z;
  length : Z
}.

Record AVPacket := mkPacket {
  data : list Z;
  stream_index : Z
}.

Definition mxf_essence_element_key : list Z :=
  [0x06;0x0e;0x2b;0x34;0x01;0x02;0x01;0x01;0x0d;0x01;0x03;0x01].

Fixpoint bytes_eqb (a b : list Z) : bool :=
  match a, b with
  | [], [] => true
  | x :: a', y :: b' => (x =? y) && bytes_eqb a' b'
  | _, _ => false
  end.

(** [!memcmp(x, y, n)] *)
Definition memcmp_eq (x y : list Z) (n : nat) : bool :=
  bytes_eqb (firstn n x) (firstn n y).

Definition IS_KLV_KEY (x y : list Z) : bool :=
  memcmp_eq x y (List.length y).

(** Modelled from the spec: [av_get_packet] reads [size] bytes of the
    stream into the packet. *)
Definition av_get_packet (pb : ByteIOContext) (pkt : AVPacket) (size : Z)
  : AVPacket * ByteIOContext :=
  let '(bs, pb') := get_buffer pb size in
  (mkPacket bs (stream_index pkt), pb').

(** *** KLV framing *)

(** The loop [while (bytes_num--) size = size << 8 | get_byte(pb)] on
    the [int64_t] accumulator; the shift wraps in two's complement. *)
Fixpoint ber_long_form (bytes_num : nat) (size : Z) (pb : ByteIOContext)
  : Z * ByteIOContext :=
  match bytes_num with
  | O => (size, pb)
  | S n =>
      let '(b, pb') := get_byte pb in
      ber_long_form n (s64 (Z.lor (Z.shiftl size 8) b)) pb'
  end.

Definition klv_decode_ber_length (pb : ByteIOContext) : Z * ByteIOContext :=
  let '(length, pb1) := get_byte pb in
  let type := Z.shiftr length 7 in
  if negb (type =? 0) then
    let bytes_num := Z.land length 0x7f in
    if 8 <? bytes_num then (-1, pb1)
    else ber_long_form (Z.to_nat bytes_num) 0 pb1
  else (Z.land length 0x7f, pb1).

(** [klv] is the caller's packet with its 16-byte key array; a short
    read of the key leaves the tail of the array as it was. *)
Definition klv_read_packet (klv : KLVPacket) (pb : ByteIOContext)
  : Z * KLVPacket * ByteIOContext :=
  let off := url_ftell pb in
  let '(bs, pb1) := get_buffer pb 16 in
  let key' := firstn 16 (bs ++ skipn (List.length bs) (key klv)) in
  let '(l, pb2) := klv_decode_ber_length pb1 in
  let klv' := mkKLV key' off (u64 l) in
  ((if length klv' =? u64 (-1) then -1 else 0), klv', pb2).

(** The streams of the format context, each by the track its
    [priv_data] points to. *)
Fixpoint mxf_get_stream_index_from (i : Z) (streams : list MXFTrack)
  (klv : KLVPacket) : Z :=
  match streams with
  | [] => -1
  | track :: rest =>
      if memcmp_eq (skipn (List.length mxf_essence_element_key) (key klv))
                   (track_number track) 4
      then i
      else mxf_get_stream_index_from (i + 1) rest klv
  end.

Definition mxf_get_stream_index (streams : list MXFTrack) (klv : KLVPacket)
  : Z :=
  mxf_get_stream_index_from 0 streams klv.

Section ReadPacket.

(** The error code of avformat.h, which is not among the sources. *)
Variable AVERROR_IO : Z.

(** [klv] is the content of the local [KLVPacket] on entry, which the C
    code leaves uninitialised.  The loop runs on [fuel]: [None] says the
    fuel ran out before the function returned.  The [uint64_t] length
    is converted to the [int] that [av_get_packet] takes and to the
    [offset_t] that [url_fskip] takes. *)
Fixpoint mxf_read_packet (fuel : nat) (streams : list MXFTrack)
  (klv : KLVPacket) (pkt : AVPacket) (pb : ByteIOContext)
  : option (Z * AVPacket * ByteIOContext) :=
  match fuel with
  | O => None
  | S fuel' =>
      if url_feof pb then Some (AVERROR_IO, pkt, pb)
      else
        let '(r, klv1, pb1) := klv_read_packet klv pb in
        if r <? 0 then Some (-1, pkt, pb1)
        else if IS_KLV_KEY (key klv1) mxf_essence_element_key then
          let '(pkt1, pb2) := av_get_packet pb1 pkt (s32 (length klv1)) in
          let idx := mxf_get_stream_index streams klv1 in
          let pkt2 := mkPacket (data pkt1) idx in
          Some ((if stream_index pkt2 =? -1 then -1 else 0), pkt2, pb2)
        else
          mxf_read_packet fuel' streams klv1 pkt
            (url_fskip pb1 (s64 (length klv1)))
  end.

End ReadPacket.

(** *** The structural linker *)

Definition picture_essence_track_ul : UID :=
  [0x06;0x0E;0x2B;0x34;0x04;0x01;0x01;0x01;0x01;0x03;0x02;0x02;0x01;0x00;0x00;0x00].
Definition sound_essence_track_ul : UID :=
  [0x06;0x0E;0x2B;0x34;0x04;0x01;0x01;0x01;0x01;0x03;0x02;0x02;0x02;0x00;0x00;0x00].

Definition mxf_codec_uls : list MXFCodecUL := [
  mkCodecUL [0x06;0x0E;0x2B;0x34;0x04;0x01;0x01;0x03;0x04;0x01;0x02;0x02;0x01;0x02;0x02;0x00] CODEC_ID_MPEG2VIDEO;
  mkCodecUL [0x06;0x0E;0x2B;0x34;0x04;0x01;0x01;0x03;0x04;0x01;0x02;0x02;0x01;0x04;0x03;0x00] CODEC_ID_MPEG2VIDEO;
  mkCodecUL [0x06;0x0E;0x2B;0x34;0x04;0x01;0x01;0x03;0x04;0x01;0x02;0x02;0x01;0x02;0x03;0x00] CODEC_ID_MPEG2VIDEO;
  mkCodecUL [0x06;0x0E;0x2B;0x34;0x04;0x01;0x01;0x01;0x04;0x01;0x02;0x02;0x01;0x02;0x01;0x05] CODEC_ID_MPEG2VIDEO;
  mkCodecUL [0x06;0x0E;0x2B;0x34;0x04;0x01;0x01;0x01;0x04;0x01;0x02;0x02;0x01;0x02;0x01;0x01] CODEC_ID_MPEG2VIDEO;
  mkCodecUL [0x06;0x0E;0x2B;0x34;0x04;0x01;0x01;0x01;0x04;0x01;0x02;0x02;0x02;0x02;0x04;0x00] CODEC_ID_DVVIDEO;
  mkCodecUL [0x06;0x0E;0x2B;0x34;0x04;0x01;0x01;0x01;0x04;0x01;0x02;0x02;0x02;0x02;0x02;0x00] CODEC_ID_DVVIDEO;
  mkCodecUL [0x06;0x0E;0x2B;0x34;0x04;0x01;0x01;0x01;0x04;0x01;0x02;0x02;0x02;0x01;0x02;0x00] CODEC_ID_DVVIDEO;
  mkCodecUL [0x06;0x0E;0x2B;0x34;0x04;0x01;0x01;0x01;0x04;0x02;0x02;0x01;0x7F;0x00;0x00;0x00] CODEC_ID_PCM_S16LE;
  mkCodecUL [0x06;0x0E;0x2B;0x34;0x04;0x01;0x01;0x07;0x04;0x02;0x02;0x01;0x7E;0x00;0x00;0x00] CODEC_ID_PCM_S16BE
].

Definition CodecID_eqb (a b : CodecID) : bool :=
  match a, b with
  | CODEC_ID_NONE, CODEC_ID_NONE | CODEC_ID_MPEG2VIDEO, CODEC_ID_MPEG2VIDEO
  | CODEC_ID_DVVIDEO, CODEC_ID_DVVIDEO
  | CODEC_ID_PCM_S16LE, CODEC_ID_PCM_S16LE | CODEC_ID_PCM_S16BE, CODEC_ID_PCM_S16BE
  | CODEC_ID_PCM_S24LE, CODEC_ID_PCM_S24LE | CODEC_ID_PCM_S24BE, CODEC_ID_PCM_S24BE
  | CODEC_ID_PCM_S32LE, CODEC_ID_PCM_S32LE | CODEC_ID_PCM_S32BE, CODEC_ID_PCM_S32BE => true
  | _, _ => false
  end.

(** The walk ends at an entry with [CODEC_ID_NONE]; a table without
    one is left at its end. *)
Fixpoint mxf_get_codec_id (uls : list MXFCodecUL) (uid : UID) : exec CodecID :=
  match uls with
  | [] => Fault
  | u :: rest =>
      if CodecID_eqb (ul_id u) CODEC_ID_NONE then Done CODEC_ID_NONE
      else if memcmp_eq (ul_uid u) uid 16 then Done (ul_id u)
      else mxf_get_codec_id rest uid
  end.

(** The first loop: the first package of type MaterialPackage. *)
Fixpoint find_material_package (pkgs : list (option MXFPackage))
  : exec (option MXFPackage) :=
  match pkgs with
  | [] => Done None
  | None :: _ => Fault
  | Some p :: rest =>
      match p_type p with
      | MaterialPackage => Done (Some p)
      | SourcePackage => find_material_package rest
      end
  end.

(** [for (k ...) if (!memcmp(packages[k]->package_uid, uid, 16)) ...]:
    the package found, [None] when the loop ends without assigning. *)
Fixpoint find_source_package (pkgs : list (option MXFPackage)) (uid : UID)
  : exec (option MXFPackage) :=
  match pkgs with
  | [] => Done None
  | None :: _ => Fault
  | Some p :: rest =>
      if memcmp_eq (package_uid p) uid 16 then Done (Some p)
      else find_source_package rest uid
  end.

Fixpoint find_source_track (trks : list (option MXFTrack)) (id : Z)
  : exec (option MXFTrack) :=
  match trks with
  | [] => Done None
  | None :: _ => Fault
  | Some t :: rest =>
      if track_id t =? id then Done (Some t)
      else find_source_track rest id
  end.

(** The variables the loop over the components works on.
    [source_package] is declared at the head of the function and lives
    across the tracks; [source_track] and [component] start as null for
    every track. *)
Record link_vars := mkVars {
  component : option MXFStructuralComponent;
  source_package : option MXFPackage;
  source_track : option MXFTrack
}.

Definition or_else {A} (found old : option A) : option A :=
  match found with
  | Some _ => found
  | None => old
  end.

(** The loop over [structural_components]; a [break] ends the walk. *)
Fixpoint walk_components (pkgs : list (option MXFPackage))
  (comps : list (option MXFStructuralComponent)) (v : link_vars)
  : exec link_vars :=
  match comps with
  | [] => Done v
  | c :: rest =>
      let v1 := mkVars c (source_package v) (source_track v) in
      match c with
      | None => walk_components pkgs rest v1
      | Some comp =>
          match sc_type comp with
          | Timecode => walk_components pkgs rest v1
          | SourceClip =>
              match find_source_package pkgs (source_package_uid comp) with
              | Fault => Fault
              | Done found =>
                  match or_else found (source_package v) with
                  | None => Done v1
                  | Some sp =>
                      match find_source_track (tracks sp) (source_track_id comp) with
                      | Fault => Fault
                      | Done foundt =>
                          let v2 := mkVars c (Some sp)
                                      (or_else foundt (source_track v)) in
                          match source_track v2 with
                          | None => Done v2
                          | Some _ => walk_components pkgs rest v2
                          end
                      end
                  end
              end
          end
      end
  end.

(** The choice of the descriptor of a source track. *)
Fixpoint find_sub_descriptor (subs : list (option MXFDescriptor)) (id : Z)
  : option MXFDescriptor :=
  match subs with
  | [] => None
  | None :: rest => find_sub_descriptor rest id
  | Some d :: rest =>
      if linked_track_id d =? id then Some d
      else find_sub_descriptor rest id
  end.

Definition choose_descriptor (sp : MXFPackage) (st : MXFTrack)
  : option MXFDescriptor :=
  match descriptor sp with
  | None => None
  | Some d =>
      match sub_descriptors d with
      | _ :: _ => find_sub_descriptor (sub_descriptors d) (track_id st)
      | [] => Some d
      end
  end.

Definition promote_pcm (id : CodecID) (bits : Z) : CodecID :=
  match id with
  | CODEC_ID_PCM_S16LE =>
      if bits =? 24 then CODEC_ID_PCM_S24LE
      else if bits =? 32 then CODEC_ID_PCM_S32LE else id
  | CODEC_ID_PCM_S16BE =>
      if bits =? 24 then CODEC_ID_PCM_S24BE
      else if bits =? 32 then CODEC_ID_PCM_S32BE else id
  | _ => id
  end.

Section Linker.

(** [AV_NOPTS_VALUE] of avcodec.h. *)
Variable AV_NOPTS_VALUE : Z.

(** The codec fields of a stream after a descriptor was found. *)
Definition set_codec (st : AVStream) (d : MXFDescriptor) : exec AVStream :=
  match mxf_get_codec_id mxf_codec_uls (essence_codec_ul d) with
  | Fault => Fault
  | Done id =>
      match codec_type st with
      | CODEC_TYPE_VIDEO =>
          Done (mkStream (st_index st) (st_id st) (priv_data st)
                  (st_duration st) (start_time st) (time_base st)
                  (codec_type st) id (width d) (height d)
                  (codec_channels st) (codec_bits_per_sample st)
                  (codec_sample_rate st))
      | CODEC_TYPE_AUDIO =>
          if den (sample_rate d) =? 0 then Fault
          else
            Done (mkStream (st_index st) (st_id st) (priv_data st)
                    (st_duration st) (start_time st) (time_base st)
                    (codec_type st) (promote_pcm id (bits_per_sample d))
                    (codec_width st) (codec_height st)
                    (channels d) (bits_per_sample d)
                    (Z.quot (num (sample_rate d)) (den (sample_rate d))))
      | _ =>
          Done (mkStream (st_index st) (st_id st) (priv_data st)
                  (st_duration st) (start_time st) (time_base st)
                  (codec_type st) id (codec_width st) (codec_height st)
                  (codec_channels st) (codec_bits_per_sample st)
                  (codec_sample_rate st))
      end
  end.

(** The body of the loop over the tracks of the material package, for
    one track: the streams of the format context and [source_package]
    before, and after. *)
Definition link_track (pkgs : list (option MXFPackage))
  (material_track : option MXFTrack)
  (acc : list AVStream * option MXFPackage)
  : exec (list AVStream * option MXFPackage) :=
  let '(streams, sp0) := acc in
  match material_track with
  | None => Fault
  | Some mt =>
      match sequence mt with
      | None => Fault
      | Some sq =>
          match walk_components pkgs (structural_components sq)
                  (mkVars None sp0 None) with
          | Fault => Fault
          | Done v =>
              match source_track v with
              | None => Done (streams, source_package v)
              | Some st_track =>
                  match component v, source_package v, sequence st_track with
                  | Some comp, Some sp, Some ssq =>
                      let ul := seq_data_definition_ul ssq in
                      let st := mkStream (len streams) (track_id st_track)
                          st_track
                          (if sc_duration comp =? -1 then AV_NOPTS_VALUE
                           else sc_duration comp)
                          (start_position comp)
                          (mkRational (num (edit_rate mt)) (den (edit_rate mt)))
                          (if memcmp_eq ul picture_essence_track_ul 16
                           then CODEC_TYPE_VIDEO
                           else if memcmp_eq ul sound_essence_track_ul 16
                           then CODEC_TYPE_AUDIO
                           else CODEC_TYPE_DATA)
                          CODEC_ID_NONE 0 0 0 0 0 in
                      match choose_descriptor sp st_track with
                      | None => Done (streams ++ [st], source_package v)
                      | Some d =>
                          match set_codec st d with
                          | Fault => Fault
                          | Done st' =>
                              Done (streams ++ [st'], source_package v)
                          end
                      end
                  | _, _, _ => Fault
                  end
              end
          end
      end
  end.

Fixpoint link_tracks (pkgs : list (option MXFPackage))
  (trks : list (option MXFTrack))
  (acc : list AVStream * option MXFPackage)
  : exec (list AVStream * option MXFPackage) :=
  match trks with
  | [] => Done acc
  | t :: rest =>
      match link_track pkgs t acc with
      | Fault => Fault
      | Done acc' => link_tracks pkgs rest acc'
      end
  end.

(** The return value and the streams of the format context. *)
Definition mxf_parse_structural_metadata (mxf : MXFContext)
  (streams : list AVStream) : exec (Z * list AVStream) :=
  match find_material_package (packages mxf) with
  | Fault => Fault
  | Done None => Done (-1, streams)
  | Done (Some material_package) =>
      match link_tracks (packages mxf) (tracks material_package)
              (streams, None) with
      | Fault => Fault
      | Done (streams', _) => Done (0, streams')
      end
  end.

End Linker.

(** *** The wire format, for the statements

    A BER length on the wire: the short form is one byte below 128; the
    long form is the byte [0x80 + n] followed by [n] bytes, most
    significant first. *)

Definition ber_short (v : Z) : list Z := [v].

Definition ber_long (n : nat) (v : Z) : list Z :=
  (0x80 + Z.of_nat n) :: be_bytes n v.

(** The length a well-formed BER string denotes. *)
Definition ber_value (ber : list Z) : Z :=
  match ber with
  | [] => 0
  | b :: bs => if b <? 128 then b else be_value bs
  end.

Definition ber_okb (ber : list Z) : bool :=
  match ber with
  | [] => false
  | b :: bs =>
      byteb b && bytesb bs &&
      (if b <? 128 then (len bs =? 0)
       else (len bs =? b - 128) && (b - 128 <=? 8))
  end.

(** A KLV triple as it lies in the file. *)
Record klv_item := mkItem {
  k_key : list Z;
  k_ber : list Z;
  k_value : list Z
}.

Definition klv_bytes (k : klv_item) : list Z :=
  k_key k ++ k_ber k ++ k_value k.

(** The key has 16 bytes, the length is a BER string of at most 8
    length bytes, and the value has as many bytes as the length says
    (fewer than 2^63, the range of a file offset). *)
Definition klv_okb (k : klv_item) : bool :=
  (len (k_key k) =? 16) && ber_okb (k_ber k) &&
  (ber_value (k_ber k) =? len (k_value k)) &&
  (len (k_value k) <? 2 ^ 63).

Definition is_essence (k : klv_item) : bool :=
  IS_KLV_KEY (k_key k) mxf_essence_element_key.

(** The track number a stream is routed by, and the last four bytes of
    a 16-byte key. *)
Definition routes (k : klv_item) (track : MXFTrack) : bool :=
  bytes_eqb (firstn 4 (skipn 12 (k_key k))) (firstn 4 (track_number track)).

Definition unrouted (k : klv_item) (streams : list MXFTrack) : bool :=
  forallb (fun track => negb (routes k track)) streams.

(** [idx] is -1 when no stream is routed by the key, and otherwise the
    index of the first stream that is. *)
Definition routed_to (streams : list MXFTrack) (k : klv_item) (idx : Z)
  : Prop :=
  (idx = -1 /\ unrouted k streams = true) \/
  (exists n track,
      idx = Z.of_nat n /\ nth_error streams n = Some track /\
      routes k track = true /\ unrouted k (firstn n streams) = true).

(** The bytes of a run of KLV triples. *)
Definition klv_run (ks : list klv_item) : list Z :=
  concat (map klv_bytes ks).

Definition no_essence (ks : list klv_item) : bool :=
  forallb (fun k => negb (is_essence k)) ks.

(** *** Probing *)

Definition mxf_header_partition_pack_key : list Z :=
  [0x06;0x0e;0x2b;0x34;0x02;0x05;0x01;0x01;0x0d;0x01;0x02;0x01;0x01;0x02].

Section Probe.

(** The score of avformat.h, which is not among the sources. *)
Variable AVPROBE_SCORE_MAX : Z.

(** [buf_size] is the length of [buf]. *)
Definition mxf_probe (buf : list Z) : Z :=
  if len buf <? len mxf_header_partition_pack_key then 0
  else if IS_KLV_KEY buf mxf_header_partition_pack_key
       then AVPROBE_SCORE_MAX
       else 0.

End Probe.

(** *** The header metadata

    Modelled from the spec: the big-endian reads and the absolute seek
    of the byte stream ([get_be16], [get_be32], [get_be64],
    [url_fseek]) are collaborators outside the two translation units.
    A seek clears the end-of-file indicator. *)

Definition get_be16 (pb : ByteIOContext) : Z * ByteIOContext :=
  let '(a, pb) := get_byte pb in
  let '(b, pb) := get_byte pb in
  (Z.lor (Z.shiftl a 8) b, pb).

Definition get_be32 (pb : ByteIOContext) : Z * ByteIOContext :=
  let '(a, pb) := get_be16 pb in
  let '(b, pb) := get_be16 pb in
  (Z.lor (Z.shiftl a 16) b, pb).

Definition get_be64 (pb : ByteIOContext) : Z * ByteIOContext :=
  let '(a, pb) := get_be32 pb in
  let '(b, pb) := get_be32 pb in
  (Z.lor (Z.shiftl a 32) b, pb).

Definition url_fseek (pb : ByteIOContext) (offset : Z) : ByteIOContext :=
  mkPB (buffer pb) offset false.

(** The keys of the metadata sets. *)
Definition mxf_metadata_key (b : Z) : UID :=
  [0x06;0x0e;0x2b;0x34;0x02;0x53;0x01;0x01;
   0x0d;0x01;0x01;0x01;0x01;0x01;b;0x00].

Definition mxf_metadata_preface_key : UID := mxf_metadata_key 0x2F.
Definition mxf_metadata_content_storage_key : UID := mxf_metadata_key 0x18.
Definition mxf_metadata_source_package_key : UID := mxf_metadata_key 0x37.
Definition mxf_metadata_material_package_key : UID := mxf_metadata_key 0x36.
Definition mxf_metadata_sequence_key : UID := mxf_metadata_key 0x0F.
Definition mxf_metadata_source_clip_key : UID := mxf_metadata_key 0x11.
Definition mxf_metadata_multiple_descriptor_key : UID := mxf_metadata_key 0x44.
Definition mxf_metadata_generic_sound_descriptor_key : UID :=
  mxf_metadata_key 0x42.
Definition mxf_metadata_cdci_descriptor_key : UID := mxf_metadata_key 0x28.
Definition mxf_metadata_mpegvideo_descriptor_key : UID := mxf_metadata_key 0x51.
Definition mxf_metadata_wave_descriptor_key : UID := mxf_metadata_key 0x48.
Definition mxf_metadata_static_track_key : UID := mxf_metadata_key 0x3A.
Definition mxf_metadata_track_key : UID := mxf_metadata_key 0x3b.

Record MXFEssenceContainerData := mkEssenceContainerData {
  ecd_uid : UID;
  linked_package_uid : UID
}.

(** The context with the fields that only the header reads into,
    beside those of [MXFContext] above. *)
Record MXFHeaderContext := mkHeaderContext {
  hc_context : MXFContext;
  essence_container_data_sets : list (option MXFEssenceContainerData);
  essence_container_data_sets_refs : list UID
}.

(** [get_buffer(pb, dst, n)] into an array of [n] bytes that holds
    [old]: a short read leaves the tail of the array as it was. *)
Definition read_array (n : nat) (old : list Z) (pb : ByteIOContext)
  : list Z * ByteIOContext :=
  let '(bs, pb') := get_buffer pb (Z.of_nat n) in
  (firstn n (bs ++ skipn (List.length bs) old), pb').

(** An array of [count] UIDs over a block of bytes. *)
Fixpoint uids (count : nat) (bs : list Z) : list UID :=
  match count with
  | O => []
  | S n => firstn 16 bs :: uids n (skipn 16 bs)
  end.

Definition UINT_MAX : Z := 2 ^ 32 - 1.
Definition INT_MAX : Z := 2 ^ 31 - 1.
Definition INT_MIN : Z := - 2 ^ 31.

(** [sizeof] of a pointer; the test that uses it is implied by the
    test with [sizeof(UID)] for every size of at most 16. *)
Definition sizeof_pointer : Z := 8.

(** The tests on a count: the [int] is compared with a [size_t], as
    which a negative count is large.  A count that is turned down stays
    in the C object beside the arrays that were there; the objects here
    have no count of their own and keep the arrays. *)
Definition count_exceeds (count : Z) (size : Z) : bool :=
  UINT_MAX / size <=? u64 count.

(** What a [case] of the [switch] over the tags comes to: the loop goes
    on, or the function returns. *)
Inductive set_result (A : Type) :=
  | Continue (obj : A) (pb : ByteIOContext)
  | Return (r : Z) (obj : A) (pb : ByteIOContext).
Arguments Continue {A} obj pb.
Arguments Return {A} r obj pb.

(** The loop [while (bytes_read < klv->length)] that the nine readers
    share, with the [switch] of the reader as [read_tag].
    [bytes_read] is an [int], compared with the [uint64_t] length and
    advanced by [size + 4] whatever the case has read.  The loop runs
    on [fuel]: [None] says the fuel ran out before the loop ended. *)
Fixpoint read_local_set {A : Type} (fuel : nat)
  (read_tag : Z -> Z -> A -> ByteIOContext -> set_result A)
  (length : Z) (bytes_read : Z) (obj : A) (pb : ByteIOContext)
  : option (exec (set_result A)) :=
  match fuel with
  | O => None
  | S fuel' =>
      if u64 bytes_read <? length then
        let '(tag, pb) := get_be16 pb in
        let '(size, pb) := get_be16 pb in
        let tag := s32 tag in
        let size := s32 size in
        match read_tag tag size obj pb with
        | Return r obj pb => Some (Done (Return r obj pb))
        | Continue obj pb =>
            if (INT_MAX <? size + 4) || (INT_MAX <? bytes_read + (size + 4))
               || (bytes_read + (size + 4) <? INT_MIN)
            then Some Fault
            else read_local_set fuel' read_tag length
                   (bytes_read + (size + 4)) obj pb
        end
      else Some (Done (Continue obj pb))
  end.

Section Header.

(** Modelled from the spec: [av_malloc] gives a block that it does not
    clear, and [av_malloc_bytes n] stands for the [n] bytes found in
    it; [av_mallocz] gives a cleared block.  Neither fails here. *)
Variable av_malloc_bytes : Z -> list Z.

Variable AV_NOPTS_VALUE : Z.

(** A batch of references: the four bytes of the object size are
    skipped, and [count] UIDs are read into a fresh array.  The size
    that [get_buffer] takes is an [int]. *)
Definition read_refs (count : Z) (pb : ByteIOContext)
  : list UID * ByteIOContext :=
  let pb := url_fskip pb 4 in
  let '(bs, pb) := get_buffer pb (s32 (count * 16)) in
  (uids (Z.to_nat count)
     (bs ++ skipn (List.length bs) (av_malloc_bytes (count * 16))), pb).

Definition zero_uid : UID := repeat 0 16.

(** [mxf_read_metadata_preface] *)
Definition preface_tag (tag size : Z) (mxf : MXFContext)
  (pb : ByteIOContext) : set_result MXFContext :=
  if tag =? 0x3B03 then
    let '(uid, pb) := read_array 16 (content_storage_uid mxf) pb in
    Continue (mkContext (packages mxf) (packages_refs mxf)
                (essence_containers_uls mxf) (operational_pattern_ul mxf) uid)
             pb
  else if tag =? 0x3B09 then
    let '(ul, pb) := read_array 16 (operational_pattern_ul mxf) pb in
    Continue (mkContext (packages mxf) (packages_refs mxf)
                (essence_containers_uls mxf) ul (content_storage_uid mxf))
             pb
  else if tag =? 0x3B0A then
    let '(c, pb) := get_be32 pb in
    let count := s32 c in
    if count_exceeds count 16 then Return (-1) mxf pb
    else
      let '(uls, pb) := read_refs count pb in
      Continue (mkContext (packages mxf) (packages_refs mxf) uls
                  (operational_pattern_ul mxf) (content_storage_uid mxf))
               pb
  else Continue mxf (url_fskip pb size).

(** A reader that fills the context itself: the value, the context and
    the file. *)
Definition context_reader_result (A : Type)
  (res : option (exec (set_result A))) : option (exec (Z * A * ByteIOContext)) :=
  match res with
  | None => None
  | Some Fault => Some Fault
  | Some (Done (Return r obj pb)) => Some (Done (r, obj, pb))
  | Some (Done (Continue obj pb)) => Some (Done (0, obj, pb))
  end.

Definition mxf_read_metadata_preface (fuel : nat) (mxf : MXFContext)
  (klv : KLVPacket) (pb : ByteIOContext)
  : option (exec (Z * MXFContext * ByteIOContext)) :=
  context_reader_result _
    (read_local_set fuel preface_tag (length klv) 0 mxf pb).

(** [mxf_read_metadata_content_storage] *)
Definition content_storage_tag (tag size : Z) (mxf : MXFHeaderContext)
  (pb : ByteIOContext) : set_result MXFHeaderContext :=
  if tag =? 0x1901 then
    let '(c, pb) := get_be32 pb in
    let count := s32 c in
    if count_exceeds count 16 || count_exceeds count sizeof_pointer
    then Return (-1) mxf pb
    else
      let '(refs, pb) := read_refs count pb in
      let ctx := hc_context mxf in
      Continue
        (mkHeaderContext
           (mkContext (repeat None (Z.to_nat count)) refs
              (essence_containers_uls ctx) (operational_pattern_ul ctx)
              (content_storage_uid ctx))
           (essence_container_data_sets mxf)
           (essence_container_data_sets_refs mxf))
        pb
  else if tag =? 0x1902 then
    let '(c, pb) := get_be32 pb in
    let count := s32 c in
    if count_exceeds count 16 || count_exceeds count sizeof_pointer
    then Return (-1) mxf pb
    else
      let '(refs, pb) := read_refs count pb in
      Continue
        (mkHeaderContext (hc_context mxf) (repeat None (Z.to_nat count)) refs)
        pb
  else Continue mxf (url_fskip pb size).

Definition mxf_read_metadata_content_storage (fuel : nat)
  (mxf : MXFHeaderContext) (klv : KLVPacket) (pb : ByteIOContext)
  : option (exec (Z * MXFHeaderContext * ByteIOContext)) :=
  context_reader_result _
    (read_local_set fuel content_storage_tag (length klv) 0 mxf pb).

(** The attachment loops.  [attach_ref] walks an array of references
    and the array of pointers beside it, and sets the first slot whose
    reference is [uid]; [attach_first] walks an array of pointers and
    stops at the first object, null pointers skipped, that [f] changes. *)
Fixpoint attach_ref {A : Type} (refs : list UID) (slots : list (option A))
  (uid : UID) (obj : A) : option (list (option A)) :=
  match refs, slots with
  | r :: refs', s :: slots' =>
      if memcmp_eq r uid 16 then Some (Some obj :: slots')
      else
        match attach_ref refs' slots' uid obj with
        | Some l => Some (s :: l)
        | None => None
        end
  | _, _ => None
  end.

Fixpoint attach_first {A : Type} (f : A -> option A)
  (slots : list (option A)) : option (list (option A)) :=
  match slots with
  | [] => None
  | None :: rest =>
      match attach_first f rest with
      | Some l => Some (None :: l)
      | None => None
      end
  | Some a :: rest =>
      match f a with
      | Some a' => Some (Some a' :: rest)
      | None =>
          match attach_first f rest with
          | Some l => Some (Some a :: l)
          | None => None
          end
      end
  end.

Definition set_packages (mxf : MXFContext)
  (pkgs : list (option MXFPackage)) : MXFContext :=
  mkContext pkgs (packages_refs mxf) (essence_containers_uls mxf)
    (operational_pattern_ul mxf) (content_storage_uid mxf).

Definition set_tracks (p : MXFPackage) (trks : list (option MXFTrack))
  : MXFPackage :=
  mkPackage (p_uid p) (package_uid p) trks (tracks_refs p) (descriptor p)
    (descriptor_ref p) (p_type p).

Definition set_descriptor (p : MXFPackage) (d : MXFDescriptor) : MXFPackage :=
  mkPackage (p_uid p) (package_uid p) (tracks p) (tracks_refs p) (Some d)
    (descriptor_ref p) (p_type p).

Definition set_sequence (t : MXFTrack) (sq : MXFSequence) : MXFTrack :=
  mkTrack (t_uid t) (Some sq) (sequence_ref t) (track_id t) (track_number t)
    (edit_rate t).

Definition set_structural_components (sq : MXFSequence)
  (comps : list (option MXFStructuralComponent)) : MXFSequence :=
  mkSequence (seq_uid sq) (seq_data_definition_ul sq) comps
    (structural_components_refs sq) (seq_duration sq).

Definition set_sub_descriptors (d : MXFDescriptor)
  (subs : list (option MXFDescriptor)) : MXFDescriptor :=
  mkDescriptor (d_uid d) (essence_container_ul d) (essence_codec_ul d)
    (sample_rate d) (aspect_ratio d) (width d) (height d) (channels d)
    (bits_per_sample d) subs (sub_descriptors_refs d) (linked_track_id d).

(** The end of a reader that makes an object: 0 and the context with
    the object where the attachment found its place, -1 and the
    context as it was where it found none. *)
Definition attached (mxf : MXFContext) (pb : ByteIOContext)
  (pkgs : option (list (option MXFPackage)))
  : option (exec (Z * MXFContext * ByteIOContext)) :=
  match pkgs with
  | Some pkgs => Some (Done (0, set_packages mxf pkgs, pb))
  | None => Some (Done (-1, mxf, pb))
  end.

Definition object_reader_result (A : Type) (mxf : MXFContext)
  (attach : A -> option (list (option MXFPackage)))
  (res : option (exec (set_result A)))
  : option (exec (Z * MXFContext * ByteIOContext)) :=
  match res with
  | None => None
  | Some Fault => Some Fault
  | Some (Done (Return r _ pb)) => Some (Done (r, mxf, pb))
  | Some (Done (Continue obj pb)) => attached mxf pb (attach obj)
  end.

(** [mxf_read_metadata_source_clip] *)
Definition source_clip_tag (tag size : Z) (c : MXFStructuralComponent)
  (pb : ByteIOContext) : set_result MXFStructuralComponent :=
  if tag =? 0x3C0A then
    let '(uid, pb) := read_array 16 (sc_uid c) pb in
    Continue (mkComponent uid (source_package_uid c) (sc_data_definition_ul c)
                (sc_duration c) (start_position c) (source_track_id c)
                (sc_type c)) pb
  else if tag =? 0x0202 then
    let '(v, pb) := get_be64 pb in
    Continue (mkComponent (sc_uid c) (source_package_uid c)
                (sc_data_definition_ul c) (s64 v) (start_position c)
                (source_track_id c) (sc_type c)) pb
  else if tag =? 0x1201 then
    let '(v, pb) := get_be64 pb in
    Continue (mkComponent (sc_uid c) (source_package_uid c)
                (sc_data_definition_ul c) (sc_duration c) (s64 v)
                (source_track_id c) (sc_type c)) pb
  else if tag =? 0x1101 then
    let pb := url_fskip pb 16 in
    let '(uid, pb) := read_array 16 (source_package_uid c) pb in
    Continue (mkComponent (sc_uid c) uid (sc_data_definition_ul c)
                (sc_duration c) (start_position c) (source_track_id c)
                (sc_type c)) pb
  else if tag =? 0x1102 then
    let '(v, pb) := get_be32 pb in
    Continue (mkComponent (sc_uid c) (source_package_uid c)
                (sc_data_definition_ul c) (sc_duration c) (start_position c)
                (s32 v) (sc_type c)) pb
  else Continue c (url_fskip pb size).

Definition attach_source_clip (mxf : MXFContext) (c : MXFStructuralComponent)
  : option (list (option MXFPackage)) :=
  attach_first
    (fun p =>
       option_map (set_tracks p)
         (attach_first
            (fun t =>
               match sequence t with
               | None => None
               | Some sq =>
                   option_map
                     (fun comps =>
                        set_sequence t (set_structural_components sq comps))
                     (attach_ref (structural_components_refs sq)
                        (structural_components sq) (sc_uid c) c)
               end)
            (tracks p)))
    (packages mxf).

Definition mxf_read_metadata_source_clip (fuel : nat) (mxf : MXFContext)
  (klv : KLVPacket) (pb : ByteIOContext)
  : option (exec (Z * MXFContext * ByteIOContext)) :=
  object_reader_result _ mxf (attach_source_clip mxf)
    (read_local_set fuel source_clip_tag (length klv) 0
       (mkComponent zero_uid zero_uid zero_uid 0 0 0 SourceClip) pb).

(** [mxf_read_metadata_material_package] and
    [mxf_read_metadata_source_package] *)
Definition package_tracks_tag (p : MXFPackage) (pb : ByteIOContext)
  : set_result MXFPackage :=
  let '(c, pb) := get_be32 pb in
  let count := s32 c in
  if count_exceeds count 16 || count_exceeds count sizeof_pointer
  then Return (-1) p pb
  else
    let '(refs, pb) := read_refs count pb in
    Continue (mkPackage (p_uid p) (package_uid p)
                (repeat None (Z.to_nat count)) refs (descriptor p)
                (descriptor_ref p) (p_type p)) pb.

Definition material_package_tag (tag size : Z) (p : MXFPackage)
  (pb : ByteIOContext) : set_result MXFPackage :=
  if tag =? 0x3C0A then
    let '(uid, pb) := read_array 16 (p_uid p) pb in
    Continue (mkPackage uid (package_uid p) (tracks p) (tracks_refs p)
                (descriptor p) (descriptor_ref p) (p_type p)) pb
  else if tag =? 0x4403 then package_tracks_tag p pb
  else Continue p (url_fskip pb size).

Definition source_package_tag (tag size : Z) (p : MXFPackage)
  (pb : ByteIOContext) : set_result MXFPackage :=
  if tag =? 0x3C0A then
    let '(uid, pb) := read_array 16 (p_uid p) pb in
    Continue (mkPackage uid (package_uid p) (tracks p) (tracks_refs p)
                (descriptor p) (descriptor_ref p) (p_type p)) pb
  else if tag =? 0x4403 then package_tracks_tag p pb
  else if tag =? 0x4401 then
    let pb := url_fskip pb 16 in
    let '(uid, pb) := read_array 16 (package_uid p) pb in
    Continue (mkPackage (p_uid p) uid (tracks p) (tracks_refs p)
                (descriptor p) (descriptor_ref p) (p_type p)) pb
  else if tag =? 0x4701 then
    let '(ref, pb) := read_array 16 (descriptor_ref p) pb in
    Continue (mkPackage (p_uid p) (package_uid p) (tracks p) (tracks_refs p)
                (descriptor p) ref (p_type p)) pb
  else Continue p (url_fskip pb size).

Definition attach_package (mxf : MXFContext) (p : MXFPackage)
  : option (list (option MXFPackage)) :=
  attach_ref (packages_refs mxf) (packages mxf) (p_uid p) p.

Definition mxf_read_metadata_material_package (fuel : nat) (mxf : MXFContext)
  (klv : KLVPacket) (pb : ByteIOContext)
  : option (exec (Z * MXFContext * ByteIOContext)) :=
  object_reader_result _ mxf (attach_package mxf)
    (read_local_set fuel material_package_tag (length klv) 0
       (mkPackage zero_uid zero_uid [] [] None zero_uid MaterialPackage) pb).

Definition mxf_read_metadata_source_package (fuel : nat) (mxf : MXFContext)
  (klv : KLVPacket) (pb : ByteIOContext)
  : option (exec (Z * MXFContext * ByteIOContext)) :=
  object_reader_result _ mxf (attach_package mxf)
    (read_local_set fuel source_package_tag (length klv) 0
       (mkPackage zero_uid zero_uid [] [] None zero_uid SourcePackage) pb).

(** [mxf_read_metadata_track] *)
Definition track_tag (tag size : Z) (t : MXFTrack) (pb : ByteIOContext)
  : set_result MXFTrack :=
  if tag =? 0x3C0A then
    let '(uid, pb) := read_array 16 (t_uid t) pb in
    Continue (mkTrack uid (sequence t) (sequence_ref t) (track_id t)
                (track_number t) (edit_rate t)) pb
  else if tag =? 0x4801 then
    let '(v, pb) := get_be32 pb in
    Continue (mkTrack (t_uid t) (sequence t) (sequence_ref t) (s32 v)
                (track_number t) (edit_rate t)) pb
  else if tag =? 0x4804 then
    let '(n, pb) := read_array 4 (track_number t) pb in
    Continue (mkTrack (t_uid t) (sequence t) (sequence_ref t) (track_id t)
                n (edit_rate t)) pb
  else if tag =? 0x4B01 then
    let '(d, pb) := get_be32 pb in
    let '(n, pb) := get_be32 pb in
    Continue (mkTrack (t_uid t) (sequence t) (sequence_ref t) (track_id t)
                (track_number t) (mkRational (s32 n) (s32 d))) pb
  else if tag =? 0x4803 then
    let '(ref, pb) := read_array 16 (sequence_ref t) pb in
    Continue (mkTrack (t_uid t) (sequence t) ref (track_id t)
                (track_number t) (edit_rate t)) pb
  else Continue t (url_fskip pb size).

Definition attach_track (mxf : MXFContext) (t : MXFTrack)
  : option (list (option MXFPackage)) :=
  attach_first
    (fun p =>
       option_map (set_tracks p)
         (attach_ref (tracks_refs p) (tracks p) (t_uid t) t))
    (packages mxf).

Definition mxf_read_metadata_track (fuel : nat) (mxf : MXFContext)
  (klv : KLVPacket) (pb : ByteIOContext)
  : option (exec (Z * MXFContext * ByteIOContext)) :=
  object_reader_result _ mxf (attach_track mxf)
    (read_local_set fuel track_tag (length klv) 0
       (mkTrack zero_uid None zero_uid 0 (repeat 0 4) (mkRational 0 0)) pb).

(** [mxf_read_metadata_sequence] *)
Definition sequence_tag (tag size : Z) (sq : MXFSequence)
  (pb : ByteIOContext) : set_result MXFSequence :=
  if tag =? 0x3C0A then
    let '(uid, pb) := read_array 16 (seq_uid sq) pb in
    Continue (mkSequence uid (seq_data_definition_ul sq)
                (structural_components sq) (structural_components_refs sq)
                (seq_duration sq)) pb
  else if tag =? 0x0202 then
    let '(v, pb) := get_be64 pb in
    Continue (mkSequence (seq_uid sq) (seq_data_definition_ul sq)
                (structural_components sq) (structural_components_refs sq)
                (s64 v)) pb
  else if tag =? 0x0201 then
    let '(ul, pb) := read_array 16 (seq_data_definition_ul sq) pb in
    Continue (mkSequence (seq_uid sq) ul (structural_components sq)
                (structural_components_refs sq) (seq_duration sq)) pb
  else if tag =? 0x1001 then
    let '(c, pb) := get_be32 pb in
    let count := s32 c in
    if count_exceeds count 16 || count_exceeds count sizeof_pointer
    then Return (-1) sq pb
    else
      let '(refs, pb) := read_refs count pb in
      Continue (mkSequence (seq_uid sq) (seq_data_definition_ul sq)
                  (repeat None (Z.to_nat count)) refs (seq_duration sq)) pb
  else Continue sq (url_fskip pb size).

Definition attach_sequence (mxf : MXFContext) (sq : MXFSequence)
  : option (list (option MXFPackage)) :=
  attach_first
    (fun p =>
       option_map (set_tracks p)
         (attach_first
            (fun t =>
               if memcmp_eq (sequence_ref t) (seq_uid sq) 16
               then Some (set_sequence t sq) else None)
            (tracks p)))
    (packages mxf).

Definition mxf_read_metadata_sequence (fuel : nat) (mxf : MXFContext)
  (klv : KLVPacket) (pb : ByteIOContext)
  : option (exec (Z * MXFContext * ByteIOContext)) :=
  object_reader_result _ mxf (attach_sequence mxf)
    (read_local_set fuel sequence_tag (length klv) 0
       (mkSequence zero_uid zero_uid [] [] 0) pb).

(** [mxf_read_metadata_multiple_descriptor] and
    [mxf_read_metadata_generic_descriptor] *)
Definition descriptor_zero : MXFDescriptor :=
  mkDescriptor zero_uid zero_uid zero_uid (mkRational 0 0) (mkRational 0 0)
    0 0 0 0 [] [] 0.

Definition multiple_descriptor_tag (tag size : Z) (d : MXFDescriptor)
  (pb : ByteIOContext) : set_result MXFDescriptor :=
  if tag =? 0x3C0A then
    let '(uid, pb) := read_array 16 (d_uid d) pb in
    Continue (mkDescriptor uid (essence_container_ul d) (essence_codec_ul d)
                (sample_rate d) (aspect_ratio d) (width d) (height d)
                (channels d) (bits_per_sample d) (sub_descriptors d)
                (sub_descriptors_refs d) (linked_track_id d)) pb
  else if tag =? 0x3F01 then
    let '(c, pb) := get_be32 pb in
    let count := s32 c in
    if count_exceeds count 16 || count_exceeds count sizeof_pointer
    then Return (-1) d pb
    else
      let '(refs, pb) := read_refs count pb in
      Continue (mkDescriptor (d_uid d) (essence_container_ul d)
                  (essence_codec_ul d) (sample_rate d) (aspect_ratio d)
                  (width d) (height d) (channels d) (bits_per_sample d)
                  (repeat None (Z.to_nat count)) refs (linked_track_id d)) pb
  else Continue d (url_fskip pb size).

Definition attach_multiple_descriptor (mxf : MXFContext) (d : MXFDescriptor)
  : option (list (option MXFPackage)) :=
  attach_first
    (fun p =>
       if memcmp_eq (descriptor_ref p) (d_uid d) 16
       then Some (set_descriptor p d) else None)
    (packages mxf).

Definition mxf_read_metadata_multiple_descriptor (fuel : nat)
  (mxf : MXFContext) (klv : KLVPacket) (pb : ByteIOContext)
  : option (exec (Z * MXFContext * ByteIOContext)) :=
  object_reader_result _ mxf (attach_multiple_descriptor mxf)
    (read_local_set fuel multiple_descriptor_tag (length klv) 0
       descriptor_zero pb).

Definition generic_descriptor_tag (tag size : Z) (d : MXFDescriptor)
  (pb : ByteIOContext) : set_result MXFDescriptor :=
  if tag =? 0x3C0A then
    let '(uid, pb) := read_array 16 (d_uid d) pb in
    Continue (mkDescriptor uid (essence_container_ul d) (essence_codec_ul d)
                (sample_rate d) (aspect_ratio d) (width d) (height d)
                (channels d) (bits_per_sample d) (sub_descriptors d)
                (sub_descriptors_refs d) (linked_track_id d)) pb
  else if tag =? 0x3004 then
    let '(ul, pb) := read_array 16 (essence_container_ul d) pb in
    Continue (mkDescriptor (d_uid d) ul (essence_codec_ul d)
                (sample_rate d) (aspect_ratio d) (width d) (height d)
                (channels d) (bits_per_sample d) (sub_descriptors d)
                (sub_descriptors_refs d) (linked_track_id d)) pb
  else if tag =? 0x3006 then
    let '(v, pb) := get_be32 pb in
    Continue (mkDescriptor (d_uid d) (essence_container_ul d)
                (essence_codec_ul d) (sample_rate d) (aspect_ratio d)
                (width d) (height d) (channels d) (bits_per_sample d)
                (sub_descriptors d) (sub_descriptors_refs d) (s32 v)) pb
  else if tag =? 0x3201 then
    let '(ul, pb) := read_array 16 (essence_codec_ul d) pb in
    Continue (mkDescriptor (d_uid d) (essence_container_ul d) ul
                (sample_rate d) (aspect_ratio d) (width d) (height d)
                (channels d) (bits_per_sample d) (sub_descriptors d)
                (sub_descriptors_refs d) (linked_track_id d)) pb
  else if tag =? 0x3203 then
    let '(v, pb) := get_be32 pb in
    Continue (mkDescriptor (d_uid d) (essence_container_ul d)
                (essence_codec_ul d) (sample_rate d) (aspect_ratio d)
                (s32 v) (height d) (channels d) (bits_per_sample d)
                (sub_descriptors d) (sub_descriptors_refs d)
                (linked_track_id d)) pb
  else if tag =? 0x3202 then
    let '(v, pb) := get_be32 pb in
    Continue (mkDescriptor (d_uid d) (essence_container_ul d)
                (essence_codec_ul d) (sample_rate d) (aspect_ratio d)
                (width d) (s32 v) (channels d) (bits_per_sample d)
                (sub_descriptors d) (sub_descriptors_refs d)
                (linked_track_id d)) pb
  else if tag =? 0x320E then
    let '(n, pb) := get_be32 pb in
    let '(dn, pb) := get_be32 pb in
    Continue (mkDescriptor (d_uid d) (essence_container_ul d)
                (essence_codec_ul d) (sample_rate d)
                (mkRational (s32 n) (s32 dn))
                (width d) (height d) (channels d) (bits_per_sample d)
                (sub_descriptors d) (sub_descriptors_refs d)
                (linked_track_id d)) pb
  else if tag =? 0x3D03 then
    let '(n, pb) := get_be32 pb in
    let '(dn, pb) := get_be32 pb in
    Continue (mkDescriptor (d_uid d) (essence_container_ul d)
                (essence_codec_ul d) (mkRational (s32 n) (s32 dn))
                (aspect_ratio d)
                (width d) (height d) (channels d) (bits_per_sample d)
                (sub_descriptors d) (sub_descriptors_refs d)
                (linked_track_id d)) pb
  else if tag =? 0x3D06 then
    let '(ul, pb) := read_array 16 (essence_codec_ul d) pb in
    Continue (mkDescriptor (d_uid d) (essence_container_ul d) ul
                (sample_rate d) (aspect_ratio d) (width d) (height d)
                (channels d) (bits_per_sample d) (sub_descriptors d)
                (sub_descriptors_refs d) (linked_track_id d)) pb
  else if tag =? 0x3D07 then
    let '(v, pb) := get_be32 pb in
    Continue (mkDescriptor (d_uid d) (essence_container_ul d)
                (essence_codec_ul d) (sample_rate d) (aspect_ratio d)
                (width d) (height d) (s32 v) (bits_per_sample d)
                (sub_descriptors d) (sub_descriptors_refs d)
                (linked_track_id d)) pb
  else if tag =? 0x3D01 then
    let '(v, pb) := get_be32 pb in
    Continue (mkDescriptor (d_uid d) (essence_container_ul d)
                (essence_codec_ul d) (sample_rate d) (aspect_ratio d)
                (width d) (height d) (channels d) (s32 v)
                (sub_descriptors d) (sub_descriptors_refs d)
                (linked_track_id d)) pb
  else Continue d (url_fskip pb size).

Definition attach_generic_descriptor (mxf : MXFContext) (d : MXFDescriptor)
  : option (list (option MXFPackage)) :=
  attach_first
    (fun p =>
       if memcmp_eq (descriptor_ref p) (d_uid d) 16
       then Some (set_descriptor p d)
       else
         match descriptor p with
         | None => None
         | Some pd =>
             option_map
               (fun subs => set_descriptor p (set_sub_descriptors pd subs))
               (attach_ref (sub_descriptors_refs pd) (sub_descriptors pd)
                  (d_uid d) d)
         end)
    (packages mxf).

Definition mxf_read_metadata_generic_descriptor (fuel : nat)
  (mxf : MXFContext) (klv : KLVPacket) (pb : ByteIOContext)
  : option (exec (Z * MXFContext * ByteIOContext)) :=
  object_reader_result _ mxf (attach_generic_descriptor mxf)
    (read_local_set fuel generic_descriptor_tag (length klv) 0
       descriptor_zero pb).

(** [mxf_read_header] *)

(** A reader of [MXFContext] on the whole context. *)
Definition on_context (mxf : MXFHeaderContext)
  (res : option (exec (Z * MXFContext * ByteIOContext)))
  : option (exec (Z * MXFHeaderContext * ByteIOContext)) :=
  match res with
  | None => None
  | Some Fault => Some Fault
  | Some (Done (r, ctx, pb)) =>
      Some (Done (r, mkHeaderContext ctx (essence_container_data_sets mxf)
                       (essence_container_data_sets_refs mxf), pb))
  end.

(** The chain of tests on the key of a KLV packet. *)
Inductive header_step :=
  | Metadata (res : option (exec (Z * MXFHeaderContext * ByteIOContext)))
  | Essence
  | Skip.

Definition header_dispatch (fuel : nat) (mxf : MXFHeaderContext)
  (klv : KLVPacket) (pb : ByteIOContext) : header_step :=
  let ctx := hc_context mxf in
  if IS_KLV_KEY (key klv) mxf_metadata_track_key then
    Metadata (on_context mxf (mxf_read_metadata_track fuel ctx klv pb))
  else if IS_KLV_KEY (key klv) mxf_metadata_static_track_key then
    Metadata (on_context mxf (mxf_read_metadata_track fuel ctx klv pb))
  else if IS_KLV_KEY (key klv) mxf_metadata_source_package_key then
    Metadata (on_context mxf (mxf_read_metadata_source_package fuel ctx klv pb))
  else if IS_KLV_KEY (key klv) mxf_metadata_sequence_key then
    Metadata (on_context mxf (mxf_read_metadata_sequence fuel ctx klv pb))
  else if IS_KLV_KEY (key klv) mxf_metadata_material_package_key then
    Metadata (on_context mxf
                (mxf_read_metadata_material_package fuel ctx klv pb))
  else if IS_KLV_KEY (key klv) mxf_metadata_source_clip_key then
    Metadata (on_context mxf (mxf_read_metadata_source_clip fuel ctx klv pb))
  else if IS_KLV_KEY (key klv) mxf_metadata_multiple_descriptor_key then
    Metadata (on_context mxf
                (mxf_read_metadata_multiple_descriptor fuel ctx klv pb))
  else if IS_KLV_KEY (key klv) mxf_metadata_wave_descriptor_key then
    Metadata (on_context mxf
                (mxf_read_metadata_generic_descriptor fuel ctx klv pb))
  else if IS_KLV_KEY (key klv) mxf_metadata_mpegvideo_descriptor_key then
    Metadata (on_context mxf
                (mxf_read_metadata_generic_descriptor fuel ctx klv pb))
  else if IS_KLV_KEY (key klv) mxf_metadata_cdci_descriptor_key then
    Metadata (on_context mxf
                (mxf_read_metadata_generic_descriptor fuel ctx klv pb))
  else if IS_KLV_KEY (key klv) mxf_metadata_generic_sound_descriptor_key then
    Metadata (on_context mxf
                (mxf_read_metadata_generic_descriptor fuel ctx klv pb))
  else if IS_KLV_KEY (key klv) mxf_metadata_preface_key then
    Metadata (on_context mxf (mxf_read_metadata_preface fuel ctx klv pb))
  else if IS_KLV_KEY (key klv) mxf_metadata_content_storage_key then
    Metadata (mxf_read_metadata_content_storage fuel mxf klv pb)
  else if IS_KLV_KEY (key klv) mxf_essence_element_key then Essence
  else Skip.

(** The end of [mxf_read_header]: the value of
    [mxf_parse_structural_metadata] and the streams it made. *)
Definition header_end (mxf : MXFHeaderContext) (pb : ByteIOContext)
  (streams : list AVStream)
  : option (exec (Z * MXFHeaderContext * ByteIOContext * list AVStream)) :=
  match mxf_parse_structural_metadata AV_NOPTS_VALUE (hc_context mxf) streams with
  | Fault => Some Fault
  | Done (r, streams') => Some (Done (r, mxf, pb, streams'))
  end.

(** The loop of [mxf_read_header], with [ret] as it stands at the head
    of a turn and [klv] the local packet.  The value, the context, the
    file and the streams of the format context; [None] says the fuel
    ran out. *)
Fixpoint mxf_read_header_loop (fuel : nat) (mxf : MXFHeaderContext)
  (klv : KLVPacket) (ret : Z) (streams : list AVStream) (pb : ByteIOContext)
  : option (exec (Z * MXFHeaderContext * ByteIOContext * list AVStream)) :=
  match fuel with
  | O => None
  | S fuel' =>
      if url_feof pb then header_end mxf pb streams
      else
        let '(r, klv, pb) := klv_read_packet klv pb in
        if r <? 0 then Some (Done (-1, mxf, pb, streams))
        else
          match header_dispatch fuel' mxf klv pb with
          | Metadata None => None
          | Metadata (Some Fault) => Some Fault
          | Metadata (Some (Done (ret, mxf, pb))) =>
              if ret <? 0 then Some (Done (ret, mxf, pb, streams))
              else mxf_read_header_loop fuel' mxf klv ret streams pb
          | Essence => header_end mxf (url_fseek pb (offset klv)) streams
          | Skip =>
              let pb := url_fskip pb (s64 (length klv)) in
              if ret <? 0 then Some (Done (ret, mxf, pb, streams))
              else mxf_read_header_loop fuel' mxf klv ret streams pb
          end
  end.

Definition mxf_read_header (fuel : nat) (mxf : MXFHeaderContext)
  (klv : KLVPacket) (streams : list AVStream) (pb : ByteIOContext)
  : option (exec (Z * MXFHeaderContext * ByteIOContext * list AVStream)) :=
  mxf_read_header_loop fuel mxf klv 0 streams pb.

End Header.

End Mxf.

(** ** The Matroska muxer (matroskaenc.c) *)

Module Mkv.

(** *** The output byte stream

    Modelled from the spec: the byte-stream abstraction ([put_byte],
    [put_be16], [put_be64], [put_buffer], [url_ftell], [url_fseek]) is a
    collaborator outside the two translation units.  The file is the
    byte at every offset (0 where nothing was written) and the cursor;
    a write stores at the cursor and moves it on, a seek only moves the
    cursor, so bytes written earlier stay unless written over. *)

Record ByteIOContext := mkPB {
  content : Z -> Z;
  pos : Z
}.

Definition put_byte (pb : ByteIOContext) (b : Z) : ByteIOContext :=
  mkPB (fun off => if off =? pos pb then u8 b else content pb off)
       (pos pb + 1).

Definition url_ftell (pb : ByteIOContext) : Z := pos pb.

(** [url_fseek(pb, offset, SEEK_SET)] *)
Definition url_fseek (pb : ByteIOContext) (offset : Z) : ByteIOContext :=
  mkPB (content pb) offset.

Fixpoint put_buffer (pb : ByteIOContext) (buf : list Z) : ByteIOContext :=
  match buf with
  | [] => pb
  | b :: rest => put_buffer (put_byte pb b) rest
  end.

(** The loop [for (i = n - 1; i >= 0; i--) put_byte(pb, v >> i*8)],
    which the EBML writers share. *)
Fixpoint put_be_bytes (n : nat) (v : Z) (pb : ByteIOContext)
  : ByteIOContext :=
  match n with
  | O => pb
  | S i => put_be_bytes i v (put_byte pb (Z.shiftr v (8 * Z.of_nat i)))
  end.

Definition put_be16 (pb : ByteIOContext) (val : Z) : ByteIOContext :=
  put_be_bytes 2 val pb.

Definition put_be64 (pb : ByteIOContext) (val : Z) : ByteIOContext :=
  put_be_bytes 8 val pb.

(** *** Data model *)

Record mkv_seekhead_entry := mkSeekEntry {
  elementid : Z;
  segmentpos : Z
}.

(** The entry arrays are lists; [num_entries] is their length.
    Allocation is taken to succeed. *)
Record mkv_seekhead := mkSeekhead {
  filepos : Z;
  sh_segment_offset : Z;
  reserved_size : Z;
  max_entries : Z;
  sh_entries : list mkv_seekhead_entry
}.

Record mkv_cuepoint := mkCuepoint {
  cue_pts : Z;
  tracknum : Z;
  cue_cluster_pos : Z
}.

Record mkv_cues := mkCues {
  cues_segment_offset : Z;
  cues_entries : list mkv_cuepoint
}.

(** The MD5 context is the bytes fed to it so far. *)
Record MatroskaMuxContext := mkMux {
  segment : Z;
  segment_offset : Z;
  segment_uid : Z;
  cluster : Z;
  cluster_pos : Z;
  cluster_pts : Z;
  duration_offset : Z;
  duration : Z;
  main_seekhead : mkv_seekhead;
  cluster_seekhead : mkv_seekhead;
  cues : mkv_cues;
  md5_ctx : list Z
}.

Inductive CodecType :=
  | CODEC_TYPE_VIDEO | CODEC_TYPE_AUDIO | CODEC_TYPE_SUBTITLE | CODEC_TYPE_DATA.

(** A stream of the format context, as far as the packet and trailer
    writers look at it: [bitexact] says that [CODEC_FLAG_BITEXACT] is
    set in the flags of its codec. *)
Record AVStream := mkStream {
  codec_type : CodecType;
  bitexact : bool
}.

(** A packet; [pkt_size] is the length of [pkt_data], and [keyframe]
    says that [PKT_FLAG_KEY] is set in its flags.  [pkt_pts] is an
    [int64_t], [pkt_duration] an [int]. *)
Record AVPacket := mkPacket {
  pkt_data : list Z;
  stream_index : Z;
  pkt_pts : Z;
  pkt_duration : Z;
  keyframe : bool
}.

Definition pkt_size (pkt : AVPacket) : Z := len (pkt_data pkt).

(** The element identifiers of matroska.h, which is not among the
    sources: they are a parameter of the muxer. *)
Record matroska_ids := mkIds {
  EBML_ID_VOID : Z;
  MATROSKA_ID_SEEKHEAD : Z;
  MATROSKA_ID_SEEKENTRY : Z;
  MATROSKA_ID_SEEKID : Z;
  MATROSKA_ID_SEEKPOSITION : Z;
  MATROSKA_ID_CUES : Z;
  MATROSKA_ID_POINTENTRY : Z;
  MATROSKA_ID_CUETIME : Z;
  MATROSKA_ID_CUETRACKPOSITION : Z;
  MATROSKA_ID_CUETRACK : Z;
  MATROSKA_ID_CUECLUSTERPOSITION : Z;
  MATROSKA_ID_CLUSTER : Z;
  MATROSKA_ID_CLUSTERTIMECODE : Z;
  MATROSKA_ID_SIMPLEBLOCK : Z;
  MATROSKA_ID_BLOCKGROUP : Z;
  MATROSKA_ID_BLOCK : Z;
  MATROSKA_ID_DURATION : Z;
  MATROSKA_ID_SEGMENTUID : Z
}.

(** *** EBML primitives *)

(** Modelled from the spec: [av_log2] is the floor of the binary
    logarithm (0 at 0). *)
Definition av_log2 (v : Z) : Z := Z.log2 v.

(** *** Where the C code is defined

    Three shifts of the EBML writers are by a count that C defines only
    below the width of the operand:
    - [put_ebml_id] shifts the [unsigned int] identifier by
      [8 * (ebml_id_size id - 1)] bits, which is 32 for an identifier
      sized 5 bytes; the identifiers of Matroska have at most 4;
    - the loop of [put_ebml_uint] has no bound of its own and comes to
      shift the [uint64_t] value by 64 bits when the value is 2^56 or
      more (a negative [int] or [int64_t] argument is such a value);
    - the loop of [ebml_size_bytes] comes to shift by 70 bits when
      [size + 1] is 2^63 or more, and [put_ebml_size] shifts by
      [7 * bytes] and [8 * (bytes - 1)] bits, which leaves the width for
      [minbytes] above 8.
    There the C code has no result.  The functions below are total: they
    take the shift as the mathematical one, and they are the C code for
    identifiers of at most 4 bytes, values below 2^56, sizes with
    [size + 1] below 2^63 and [minbytes] of at most 8.  The theorems
    about the writers and their callers are stated for such arguments
    only; for the callers the predicates [packet_okb], [cue_okb],
    [seek_entry_okb] and [mux_okb] below say when all the arguments
    they pass are such. *)

(** [id] is an [unsigned int]; the division is C's, towards zero. *)
Definition ebml_id_size (id : Z) : Z :=
  Z.quot (av_log2 (u32 (id + 1)) - 1) 7 + 1.

(** [while (i--) put_byte(pb, id >> (i*8))], defined for [i] up to 4. *)
Definition put_ebml_id (pb : ByteIOContext) (id : Z) : ByteIOContext :=
  put_be_bytes (Z.to_nat (ebml_id_size id)) id pb.

(** [for (i = 0; i < n; i++) value |= 1ULL << i] *)
Fixpoint all_ones (n : nat) : Z :=
  match n with
  | O => 0
  | S i => Z.lor (all_ones i) (Z.shiftl 1 (Z.of_nat i))
  end.

Definition put_ebml_size_unknown (pb : ByteIOContext) (bytes : Z)
  : ByteIOContext :=
  let bytes := Z.min bytes 8 in
  let value := all_ones (Z.to_nat (bytes * 7 + 1)) in
  put_be_bytes (Z.to_nat bytes) value pb.

(** [while ((size+1) >> bytes*7) bytes++], with [size1] for the
    [uint64_t] value [size+1].  For [size1] below 2^63 the loop ends
    within nine turns, all of them shifts by less than 64 bits; from
    2^63 on the C loop goes on to a shift by 70 bits and has no
    result, where these ten turns with the mathematical shift give
    10. *)
Fixpoint ebml_size_bytes_loop (fuel : nat) (size1 : Z) (bytes : Z) : Z :=
  match fuel with
  | O => bytes
  | S fuel' =>
      if Z.shiftr size1 (bytes * 7) =? 0 then bytes
      else ebml_size_bytes_loop fuel' size1 (bytes + 1)
  end.

Definition ebml_size_bytes (size : Z) : Z :=
  ebml_size_bytes_loop 10 (u64 (size + 1)) 1.

(** [size] arrives as a [uint64_t].  Defined where [ebml_size_bytes]
    is and, below the all-ones size, for [bytes] of at most 8. *)
Definition put_ebml_size (pb : ByteIOContext) (size : Z) (minbytes : Z)
  : ByteIOContext :=
  let size := u64 size in
  let bytes := Z.max minbytes (ebml_size_bytes size) in
  if 2 ^ 56 - 1 <=? size then put_ebml_size_unknown pb 1
  else
    let size := Z.lor size (u64 (Z.shiftl 1 (bytes * 7))) in
    put_be_bytes (Z.to_nat bytes) size pb.

(** [while (val >> bytes*8) bytes++] on the [uint64_t] [val].  For
    [val] below 2^56 the loop ends within seven turns; from 2^56 on the
    C loop goes on to a shift by 64 bits and has no result, where these
    eight turns give 8. *)
Fixpoint uint_bytes_loop (fuel : nat) (val : Z) (bytes : Z) : Z :=
  match fuel with
  | O => bytes
  | S fuel' =>
      if Z.shiftr val (bytes * 8) =? 0 then bytes
      else uint_bytes_loop fuel' val (bytes + 1)
  end.

Definition uint_bytes (val : Z) : Z := uint_bytes_loop 8 val 1.

Definition put_ebml_uint (pb : ByteIOContext) (elementid : Z) (val : Z)
  : ByteIOContext :=
  let val := u64 val in
  let bytes := uint_bytes val in
  let pb := put_ebml_id pb elementid in
  let pb := put_ebml_size pb bytes 0 in
  put_be_bytes (Z.to_nat bytes) val pb.

(** *** What a writer emits, for the statements *)

(** The file [c] with the bytes [bs] stored from offset [p] on. *)
Definition patch (c : Z -> Z) (p : Z) (bs : list Z) : Z -> Z :=
  fun off =>
    if (p <=? off) && (off <? p + len bs)
    then nth (Z.to_nat (off - p)) bs 0
    else c off.

(** [f] stores the bytes [bs] at the cursor and leaves the cursor
    behind them, whatever the stream; all other bytes of the file stay. *)
Definition emits (f : ByteIOContext -> ByteIOContext) (bs : list Z) : Prop :=
  forall pb,
    pos (f pb) = pos pb + len bs /\
    forall off, content (f pb) off = patch (content pb) (pos pb) bs off.

(** The file of [pb] has the bytes [bs] from offset [p] on. *)
Definition holds (pb : ByteIOContext) (p : Z) (bs : list Z) : Prop :=
  forall i, 0 <= i < len bs -> content pb (p + i) = nth (Z.to_nat i) bs 0.

(** *** The bytes of the elements, for the statements

    The widths are given by the ranges of the values, not by the
    functions of the code, so that a statement compares what the code
    writes with bytes that do not depend on it. *)

(** The bytes an identifier takes: an identifier of the class of [n]
    bytes lies from [2^(7n)] to [2^(7n+1) - 2]; the reserved one with
    all bits set counts for the next class. *)
Definition ebml_id_width (id : Z) : Z :=
  if u32 (id + 1) <? 2 ^ 8 then 1 else if u32 (id + 1) <? 2 ^ 15 then 2
  else if u32 (id + 1) <? 2 ^ 22 then 3 else if u32 (id + 1) <? 2 ^ 29 then 4
  else 5.

(** The fewest bytes, at least one, that hold the unsigned [v]. *)
Definition uint_width (v : Z) : Z :=
  if v <? 2 ^ 8 then 1 else if v <? 2 ^ 16 then 2
  else if v <? 2 ^ 24 then 3 else if v <? 2 ^ 32 then 4
  else if v <? 2 ^ 40 then 5 else if v <? 2 ^ 48 then 6
  else if v <? 2 ^ 56 then 7 else 8.

(** The fewest bytes whose 7-bit groups hold [size] without being all
    ones. *)
Definition ebml_size_width (size : Z) : Z :=
  if size + 1 <? 2 ^ 7 then 1 else if size + 1 <? 2 ^ 14 then 2
  else if size + 1 <? 2 ^ 21 then 3 else if size + 1 <? 2 ^ 28 then 4
  else if size + 1 <? 2 ^ 35 then 5 else if size + 1 <? 2 ^ 42 then 6
  else if size + 1 <? 2 ^ 49 then 7 else 8.

Definition ebml_id_bytes (id : Z) : list Z :=
  be_bytes (Z.to_nat (ebml_id_width id)) id.

(** An unsigned integer element: identifier, one size byte, and the
    value on the fewest bytes that hold it. *)
Definition ebml_uint_bytes (elementid : Z) (val : Z) : list Z :=
  ebml_id_bytes elementid ++
  [0x80 + uint_width (u64 val)] ++
  be_bytes (Z.to_nat (uint_width (u64 val))) (u64 val).

(** A value [put_ebml_uint] is defined for: below 2^56 and not
    negative. *)
Definition uint_okb (val : Z) : bool := (0 <=? val) && (val <? 2 ^ 56).

(** A master element, closed: identifier, the length of the body on 8
    bytes with the marker bit, and the body. *)
Definition ebml_master_bytes (elementid : Z) (body : list Z) : list Z :=
  ebml_id_bytes elementid ++ be_bytes 8 (2 ^ 56 + len body) ++ body.

Section Muxer.

Variable ids : matroska_ids.

(** The bits of the [double] nearest to an integer ([av_dbl2int] of the
    converted value); floating point is not modelled. *)
Variable dbl_bits : Z -> Z.

(** The digest [av_md5_final] writes for the bytes fed. *)
Variable md5_digest : list Z -> list Z.

Definition put_ebml_float (pb : ByteIOContext) (elementid : Z) (val : Z)
  : ByteIOContext :=
  let pb := put_ebml_id pb elementid in
  let pb := put_ebml_size pb 8 0 in
  put_be64 pb (dbl_bits val).

Definition put_ebml_binary (pb : ByteIOContext) (elementid : Z)
  (buf : list Z) : ByteIOContext :=
  let pb := put_ebml_id pb elementid in
  let pb := put_ebml_size pb (len buf) 0 in
  put_buffer pb buf.

(** [size] arrives as a [uint64_t]; the sought offset is an [offset_t]. *)
Definition put_ebml_void (pb : ByteIOContext) (size : Z) : ByteIOContext :=
  let size := u64 size in
  let currentpos := url_ftell pb in
  if size <? 2 then pb
  else
    let pb := put_ebml_id pb (EBML_ID_VOID ids) in
    let pb := if size <? 10 then put_ebml_size pb (size - 1) 0
              else put_ebml_size pb (size - 9) 8 in
    url_fseek pb (s64 (currentpos + size)).

Definition start_ebml_master (pb : ByteIOContext) (elementid : Z)
  : Z * ByteIOContext :=
  let pb := put_ebml_id pb elementid in
  let pb := put_ebml_size_unknown pb 8 in
  (url_ftell pb, pb).

Definition end_ebml_master (pb : ByteIOContext) (start : Z) : ByteIOContext :=
  let pos := url_ftell pb in
  let pb := url_fseek pb (start - 8) in
  let pb := put_ebml_size pb (pos - start) 8 in
  url_fseek pb pos.

(** *** SeekHead *)

Definition mkv_start_seekhead (pb : ByteIOContext) (segment_offset : Z)
  (numelements : Z) : mkv_seekhead * ByteIOContext :=
  if 0 <? numelements then
    let reserved := s32 (numelements * 28 + 13) in
    (mkSeekhead (url_ftell pb) segment_offset reserved numelements [],
     put_ebml_void pb reserved)
  else (mkSeekhead 0 segment_offset 0 0 [], pb).

Definition num_entries (seekhead : mkv_seekhead) : Z :=
  len (sh_entries seekhead).

Definition mkv_add_seekhead_entry (seekhead : mkv_seekhead) (elementid : Z)
  (filepos : Z) : Z * mkv_seekhead :=
  if (0 <? max_entries seekhead)
     && (max_entries seekhead <=? num_entries seekhead)
  then (-1, seekhead)
  else
    (0, mkSeekhead (Mkv.filepos seekhead) (sh_segment_offset seekhead)
          (reserved_size seekhead) (max_entries seekhead)
          (sh_entries seekhead ++
           [mkSeekEntry elementid
              (u64 (filepos - sh_segment_offset seekhead))])).

Definition write_seek_entry (pb : ByteIOContext) (entry : mkv_seekhead_entry)
  : ByteIOContext :=
  let '(seekentry, pb) := start_ebml_master pb (MATROSKA_ID_SEEKENTRY ids) in
  let pb := put_ebml_id pb (MATROSKA_ID_SEEKID ids) in
  let pb := put_ebml_size pb (ebml_id_size (elementid entry)) 0 in
  let pb := put_ebml_id pb (elementid entry) in
  let pb := put_ebml_uint pb (MATROSKA_ID_SEEKPOSITION ids) (segmentpos entry) in
  end_ebml_master pb seekentry.

(** [mkv_write_seekhead] up to the point where it moves the cursor
    back: the seek to the reserved place, the SeekHead element and the
    Void behind it. *)
Definition write_seekhead_elements (pb : ByteIOContext)
  (seekhead : mkv_seekhead) : ByteIOContext :=
  let pb := if 0 <? reserved_size seekhead
            then url_fseek pb (filepos seekhead) else pb in
  let '(metaseek, pb) := start_ebml_master pb (MATROSKA_ID_SEEKHEAD ids) in
  let pb := fold_left write_seek_entry (sh_entries seekhead) pb in
  let pb := end_ebml_master pb metaseek in
  if 0 <? reserved_size seekhead then
    let remaining :=
      u64 (filepos seekhead + reserved_size seekhead - url_ftell pb) in
    put_ebml_void pb remaining
  else pb.

Definition mkv_write_seekhead (pb : ByteIOContext) (seekhead : mkv_seekhead)
  : Z * ByteIOContext :=
  let currentpos := url_ftell pb in
  let pb := write_seekhead_elements pb seekhead in
  if 0 <? reserved_size seekhead
  then (filepos seekhead, url_fseek pb currentpos)
  else (currentpos, pb).

(** *** The SeekHead element, for the statements *)

(** A Seek entry: the SeekID with the identifier of the element and
    the SeekPosition with its position in the Segment. *)
Definition seek_entry_bytes (e : mkv_seekhead_entry) : list Z :=
  ebml_master_bytes (MATROSKA_ID_SEEKENTRY ids)
    (ebml_id_bytes (MATROSKA_ID_SEEKID ids) ++
     [0x80 + ebml_id_width (elementid e)] ++
     ebml_id_bytes (elementid e) ++
     ebml_uint_bytes (MATROSKA_ID_SEEKPOSITION ids) (segmentpos e)).

Definition seekhead_bytes (entries : list mkv_seekhead_entry) : list Z :=
  ebml_master_bytes (MATROSKA_ID_SEEKHEAD ids)
    (concat (map seek_entry_bytes entries)).

(** An entry [mkv_write_seekhead] is defined for: an identifier of at
    most 4 bytes and a position [put_ebml_uint] is defined for. *)
Definition seek_entry_okb (e : mkv_seekhead_entry) : bool :=
  (ebml_id_width (elementid e) <=? 4) && uint_okb (segmentpos e).

(** The head of a Void element that takes [size] bytes in all: the
    identifier and the size of what follows, on one byte or on eight. *)
Definition void_header_bytes (size : Z) : list Z :=
  ebml_id_bytes (EBML_ID_VOID ids) ++
  (if size <? 10 then [0x80 + (size - 1)]
   else be_bytes 8 (2 ^ 56 + (size - 9))).

(** *** Cues *)

Definition mkv_start_cues (segment_offset : Z) : mkv_cues :=
  mkCues segment_offset [].

(** The cue for a packet of the muxer; [pts] is stored as a [uint64_t],
    [tracknum] as an [int]. *)
Definition mkv_add_cuepoint (cues : mkv_cues) (pkt : AVPacket)
  (cluster_pos : Z) : Z * mkv_cues :=
  (0, mkCues (cues_segment_offset cues)
        (cues_entries cues ++
         [mkCuepoint (u64 (pkt_pts pkt)) (stream_index pkt + 1)
            (cluster_pos - cues_segment_offset cues)])).

Definition write_track_position (pb : ByteIOContext) (entry : mkv_cuepoint)
  : ByteIOContext :=
  let '(track_positions, pb) :=
    start_ebml_master pb (MATROSKA_ID_CUETRACKPOSITION ids) in
  let pb := put_ebml_uint pb (MATROSKA_ID_CUETRACK ids) (tracknum entry) in
  let pb := put_ebml_uint pb (MATROSKA_ID_CUECLUSTERPOSITION ids)
              (cue_cluster_pos entry) in
  end_ebml_master pb track_positions.

(** The inner loop
    [for (j = 0; j < num_entries - i && entry[j].pts == pts; j++)] over
    the entries from [entry] on: the stream and the final [j]. *)
Fixpoint write_track_positions (pb : ByteIOContext)
  (entry : list mkv_cuepoint) (pts : Z) (j : Z) : ByteIOContext * Z :=
  match entry with
  | [] => (pb, j)
  | e :: rest =>
      if cue_pts e =? pts
      then write_track_positions (write_track_position pb e) rest pts (j + 1)
      else (pb, j)
  end.

(** The outer loop [for (i = 0; i < num_entries; i++)], whose body
    moves [i] on by [j - 1]; [fuel] bounds its turns. *)
Fixpoint write_cuepoints (fuel : nat) (pb : ByteIOContext)
  (entries : list mkv_cuepoint) (i : Z) : ByteIOContext :=
  match fuel with
  | O => pb
  | S fuel' =>
      if i <? len entries then
        let entry := skipn (Z.to_nat i) entries in
        let pts := cue_pts (nth 0 entry (mkCuepoint 0 0 0)) in
        let '(cuepoint, pb) := start_ebml_master pb (MATROSKA_ID_POINTENTRY ids) in
        let pb := put_ebml_uint pb (MATROSKA_ID_CUETIME ids) pts in
        let '(pb, j) := write_track_positions pb entry pts 0 in
        let i := i + (j - 1) in
        let pb := end_ebml_master pb cuepoint in
        write_cuepoints fuel' pb entries (i + 1)
      else pb
  end.

Definition mkv_write_cues (pb : ByteIOContext) (cues : mkv_cues)
  : Z * ByteIOContext :=
  let currentpos := url_ftell pb in
  let '(cues_element, pb) := start_ebml_master pb (MATROSKA_ID_CUES ids) in
  let pb := write_cuepoints (List.length (cues_entries cues)) pb
              (cues_entries cues) 0 in
  let pb := end_ebml_master pb cues_element in
  (currentpos, pb).

(** *** The Cues element, for the statements *)

(** The entries cut into maximal runs of adjacent entries with the same
    [pts], in their order. *)
Fixpoint pts_runs (l : list mkv_cuepoint) : list (list mkv_cuepoint) :=
  match l with
  | [] => []
  | e :: rest =>
      match pts_runs rest with
      | (e' :: run) :: runs =>
          if cue_pts e =? cue_pts e'
          then (e :: e' :: run) :: runs
          else [e] :: (e' :: run) :: runs
      | _ => [[e]]
      end
  end.

Definition run_pts (run : list mkv_cuepoint) : Z :=
  cue_pts (nth 0 run (mkCuepoint 0 0 0)).

(** Every run is non-empty and of one [pts]. *)
Definition run_uniform (run : list mkv_cuepoint) : Prop :=
  run <> [] /\ forall e, In e run -> cue_pts e = run_pts run.

(** Runs that follow each other differ in [pts]. *)
Fixpoint runs_distinct (runs : list (list mkv_cuepoint)) : Prop :=
  match runs with
  | r1 :: ((r2 :: _) as rest) => run_pts r1 <> run_pts r2 /\ runs_distinct rest
  | _ => True
  end.

(** A CueTrackPosition with the track number and the cluster position
    of an entry. *)
Definition track_position_bytes (e : mkv_cuepoint) : list Z :=
  ebml_master_bytes (MATROSKA_ID_CUETRACKPOSITION ids)
    (ebml_uint_bytes (MATROSKA_ID_CUETRACK ids) (tracknum e) ++
     ebml_uint_bytes (MATROSKA_ID_CUECLUSTERPOSITION ids) (cue_cluster_pos e)).

(** A CuePoint for a run: the CueTime and one CueTrackPosition for
    every entry of the run, in order. *)
Definition cuepoint_bytes (run : list mkv_cuepoint) : list Z :=
  ebml_master_bytes (MATROSKA_ID_POINTENTRY ids)
    (ebml_uint_bytes (MATROSKA_ID_CUETIME ids) (run_pts run) ++
     concat (map track_position_bytes run)).

(** The Cues element: one CuePoint for every run. *)
Definition cues_bytes (entries : list mkv_cuepoint) : list Z :=
  ebml_master_bytes (MATROSKA_ID_CUES ids)
    (concat (map cuepoint_bytes (pts_runs entries))).

(** An entry [mkv_write_cues] is defined for: its three numbers go to
    [put_ebml_uint]; [tracknum] is an [int]. *)
Definition cue_okb (e : mkv_cuepoint) : bool :=
  uint_okb (cue_pts e) &&
  (0 <=? tracknum e) && (tracknum e <? 2 ^ 31) &&
  uint_okb (cue_cluster_pos e).

(** *** Packets and the trailer *)

Definition mkv_write_block (mkv : MatroskaMuxContext) (pb : ByteIOContext)
  (blockid : Z) (pkt : AVPacket) (flags : Z) : ByteIOContext :=
  let pb := put_ebml_id pb blockid in
  let pb := put_ebml_size pb (pkt_size pkt + 4) 0 in
  let pb := put_byte pb (Z.lor 0x80 (stream_index pkt + 1)) in
  let pb := put_be16 pb (pkt_pts pkt - cluster_pts mkv) in
  let pb := put_byte pb flags in
  put_buffer pb (pkt_data pkt).

Definition set_cluster_seekhead (mkv : MatroskaMuxContext) (sh : mkv_seekhead)
  : MatroskaMuxContext :=
  mkMux (segment mkv) (segment_offset mkv) (segment_uid mkv) (cluster mkv)
    (cluster_pos mkv) (cluster_pts mkv) (duration_offset mkv) (duration mkv)
    (main_seekhead mkv) sh (cues mkv) (md5_ctx mkv).

Definition set_main_seekhead (mkv : MatroskaMuxContext) (sh : mkv_seekhead)
  : MatroskaMuxContext :=
  mkMux (segment mkv) (segment_offset mkv) (segment_uid mkv) (cluster mkv)
    (cluster_pos mkv) (cluster_pts mkv) (duration_offset mkv) (duration mkv)
    sh (cluster_seekhead mkv) (cues mkv) (md5_ctx mkv).

Definition set_cluster (mkv : MatroskaMuxContext)
  (cluster_pos' cluster' cluster_pts' : Z) (md5' : list Z)
  : MatroskaMuxContext :=
  mkMux (segment mkv) (segment_offset mkv) (segment_uid mkv) cluster'
    cluster_pos' cluster_pts' (duration_offset mkv) (duration mkv)
    (main_seekhead mkv) (cluster_seekhead mkv) (cues mkv) md5'.

Definition set_cues (mkv : MatroskaMuxContext) (c : mkv_cues)
  : MatroskaMuxContext :=
  mkMux (segment mkv) (segment_offset mkv) (segment_uid mkv) (cluster mkv)
    (cluster_pos mkv) (cluster_pts mkv) (duration_offset mkv) (duration mkv)
    (main_seekhead mkv) (cluster_seekhead mkv) c (md5_ctx mkv).

Definition set_duration (mkv : MatroskaMuxContext) (d : Z)
  : MatroskaMuxContext :=
  mkMux (segment mkv) (segment_offset mkv) (segment_uid mkv) (cluster mkv)
    (cluster_pos mkv) (cluster_pts mkv) (duration_offset mkv) d
    (main_seekhead mkv) (cluster_seekhead mkv) (cues mkv) (md5_ctx mkv).

(** The test [url_ftell(pb) > mkv->cluster + 5*1024*1024 ||
    pkt->pts > mkv->cluster_pts + 5000]; the second comparison is made
    on [uint64_t] values. *)
Definition cluster_due (mkv : MatroskaMuxContext) (pb : ByteIOContext)
  (pkt : AVPacket) : bool :=
  (cluster mkv + 5 * 1024 * 1024 <? url_ftell pb)
  || (u64 (cluster_pts mkv + 5000) <? u64 (pkt_pts pkt)).

(** The first part of [mkv_write_packet]: the return value when it
    returns there, the context and the stream. *)
Definition start_new_cluster (mkv : MatroskaMuxContext) (pb : ByteIOContext)
  (pkt : AVPacket) : option Z * MatroskaMuxContext * ByteIOContext :=
  let pb := end_ebml_master pb (cluster mkv) in
  let '(r, sh) := mkv_add_seekhead_entry (cluster_seekhead mkv)
                    (MATROSKA_ID_CLUSTER ids) (url_ftell pb) in
  let mkv := set_cluster_seekhead mkv sh in
  if r <? 0 then (Some (-1), mkv, pb)
  else
    let cluster_pos' := url_ftell pb in
    let '(cluster', pb) := start_ebml_master pb (MATROSKA_ID_CLUSTER ids) in
    let pb := put_ebml_uint pb (MATROSKA_ID_CLUSTERTIMECODE ids) (pkt_pts pkt) in
    let md5' := md5_ctx mkv ++
                firstn (Z.to_nat (Z.min 200 (pkt_size pkt))) (pkt_data pkt) in
    (None, set_cluster mkv cluster_pos' cluster' (u64 (pkt_pts pkt)) md5', pb).

Definition mkv_write_packet (streams : list AVStream)
  (mkv : MatroskaMuxContext) (pb : ByteIOContext) (pkt : AVPacket)
  : exec (Z * MatroskaMuxContext * ByteIOContext) :=
  match nth_error streams (Z.to_nat (stream_index pkt)) with
  | None => Fault
  | Some st =>
      if stream_index pkt <? 0 then Fault
      else
        let codec := codec_type st in
        let '(ret, mkv, pb) :=
          if cluster_due mkv pb pkt then start_new_cluster mkv pb pkt
          else (None, mkv, pb) in
        match ret with
        | Some r => Done (r, mkv, pb)
        | None =>
            let pb :=
              match codec with
              | CODEC_TYPE_SUBTITLE =>
                  let '(blockgroup, pb) :=
                    start_ebml_master pb (MATROSKA_ID_BLOCKGROUP ids) in
                  let pb := mkv_write_block mkv pb (MATROSKA_ID_BLOCK ids) pkt 0 in
                  let pb := put_ebml_uint pb (MATROSKA_ID_DURATION ids)
                              (pkt_duration pkt) in
                  end_ebml_master pb blockgroup
              | _ =>
                  mkv_write_block mkv pb (MATROSKA_ID_SIMPLEBLOCK ids) pkt
                    (Z.shiftl (if keyframe pkt then 1 else 0) 7)
              end in
            let mkv :=
              match codec with
              | CODEC_TYPE_VIDEO =>
                  if keyframe pkt
                  then set_cues mkv
                         (snd (mkv_add_cuepoint (cues mkv) pkt (cluster_pos mkv)))
                  else mkv
              | _ => mkv
              end in
            Done (0, set_duration mkv (u64 (pkt_pts pkt + pkt_duration pkt)), pb)
        end
  end.

(** The packet is for one of the streams. *)
Definition stream_okb (streams : list AVStream) (pkt : AVPacket) : bool :=
  (0 <=? stream_index pkt) && (stream_index pkt <? len streams).

(** A packet [mkv_write_packet] is defined for.  Its [pts] goes to
    [put_ebml_uint] when it opens a Cluster and its [duration] when it
    is a subtitle; [size + 4] is computed on [int]. *)
Definition packet_okb (pkt : AVPacket) : bool :=
  uint_okb (pkt_pts pkt) &&
  (0 <=? pkt_duration pkt) && (pkt_duration pkt <? 2 ^ 31) &&
  (pkt_size pkt <=? 2 ^ 31 - 5).

(** The current Cluster was opened before the cursor, so that
    [end_ebml_master] finds a size that is not negative; the file and
    the two arrays the packets add to are far from the ends of their
    index types. *)
Definition cluster_okb (mkv : MatroskaMuxContext) (pb : ByteIOContext)
  : bool :=
  (8 <=? cluster mkv) && (cluster mkv <=? pos pb) && (pos pb <? 2 ^ 54) &&
  (num_entries (cluster_seekhead mkv) <? 2 ^ 30) &&
  (len (cues_entries (cues mkv)) <? 2 ^ 30).

(** Where a packet ends: [pts + duration] as the [uint64_t] the muxer
    stores. *)
Definition packet_end (pkt : AVPacket) : Z :=
  u64 (pkt_pts pkt + pkt_duration pkt).

(** The greatest end over the packets, the value a running maximum
    would hold after them. *)
Definition max_packet_end (pkts : list AVPacket) : Z :=
  fold_right (fun pkt m => Z.max (packet_end pkt) m) 0 pkts.

(** Packets written one after the other, as long as each returns 0. *)
Fixpoint mkv_write_packets (streams : list AVStream)
  (mkv : MatroskaMuxContext) (pb : ByteIOContext) (pkts : list AVPacket)
  : exec (Z * MatroskaMuxContext * ByteIOContext) :=
  match pkts with
  | [] => Done (0, mkv, pb)
  | pkt :: rest =>
      match mkv_write_packet streams mkv pb pkt with
      | Fault => Fault
      | Done (r, mkv', pb') =>
          if r <? 0 then Done (r, mkv', pb')
          else mkv_write_packets streams mkv' pb' rest
      end
  end.

Definition mkv_write_trailer (streams : list AVStream)
  (mkv : MatroskaMuxContext) (pb : ByteIOContext)
  : exec (Z * MatroskaMuxContext * ByteIOContext) :=
  match streams with
  | [] => Fault
  | st0 :: _ =>
      let pb := end_ebml_master pb (cluster mkv) in
      let '(cuespos, pb) := mkv_write_cues pb (cues mkv) in
      let '(second_seekhead, pb) := mkv_write_seekhead pb (cluster_seekhead mkv) in
      let '(_, sh) := mkv_add_seekhead_entry (main_seekhead mkv)
                        (MATROSKA_ID_CUES ids) cuespos in
      let '(_, sh) := mkv_add_seekhead_entry sh
                        (MATROSKA_ID_SEEKHEAD ids) second_seekhead in
      let mkv := set_main_seekhead mkv sh in
      let '(_, pb) := mkv_write_seekhead pb sh in
      let currentpos := url_ftell pb in
      let pb := url_fseek pb (duration_offset mkv) in
      let pb := put_ebml_float pb (MATROSKA_ID_DURATION ids) (duration mkv) in
      let pb :=
        if bitexact st0 then pb
        else
          let pb := url_fseek pb (segment_uid mkv) in
          put_ebml_binary pb (MATROSKA_ID_SEGMENTUID ids)
            (firstn 16 (md5_digest (md5_ctx mkv))) in
      let pb := url_fseek pb currentpos in
      let pb := end_ebml_master pb (segment mkv) in
      Done (0, mkv, pb)
  end.

(** *** A context the muxer is defined for, for the statements *)

(** The identifiers have at most 4 bytes, those of the Seek entries at
    most 2 and that of Void 1, as in Matroska: with them an entry takes
    at most 27 bytes of the 28 reserved for it. *)
Definition ids_okb : bool :=
  forallb (fun id => ebml_id_width id <=? 4)
    [MATROSKA_ID_SEEKHEAD ids; MATROSKA_ID_CUES ids;
     MATROSKA_ID_POINTENTRY ids; MATROSKA_ID_CUETIME ids;
     MATROSKA_ID_CUETRACKPOSITION ids; MATROSKA_ID_CUETRACK ids;
     MATROSKA_ID_CUECLUSTERPOSITION ids; MATROSKA_ID_CLUSTER ids;
     MATROSKA_ID_CLUSTERTIMECODE ids; MATROSKA_ID_SIMPLEBLOCK ids;
     MATROSKA_ID_BLOCKGROUP ids; MATROSKA_ID_BLOCK ids;
     MATROSKA_ID_DURATION ids; MATROSKA_ID_SEGMENTUID ids] &&
  forallb (fun id => ebml_id_width id <=? 2)
    [MATROSKA_ID_SEEKENTRY ids; MATROSKA_ID_SEEKID ids;
     MATROSKA_ID_SEEKPOSITION ids] &&
  (ebml_id_width (EBML_ID_VOID ids) =? 1).

(** A SeekHead of the Segment of [mkv] whose entries can be written. *)
Definition seekhead_okb (seekhead : mkv_seekhead) (mkv : MatroskaMuxContext)
  : bool :=
  forallb seek_entry_okb (sh_entries seekhead) &&
  (sh_segment_offset seekhead =? segment_offset mkv) &&
  (num_entries seekhead <? 2 ^ 30).

(** A context as [mkv_write_header] and packets leave it, with the
    stream: the Segment, the two SeekHeads, the current Cluster and the
    cursor follow each other in the file, the main SeekHead has its
    reservation of [28 k + 13] bytes and at most [k] entries, the
    cluster SeekHead has none, and all that is stored for the Cues and
    the SeekHeads can be written. *)
Definition mux_okb (mkv : MatroskaMuxContext) (pb : ByteIOContext) : bool :=
  ids_okb &&
  (8 <=? segment mkv) && (segment mkv <=? segment_offset mkv) &&
  (segment_offset mkv <=? cluster_pos mkv) &&
  (cluster_pos mkv <=? cluster mkv) &&
  cluster_okb mkv pb &&
  (cues_segment_offset (cues mkv) =? segment_offset mkv) &&
  forallb cue_okb (cues_entries (cues mkv)) &&
  (max_entries (cluster_seekhead mkv) =? 0) &&
  (reserved_size (cluster_seekhead mkv) =? 0) &&
  seekhead_okb (cluster_seekhead mkv) mkv &&
  (0 <? max_entries (main_seekhead mkv)) &&
  (max_entries (main_seekhead mkv) <? 2 ^ 24) &&
  (reserved_size (main_seekhead mkv)
   =? max_entries (main_seekhead mkv) * 28 + 13) &&
  (num_entries (main_seekhead mkv) <=? max_entries (main_seekhead mkv)) &&
  (0 <=? filepos (main_seekhead mkv)) &&
  (filepos (main_seekhead mkv) + reserved_size (main_seekhead mkv)
   <=? pos pb) &&
  seekhead_okb (main_seekhead mkv) mkv.

End Muxer.

(** *** Reading a size back, for the statements

    An EBML size of [n] bytes carries its width in the first byte:
    [n - 1] zero bits and the marker bit 1, that is a first byte from
    [2^(8-n)] up to [2^(9-n) - 1]; the value is what remains of the [n]
    bytes when the marker bit is cleared. *)
Definition ebml_size_decode (bs : list Z) : option Z :=
  match bs with
  | [] => None
  | b0 :: _ =>
      if (0 <? b0) && (len bs =? 8 - Z.log2 b0)
      then Some (be_value bs - 2 ^ (7 * len bs))
      else None
  end.

(** *** AAC sample rates *)

Definition aac_sample_rates : list Z :=
  [96000; 88200; 64000; 48000; 44100; 32000;
   24000; 22050; 16000; 12000; 11025; 8000].

(** [aac_sample_rates[sri]]: a fault when the index leaves the array. *)
Definition aac_sample_rate_at (sri : Z) : exec Z :=
  match nth_error aac_sample_rates (Z.to_nat sri) with
  | Some r => if sri <? 0 then Fault else Done r
  | None => Fault
  end.

(** [extradata_size] is the length of [extradata]; the two outputs
    enter with the values the caller initialised them to. *)
Definition get_aac_sample_rates (extradata : list Z)
  (sample_rate output_sample_rate : Z) : exec (Z * Z) :=
  if len extradata <? 2 then Done (sample_rate, output_sample_rate)
  else
    let sri := Z.lor (Z.land (Z.shiftl (nth 0 extradata 0) 1) 0xE)
                     (Z.shiftr (nth 1 extradata 0) 7) in
    if 12 <? sri then Done (sample_rate, output_sample_rate)
    else
      match aac_sample_rate_at sri with
      | Fault => Fault
      | Done rate =>
          if len extradata =? 5 then
            let sri := Z.land (Z.shiftr (nth 4 extradata 0) 3) 0xF in
            if 12 <? sri then Done (rate, output_sample_rate)
            else
              match aac_sample_rate_at sri with
              | Fault => Fault
              | Done out_rate => Done (rate, out_rate)
              end
          else Done (rate, output_sample_rate)
      end.

(** *** Reading identifiers and elements back, for the statements *)

(** An EBML identifier of [n] bytes carries its width like a size does,
    but keeps the marker bit in its value. *)
Definition ebml_id_decode (bs : list Z) : option Z :=
  match bs with
  | [] => None
  | b0 :: _ =>
      if (0 <? b0) && (len bs =? 8 - Z.log2 b0)
      then Some (be_value bs)
      else None
  end.

(** The size field of [n] bytes that stands for an unknown size: the
    marker bit and all data bits set. *)
Definition ebml_unknown_bytes (n : Z) : list Z :=
  be_bytes (Z.to_nat n) (2 ^ (7 * n + 1) - 1).

(** The bytes an element takes in the file, as a reader finds them from
    its head: the identifier of [idlen] bytes, the size field, and as
    many bytes of content as the size field says. *)
Definition element_extent (idlen : Z) (size_field : list Z) : option Z :=
  match ebml_size_decode size_field with
  | Some content => Some (idlen + len size_field + content)
  | None => None
  end.

(** Entries added one after the other: the return values and the
    SeekHead. *)
Fixpoint mkv_add_seekhead_entries (seekhead : mkv_seekhead)
  (adds : list (Z * Z)) : list Z * mkv_seekhead :=
  match adds with
  | [] => ([], seekhead)
  | (elementid, filepos) :: rest =>
      let '(r, seekhead) := mkv_add_seekhead_entry seekhead elementid filepos in
      let '(rs, seekhead) := mkv_add_seekhead_entries seekhead rest in
      (r :: rs, seekhead)
  end.

(** The number of entries a SeekHead still takes, of [n] offered: what
    is left of [max_entries], or all of them when it was started for
    any number (0). *)
Definition seekhead_room (seekhead : mkv_seekhead) (n : nat) : nat :=
  if 0 <? max_entries seekhead
  then Z.to_nat (max_entries seekhead - num_entries seekhead)
  else n.

(** The entry [mkv_add_seekhead_entry] makes of an identifier and a
    file position. *)
Definition seekhead_entry_of (seekhead : mkv_seekhead) (add : Z * Z)
  : mkv_seekhead_entry :=
  mkSeekEntry (fst add) (u64 (snd add - sh_segment_offset seekhead)).

(** *** The bytes of a packet, for the statements *)

(** A size field on the fewest bytes. *)
Definition ebml_size_field (size : Z) : list Z :=
  be_bytes (Z.to_nat (ebml_size_width size))
    (size + 2 ^ (7 * ebml_size_width size)).



Section PacketBytes.

Variable ids : matroska_ids.


End PacketBytes.

(** The packets that get a cue: key frames of video streams. *)
Definition is_cue_packet (streams : list AVStream) (pkt : AVPacket) : bool :=
  match nth_error streams (Z.to_nat (stream_index pkt)) with
  | Some st =>
      match codec_type st with
      | CODEC_TYPE_VIDEO => keyframe pkt
      | _ => false
      end
  | None => false
  end.

(** The time and the track number of the cue of a packet. *)
Definition cue_key (pkt : AVPacket) : Z * Z :=
  (u64 (pkt_pts pkt), stream_index pkt + 1).

(** *** Codec private data *)

(** The loop [for (i = 0; i < size / 255; i++) put_byte(pb, 255)]. *)
Fixpoint put_xiph_size_loop (n : nat) (pb : ByteIOContext) : ByteIOContext :=
  match n with
  | O => pb
  | S n' => put_xiph_size_loop n' (put_byte pb 255)
  end.

(** [size] is an [int]; the division and the remainder are C's. *)
Definition put_xiph_size (pb : ByteIOContext) (size : Z) : ByteIOContext :=
  let pb := put_xiph_size_loop (Z.to_nat (Z.quot size 255)) pb in
  put_byte pb (Z.rem size 255).

(** Reading a Xiph-laced size back, for the statements: the bytes are
    added up to the first one below 255; the size and what follows. *)
Fixpoint xiph_size_decode (bs : list Z) : option (Z * list Z) :=
  match bs with
  | [] => None
  | b :: rest =>
      if b <? 255 then Some (b, rest)
      else
        match xiph_size_decode rest with
        | Some (s, rest') => Some (b + s, rest')
        | None => None
        end
  end.

Definition FLAC_STREAMINFO_SIZE : Z := 34.

Section CodecPrivate.

(** The identifier of matroska.h for the CodecPrivate element. *)
Variable MATROSKA_ID_CODECPRIVATE : Z.

(** Modelled from the spec: [ff_split_xiph_headers] of xiph.h splits
    the extradata into the three Xiph headers, given the size of the
    first, or fails; the headers it finds are the three byte strings
    [header_start[j]] of [header_len[j]] bytes. *)
Variable ff_split_xiph_headers :
  list Z -> Z -> option (list Z * list Z * list Z).

(** [vorbis] says whether [codec_id] is [CODEC_ID_VORBIS]. *)
Definition put_xiph_codecpriv (pb : ByteIOContext) (vorbis : bool)
  (extradata : list Z) : Z * ByteIOContext :=
  let first_header_size := if vorbis then 30 else 42 in
  match ff_split_xiph_headers extradata first_header_size with
  | None => (-1, pb)
  | Some (h0, h1, h2) =>
      let '(codecprivate, pb) := start_ebml_master pb MATROSKA_ID_CODECPRIVATE in
      let pb := put_byte pb 2 in
      let pb := put_xiph_size pb (len h0) in
      let pb := put_xiph_size pb (len h1) in
      let pb := put_buffer pb h0 in
      let pb := put_buffer pb h1 in
      let pb := put_buffer pb h2 in
      (0, end_ebml_master pb codecprivate)
  end.

(** [extradata_size] is the length of [extradata]. *)
Definition put_flac_codecpriv (pb : ByteIOContext) (extradata : list Z)
  : Z * ByteIOContext :=
  let '(codecpriv, pb) := start_ebml_master pb MATROSKA_ID_CODECPRIVATE in
  if len extradata <? FLAC_STREAMINFO_SIZE then (-1, pb)
  else
    let pb :=
      if len extradata =? FLAC_STREAMINFO_SIZE
      then put_xiph_size (put_byte pb 0) (len extradata)
      else pb in
    let pb := put_buffer pb extradata in
    (0, end_ebml_master pb codecpriv).

End CodecPrivate.

(** The first two bytes of an AAC AudioSpecificConfig, for the
    statements: 5 bits of object type, 4 bits of sampling frequency
    index, 4 bits of channel configuration, 3 bits left at 0. *)
Definition aac_config (object_type sri channels : Z) : list Z :=
  [Z.lor (Z.shiftl object_type 3) (Z.shiftr sri 1);
   Z.lor (Z.shiftl (Z.land sri 1) 7) (Z.shiftl channels 3)].

(** *** Tracks and the header *)

(** The codec context and the stream with the fields that
    [mkv_write_tracks] and [mkv_write_header] read or set; [AVStream]
    above holds the two of them that the packet writer and the trailer
    read.  Strings are their characters, without the final NUL. *)
Record AVCodecContext := mkCodec {
  cc_codec_type : CodecType;
  cc_codec_id : Z;
  cc_codec_tag : Z;
  cc_extradata : list Z;
  cc_sample_rate : Z;
  cc_channels : Z;
  cc_width : Z;
  cc_height : Z;
  cc_sample_aspect_ratio : Z * Z;
  cc_bitexact : bool
}.

Record MuxStream := mkMuxStream {
  ms_codec : AVCodecContext;
  ms_language : list Z;
  ms_time_base : Z * Z
}.

Definition stream_of (st : MuxStream) : AVStream :=
  mkStream (cc_codec_type (ms_codec st)) (cc_bitexact (ms_codec st)).

Definition set_codec_tag (codec : AVCodecContext) (tag : Z) : AVCodecContext :=
  mkCodec (cc_codec_type codec) (cc_codec_id codec) tag (cc_extradata codec)
    (cc_sample_rate codec) (cc_channels codec) (cc_width codec)
    (cc_height codec) (cc_sample_aspect_ratio codec) (cc_bitexact codec).

(** [av_set_pts_info(st, 64, 1, 1000)] and the codec as it is left. *)
Definition finish_stream (st : MuxStream) (codec : AVCodecContext)
  : MuxStream :=
  mkMuxStream codec (ms_language st) (1, 1000).

(** The identifiers and constants of matroska.h that the header and
    the tracks use, besides those above. *)
Record matroska_header_ids := mkHeaderIds {
  EBML_ID_HEADER : Z;
  EBML_ID_EBMLVERSION : Z;
  EBML_ID_EBMLREADVERSION : Z;
  EBML_ID_EBMLMAXIDLENGTH : Z;
  EBML_ID_EBMLMAXSIZELENGTH : Z;
  EBML_ID_DOCTYPE : Z;
  EBML_ID_DOCTYPEVERSION : Z;
  EBML_ID_DOCTYPEREADVERSION : Z;
  MATROSKA_ID_SEGMENT : Z;
  MATROSKA_ID_INFO : Z;
  MATROSKA_ID_TIMECODESCALE : Z;
  MATROSKA_ID_TITLE : Z;
  MATROSKA_ID_MUXINGAPP : Z;
  MATROSKA_ID_WRITINGAPP : Z;
  MATROSKA_ID_TRACKS : Z;
  MATROSKA_ID_TRACKENTRY : Z;
  MATROSKA_ID_TRACKNUMBER : Z;
  MATROSKA_ID_TRACKUID : Z;
  MATROSKA_ID_TRACKFLAGLACING : Z;
  MATROSKA_ID_TRACKLANGUAGE : Z;
  MATROSKA_ID_CODECID : Z;
  MATROSKA_ID_CODECPRIVATE : Z;
  MATROSKA_ID_TRACKTYPE : Z;
  MATROSKA_ID_TRACKVIDEO : Z;
  MATROSKA_ID_VIDEOPIXELWIDTH : Z;
  MATROSKA_ID_VIDEOPIXELHEIGHT : Z;
  MATROSKA_ID_VIDEODISPLAYWIDTH : Z;
  MATROSKA_ID_VIDEODISPLAYHEIGHT : Z;
  MATROSKA_ID_TRACKAUDIO : Z;
  MATROSKA_ID_AUDIOCHANNELS : Z;
  MATROSKA_ID_AUDIOSAMPLINGFREQ : Z;
  MATROSKA_ID_AUDIOOUTSAMPLINGFREQ : Z;
  MATROSKA_ID_AUDIOBITDEPTH : Z;
  MATROSKA_TRACK_TYPE_VIDEO : Z;
  MATROSKA_TRACK_TYPE_AUDIO : Z;
  MATROSKA_TRACK_TYPE_SUBTITLE : Z;
  MATROSKA_CODEC_ID_VIDEO_VFW_FOURCC : list Z;
  MATROSKA_CODEC_ID_AUDIO_ACM : list Z
}.

(** The codec identifiers of avcodec.h that the muxer names. *)
Record codec_ids := mkCodecIds {
  CODEC_ID_NONE : Z;
  CODEC_ID_AAC : Z;
  CODEC_ID_VORBIS : Z;
  CODEC_ID_THEORA : Z;
  CODEC_ID_FLAC : Z
}.

(** The loop over [ff_mkv_codec_tags], which ends at the entry with
    [CODEC_ID_NONE]: the string of the first entry for [codec_id]
    before it, if there is one.  A table without the final entry is
    left at its end. *)
Fixpoint mkv_codec_tag_lookup (none : Z) (tags : list (Z * list Z))
  (codec_id : Z) : exec (option (list Z)) :=
  match tags with
  | [] => Fault
  | (id, str) :: rest =>
      if id =? none then Done None
      else if id =? codec_id then Done (Some str)
      else mkv_codec_tag_lookup none rest codec_id
  end.

Section Header.

Variable ids : matroska_ids.
Variable hids : matroska_header_ids.
Variable cids : codec_ids.
Variable dbl_bits : Z -> Z.

(** Modelled from the spec: the codec-id registry and the helpers of
    riff.h, xiph.h and utils.c are collaborators outside the two
    translation units.  [ff_mkv_codec_tags] is the table of Matroska
    codec-ID strings; [codec_get_bmp_tag] and [codec_get_wav_tag] are
    [codec_get_tag] on [codec_bmp_tags] and [codec_wav_tags];
    [put_bmp_header] and [put_wav_header] write a BITMAPINFOHEADER and a
    WAVEFORMATEX for a codec. *)
Variable ff_mkv_codec_tags : list (Z * list Z).
Variable av_get_bits_per_sample : Z -> Z.
Variable codec_get_bmp_tag : Z -> Z.
Variable codec_get_wav_tag : Z -> Z.
Variable put_bmp_header : ByteIOContext -> AVCodecContext -> ByteIOContext.
Variable put_wav_header : ByteIOContext -> AVCodecContext -> ByteIOContext.
Variable ff_split_xiph_headers :
  list Z -> Z -> option (list Z * list Z * list Z).

(** The string [LIBAVFORMAT_IDENT] of avformat.h. *)
Variable LIBAVFORMAT_IDENT : list Z.

(** [put_ebml_string]: the bytes of the string up to its NUL. *)
Definition put_ebml_string (pb : ByteIOContext) (elementid : Z)
  (str : list Z) : ByteIOContext :=
  put_ebml_binary pb elementid str.

(** The codec private data of a codec with a Matroska codec ID: the
    value is -1 where the function returns -1 there, and the stream as
    it is then. *)
Definition write_codec_private (pb : ByteIOContext) (codec : AVCodecContext)
  : Z * ByteIOContext :=
  if (cc_codec_id codec =? CODEC_ID_VORBIS cids)
     || (cc_codec_id codec =? CODEC_ID_THEORA cids)
  then
    put_xiph_codecpriv (MATROSKA_ID_CODECPRIVATE hids) ff_split_xiph_headers
      pb (cc_codec_id codec =? CODEC_ID_VORBIS cids) (cc_extradata codec)
  else if cc_codec_id codec =? CODEC_ID_FLAC cids then
    put_flac_codecpriv (MATROSKA_ID_CODECPRIVATE hids) pb (cc_extradata codec)
  else if negb (len (cc_extradata codec) =? 0) then
    (0, put_ebml_binary pb (MATROSKA_ID_CODECPRIVATE hids) (cc_extradata codec))
  else (0, pb).

Definition write_track_video (pb : ByteIOContext) (codec : AVCodecContext)
  (native_id : bool) : ByteIOContext * AVCodecContext :=
  let pb := put_ebml_uint pb (MATROSKA_ID_TRACKTYPE hids)
              (MATROSKA_TRACK_TYPE_VIDEO hids) in
  let '(pb, codec) :=
    if native_id then (pb, codec)
    else
      let codec :=
        if cc_codec_tag codec =? 0
        then set_codec_tag codec (codec_get_bmp_tag (cc_codec_id codec))
        else codec in
      let pb := put_ebml_string pb (MATROSKA_ID_CODECID hids)
                  (MATROSKA_CODEC_ID_VIDEO_VFW_FOURCC hids) in
      let '(bmp_header, pb) :=
        start_ebml_master pb (MATROSKA_ID_CODECPRIVATE hids) in
      let pb := put_bmp_header pb codec in
      (end_ebml_master pb bmp_header, codec) in
  let '(subinfo, pb) := start_ebml_master pb (MATROSKA_ID_TRACKVIDEO hids) in
  let pb := put_ebml_uint pb (MATROSKA_ID_VIDEOPIXELWIDTH hids) (cc_width codec) in
  let pb := put_ebml_uint pb (MATROSKA_ID_VIDEOPIXELHEIGHT hids) (cc_height codec) in
  let pb :=
    if negb (fst (cc_sample_aspect_ratio codec) =? 0) then
      let pb := put_ebml_uint pb (MATROSKA_ID_VIDEODISPLAYWIDTH hids)
                  (fst (cc_sample_aspect_ratio codec)) in
      put_ebml_uint pb (MATROSKA_ID_VIDEODISPLAYHEIGHT hids)
        (snd (cc_sample_aspect_ratio codec))
    else pb in
  (end_ebml_master pb subinfo, codec).

(** The value is -1 where the function returns -1 for want of a codec
    tag. *)
Definition write_track_audio (pb : ByteIOContext) (codec : AVCodecContext)
  (native_id : bool) (bit_depth sample_rate output_sample_rate : Z)
  : Z * ByteIOContext * AVCodecContext :=
  let pb := put_ebml_uint pb (MATROSKA_ID_TRACKTYPE hids)
              (MATROSKA_TRACK_TYPE_AUDIO hids) in
  let '(r, pb, codec) :=
    if native_id then (0, pb, codec)
    else
      let codec := set_codec_tag codec (codec_get_wav_tag (cc_codec_id codec)) in
      if cc_codec_tag codec =? 0 then (-1, pb, codec)
      else
        let pb := put_ebml_string pb (MATROSKA_ID_CODECID hids)
                    (MATROSKA_CODEC_ID_AUDIO_ACM hids) in
        let '(wav_header, pb) :=
          start_ebml_master pb (MATROSKA_ID_CODECPRIVATE hids) in
        let pb := put_wav_header pb codec in
        (0, end_ebml_master pb wav_header, codec) in
  if r <? 0 then (r, pb, codec)
  else
    let '(subinfo, pb) := start_ebml_master pb (MATROSKA_ID_TRACKAUDIO hids) in
    let pb := put_ebml_uint pb (MATROSKA_ID_AUDIOCHANNELS hids)
                (cc_channels codec) in
    let pb := put_ebml_float dbl_bits pb (MATROSKA_ID_AUDIOSAMPLINGFREQ hids)
                sample_rate in
    let pb :=
      if negb (output_sample_rate =? 0)
      then put_ebml_float dbl_bits pb
             (MATROSKA_ID_AUDIOOUTSAMPLINGFREQ hids) output_sample_rate
      else pb in
    let pb :=
      if negb (bit_depth =? 0)
      then put_ebml_uint pb (MATROSKA_ID_AUDIOBITDEPTH hids) bit_depth
      else pb in
    (0, end_ebml_master pb subinfo, codec).

(** The body of the loop of [mkv_write_tracks] for the stream [i]: the
    value is -1 where the function returns -1 in it, with the file and
    the stream as they are then. *)
Definition write_track (pb : ByteIOContext) (i : Z) (st : MuxStream)
  : exec (Z * ByteIOContext * MuxStream) :=
  let codec := ms_codec st in
  let bit_depth := av_get_bits_per_sample (cc_codec_id codec) in
  match
    (if cc_codec_id codec =? CODEC_ID_AAC cids
     then get_aac_sample_rates (cc_extradata codec) (cc_sample_rate codec) 0
     else Done (cc_sample_rate codec, 0))
  with
  | Fault => Fault
  | Done (sample_rate, output_sample_rate) =>
      let '(track, pb) := start_ebml_master pb (MATROSKA_ID_TRACKENTRY hids) in
      let pb := put_ebml_uint pb (MATROSKA_ID_TRACKNUMBER hids) (i + 1) in
      let pb := put_ebml_uint pb (MATROSKA_ID_TRACKUID hids) (i + 1) in
      let pb := put_ebml_uint pb (MATROSKA_ID_TRACKFLAGLACING hids) 0 in
      let pb :=
        match ms_language st with
        | _ :: _ =>
            put_ebml_string pb (MATROSKA_ID_TRACKLANGUAGE hids) (ms_language st)
        | [] =>
            put_ebml_string pb (MATROSKA_ID_TRACKLANGUAGE hids)
              [0x75; 0x6E; 0x64]
        end in
      match mkv_codec_tag_lookup (CODEC_ID_NONE cids) ff_mkv_codec_tags
              (cc_codec_id codec) with
      | Fault => Fault
      | Done tag =>
          let native_id := match tag with Some _ => true | None => false end in
          let pb :=
            match tag with
            | Some str => put_ebml_string pb (MATROSKA_ID_CODECID hids) str
            | None => pb
            end in
          let '(r, pb) :=
            if native_id then write_codec_private pb codec else (0, pb) in
          if r <? 0 then Done (-1, pb, st)
          else
            let '(r, pb, codec) :=
              match cc_codec_type codec with
              | CODEC_TYPE_VIDEO =>
                  let '(pb, codec) := write_track_video pb codec native_id in
                  (0, pb, codec)
              | CODEC_TYPE_AUDIO =>
                  write_track_audio pb codec native_id bit_depth
                    sample_rate output_sample_rate
              | CODEC_TYPE_SUBTITLE =>
                  (0, put_ebml_uint pb (MATROSKA_ID_TRACKTYPE hids)
                        (MATROSKA_TRACK_TYPE_SUBTITLE hids), codec)
              | CODEC_TYPE_DATA => (0, pb, codec)
              end in
            if r <? 0
            then Done (-1, pb, mkMuxStream codec (ms_language st) (ms_time_base st))
            else Done (0, end_ebml_master pb track, finish_stream st codec)
      end
  end.

(** The loop over the streams from the index [i] on: the value, the
    file, and the streams as they are left, those not reached
    unchanged. *)
Fixpoint write_tracks_loop (pb : ByteIOContext) (i : Z)
  (streams : list MuxStream)
  : exec (Z * ByteIOContext * list MuxStream) :=
  match streams with
  | [] => Done (0, pb, [])
  | st :: rest =>
      match write_track pb i st with
      | Fault => Fault
      | Done (r, pb, st') =>
          if r <? 0 then Done (r, pb, st' :: rest)
          else
            match write_tracks_loop pb (i + 1) rest with
            | Fault => Fault
            | Done (r, pb, rest') => Done (r, pb, st' :: rest')
            end
      end
  end.

Definition mkv_write_tracks (streams : list MuxStream)
  (mkv : MatroskaMuxContext) (pb : ByteIOContext)
  : exec (Z * MatroskaMuxContext * ByteIOContext * list MuxStream) :=
  let '(r, sh) := mkv_add_seekhead_entry (main_seekhead mkv)
                    (MATROSKA_ID_TRACKS hids) (url_ftell pb) in
  let mkv := set_main_seekhead mkv sh in
  if r <? 0 then Done (-1, mkv, pb, streams)
  else
    let '(tracks, pb) := start_ebml_master pb (MATROSKA_ID_TRACKS hids) in
    match write_tracks_loop pb 0 streams with
    | Fault => Fault
    | Done (r, pb, streams) =>
        if r <? 0 then Done (-1, mkv, pb, streams)
        else Done (0, mkv, end_ebml_master pb tracks, streams)
    end.

(** [title] is [s->title].  The MD5 context starts empty
    ([av_md5_init]). *)
Definition mkv_write_header (title : list Z) (streams : list MuxStream)
  (mkv : MatroskaMuxContext) (pb : ByteIOContext)
  : exec (Z * MatroskaMuxContext * ByteIOContext * list MuxStream) :=
  let md5 : list Z := [] in
  let '(ebml_header, pb) := start_ebml_master pb (EBML_ID_HEADER hids) in
  let pb := put_ebml_uint pb (EBML_ID_EBMLVERSION hids) 1 in
  let pb := put_ebml_uint pb (EBML_ID_EBMLREADVERSION hids) 1 in
  let pb := put_ebml_uint pb (EBML_ID_EBMLMAXIDLENGTH hids) 4 in
  let pb := put_ebml_uint pb (EBML_ID_EBMLMAXSIZELENGTH hids) 8 in
  let pb := put_ebml_string pb (EBML_ID_DOCTYPE hids)
              [0x6D; 0x61; 0x74; 0x72; 0x6F; 0x73; 0x6B; 0x61] in
  let pb := put_ebml_uint pb (EBML_ID_DOCTYPEVERSION hids) 2 in
  let pb := put_ebml_uint pb (EBML_ID_DOCTYPEREADVERSION hids) 2 in
  let pb := end_ebml_master pb ebml_header in
  let '(segment', pb) := start_ebml_master pb (MATROSKA_ID_SEGMENT hids) in
  let segment_offset' := url_ftell pb in
  let '(main, pb) := mkv_start_seekhead ids pb segment_offset' 10 in
  let '(cluster_sh, pb) := mkv_start_seekhead ids pb segment_offset' 0 in
  let '(r, main) := mkv_add_seekhead_entry main (MATROSKA_ID_INFO hids)
                      (url_ftell pb) in
  let mkv := mkMux segment' segment_offset' (segment_uid mkv) (cluster mkv)
               (cluster_pos mkv) (cluster_pts mkv) (duration_offset mkv)
               (duration mkv) main cluster_sh (cues mkv) md5 in
  if r <? 0 then Done (-1, mkv, pb, streams)
  else
    let '(segment_info, pb) := start_ebml_master pb (MATROSKA_ID_INFO hids) in
    let pb := put_ebml_uint pb (MATROSKA_ID_TIMECODESCALE hids) 1000000 in
    let pb :=
      match title with
      | _ :: _ => put_ebml_string pb (MATROSKA_ID_TITLE hids) title
      | [] => pb
      end in
    match streams with
    | [] => Fault
    | st0 :: _ =>
        let '(segment_uid', pb) :=
          if negb (cc_bitexact (ms_codec st0)) then
            let pb := put_ebml_string pb (MATROSKA_ID_MUXINGAPP hids)
                        LIBAVFORMAT_IDENT in
            let pb := put_ebml_string pb (MATROSKA_ID_WRITINGAPP hids)
                        LIBAVFORMAT_IDENT in
            (url_ftell pb, put_ebml_void ids pb 19)
          else (segment_uid mkv, pb) in
        let duration_offset' := url_ftell pb in
        let pb := put_ebml_void ids pb 11 in
        let pb := end_ebml_master pb segment_info in
        let mkv := mkMux (segment mkv) (segment_offset mkv) segment_uid'
                     (cluster mkv) (cluster_pos mkv) (cluster_pts mkv)
                     duration_offset' 0 (main_seekhead mkv)
                     (cluster_seekhead mkv) (cues mkv) (md5_ctx mkv) in
        match mkv_write_tracks streams mkv pb with
        | Fault => Fault
        | Done (r, mkv, pb, streams) =>
            if r <? 0 then Done (-1, mkv, pb, streams)
            else
              let '(r, cluster_sh) :=
                mkv_add_seekhead_entry (cluster_seekhead mkv)
                  (MATROSKA_ID_CLUSTER ids) (url_ftell pb) in
              let mkv := set_cluster_seekhead mkv cluster_sh in
              if r <? 0 then Done (-1, mkv, pb, streams)
              else
                let cluster_pos' := url_ftell pb in
                let '(cluster', pb) :=
                  start_ebml_master pb (MATROSKA_ID_CLUSTER ids) in
                let pb := put_ebml_uint pb (MATROSKA_ID_CLUSTERTIMECODE ids) 0 in
                let mkv := set_cluster mkv cluster_pos' cluster' 0 (md5_ctx mkv) in
                let mkv := set_cues mkv (mkv_start_cues (segment_offset mkv)) in
                Done (0, mkv, pb, streams)
        end
    end.

End Header.

End Mkv.

(** ** Facts about machine integers and byte strings *)

Module MachFacts.

Lemma byteb_spec b : byteb b = true <-> is_byte b.
Proof. unfold byteb, is_byte. rewrite andb_true_iff, Z.leb_le, Z.ltb_lt. tauto. Qed.

Lemma bytesb_Forall bs : bytesb bs = true <-> Forall is_byte bs.
Proof.
  unfold bytesb. rewrite forallb_forall, Forall_forall.
  split; intros H x Hx; apply byteb_spec, H, Hx.
Qed.

Lemma s64_small x : - 2 ^ 63 <= x < 2 ^ 63 -> s64 x = x.
Proof. intros H. unfold s64. rewrite Z.mod_small; lia. Qed.

Lemma s32_small v : - 2 ^ 31 <= v < 2 ^ 31 -> s32 v = v.
Proof. intros Hv. unfold s32. rewrite Z.mod_small by lia. lia. Qed.

Lemma u64_small x : 0 <= x < 2 ^ 64 -> u64 x = x.
Proof. intros H. unfold u64. apply Z.mod_small; lia. Qed.

Lemma u64_s64 x : u64 (s64 x) = u64 x.
Proof.
  unfold u64, s64.
  rewrite Zminus_mod, Zmod_mod, <- Zminus_mod.
  f_equal. lia.
Qed.

Lemma s64_u64 x : s64 (u64 x) = s64 x.
Proof.
  unfold u64, s64. f_equal.
  rewrite Zplus_mod, Zmod_mod, <- Zplus_mod. reflexivity.
Qed.

Lemma s64_range x : - 2 ^ 63 <= s64 x < 2 ^ 63.
Proof. unfold s64. pose proof (Z.mod_pos_bound (x + 2 ^ 63) (2 ^ 64)). lia. Qed.

Lemma len_app {A} (l1 l2 : list A) : len (l1 ++ l2) = len l1 + len l2.
Proof. unfold len. rewrite length_app. lia. Qed.

Lemma len_nonneg {A} (l : list A) : 0 <= len l.
Proof. unfold len. lia. Qed.

Lemma len_cons {A} (x : A) (l : list A) : len (x :: l) = 1 + len l.
Proof. unfold len. simpl length. lia. Qed.

Lemma len_nil {A} : len (@nil A) = 0.
Proof. reflexivity. Qed.

Lemma fold_be_shift bs : forall acc z,
  fold_left (fun a b => a * 256 + b) bs (acc + z) =
  acc * 256 ^ len bs + fold_left (fun a b => a * 256 + b) bs z.
Proof.
  induction bs as [|b bs IH]; intros acc z; cbn [fold_left].
  - unfold len. simpl. lia.
  - replace ((acc + z) * 256 + b) with (acc * 256 + (z * 256 + b)) by lia.
    rewrite IH, len_cons.
    rewrite Z.pow_add_r by (try apply len_nonneg; lia). lia.
Qed.

Lemma be_value_from acc bs :
  fold_left (fun a b => a * 256 + b) bs acc = acc * 256 ^ len bs + be_value bs.
Proof.
  unfold be_value. rewrite <- fold_be_shift. f_equal. lia.
Qed.

Lemma be_value_cons b bs : be_value (b :: bs) = b * 256 ^ len bs + be_value bs.
Proof. unfold be_value at 1. cbn [fold_left]. rewrite be_value_from. lia. Qed.

Lemma be_value_bound bs : Forall is_byte bs -> 0 <= be_value bs < 256 ^ len bs.
Proof.
  induction 1 as [|b bs Hb _ IH].
  - unfold be_value, len. simpl. lia.
  - rewrite be_value_cons, len_cons.
    rewrite Z.pow_add_r by (try apply len_nonneg; lia).
    unfold is_byte in Hb. nia.
Qed.

Lemma be_bytes_length n v : length (be_bytes n v) = n.
Proof. induction n; simpl; congruence. Qed.

Lemma be_bytes_is_byte n v : Forall is_byte (be_bytes n v).
Proof.
  induction n; simpl; constructor; auto.
  unfold is_byte, u8. apply Z.mod_pos_bound. lia.
Qed.

Lemma be_value_be_bytes n v :
  0 <= v -> be_value (be_bytes n v) = v mod 256 ^ Z.of_nat n.
Proof.
  intros Hv. induction n as [|n IH].
  - simpl. rewrite Z.mod_1_r. reflexivity.
  - cbn [be_bytes]. rewrite be_value_cons, IH.
    unfold len. rewrite be_bytes_length. unfold u8.
    rewrite Z.shiftr_div_pow2 by lia.
    rewrite Z.pow_mul_r by lia. change (2 ^ 8) with 256.
    replace (Z.of_nat (S n)) with (Z.of_nat n + 1) by lia.
    rewrite Z.pow_add_r by lia. change (256 ^ 1) with 256.
    set (p := 256 ^ Z.of_nat n).
    assert (Hp : 0 < p) by (apply Z.pow_pos_nonneg; lia).
    rewrite (Z.rem_mul_r v p 256) by lia. lia.
Qed.

Lemma land_shiftl_low x b n :
  0 <= n -> 0 <= b < 2 ^ n -> Z.land (Z.shiftl x n) b = 0.
Proof.
  intros Hn Hb. apply Z.bits_inj'. intros m Hm.
  rewrite Z.land_spec, Z.bits_0.
  destruct (Z.lt_ge_cases m n).
  - rewrite Z.shiftl_spec_low by lia. reflexivity.
  - replace b with (b mod 2 ^ n) by (apply Z.mod_small; lia).
    rewrite Z.mod_pow2_bits_high by lia. apply andb_false_r.
Qed.

Lemma lor_shiftl_low x b n :
  0 <= n -> 0 <= b < 2 ^ n -> Z.lor (Z.shiftl x n) b = x * 2 ^ n + b.
Proof.
  intros Hn Hb.
  rewrite <- Z.lxor_lor by (apply land_shiftl_low; assumption).
  rewrite <- Z.add_nocarry_lxor by (apply land_shiftl_low; assumption).
  rewrite Z.shiftl_mul_pow2 by assumption. reflexivity.
Qed.

Lemma s64_congr x y : u64 x = u64 y -> s64 x = s64 y.
Proof. intros H. rewrite <- (s64_u64 x), <- (s64_u64 y). congruence. Qed.

Lemma s64_step x k c : s64 (s64 x * k + c) = s64 (x * k + c).
Proof.
  apply s64_congr. unfold u64.
  rewrite (Zplus_mod (s64 x * k)), (Zplus_mod (x * k)).
  rewrite (Zmult_mod (s64 x)), (Zmult_mod x).
  fold (u64 (s64 x)). rewrite u64_s64. reflexivity.
Qed.

Lemma s64_idem x : s64 (s64 x) = s64 x.
Proof. apply s64_small, s64_range. Qed.

End MachFacts.

Import MachFacts.

(** ** Properties of the MXF demuxer *)

Module MxfFacts.

Import Mxf.

(** *** The byte stream *)

Lemma remaining_advance pb bs rest :
  0 <= pos pb -> remaining pb = bs ++ rest ->
  remaining (advance (len bs) pb) = rest.
Proof.
  unfold remaining, advance, len. cbn [pos buffer]. intros Hp H.
  rewrite Z2Nat.inj_add, Nat2Z.id by lia.
  rewrite Nat.add_comm, <- skipn_skipn, H.
  rewrite skipn_app, Nat.sub_diag, skipn_all. reflexivity.
Qed.

Lemma advance_advance a b pb : advance a (advance b pb) = advance (b + a) pb.
Proof. unfold advance. cbn. f_equal. lia. Qed.

Lemma advance_0 pb : advance 0 pb = pb.
Proof. destruct pb. unfold advance. cbn. f_equal. lia. Qed.

Lemma get_byte_cons pb b rest :
  remaining pb = b :: rest -> get_byte pb = (b, advance 1 pb).
Proof. unfold get_byte. intros ->. reflexivity. Qed.

Lemma get_buffer_full pb bs rest :
  remaining pb = bs ++ rest ->
  get_buffer pb (len bs) = (bs, advance (len bs) pb).
Proof.
  unfold get_buffer, advance, len. intros ->.
  rewrite Nat2Z.id, firstn_app, Nat.sub_diag, firstn_all, firstn_O, app_nil_r.
  rewrite Z.ltb_irrefl, orb_false_r. reflexivity.
Qed.

(** *** BER lengths *)

Lemma ber_long_form_app bs : forall size pb rest,
  0 <= pos pb -> Forall is_byte bs -> remaining pb = bs ++ rest ->
  s64 size = size ->
  ber_long_form (List.length bs) size pb =
  (s64 (size * 256 ^ len bs + be_value bs), advance (len bs) pb).
Proof.
  induction bs as [|b bs IH]; intros size pb rest Hp Hb Hr Hs.
  - cbn [ber_long_form List.length]. unfold be_value, len. cbn.
    rewrite Z.mul_1_r, Z.add_0_r, advance_0, Hs. reflexivity.
  - cbn [ber_long_form List.length].
    inversion Hb as [|? ? Hb1 Hb2]; subst.
    rewrite (get_byte_cons pb b (bs ++ rest)) by exact Hr.
    rewrite (IH _ (advance 1 pb) rest); trivial.
    + rewrite advance_advance, len_cons. f_equal.
      rewrite lor_shiftl_low by (unfold is_byte in Hb1; lia).
      change (2 ^ 8) with 256. rewrite s64_step, be_value_cons.
      rewrite Z.pow_add_r by (try apply len_nonneg; lia).
      f_equal. ring.
    + cbn. lia.
    + apply (remaining_advance pb [b]); assumption.
    + apply s64_idem.
Qed.

Lemma shiftr7_small b : 0 <= b < 128 -> Z.shiftr b 7 = 0.
Proof. intros H. rewrite Z.shiftr_div_pow2 by lia. apply Z.div_small. lia. Qed.

Lemma shiftr7_large b : 128 <= b < 256 -> Z.shiftr b 7 = 1.
Proof.
  intros H. rewrite Z.shiftr_div_pow2 by lia. change (2 ^ 7) with 128.
  symmetry. apply (Z.div_unique b 128 1 (b - 128)); lia.
Qed.

Lemma land7f b : 0 <= b -> Z.land b 0x7f = b mod 128.
Proof. intros H. change 0x7f with (Z.ones 7). apply Z.land_ones. lia. Qed.

Lemma decode_short pb b rest :
  remaining pb = b :: rest -> 0 <= b < 128 ->
  klv_decode_ber_length pb = (b, advance 1 pb).
Proof.
  intros Hr Hb. unfold klv_decode_ber_length.
  rewrite (get_byte_cons pb b rest Hr), shiftr7_small by assumption.
  cbn. rewrite land7f, Z.mod_small by lia. reflexivity.
Qed.

Lemma decode_long pb bs rest :
  0 <= pos pb -> len bs <= 8 -> Forall is_byte bs ->
  remaining pb = (0x80 + len bs) :: bs ++ rest ->
  klv_decode_ber_length pb = (s64 (be_value bs), advance (1 + len bs) pb).
Proof.
  intros Hp Hn Hb Hr. unfold klv_decode_ber_length.
  pose proof (len_nonneg bs) as H0.
  rewrite (get_byte_cons pb _ _ Hr), shiftr7_large by lia.
  cbn [Z.eqb negb]. rewrite land7f by lia.
  replace ((0x80 + len bs) mod 128) with (len bs)
    by (apply (Z.mod_unique _ 128 1 (len bs)); lia).
  destruct (8 <? len bs) eqn:E; [apply Z.ltb_lt in E; lia|].
  unfold len at 1. rewrite Nat2Z.id.
  rewrite (ber_long_form_app bs 0 (advance 1 pb) rest); trivial.
  - rewrite advance_advance. reflexivity.
  - cbn. lia.
  - apply (remaining_advance pb [_] _ Hp Hr).
Qed.

Lemma decode_reject pb b rest :
  remaining pb = b :: rest -> 0x80 + 8 < b < 256 ->
  klv_decode_ber_length pb = (-1, advance 1 pb).
Proof.
  intros Hr Hb. unfold klv_decode_ber_length.
  rewrite (get_byte_cons pb b rest Hr), shiftr7_large by lia.
  cbn [Z.eqb negb]. rewrite land7f by lia.
  replace (b mod 128) with (b - 128)
    by (apply (Z.mod_unique _ 128 1 (b - 128)); lia).
  destruct (8 <? b - 128) eqn:E; [reflexivity|apply Z.ltb_ge in E; lia].
Qed.

(** C4 (as amended).  [klv_decode_ber_length] returns the first byte
    when its top bit is clear; when the top bit is set and the low
    seven bits [n] are at most 8 it reads [n] bytes big-endian into the
    [int64_t] result, and it returns -1 when [n] exceeds 8.  So it
    inverts the short form and every long form of 1 to 8 length bytes
    whose value is below 2^63; a value from 2^63 on comes back wrapped
    into the signed result (the value minus 2^64). *)
Theorem klv_decode_ber_length_inverts :
  (forall pb b rest,
      remaining pb = b :: rest -> 0 <= b < 128 ->
      klv_decode_ber_length pb = (b, advance 1 pb)) /\
  (forall pb bs rest,
      0 <= pos pb -> len bs <= 8 -> Forall is_byte bs ->
      remaining pb = (0x80 + len bs) :: bs ++ rest ->
      klv_decode_ber_length pb =
      (s64 (be_value bs), advance (1 + len bs) pb)) /\
  (forall pb b rest,
      remaining pb = b :: rest -> 0x80 + 8 < b < 256 ->
      klv_decode_ber_length pb = (-1, advance 1 pb)) /\
  (forall pb v rest,
      remaining pb = ber_short v ++ rest -> 0 <= v < 128 ->
      klv_decode_ber_length pb = (v, advance 1 pb)) /\
  (forall pb n v rest,
      0 <= pos pb -> (1 <= n <= 8)%nat ->
      0 <= v < 256 ^ Z.of_nat n -> v < 2 ^ 63 ->
      remaining pb = ber_long n v ++ rest ->
      klv_decode_ber_length pb = (v, advance (1 + Z.of_nat n) pb)).
Proof.
  split; [exact decode_short|].
  split; [exact decode_long|].
  split; [exact decode_reject|].
  split; [intros pb v rest Hr Hv; exact (decode_short pb v rest Hr Hv)|].
  intros pb n v rest Hp Hn Hv Hv' Hr. unfold ber_long in Hr.
  pose proof (be_bytes_length n v) as Hl.
  assert (Hlen : len (be_bytes n v) = Z.of_nat n) by (unfold len; congruence).
  rewrite <- Hlen in Hr at 1. cbn [app] in Hr.
  rewrite (decode_long pb (be_bytes n v) rest Hp);
    [ | lia | apply be_bytes_is_byte | exact Hr ].
  rewrite Hlen, be_value_be_bytes, Z.mod_small, s64_small by lia.
  reflexivity.
Qed.

Lemma klv_decode_ber_length_inverts_witness :
  klv_decode_ber_length (mkPB [0x82; 0x01; 0x00; 0x2a] 0 false) =
  (256, advance (1 + Z.of_nat 2) (mkPB [0x82; 0x01; 0x00; 0x2a] 0 false)).
Proof.
  destruct klv_decode_ber_length_inverts as (_ & _ & _ & _ & H).
  apply (H (mkPB [0x82; 0x01; 0x00; 0x2a] 0 false) 2%nat 256 [0x2a]).
  - cbn. lia.
  - lia.
  - cbn. lia.
  - lia.
  - reflexivity.
Defined.

(** The long form of eight bytes [0xff] encodes 2^64 - 1; the decoder
    returns -1 for it, the value it also returns for a malformed
    length. *)
Lemma klv_decode_ber_length_all_ones :
  Forall is_byte (repeat 0xff 8) /\
  be_value (repeat 0xff 8) = 2 ^ 64 - 1 /\
  fst (klv_decode_ber_length (mkPB (0x88 :: repeat 0xff 8) 0 false)) = -1 /\
  fst (klv_decode_ber_length (mkPB (0x88 :: repeat 0xff 8) 0 false)) <>
  be_value (repeat 0xff 8).
Proof.
  split; [repeat constructor; unfold is_byte; lia|].
  split; [reflexivity|].
  split; [reflexivity|].
  vm_compute. discriminate.
Qed.

(** *** Reading packets *)

Lemma ber_value_nonneg ber : ber_okb ber = true -> 0 <= ber_value ber.
Proof.
  destruct ber as [|b bs]; [discriminate|]. cbn [ber_okb ber_value].
  rewrite !andb_true_iff. intros [[Hb Hbs] _].
  apply byteb_spec in Hb. apply bytesb_Forall in Hbs.
  destruct (b <? 128); [unfold is_byte in Hb; lia|].
  apply be_value_bound, Hbs.
Qed.

Lemma decode_ok pb ber rest :
  0 <= pos pb -> ber_okb ber = true -> ber_value ber < 2 ^ 63 ->
  remaining pb = ber ++ rest ->
  klv_decode_ber_length pb = (ber_value ber, advance (len ber) pb).
Proof.
  intros Hp Hok Hv Hr. pose proof (ber_value_nonneg ber Hok) as H0.
  destruct ber as [|b bs]; [discriminate|].
  cbn [ber_okb ber_value] in *. rewrite !andb_true_iff in Hok.
  destruct Hok as [[Hb Hbs] Hf].
  apply byteb_spec in Hb. apply bytesb_Forall in Hbs. unfold is_byte in Hb.
  destruct (b <? 128) eqn:E.
  - apply Z.ltb_lt in E. apply Z.eqb_eq in Hf.
    destruct bs; [|rewrite len_cons in Hf; pose proof (len_nonneg bs); lia].
    apply (decode_short pb b rest Hr). lia.
  - apply Z.ltb_ge in E. apply andb_true_iff in Hf. destruct Hf as [Hl H8].
    apply Z.eqb_eq in Hl. apply Z.leb_le in H8.
    replace b with (0x80 + len bs) in Hr by lia. cbn [app] in Hr.
    rewrite (decode_long pb bs rest Hp); trivial; [|lia].
    rewrite s64_small, len_cons by lia. reflexivity.
Qed.

Lemma klv_okb_spec k :
  klv_okb k = true ->
  len (k_key k) = 16 /\ ber_okb (k_ber k) = true /\
  ber_value (k_ber k) = len (k_value k) /\ len (k_value k) < 2 ^ 63.
Proof.
  unfold klv_okb. rewrite !andb_true_iff, !Z.eqb_eq, Z.ltb_lt. tauto.
Qed.

Lemma klv_read_packet_ok klv pb k rest :
  0 <= pos pb -> klv_okb k = true ->
  remaining pb = klv_bytes k ++ rest ->
  klv_read_packet klv pb =
  (0, mkKLV (k_key k) (pos pb) (len (k_value k)),
   advance (len (k_key k) + len (k_ber k)) pb).
Proof.
  intros Hp Hok Hr. apply klv_okb_spec in Hok.
  destruct Hok as (Hk & Hber & Hv & Hlt).
  unfold klv_bytes in Hr. rewrite <- !app_assoc in Hr.
  unfold klv_read_packet.
  rewrite <- Hk at 1. rewrite (get_buffer_full pb _ _ Hr).
  assert (Hkey : firstn 16 (k_key k ++ skipn (List.length (k_key k)) (key klv))
                 = k_key k).
  { assert (Hn : List.length (k_key k) = 16%nat) by (unfold len in Hk; lia).
    rewrite firstn_app.
    replace (16 - List.length (k_key k))%nat with 0%nat by lia.
    rewrite firstn_O, app_nil_r. apply firstn_all2. lia. }
  rewrite Hkey.
  rewrite (decode_ok (advance (len (k_key k)) pb) (k_ber k)
             (k_value k ++ rest)); trivial.
  - rewrite advance_advance, Hv, u64_small.
    + cbn [length].
      destruct (Z.eqb_spec (len (k_value k)) (u64 (-1))) as [E|E];
        [|reflexivity].
      exfalso. change (u64 (-1)) with (2 ^ 64 - 1) in E. lia.
    + pose proof (len_nonneg (k_value k)). lia.
  - cbn. lia.
  - lia.
  - apply (remaining_advance pb _ _ Hp Hr).
Qed.

Lemma routes_memcmp k t :
  memcmp_eq (skipn (List.length mxf_essence_element_key) (k_key k))
    (track_number t) 4 = routes k t.
Proof. reflexivity. Qed.

Lemma stream_index_from_spec k off l streams : forall i,
  0 <= i ->
  let idx := mxf_get_stream_index_from i streams (mkKLV (k_key k) off l) in
  (idx = -1 /\ unrouted k streams = true) \/
  (exists n track,
      idx = i + Z.of_nat n /\ nth_error streams n = Some track /\
      routes k track = true /\ unrouted k (firstn n streams) = true).
Proof.
  induction streams as [|t ts IH]; intros i Hi; cbn zeta.
  - left. split; reflexivity.
  - cbn [mxf_get_stream_index_from key].
    rewrite routes_memcmp.
    destruct (routes k t) eqn:E.
    + right. exists 0%nat, t. cbn. repeat split; trivial. lia.
    + destruct (IH (i + 1)) as [[H1 H2]|(n & t' & H1 & H2 & H3 & H4)]; [lia| |].
      * left. split; [exact H1|]. unfold unrouted in *.
        cbn [forallb]. rewrite E. exact H2.
      * right. exists (S n), t'. repeat split; trivial; [lia|].
        unfold unrouted in *. cbn [forallb firstn]. rewrite E. exact H4.
Qed.

Lemma stream_index_spec streams k off l :
  routed_to streams k (mxf_get_stream_index streams (mkKLV (k_key k) off l)).
Proof.
  destruct (stream_index_from_spec k off l streams 0) as [H|H]; [lia| |].
  - left. exact H.
  - right. exact H.
Qed.

Section ReadPacketFacts.

Variable AVERROR_IO : Z.
Variable streams : list MXFTrack.
Variable pkt0 : AVPacket.

Lemma klv_run_cons k ks : klv_run (k :: ks) = klv_bytes k ++ klv_run ks.
Proof. reflexivity. Qed.

Lemma len_klv_bytes k :
  len (klv_bytes k) = len (k_key k) + len (k_ber k) + len (k_value k).
Proof. unfold klv_bytes. rewrite !len_app. lia. Qed.

(** A run of well-formed KLV triples without essence key is read and
    skipped in as many turns of the loop. *)
Lemma read_packet_skips pre : forall fuel klv pb rest,
  0 <= pos pb -> eof_reached pb = false ->
  forallb klv_okb pre = true -> no_essence pre = true ->
  remaining pb = klv_run pre ++ rest ->
  exists klv',
    mxf_read_packet AVERROR_IO (List.length pre + fuel) streams klv pkt0 pb =
    mxf_read_packet AVERROR_IO fuel streams klv' pkt0
      (advance (len (klv_run pre)) pb) /\
    (pre = [] -> klv' = klv) /\
    (pre <> [] -> IS_KLV_KEY (key klv') mxf_essence_element_key = false).
Proof.
  induction pre as [|k pre IH]; intros fuel klv pb rest Hp He Hok Hne Hr.
  - exists klv. cbn [List.length Nat.add]. unfold klv_run. cbn.
    rewrite advance_0. repeat split; trivial. congruence.
  - cbn [forallb] in Hok. unfold no_essence in Hne. cbn [forallb] in Hne.
    apply andb_true_iff in Hok. destruct Hok as [Hk Hok].
    apply andb_true_iff in Hne. destruct Hne as [Hnk Hne].
    apply negb_true_iff in Hnk. unfold is_essence in Hnk.
    rewrite klv_run_cons, <- app_assoc in Hr.
    cbn [List.length Nat.add mxf_read_packet]. unfold url_feof. rewrite He.
    rewrite (klv_read_packet_ok klv pb k _ Hp Hk Hr).
    cbn [Z.ltb Z.compare key length]. rewrite Hnk.
    rewrite s64_small
      by (pose proof (len_nonneg (k_value k));
          apply klv_okb_spec in Hk; lia).
    unfold url_fskip. rewrite advance_advance, <- len_klv_bytes.
    destruct (IH fuel (mkKLV (k_key k) (pos pb) (len (k_value k)))
                (advance (len (klv_bytes k)) pb) rest)
      as (klv' & Heq & Hnil & Hcons); trivial.
    + cbn. pose proof (len_nonneg (klv_bytes k)). lia.
    + apply (remaining_advance pb _ _ Hp Hr).
    + exists klv'. rewrite Heq, advance_advance, klv_run_cons, len_app.
      repeat split; trivial; [discriminate|].
      intros _. destruct pre as [|k' pre'].
      * rewrite Hnil by reflexivity. exact Hnk.
      * apply Hcons. discriminate.
Qed.

(** One turn of the loop at an essence element. *)
Lemma read_packet_essence fuel klv pb e rest :
  0 <= pos pb -> eof_reached pb = false ->
  klv_okb e = true -> is_essence e = true ->
  len (k_value e) < 2 ^ 31 ->
  remaining pb = klv_bytes e ++ rest ->
  exists idx,
    mxf_read_packet AVERROR_IO (S fuel) streams klv pkt0 pb =
    Some ((if idx =? -1 then -1 else 0), mkPacket (k_value e) idx,
          advance (len (klv_bytes e)) pb) /\
    routed_to streams e idx.
Proof.
  intros Hp He Hk Hess H31 Hr.
  exists (mxf_get_stream_index streams
            (mkKLV (k_key e) (pos pb) (len (k_value e)))).
  split; [|apply stream_index_spec].
  cbn [mxf_read_packet]. unfold url_feof. rewrite He.
  rewrite (klv_read_packet_ok klv pb e _ Hp Hk Hr).
  cbn [Z.ltb Z.compare key length]. unfold is_essence in Hess. rewrite Hess.
  rewrite s32_small by (pose proof (len_nonneg (k_value e)); lia).
  unfold av_get_packet.
  assert (Hr' : remaining (advance (len (k_key e) + len (k_ber e)) pb)
                = k_value e ++ rest).
  { unfold klv_bytes in Hr. rewrite <- len_app.
    apply (remaining_advance pb (k_key e ++ k_ber e)); trivial.
    rewrite <- !app_assoc in *. exact Hr. }
  rewrite (get_buffer_full _ _ _ Hr'). cbn [data stream_index].
  rewrite advance_advance, <- len_klv_bytes. reflexivity.
Qed.



End ReadPacketFacts.


(** C10.  An essence element (with a value of fewer than 2^31 bytes,
    the length being passed on as an [int]) whose last four key bytes
    are the [track_number] of no stream makes [mxf_read_packet] return
    -1 with the cursor behind the value, whatever follows in the
    stream. *)
Theorem mxf_read_packet_unroutable_fails
  (AVERROR_IO : Z) (streams : list MXFTrack) (klv0 : KLVPacket)
  (pkt0 : AVPacket) (pb : ByteIOContext) (pre : list klv_item)
  (e : klv_item) (rest : list Z) (fuel : nat) :
  0 <= pos pb -> eof_reached pb = false ->
  forallb klv_okb pre = true -> no_essence pre = true ->
  klv_okb e = true -> is_essence e = true ->
  len (k_value e) < 2 ^ 31 ->
  unrouted e streams = true ->
  remaining pb = klv_run pre ++ klv_bytes e ++ rest ->
  (List.length pre < fuel)%nat ->
  mxf_read_packet AVERROR_IO fuel streams klv0 pkt0 pb =
  Some (-1, mkPacket (k_value e) (-1),
        advance (len (klv_run pre) + len (klv_bytes e)) pb) /\
  remaining (advance (len (klv_run pre) + len (klv_bytes e)) pb) = rest.
Proof.
  intros Hp He Hok Hne Hk Hess H31 Hun Hr Hf.
  destruct (read_packet_skips AVERROR_IO streams pkt0 pre
              (fuel - List.length pre) klv0 pb _ Hp He Hok Hne Hr)
    as (klv' & Heq & _).
  replace (List.length pre + (fuel - List.length pre))%nat with fuel
    in Heq by lia.
  destruct (fuel - List.length pre)%nat as [|f] eqn:Ef; [lia|].
  assert (Hp' : 0 <= pos (advance (len (klv_run pre)) pb))
    by (cbn; pose proof (len_nonneg (klv_run pre)); lia).
  assert (Hr' : remaining (advance (len (klv_run pre)) pb)
                = klv_bytes e ++ rest)
    by (apply (remaining_advance pb _ _ Hp Hr)).
  destruct (read_packet_essence AVERROR_IO streams pkt0 f klv'
              (advance (len (klv_run pre)) pb) e rest Hp' He Hk Hess H31 Hr')
    as (idx & Hrun & Hidx).
  assert (Hm : idx = -1).
  { destruct Hidx as [[H _]|(n & t & _ & Hn & Ht & _)]; [exact H|].
    unfold unrouted in Hun. rewrite forallb_forall in Hun.
    apply nth_error_In in Hn. apply Hun in Hn.
    rewrite Ht in Hn. discriminate. }
  subst idx. rewrite Heq, Hrun, advance_advance. split; [reflexivity|].
  rewrite <- advance_advance. apply (remaining_advance _ _ _ Hp' Hr').
Qed.

(** *** A small file for the statements above *)

Definition ex_video_track : MXFTrack :=
  mkTrack [] None [] 1 [0x15;0x01;0x05;0x00] (mkRational 25 1).
Definition ex_audio_track : MXFTrack :=
  mkTrack [] None [] 2 [0x16;0x01;0x01;0x00] (mkRational 48000 1).
Definition ex_streams : list MXFTrack := [ex_video_track; ex_audio_track].

Definition ex_filler : klv_item :=
  mkItem [0x06;0x0e;0x2b;0x34;0x01;0x01;0x01;0x02;
          0x03;0x01;0x02;0x10;0x01;0x00;0x00;0x00]
         [0x02] [0x00;0x00].
Definition ex_audio_element : klv_item :=
  mkItem (mxf_essence_element_key ++ [0x16;0x01;0x01;0x00])
         [0x83;0x00;0x00;0x03] [0xaa;0xbb;0xcc].
Definition ex_stray_element : klv_item :=
  mkItem (mxf_essence_element_key ++ [0x17;0x01;0x01;0x00])
         [0x01] [0x5a].

Definition ex_klv0 : KLVPacket := mkKLV [] 0 0.
Definition ex_pkt0 : AVPacket := mkPacket [] 0.


Lemma mxf_read_packet_unroutable_fails_witness :
  mxf_read_packet (-2) 2 ex_streams ex_klv0 ex_pkt0
    (mkPB (klv_run [ex_filler] ++ klv_bytes ex_stray_element
             ++ klv_bytes ex_audio_element) 0 false) =
  Some (-1, mkPacket (k_value ex_stray_element) (-1),
        advance (len (klv_run [ex_filler]) + len (klv_bytes ex_stray_element))
          (mkPB (klv_run [ex_filler] ++ klv_bytes ex_stray_element
                   ++ klv_bytes ex_audio_element) 0 false)) /\
  remaining
    (advance (len (klv_run [ex_filler]) + len (klv_bytes ex_stray_element))
       (mkPB (klv_run [ex_filler] ++ klv_bytes ex_stray_element
                ++ klv_bytes ex_audio_element) 0 false)) =
  klv_bytes ex_audio_element.
Proof.
  apply (mxf_read_packet_unroutable_fails (-2) ex_streams ex_klv0 ex_pkt0
           (mkPB (klv_run [ex_filler] ++ klv_bytes ex_stray_element
                    ++ klv_bytes ex_audio_element) 0 false)
           [ex_filler] ex_stray_element (klv_bytes ex_audio_element) 2%nat).
  - cbn. lia.
  - reflexivity.
  - reflexivity.
  - reflexivity.
  - reflexivity.
  - reflexivity.
  - reflexivity.
  - reflexivity.
  - reflexivity.
  - cbn. lia.
Defined.

(** *** The structural linker *)

Definition ex_uid_p : UID := repeat 0x11 16.
Definition ex_uid_q : UID := repeat 0xee 16.

Definition ex_clip_a : MXFStructuralComponent :=
  mkComponent (repeat 0xa1 16) ex_uid_p picture_essence_track_ul 250 0 1 SourceClip.
Definition ex_clip_b : MXFStructuralComponent :=
  mkComponent (repeat 0xa2 16) ex_uid_q picture_essence_track_ul 250 0 1 SourceClip.

Definition ex_source_track : MXFTrack :=
  mkTrack (repeat 0xb1 16)
    (Some (mkSequence (repeat 0xc1 16) picture_essence_track_ul [] [] 250))
    (repeat 0xc1 16) 1 [0x15;0x01;0x05;0x00] (mkRational 25 1).

Definition ex_material_track (id : Z) (clip : MXFStructuralComponent)
  : MXFTrack :=
  mkTrack (repeat 0xb2 16)
    (Some (mkSequence (repeat 0xc2 16) picture_essence_track_ul
             [Some clip] [sc_uid clip] 250))
    (repeat 0xc2 16) id [0;0;0;0] (mkRational 25 1).

Definition ex_source_package : MXFPackage :=
  mkPackage (repeat 0xd1 16) ex_uid_p [Some ex_source_track]
    [repeat 0xb1 16] None [] SourcePackage.

Definition ex_material_package : MXFPackage :=
  mkPackage (repeat 0xd2 16) (repeat 0 16)
    [Some (ex_material_track 1 ex_clip_a); Some (ex_material_track 2 ex_clip_b)]
    [repeat 0xb2 16; repeat 0xb2 16] None [] MaterialPackage.

Definition ex_context : MXFContext :=
  mkContext [Some ex_material_package; Some ex_source_package]
    [repeat 0xd2 16; repeat 0xd1 16] [] [] [].

(** C1, at an input where the code departs from it.  The material
    package has two tracks.  The clip of the first names the source
    package [ex_uid_p], which exists; the clip of the second names
    [ex_uid_q], which no package carries.  The search for [ex_uid_q]
    assigns nothing, but [source_package] still holds the package found
    for the first track, so the second track is linked to a track of
    that package and a second stream is made. *)
Theorem mxf_parse_structural_metadata_stale_package :
  find_source_package (packages ex_context) (source_package_uid ex_clip_b)
  = Done None /\
  exists st0 st1,
    mxf_parse_structural_metadata (- 2 ^ 63) ex_context [] =
    Done (0, [st0; st1]) /\
    priv_data st0 = ex_source_track /\ priv_data st1 = ex_source_track.
Proof.
  split; [reflexivity|].
  eexists. eexists. split; [vm_compute; reflexivity|]. split; reflexivity.
Qed.

End MxfFacts.

(** ** Properties of the Matroska muxer *)

Module MkvFacts.

Import Mkv.

(** *** AAC sample rates *)

Lemma aac_sample_rate_at_bounds sri :
  0 <= sri <= 12 -> (aac_sample_rate_at sri = Fault <-> sri = 12).
Proof.
  intros H. unfold aac_sample_rate_at.
  assert (Hc : sri = 0 \/ sri = 1 \/ sri = 2 \/ sri = 3 \/ sri = 4 \/ sri = 5 \/
               sri = 6 \/ sri = 7 \/ sri = 8 \/ sri = 9 \/ sri = 10 \/
               sri = 11 \/ sri = 12) by lia.
  repeat (destruct Hc as [-> | Hc]; [cbn; split; [discriminate|lia]|]).
  subst. cbn. split; trivial.
Qed.

(** C9, at an input where the code departs from it.  The table has the
    twelve entries 0..11, and the guard [sri > 12] lets the index 12
    through: for the extradata [16 00] the first access, and for
    [10 00 00 00 60] the access for the output rate, is to the entry
    behind the last one. *)
Theorem get_aac_sample_rates_index_12 (sample_rate output_sample_rate : Z) :
  List.length aac_sample_rates = 12%nat /\
  get_aac_sample_rates [0x16; 0x00] sample_rate output_sample_rate = Fault /\
  get_aac_sample_rates [0x10; 0x00; 0x00; 0x00; 0x60]
    sample_rate output_sample_rate = Fault.
Proof. repeat split. Qed.

(** *** What a writer emits *)

Lemma patch_nil c p off : patch c p [] off = c off.
Proof.
  unfold patch. change (len (@nil Z)) with 0.
  destruct ((p <=? off) && (off <? p + 0)) eqn:E; [|reflexivity].
  apply andb_true_iff in E. destruct E as [E1 E2].
  apply Z.leb_le in E1. apply Z.ltb_lt in E2. lia.
Qed.

Lemma patch_app c p a b off :
  patch (patch c p a) (p + len a) b off = patch c p (a ++ b) off.
Proof.
  unfold patch. rewrite len_app.
  pose proof (len_nonneg a) as Ha. pose proof (len_nonneg b) as Hb.
  destruct (p + len a <=? off) eqn:E1; destruct (off <? p + len a + len b) eqn:E2;
    destruct (p <=? off) eqn:E3; destruct (off <? p + len a) eqn:E4;
    destruct (off <? p + (len a + len b)) eqn:E5; cbn [andb];
    rewrite ?Z.leb_le, ?Z.leb_gt, ?Z.ltb_lt, ?Z.ltb_ge in *; try lia;
    try reflexivity.
  - rewrite app_nth2 by (unfold len in *; lia).
    f_equal. unfold len in *. lia.
  - rewrite app_nth1 by (unfold len in *; lia). reflexivity.
Qed.

Lemma patch_ext c c' p bs off :
  (forall o, c o = c' o) -> patch c p bs off = patch c' p bs off.
Proof.
  intros H. unfold patch.
  destruct ((p <=? off) && (off <? p + len bs)); [reflexivity|apply H].
Qed.

Lemma emits_id : emits (fun pb => pb) [].
Proof.
  intros pb. split; [change (len (@nil Z)) with 0; lia|].
  intros off. symmetry. apply patch_nil.
Qed.

Lemma emits_seq f g a b :
  emits f a -> emits g b -> emits (fun pb => g (f pb)) (a ++ b).
Proof.
  intros Hf Hg pb. destruct (Hf pb) as [Hp Hc]. destruct (Hg (f pb)) as [Hp' Hc'].
  split; [rewrite Hp', Hp, len_app; lia|].
  intros off. rewrite Hc', <- patch_app, Hp.
  apply patch_ext, Hc.
Qed.

Lemma emits_ext f g bs : (forall pb, f pb = g pb) -> emits f bs -> emits g bs.
Proof. intros H Hf pb. rewrite <- H. apply Hf. Qed.

Lemma emits_put_byte b : emits (fun pb => put_byte pb b) [u8 b].
Proof.
  intros pb. split; [reflexivity|]. intros off. unfold put_byte, patch. cbn.
  change (len [u8 b]) with 1.
  destruct (off =? pos pb) eqn:E.
  - apply Z.eqb_eq in E. subst.
    rewrite Z.leb_refl, Z.sub_diag.
    destruct (pos pb <? pos pb + 1) eqn:E2; [reflexivity|].
    apply Z.ltb_ge in E2. lia.
  - apply Z.eqb_neq in E.
    destruct ((pos pb <=? off) && (off <? pos pb + 1)) eqn:E2; [|reflexivity].
    apply andb_true_iff in E2. destruct E2 as [E1 E2].
    apply Z.leb_le in E1. apply Z.ltb_lt in E2. lia.
Qed.

Lemma emits_put_be_bytes n v : emits (put_be_bytes n v) (be_bytes n v).
Proof.
  induction n as [|n IH]; cbn [put_be_bytes be_bytes].
  - apply emits_id.
  - apply (emits_seq (fun pb => put_byte pb _) (put_be_bytes n v) [_] _).
    + apply emits_put_byte.
    + exact IH.
Qed.

Lemma emits_put_buffer buf : emits (fun pb => put_buffer pb buf) (map u8 buf).
Proof.
  induction buf as [|b buf IH]; cbn [put_buffer map].
  - apply emits_id.
  - apply (emits_seq (fun pb => put_byte pb b) (fun pb => put_buffer pb buf) [_] _).
    + apply emits_put_byte.
    + exact IH.
Qed.

(** *** Sizes *)

Lemma shiftr_eq0 x n :
  0 <= x -> 0 <= n -> (Z.shiftr x n =? 0) = (x <? 2 ^ n).
Proof.
  intros Hx Hn. rewrite Z.shiftr_div_pow2 by assumption.
  assert (Hp : 0 < 2 ^ n) by (apply Z.pow_pos_nonneg; lia).
  destruct (Z.ltb_spec x (2 ^ n)) as [H|H].
  - apply Z.eqb_eq, Z.div_small. lia.
  - apply Z.eqb_neq. intros E.
    apply Z.div_small_iff in E; lia.
Qed.

(** The loop of [ebml_size_bytes] as the ladder of its tests. *)
Lemma ebml_size_bytes_ladder size :
  0 <= size < 2 ^ 64 - 1 ->
  ebml_size_bytes size =
  if size + 1 <? 2 ^ 7 then 1 else if size + 1 <? 2 ^ 14 then 2
  else if size + 1 <? 2 ^ 21 then 3 else if size + 1 <? 2 ^ 28 then 4
  else if size + 1 <? 2 ^ 35 then 5 else if size + 1 <? 2 ^ 42 then 6
  else if size + 1 <? 2 ^ 49 then 7 else if size + 1 <? 2 ^ 56 then 8
  else if size + 1 <? 2 ^ 63 then 9 else 10.
Proof.
  intros H. unfold ebml_size_bytes, ebml_size_bytes_loop.
  rewrite u64_small by lia.
  rewrite !shiftr_eq0 by lia.
  cbn [Z.add Z.mul Pos.add Pos.mul Pos.succ Pos.add_carry].
  destruct (Z.ltb_spec (size + 1) (2 ^ 70)) as [H70|H70]; [reflexivity|lia].
Qed.

(** [ebml_size_bytes] gives the least number of bytes whose 7-bit
    groups hold [size + 1]. *)
Lemma ebml_size_bytes_least size :
  0 <= size <= 2 ^ 56 - 2 ->
  1 <= ebml_size_bytes size <= 8 /\
  size + 1 < 2 ^ (7 * ebml_size_bytes size) /\
  (ebml_size_bytes size = 1 \/
   2 ^ (7 * (ebml_size_bytes size - 1)) <= size + 1).
Proof.
  intros H. rewrite ebml_size_bytes_ladder by lia.
  repeat match goal with
  | |- context [?a <? ?b] => destruct (Z.ltb_spec a b)
  end; cbn; lia.
Qed.

(** Below the all-ones size the loop gives the width of the size. *)
Lemma ebml_size_bytes_width size :
  0 <= size <= 2 ^ 56 - 2 -> ebml_size_bytes size = ebml_size_width size.
Proof.
  intros H. rewrite ebml_size_bytes_ladder by lia. unfold ebml_size_width.
  repeat match goal with
  | |- context [?a <? ?b] => destruct (Z.ltb_spec a b)
  end; lia.
Qed.

Lemma all_ones_8 : all_ones 8 = 255.
Proof. reflexivity. Qed.

Lemma emits_unknown_1 : emits (fun pb => put_ebml_size_unknown pb 1) [0xff].
Proof.
  apply (emits_ext (put_be_bytes 1 255)); [reflexivity|].
  apply (emits_put_be_bytes 1 255).
Qed.

Lemma log2_first_byte w v :
  1 <= w <= 8 -> 2 ^ (7 * w) <= v < 2 ^ (7 * w + 1) ->
  u8 (Z.shiftr v (8 * (w - 1))) = v / 2 ^ (8 * (w - 1)) /\
  0 < v / 2 ^ (8 * (w - 1)) /\
  Z.log2 (v / 2 ^ (8 * (w - 1))) = 8 - w.
Proof.
  intros Hw Hv.
  assert (Hp : 0 < 2 ^ (8 * (w - 1))) by (apply Z.pow_pos_nonneg; lia).
  assert (Hlo : 2 ^ (8 - w) <= v / 2 ^ (8 * (w - 1))).
  { apply Z.div_le_lower_bound; [lia|].
    rewrite <- Z.pow_add_r by lia.
    replace (8 * (w - 1) + (8 - w)) with (7 * w) by lia. lia. }
  assert (Hhi : v / 2 ^ (8 * (w - 1)) < 2 ^ (8 - w + 1)).
  { apply Z.div_lt_upper_bound; [lia|].
    rewrite <- Z.pow_add_r by lia.
    replace (8 * (w - 1) + (8 - w + 1)) with (7 * w + 1) by lia. lia. }
  assert (H256 : 2 ^ (8 - w + 1) <= 2 ^ 8)
    by (apply Z.pow_le_mono_r; lia).
  assert (H1 : 0 < 2 ^ (8 - w)) by (apply Z.pow_pos_nonneg; lia).
  repeat split.
  - rewrite Z.shiftr_div_pow2 by lia. unfold u8.
    apply Z.mod_small. lia.
  - lia.
  - apply Z.log2_unique; [lia|]. split; [exact Hlo|].
    replace (Z.succ (8 - w)) with (8 - w + 1) by lia. exact Hhi.
Qed.

(** A size below the all-ones payload, written on [w] bytes with its
    marker bit, reads back. *)
Lemma ebml_size_decode_be_bytes w s :
  1 <= w <= 8 -> 0 <= s < 2 ^ (7 * w) ->
  ebml_size_decode (be_bytes (Z.to_nat w) (s + 2 ^ (7 * w))) = Some s.
Proof.
  intros Hw Hs.
  assert (Hp : 0 < 2 ^ (7 * w)) by (apply Z.pow_pos_nonneg; lia).
  assert (Hv : 2 ^ (7 * w) <= s + 2 ^ (7 * w) < 2 ^ (7 * w + 1)).
  { rewrite Z.pow_add_r by lia. change (2 ^ 1) with 2. lia. }
  destruct (log2_first_byte w _ Hw Hv) as (Hb & Hpos & Hlog).
  destruct (Z.to_nat w) as [|n] eqn:En; [lia|].
  assert (Hn : Z.of_nat n = w - 1) by lia.
  set (v := s + 2 ^ (7 * w)) in *.
  assert (Hl : len (be_bytes (S n) v) = w).
  { unfold len. rewrite be_bytes_length. lia. }
  assert (Hbv : be_value (be_bytes (S n) v) = v).
  { rewrite be_value_be_bytes by lia. apply Z.mod_small. split; [lia|].
    replace (Z.of_nat (S n)) with w by lia.
    change 256 with (2 ^ 8). rewrite <- Z.pow_mul_r by lia.
    assert (2 ^ (7 * w + 1) <= 2 ^ (8 * w)) by (apply Z.pow_le_mono_r; lia).
    lia. }
  unfold ebml_size_decode. cbn [be_bytes].
  change (u8 (Z.shiftr v (8 * Z.of_nat n)) :: be_bytes n v)
    with (be_bytes (S n) v).
  rewrite Hl, Hbv, Hn, Hb, Hlog.
  destruct (Z.ltb_spec 0 (v / 2 ^ (8 * (w - 1)))) as [_|E1]; [|lia].
  replace (8 - (8 - w)) with w by lia.
  rewrite Z.eqb_refl. cbn [andb]. f_equal. unfold v. lia.
Qed.

(** What [put_ebml_size] emits for a size below the all-ones payload
    of 8 bytes and a minimum of at most 8. *)
Lemma emits_put_ebml_size size minbytes :
  0 <= size <= 2 ^ 56 - 2 -> minbytes <= 8 ->
  emits (fun pb => put_ebml_size pb size minbytes)
    (be_bytes (Z.to_nat (Z.max minbytes (ebml_size_bytes size)))
       (size + 2 ^ (7 * Z.max minbytes (ebml_size_bytes size)))).
Proof.
  intros Hs Hm.
  destruct (ebml_size_bytes_least size Hs) as (Hw & Hlt & _).
  set (w := Z.max minbytes (ebml_size_bytes size)).
  assert (Hw8 : 1 <= w <= 8) by (unfold w; lia).
  assert (Hle : 2 ^ (7 * ebml_size_bytes size) <= 2 ^ (7 * w))
    by (apply Z.pow_le_mono_r; unfold w; lia).
  assert (H56 : 2 ^ (7 * w) <= 2 ^ 56) by (apply Z.pow_le_mono_r; lia).
  assert (Hp : 0 < 2 ^ (7 * w)) by (apply Z.pow_pos_nonneg; lia).
  apply (emits_ext (put_be_bytes (Z.to_nat w) (size + 2 ^ (7 * w))));
    [|apply emits_put_be_bytes].
  intros pb. unfold put_ebml_size. rewrite u64_small by lia. fold w.
  destruct (Z.leb_spec (2 ^ 56 - 1) size) as [E|_]; [lia|].
  rewrite Z.shiftl_mul_pow2, Z.mul_1_l by lia.
  replace (w * 7) with (7 * w) by lia.
  rewrite u64_small by lia.
  replace (Z.lor size (2 ^ (7 * w))) with (size + 2 ^ (7 * w)); [reflexivity|].
  rewrite Z.lor_comm.
  replace (2 ^ (7 * w)) with (Z.shiftl 1 (7 * w)) at 2
    by (rewrite Z.shiftl_mul_pow2 by lia; lia).
  rewrite lor_shiftl_low by lia. lia.
Qed.



(** Between the all-ones size of 8 bytes and 2^63 - 1, where the loop
    of [ebml_size_bytes] ends, and for 2^64 - 1, where [size + 1] wraps
    to 0, the field for an unknown size is written. *)
Lemma emits_put_ebml_size_unknown size minbytes :
  2 ^ 56 - 1 <= size < 2 ^ 64 ->
  emits (fun pb => put_ebml_size pb size minbytes) [0xff].
Proof.
  intros Hs.
  apply (emits_ext (fun pb => put_ebml_size_unknown pb 1));
    [|apply emits_unknown_1].
  intros pb. unfold put_ebml_size. rewrite u64_small by lia.
  destruct (Z.leb_spec (2 ^ 56 - 1) size) as [_|E]; [reflexivity|lia].
Qed.

(** C5.  For a size from 0 to 2^56 - 2 and a minimum of at most 8
    bytes (the callers pass 0 or 8; beyond 8 the C code shifts the
    size by its 64 bits or more), [put_ebml_size] emits as many bytes as
    the larger of [minbytes] and [ebml_size_bytes size] says, and the
    bytes read back as [size] when the marker bit is cleared;
    [ebml_size_bytes size] is the width of the size there, the least
    number of 7-bit groups that hold [size + 1].  For a size from
    2^56 - 1 on it emits the one byte [0xff], whatever [minbytes] is;
    this is stated up to 2^63 - 2, and for 2^64 - 1: for the sizes
    between, the loop of [ebml_size_bytes], which runs first, comes to
    a shift by 70 bits and the C code has no result. *)
Theorem put_ebml_size_round_trip :
  (forall size minbytes,
      0 <= size <= 2 ^ 56 - 2 -> minbytes <= 8 ->
      exists bs,
        emits (fun pb => put_ebml_size pb size minbytes) bs /\
        len bs = Z.max minbytes (ebml_size_bytes size) /\
        len bs = Z.max minbytes (ebml_size_width size) /\
        ebml_size_decode bs = Some size) /\
  (forall size minbytes,
      2 ^ 56 - 1 <= size < 2 ^ 63 - 1 \/ size = 2 ^ 64 - 1 ->
      emits (fun pb => put_ebml_size pb size minbytes) [0xff]) /\
  (forall size,
      0 <= size <= 2 ^ 56 - 2 ->
      ebml_size_bytes size = ebml_size_width size /\
      1 <= ebml_size_bytes size <= 8 /\
      size + 1 < 2 ^ (7 * ebml_size_bytes size) /\
      (ebml_size_bytes size = 1 \/
       2 ^ (7 * (ebml_size_bytes size - 1)) <= size + 1)).
Proof.
  split; [|split].
  - intros size minbytes Hs Hm.
    destruct (ebml_size_bytes_least size Hs) as (Hw & Hlt & _).
    set (w := Z.max minbytes (ebml_size_bytes size)).
    assert (Hw8 : 1 <= w <= 8) by (unfold w; lia).
    assert (Hle : 2 ^ (7 * ebml_size_bytes size) <= 2 ^ (7 * w))
      by (apply Z.pow_le_mono_r; unfold w; lia).
    exists (be_bytes (Z.to_nat w) (size + 2 ^ (7 * w))).
    split; [exact (emits_put_ebml_size size minbytes Hs Hm)|].
    split; [unfold len; rewrite be_bytes_length; lia|].
    split; [|apply ebml_size_decode_be_bytes; lia].
    rewrite <- ebml_size_bytes_width by exact Hs.
    unfold len. rewrite be_bytes_length. lia.
  - intros size minbytes Hs.
    apply emits_put_ebml_size_unknown.
    assert (2 ^ 63 - 1 < 2 ^ 64) by reflexivity.
    assert (0 < 2 ^ 56 - 1 /\ 2 ^ 56 - 1 < 2 ^ 64 - 1) by (split; reflexivity).
    lia.
  - intros size Hs. split; [apply ebml_size_bytes_width, Hs|].
    apply ebml_size_bytes_least, Hs.
Qed.

Lemma put_ebml_size_round_trip_witness :
  exists bs,
    emits (fun pb => put_ebml_size pb 300 0) bs /\
    len bs = Z.max 0 (ebml_size_bytes 300) /\
    len bs = Z.max 0 (ebml_size_width 300) /\
    ebml_size_decode bs = Some 300.
Proof.
  apply (proj1 put_ebml_size_round_trip 300 0); lia.
Defined.

(** *** Identifiers, integers and master elements *)

Lemma ebml_id_size_bounds id : 1 <= ebml_id_size id <= 5.
Proof.
  unfold ebml_id_size, av_log2, u32.
  pose proof (Z.mod_pos_bound (id + 1) (2 ^ 32)) as Hm.
  set (x := (id + 1) mod 2 ^ 32) in *.
  pose proof (Z.log2_nonneg x) as H0.
  assert (H31 : Z.log2 x <= 31).
  { destruct (Z.eq_dec x 0) as [->|Hx]; [cbn; lia|].
    assert (Z.log2 x < 32) by (apply Z.log2_lt_pow2; lia). lia. }
  destruct (Z.eq_dec (Z.log2 x) 0) as [->|Hl]; [cbn; lia|].
  rewrite Z.quot_div_nonneg by lia.
  pose proof (Z.div_pos (Z.log2 x - 1) 7).
  assert (Z.log2 x - 1 < 7 * 5) by lia.
  pose proof (Z.div_lt_upper_bound (Z.log2 x - 1) 7 5). lia.
Qed.

Lemma quot_7 a k : 0 <= k -> 7 * k <= a < 7 * k + 7 -> Z.quot a 7 = k.
Proof.
  intros Hk Ha. rewrite Z.quot_div_nonneg by lia.
  symmetry. apply (Z.div_unique a 7 k (a - 7 * k)); lia.
Qed.

(** [ebml_id_size] is the width of the identifier. *)
Lemma ebml_id_size_width id : ebml_id_size id = ebml_id_width id.
Proof.
  unfold ebml_id_size, ebml_id_width, av_log2.
  assert (Hm : 0 <= u32 (id + 1) < 2 ^ 32)
    by (unfold u32; apply Z.mod_pos_bound; lia).
  set (x := u32 (id + 1)) in *.
  destruct (Z.eq_dec x 0) as [->|Hx]; [reflexivity|].
  pose proof (Z.log2_nonneg x) as H0.
  assert (Hlt : forall b, 0 <= b -> x < 2 ^ b -> Z.log2 x < b)
    by (intros b Hb H; apply Z.log2_lt_pow2; lia).
  assert (Hle : forall b, 0 <= b -> 2 ^ b <= x -> b <= Z.log2 x)
    by (intros b Hb H; apply Z.log2_le_pow2; lia).
  destruct (Z.ltb_spec x (2 ^ 8)) as [H8|H8].
  { specialize (Hlt 8 ltac:(lia) H8).
    destruct (Z.eq_dec (Z.log2 x) 0) as [->|Hl]; [reflexivity|].
    rewrite (quot_7 _ 0); lia. }
  specialize (Hle 8 ltac:(lia) H8).
  destruct (Z.ltb_spec x (2 ^ 15)) as [H15|H15].
  { specialize (Hlt 15 ltac:(lia) H15). rewrite (quot_7 _ 1); lia. }
  destruct (Z.ltb_spec x (2 ^ 22)) as [H22|H22].
  { specialize (Hlt 22 ltac:(lia) H22).
    pose proof (Z.log2_le_pow2 x 15 ltac:(lia)) as [L _].
    specialize (L H15). rewrite (quot_7 _ 2); lia. }
  destruct (Z.ltb_spec x (2 ^ 29)) as [H29|H29].
  { specialize (Hlt 29 ltac:(lia) H29).
    pose proof (Z.log2_le_pow2 x 22 ltac:(lia)) as [L _].
    specialize (L H22). rewrite (quot_7 _ 3); lia. }
  specialize (Hlt 32 ltac:(lia) ltac:(lia)).
  pose proof (Z.log2_le_pow2 x 29 ltac:(lia)) as [L _].
  specialize (L H29). rewrite (quot_7 _ 4); lia.
Qed.

Lemma len_ebml_id_bytes id : len (ebml_id_bytes id) = ebml_id_size id.
Proof.
  unfold ebml_id_bytes, len. rewrite be_bytes_length, <- ebml_id_size_width.
  pose proof (ebml_id_size_bounds id). lia.
Qed.

Lemma emits_put_ebml_id id : emits (fun pb => put_ebml_id pb id) (ebml_id_bytes id).
Proof.
  unfold put_ebml_id, ebml_id_bytes. rewrite ebml_id_size_width.
  apply emits_put_be_bytes.
Qed.

(** The loop of [put_ebml_uint] as the ladder of its tests. *)
Lemma uint_bytes_ladder val :
  0 <= val < 2 ^ 64 ->
  uint_bytes val =
  if val <? 2 ^ 8 then 1 else if val <? 2 ^ 16 then 2
  else if val <? 2 ^ 24 then 3 else if val <? 2 ^ 32 then 4
  else if val <? 2 ^ 40 then 5 else if val <? 2 ^ 48 then 6
  else if val <? 2 ^ 56 then 7 else 8.
Proof.
  intros H. unfold uint_bytes, uint_bytes_loop.
  rewrite !shiftr_eq0 by lia.
  cbn [Z.add Z.mul Pos.add Pos.mul Pos.succ Pos.add_carry].
  destruct (Z.ltb_spec val (2 ^ 64)) as [_|H64]; [reflexivity|lia].
Qed.

(** The loop gives the width of the value. *)
Lemma uint_bytes_width val :
  0 <= val < 2 ^ 64 -> uint_bytes val = uint_width val.
Proof. intros H. rewrite uint_bytes_ladder by exact H. reflexivity. Qed.

Lemma uint_bytes_bounds val : 0 <= val < 2 ^ 64 -> 1 <= uint_bytes val <= 8.
Proof.
  intros H. rewrite uint_bytes_ladder by assumption.
  repeat match goal with
  | |- context [?a <? ?b] => destruct (Z.ltb_spec a b)
  end; lia.
Qed.

Lemma u64_range x : 0 <= u64 x < 2 ^ 64.
Proof. unfold u64. apply Z.mod_pos_bound. lia. Qed.

Lemma len_be_bytes n v : len (be_bytes n v) = Z.of_nat n.
Proof. unfold len. rewrite be_bytes_length. reflexivity. Qed.

Lemma be_bytes_1 v : 0 <= v < 256 -> be_bytes 1 v = [v].
Proof.
  intros H. unfold be_bytes. change (8 * Z.of_nat 0) with 0.
  rewrite Z.shiftr_0_r. unfold u8. rewrite Z.mod_small by lia. reflexivity.
Qed.

Lemma emits_put_ebml_uint elementid val :
  emits (fun pb => put_ebml_uint pb elementid val)
    (ebml_uint_bytes elementid val).
Proof.
  unfold put_ebml_uint, ebml_uint_bytes.
  rewrite <- (uint_bytes_width (u64 val)) by apply u64_range.
  pose proof (uint_bytes_bounds (u64 val) (u64_range val)) as Hb.
  set (n := uint_bytes (u64 val)) in *.
  apply (emits_seq (fun pb => put_ebml_id pb elementid)
           (fun pb => put_be_bytes (Z.to_nat n) (u64 val) (put_ebml_size pb n 0))).
  - apply emits_put_ebml_id.
  - apply (emits_seq (fun pb => put_ebml_size pb n 0)
             (put_be_bytes (Z.to_nat n) (u64 val))).
    + assert (Hs : 0 <= n <= 2 ^ 56 - 2) by lia.
      pose proof (emits_put_ebml_size n 0 Hs ltac:(lia)) as He.
      rewrite ebml_size_bytes_ladder in He by lia.
      destruct (Z.ltb_spec (n + 1) (2 ^ 7)) as [_|E]; [|lia].
      change (Z.max 0 1) with 1 in He. change (Z.to_nat 1) with 1%nat in He.
      change (7 * 1) with 7 in He.
      rewrite be_bytes_1 in He by lia.
      replace (n + 2 ^ 7) with (0x80 + n) in He by lia. exact He.
    + apply emits_put_be_bytes.
Qed.

Lemma len_ebml_uint_bytes elementid val :
  ebml_id_size elementid + 2 <= len (ebml_uint_bytes elementid val)
  <= ebml_id_size elementid + 9.
Proof.
  unfold ebml_uint_bytes. rewrite !len_app, len_ebml_id_bytes.
  rewrite <- (uint_bytes_width (u64 val)) by apply u64_range.
  pose proof (uint_bytes_bounds (u64 val) (u64_range val)) as Hb.
  rewrite len_be_bytes, len_cons, len_nil. lia.
Qed.

(** A value [put_ebml_uint] is defined for is what the payload of its
    element reads back as. *)
Lemma uint_okb_spec val : uint_okb val = true <-> 0 <= val < 2 ^ 56.
Proof. unfold uint_okb. rewrite andb_true_iff, Z.leb_le, Z.ltb_lt. reflexivity. Qed.

Lemma uint_okb_u64 val : uint_okb val = true -> u64 val = val /\ u64 val < 2 ^ 56.
Proof.
  intros H. apply uint_okb_spec in H.
  assert (2 ^ 56 < 2 ^ 64) by reflexivity.
  rewrite u64_small by lia. lia.
Qed.

Lemma ebml_uint_bytes_value elementid val :
  uint_okb val = true ->
  exists n payload,
    ebml_uint_bytes elementid val
    = ebml_id_bytes elementid ++ [0x80 + n] ++ payload /\
    1 <= n <= 7 /\ len payload = n /\ be_value payload = val.
Proof.
  intros H. destruct (uint_okb_u64 val H) as [Hu _].
  apply uint_okb_spec in H.
  unfold ebml_uint_bytes. rewrite Hu.
  exists (uint_width val), (be_bytes (Z.to_nat (uint_width val)) val).
  split; [reflexivity|].
  assert (Hw : 1 <= uint_width val <= 7 /\ val < 2 ^ (8 * uint_width val)).
  { unfold uint_width.
    repeat match goal with
    | |- context [?a <? ?b] => destruct (Z.ltb_spec a b)
    end; cbn; lia. }
  split; [apply Hw|]. split; [rewrite len_be_bytes; lia|].
  rewrite be_value_be_bytes by lia. rewrite Z2Nat.id by lia.
  apply Z.mod_small. change 256 with (2 ^ 8).
  rewrite <- Z.pow_mul_r by lia. lia.
Qed.

Lemma emits_unknown_8 :
  emits (fun pb => put_ebml_size_unknown pb 8) [1; 255; 255; 255; 255; 255; 255; 255].
Proof.
  apply (emits_ext (put_be_bytes 8 (2 ^ 57 - 1))); [reflexivity|].
  apply (emits_put_be_bytes 8 (2 ^ 57 - 1)).
Qed.

(** A master element: [start_ebml_master], the body, [end_ebml_master]. *)
Definition master (elementid : Z) (body : ByteIOContext -> ByteIOContext)
  (pb : ByteIOContext) : ByteIOContext :=
  let '(start, pb) := start_ebml_master pb elementid in
  end_ebml_master (body pb) start.

Lemma patch_master c p q a b b' d off :
  len b = len b' -> q = p + len a ->
  patch (patch (patch (patch c p a) q b) (q + len b) d) q b' off =
  patch c p (a ++ b' ++ d) off.
Proof.
  intros Hl ->.
  rewrite <- patch_app, <- patch_app, <- Hl.
  unfold patch.
  pose proof (len_nonneg a). pose proof (len_nonneg b). pose proof (len_nonneg d).
  rewrite <- Hl.
  repeat match goal with
  | |- context [?x <=? ?y] => destruct (Z.leb_spec x y)
  | |- context [?x <? ?y] => destruct (Z.ltb_spec x y)
  end; cbn [andb]; try reflexivity; try lia.
Qed.

Lemma master_content c c1 c2 c3 c5 p q a b b' d :
  (forall o, c1 o = patch c p a o) ->
  (forall o, c2 o = patch c1 q b o) ->
  (forall o, c3 o = patch c2 (q + len b) d o) ->
  (forall o, c5 o = patch c3 q b' o) ->
  len b = len b' -> q = p + len a ->
  forall off, c5 off = patch c p (a ++ b' ++ d) off.
Proof.
  intros H1 H2 H3 H5 Hl Hq off.
  rewrite H5.
  rewrite (patch_ext c3 (patch c2 (q + len b) d)) by exact H3.
  rewrite (patch_ext (patch c2 (q + len b) d)
             (patch (patch c1 q b) (q + len b) d))
    by (intros o; apply patch_ext; exact H2).
  rewrite (patch_ext (patch (patch c1 q b) (q + len b) d)
             (patch (patch (patch c p a) q b) (q + len b) d))
    by (intros o; apply patch_ext; intros o'; apply patch_ext; exact H1).
  apply patch_master; assumption.
Qed.

Lemma emits_master elementid body bs :
  emits body bs -> len bs < 2 ^ 56 - 1 ->
  emits (master elementid body) (ebml_master_bytes elementid bs).
Proof.
  intros Hb Hlen pb. pose proof (len_nonneg bs) as H0.
  unfold master, start_ebml_master, end_ebml_master, url_ftell, url_fseek.
  destruct (emits_put_ebml_id elementid pb) as [P1 C1].
  set (pb1 := put_ebml_id pb elementid) in *.
  destruct (emits_unknown_8 pb1) as [P2 C2].
  set (pb2 := put_ebml_size_unknown pb1 8) in *.
  destruct (Hb pb2) as [P3 C3].
  set (pb3 := body pb2) in *.
  change (len [1; 255; 255; 255; 255; 255; 255; 255]) with 8 in P2.
  assert (Hs : 0 <= pos pb3 - pos pb2 <= 2 ^ 56 - 2) by lia.
  pose proof (emits_put_ebml_size _ 8 Hs ltac:(lia)
                (mkPB (content pb3) (pos pb2 - 8))) as [P5 C5].
  rewrite ebml_size_bytes_ladder in P5, C5 by lia.
  assert (Hmax : forall x, 1 <= x <= 10 -> Z.max 8 x = 8 \/ 8 < x) by lia.
  set (w := Z.max 8 _) in *.
  assert (Hw : w = 8).
  { unfold w.
    repeat match goal with
    | |- context [?a <? ?b] => destruct (Z.ltb_spec a b)
    end; lia. }
  clearbody w. subst w.
  cbn [pos content] in *. change (Z.to_nat 8) with 8%nat in *.
  change (7 * 8) with 56 in *.
  replace (pos pb3 - pos pb2 + 2 ^ 56) with (2 ^ 56 + len bs) in * by lia.
  rewrite len_be_bytes in P5.
  unfold ebml_master_bytes. split.
  - rewrite !len_app, len_be_bytes. lia.
  - apply (master_content (content pb) (content pb1) (content pb2)
             (content pb3) _ (pos pb) (pos pb1) (ebml_id_bytes elementid)
             [1; 255; 255; 255; 255; 255; 255; 255]
             (be_bytes 8 (2 ^ 56 + len bs)) bs);
      [ exact C1 | exact C2 | | | rewrite len_be_bytes; reflexivity | lia ].
    + intros o. rewrite C3. f_equal.
      change (len [1; 255; 255; 255; 255; 255; 255; 255]) with 8. lia.
    + intros o. rewrite C5. f_equal. lia.
Qed.

(** *** Runs of cue entries *)

(** The entries at the head of [l] whose [pts] is [pts], and the rest. *)
Fixpoint same_pts (pts : Z) (l : list mkv_cuepoint) : list mkv_cuepoint :=
  match l with
  | e :: rest => if cue_pts e =? pts then e :: same_pts pts rest else []
  | [] => []
  end.

Fixpoint after_pts (pts : Z) (l : list mkv_cuepoint) : list mkv_cuepoint :=
  match l with
  | e :: rest => if cue_pts e =? pts then after_pts pts rest else l
  | [] => []
  end.

Lemma same_after pts l : same_pts pts l ++ after_pts pts l = l.
Proof.
  induction l as [|e l IH]; cbn [same_pts after_pts]; [reflexivity|].
  destruct (cue_pts e =? pts); [cbn [app]; rewrite IH|]; reflexivity.
Qed.

Lemma skipn_same_pts pts l :
  skipn (List.length (same_pts pts l)) l = after_pts pts l.
Proof.
  induction l as [|e l IH]; cbn [same_pts after_pts]; [reflexivity|].
  destruct (cue_pts e =? pts); cbn [List.length skipn]; [exact IH|reflexivity].
Qed.

Lemma pts_runs_cons e rest :
  pts_runs (e :: rest) =
  (e :: same_pts (cue_pts e) rest) :: pts_runs (after_pts (cue_pts e) rest).
Proof.
  revert e. induction rest as [|e1 rest IH]; intros e; [reflexivity|].
  cbn [pts_runs same_pts after_pts] in *. rewrite (IH e1).
  rewrite (Z.eqb_sym (cue_pts e1) (cue_pts e)).
  destruct (Z.eqb_spec (cue_pts e) (cue_pts e1)) as [E|E].
  - rewrite E. reflexivity.
  - rewrite <- (IH e1). reflexivity.
Qed.

Lemma pts_runs_uniform l : Forall run_uniform (pts_runs l).
Proof.
  induction l as [|e l IH]; [constructor|]. cbn [pts_runs].
  assert (H1 : run_uniform [e]).
  { split; [discriminate|]. intros x [<-|[]]. reflexivity. }
  destruct (pts_runs l) as [|[|e' run] runs].
  - constructor; [exact H1|constructor].
  - constructor; [exact H1|constructor].
  - inversion IH as [|? ? [_ Hr] Hrs]; subst.
    destruct (Z.eqb_spec (cue_pts e) (cue_pts e')) as [E|E].
    + constructor; [|assumption]. split; [discriminate|].
      unfold run_pts in *. cbn [nth] in *. intros x [<-|Hx]; [reflexivity|].
      rewrite E. apply Hr, Hx.
    + constructor; [assumption|]. constructor; [|assumption].
      split; [discriminate|exact Hr].
Qed.

Lemma pts_runs_concat l : concat (pts_runs l) = l.
Proof.
  induction l as [|e l IH]; [reflexivity|]. cbn [pts_runs].
  pose proof (pts_runs_uniform l) as Hu.
  destruct (pts_runs l) as [|[|e' run] runs].
  - cbn [concat app] in *. rewrite <- IH. reflexivity.
  - exfalso. inversion Hu as [|? ? [Hn _] _]. apply Hn. reflexivity.
  - destruct (cue_pts e =? cue_pts e'); cbn [concat app] in *;
      rewrite <- IH; reflexivity.
Qed.

Lemma pts_runs_distinct l : runs_distinct (pts_runs l).
Proof.
  induction l as [|e l IH]; [exact I|]. cbn [pts_runs].
  destruct (pts_runs l) as [|[|e' run] runs] eqn:E.
  - exact I.
  - exact I.
  - destruct (Z.eqb_spec (cue_pts e) (cue_pts e')) as [Ee|Ee].
    + cbn [runs_distinct] in *. destruct runs as [|r2 rs].
      * exact I.
      * destruct IH as [Hd IH]. split; [|exact IH].
        unfold run_pts in *. cbn [nth] in *. rewrite Ee. exact Hd.
    + cbn [runs_distinct]. split; [exact Ee|exact IH].
Qed.

(** *** Writing the Cues *)

Section CuesFacts.

Variable ids : matroska_ids.

Lemma len_ebml_master_bytes id body :
  len (ebml_master_bytes id body) = ebml_id_size id + 8 + len body.
Proof.
  unfold ebml_master_bytes. rewrite !len_app, len_ebml_id_bytes, len_be_bytes.
  lia.
Qed.

Lemma len_track_position_bytes e :
  len (track_position_bytes ids e) <= 41.
Proof.
  unfold track_position_bytes. rewrite len_ebml_master_bytes, len_app.
  pose proof (len_ebml_uint_bytes (MATROSKA_ID_CUETRACK ids) (tracknum e)).
  pose proof (len_ebml_uint_bytes (MATROSKA_ID_CUECLUSTERPOSITION ids)
                (cue_cluster_pos e)).
  pose proof (ebml_id_size_bounds (MATROSKA_ID_CUETRACKPOSITION ids)).
  pose proof (ebml_id_size_bounds (MATROSKA_ID_CUETRACK ids)).
  pose proof (ebml_id_size_bounds (MATROSKA_ID_CUECLUSTERPOSITION ids)).
  lia.
Qed.

Lemma len_concat_map_le {A} (f : A -> list Z) (B : Z) (l : list A) :
  (forall x, len (f x) <= B) -> len (concat (map f l)) <= B * len l.
Proof.
  intros H. induction l as [|x l IH]; cbn [map concat].
  - unfold len. cbn [List.length Z.of_nat]. lia.
  - rewrite len_app, len_cons. specialize (H x). lia.
Qed.

Lemma emits_write_track_position e :
  emits (fun pb => write_track_position ids pb e) (track_position_bytes ids e).
Proof.
  unfold track_position_bytes.
  apply (emits_ext
           (master (MATROSKA_ID_CUETRACKPOSITION ids)
              (fun pb =>
                 put_ebml_uint
                   (put_ebml_uint pb (MATROSKA_ID_CUETRACK ids) (tracknum e))
                   (MATROSKA_ID_CUECLUSTERPOSITION ids) (cue_cluster_pos e))));
    [reflexivity|].
  apply emits_master.
  - apply (emits_seq (fun pb => put_ebml_uint pb _ _)
             (fun pb => put_ebml_uint pb _ _)); apply emits_put_ebml_uint.
  - rewrite len_app.
    pose proof (len_ebml_uint_bytes (MATROSKA_ID_CUETRACK ids) (tracknum e)).
    pose proof (len_ebml_uint_bytes (MATROSKA_ID_CUECLUSTERPOSITION ids)
                  (cue_cluster_pos e)).
    pose proof (ebml_id_size_bounds (MATROSKA_ID_CUETRACK ids)).
    pose proof (ebml_id_size_bounds (MATROSKA_ID_CUECLUSTERPOSITION ids)).
    lia.
Qed.

Lemma write_track_positions_count entry pts : forall pb j,
  snd (write_track_positions ids pb entry pts j) = j + len (same_pts pts entry).
Proof.
  induction entry as [|e entry IH]; intros pb j;
    cbn [write_track_positions same_pts].
  - cbn [snd]. rewrite len_nil. lia.
  - destruct (cue_pts e =? pts).
    + rewrite IH, len_cons. lia.
    + cbn [snd]. rewrite len_nil. lia.
Qed.

Lemma emits_write_track_positions entry pts : forall j,
  emits (fun pb => fst (write_track_positions ids pb entry pts j))
    (concat (map (track_position_bytes ids) (same_pts pts entry))).
Proof.
  induction entry as [|e entry IH]; intros j;
    cbn [write_track_positions same_pts].
  - apply emits_id.
  - destruct (cue_pts e =? pts); [|apply emits_id].
    cbn [map concat].
    apply (emits_seq (fun pb => write_track_position ids pb e)
             (fun pb => fst (write_track_positions ids pb entry pts (j + 1)))).
    + apply emits_write_track_position.
    + apply IH.
Qed.

(** One turn of the outer loop: the CuePoint of the run that starts
    with [e]. *)
Definition write_cuepoint (e : mkv_cuepoint) (rest : list mkv_cuepoint)
  (pb : ByteIOContext) : ByteIOContext :=
  master (MATROSKA_ID_POINTENTRY ids)
    (fun pb =>
       fst (write_track_positions ids
              (put_ebml_uint pb (MATROSKA_ID_CUETIME ids) (cue_pts e))
              (e :: rest) (cue_pts e) 0))
    pb.

Lemma same_pts_head e rest :
  same_pts (cue_pts e) (e :: rest) = e :: same_pts (cue_pts e) rest.
Proof. cbn [same_pts]. rewrite Z.eqb_refl. reflexivity. Qed.

Lemma len_same_pts pts l : len (same_pts pts l) <= len l.
Proof.
  rewrite <- (same_after pts l) at 2. rewrite len_app.
  pose proof (len_nonneg (after_pts pts l)). lia.
Qed.

Lemma emits_write_cuepoint e rest :
  len rest < 2 ^ 31 ->
  emits (write_cuepoint e rest)
    (cuepoint_bytes ids (e :: same_pts (cue_pts e) rest)).
Proof.
  intros Hl. unfold write_cuepoint, cuepoint_bytes.
  change (run_pts (e :: same_pts (cue_pts e) rest)) with (cue_pts e).
  rewrite <- same_pts_head.
  apply emits_master.
  - apply (emits_seq (fun pb => put_ebml_uint pb _ _)
             (fun pb => fst (write_track_positions ids pb _ _ 0))).
    + apply emits_put_ebml_uint.
    + apply emits_write_track_positions.
  - rewrite len_app.
    pose proof (len_ebml_uint_bytes (MATROSKA_ID_CUETIME ids) (cue_pts e)).
    pose proof (ebml_id_size_bounds (MATROSKA_ID_CUETIME ids)).
    pose proof (len_concat_map_le (track_position_bytes ids) 41
                  (same_pts (cue_pts e) (e :: rest)) len_track_position_bytes).
    pose proof (len_same_pts (cue_pts e) (e :: rest)).
    rewrite len_cons in *. pose proof (len_nonneg rest).
    assert (2 ^ 31 * 42 + 14 < 2 ^ 56 - 1) by (cbn; lia).
    lia.
Qed.

Lemma write_cuepoints_step fuel pb entries i e rest :
  skipn (Z.to_nat i) entries = e :: rest -> 0 <= i < len entries ->
  write_cuepoints ids (S fuel) pb entries i =
  write_cuepoints ids fuel (write_cuepoint e rest pb) entries
    (i + 1 + len (same_pts (cue_pts e) rest)).
Proof.
  intros Hs Hi. cbn [write_cuepoints].
  destruct (Z.ltb_spec i (len entries)) as [_|E]; [|lia].
  rewrite Hs. cbn [nth]. unfold write_cuepoint, master.
  destruct (start_ebml_master pb (MATROSKA_ID_POINTENTRY ids)) as [cuepoint pb1].
  pose proof (write_track_positions_count (e :: rest) (cue_pts e)
                (put_ebml_uint pb1 (MATROSKA_ID_CUETIME ids) (cue_pts e)) 0)
    as Hj.
  destruct (write_track_positions ids _ (e :: rest) (cue_pts e) 0) as [pb2 j].
  cbn [fst snd] in *. rewrite Hj, same_pts_head, len_cons.
  f_equal. lia.
Qed.

Lemma skipn_after_run entries i e rest :
  0 <= i -> skipn (Z.to_nat i) entries = e :: rest ->
  skipn (Z.to_nat (i + 1 + len (same_pts (cue_pts e) rest))) entries =
  after_pts (cue_pts e) rest.
Proof.
  intros Hi Hs. unfold len.
  replace (Z.to_nat (i + 1 + Z.of_nat (List.length (same_pts (cue_pts e) rest))))
    with (S (List.length (same_pts (cue_pts e) rest)) + Z.to_nat i)%nat by lia.
  rewrite <- skipn_skipn, Hs. cbn [skipn]. apply skipn_same_pts.
Qed.

Lemma emits_write_cuepoints entries :
  len entries < 2 ^ 31 ->
  forall fuel i,
    0 <= i <= len entries -> len entries - i <= Z.of_nat fuel ->
    emits (fun pb => write_cuepoints ids fuel pb entries i)
      (concat (map (cuepoint_bytes ids)
                 (pts_runs (skipn (Z.to_nat i) entries)))).
Proof.
  intros Hl fuel. induction fuel as [|fuel IH]; intros i Hi Hf.
  - assert (i = len entries) by lia. subst i. unfold len.
    rewrite Nat2Z.id, skipn_all. apply emits_id.
  - destruct (skipn (Z.to_nat i) entries) as [|e rest] eqn:Hs.
    + apply (emits_ext (fun pb => pb)); [|apply emits_id].
      intros pb. cbn [write_cuepoints].
      destruct (Z.ltb_spec i (len entries)) as [E|_]; [|reflexivity].
      exfalso. apply (f_equal (@List.length _)) in Hs.
      rewrite length_skipn in Hs. unfold len in E. cbn in Hs. lia.
    + assert (Hlt : i < len entries).
      { apply (f_equal (@List.length _)) in Hs.
        rewrite length_skipn in Hs. unfold len. cbn in Hs. lia. }
      assert (Hr : len rest < 2 ^ 31).
      { apply (f_equal len) in Hs. unfold len in *.
        rewrite length_skipn in Hs. cbn [List.length] in Hs. lia. }
      rewrite pts_runs_cons. cbn [map concat].
      rewrite <- (skipn_after_run entries i e rest) by (trivial; lia).
      pose proof (len_same_pts (cue_pts e) rest) as Hsame.
      pose proof (len_nonneg (same_pts (cue_pts e) rest)) as H0.
      assert (Hrest : len rest = len entries - i - 1).
      { apply (f_equal len) in Hs. unfold len in *.
        rewrite length_skipn in Hs. cbn [List.length] in Hs. lia. }
      apply (emits_ext
               (fun pb => write_cuepoints ids fuel (write_cuepoint e rest pb)
                            entries (i + 1 + len (same_pts (cue_pts e) rest)))).
      * intros pb. symmetry. apply write_cuepoints_step; [exact Hs|lia].
      * apply (emits_seq (write_cuepoint e rest)
                 (fun pb => write_cuepoints ids fuel pb entries _)).
        -- apply emits_write_cuepoint, Hr.
        -- apply IH; lia.
Qed.

Lemma len_cuepoint_bytes run :
  run <> [] -> len (cuepoint_bytes ids run) <= 68 * len run.
Proof.
  intros Hn. unfold cuepoint_bytes. rewrite len_ebml_master_bytes, len_app.
  pose proof (len_ebml_uint_bytes (MATROSKA_ID_CUETIME ids) (run_pts run)).
  pose proof (ebml_id_size_bounds (MATROSKA_ID_CUETIME ids)).
  pose proof (ebml_id_size_bounds (MATROSKA_ID_POINTENTRY ids)).
  pose proof (len_concat_map_le (track_position_bytes ids) 41 run
                len_track_position_bytes).
  destruct run as [|e run]; [congruence|].
  rewrite len_cons in *. pose proof (len_nonneg run). lia.
Qed.

Lemma len_cuepoints_bytes runs :
  Forall run_uniform runs ->
  len (concat (map (cuepoint_bytes ids) runs)) <= 68 * len (concat runs).
Proof.
  induction 1 as [|run runs [Hn _] _ IH]; cbn [map concat].
  - unfold len. cbn [List.length Z.of_nat]. lia.
  - rewrite !len_app. pose proof (len_cuepoint_bytes run Hn). lia.
Qed.

Lemma cue_okb_spec e :
  cue_okb e = true ->
  uint_okb (cue_pts e) = true /\ uint_okb (tracknum e) = true /\
  uint_okb (cue_cluster_pos e) = true.
Proof.
  unfold cue_okb. rewrite !andb_true_iff, Z.leb_le, Z.ltb_lt.
  intros [[[H1 H2] H3] H4]. repeat split; trivial.
  apply uint_okb_spec. assert (2 ^ 31 < 2 ^ 56) by reflexivity. lia.
Qed.

(** C7.  [mkv_write_cues], for entries whose numbers [put_ebml_uint] is
    defined for, returns the offset it started at and emits the Cues
    element with one CuePoint for every run of [pts_runs], the CuePoint
    holding the CueTime of the run and one CueTrackPosition for every
    entry of the run in order.  The runs are the entries in their
    order, cut where the [pts] changes: every run is of one [pts], and
    runs that follow each other differ in it, so entries of equal [pts]
    that do not stand side by side stay in different CuePoints.  The
    CueTrackPosition of an entry holds two integer elements whose
    payloads read back as the track number and the cluster position of
    the entry, which [mkv_add_cuepoint] stored relative to the
    Segment. *)
Theorem mkv_write_cues_groups_runs (cues : mkv_cues) :
  len (cues_entries cues) < 2 ^ 31 ->
  forallb cue_okb (cues_entries cues) = true ->
  (forall pb, fst (mkv_write_cues ids pb cues) = pos pb) /\
  emits (fun pb => snd (mkv_write_cues ids pb cues))
    (cues_bytes ids (cues_entries cues)) /\
  concat (pts_runs (cues_entries cues)) = cues_entries cues /\
  Forall run_uniform (pts_runs (cues_entries cues)) /\
  runs_distinct (pts_runs (cues_entries cues)) /\
  (forall e, In e (cues_entries cues) ->
     exists n1 p1 n2 p2,
       track_position_bytes ids e
       = ebml_master_bytes (MATROSKA_ID_CUETRACKPOSITION ids)
           ((ebml_id_bytes (MATROSKA_ID_CUETRACK ids) ++ [0x80 + n1] ++ p1) ++
            (ebml_id_bytes (MATROSKA_ID_CUECLUSTERPOSITION ids) ++
             [0x80 + n2] ++ p2)) /\
       len p1 = n1 /\ be_value p1 = tracknum e /\
       len p2 = n2 /\ be_value p2 = cue_cluster_pos e) /\
  (forall pkt cluster_pos,
     cues_entries (snd (mkv_add_cuepoint cues pkt cluster_pos))
     = cues_entries cues ++
       [mkCuepoint (u64 (pkt_pts pkt)) (stream_index pkt + 1)
          (cluster_pos - cues_segment_offset cues)]).
Proof.
  intros Hl Hok. split; [|split; [|split; [|split; [|split; [|split]]]]].
  - intros pb. unfold mkv_write_cues.
    destruct (start_ebml_master pb (MATROSKA_ID_CUES ids)). reflexivity.
  - unfold cues_bytes.
    apply (emits_ext
             (master (MATROSKA_ID_CUES ids)
                (fun pb => write_cuepoints ids
                             (List.length (cues_entries cues)) pb
                             (cues_entries cues) 0))).
    + intros pb. unfold mkv_write_cues, master.
      destruct (start_ebml_master pb (MATROSKA_ID_CUES ids)). reflexivity.
    + apply emits_master.
      * apply (emits_write_cuepoints (cues_entries cues) Hl
                 (List.length (cues_entries cues)) 0).
        -- pose proof (len_nonneg (cues_entries cues)). lia.
        -- unfold len. lia.
      * pose proof (len_cuepoints_bytes _ (pts_runs_uniform (cues_entries cues)))
          as Hb.
        rewrite pts_runs_concat in Hb.
        assert (68 * 2 ^ 31 < 2 ^ 56 - 1) by (cbn; lia). lia.
  - apply pts_runs_concat.
  - apply pts_runs_uniform.
  - apply pts_runs_distinct.
  - intros e He. rewrite forallb_forall in Hok.
    destruct (cue_okb_spec e (Hok e He)) as (_ & Ht & Hc).
    destruct (ebml_uint_bytes_value (MATROSKA_ID_CUETRACK ids) _ Ht)
      as (n1 & p1 & E1 & _ & L1 & V1).
    destruct (ebml_uint_bytes_value (MATROSKA_ID_CUECLUSTERPOSITION ids) _ Hc)
      as (n2 & p2 & E2 & _ & L2 & V2).
    exists n1, p1, n2, p2. unfold track_position_bytes.
    rewrite E1, E2. repeat split; assumption.
  - intros pkt cluster_pos. reflexivity.
Qed.

End CuesFacts.

(** *** Writers that only move on *)

(** [f] leaves the cursor where it was or further on and touches no
    byte before the place the cursor was at. *)
Definition forward (f : ByteIOContext -> ByteIOContext) : Prop :=
  forall pb,
    pos pb <= pos (f pb) /\
    forall off, off < pos pb -> content (f pb) off = content pb off.

Lemma patch_below c p bs off : off < p -> patch c p bs off = c off.
Proof.
  intros H. unfold patch.
  destruct (Z.leb_spec p off); [lia|reflexivity].
Qed.

Lemma patch_above c p bs off : p + len bs <= off -> patch c p bs off = c off.
Proof.
  intros H. unfold patch.
  destruct (Z.ltb_spec off (p + len bs)); [lia|].
  rewrite andb_false_r. reflexivity.
Qed.

Lemma patch_at c p bs i :
  0 <= i < len bs -> patch c p bs (p + i) = nth (Z.to_nat i) bs 0.
Proof.
  intros H. unfold patch.
  destruct (Z.leb_spec p (p + i)); [|lia].
  destruct (Z.ltb_spec (p + i) (p + len bs)); [|lia].
  cbn [andb]. f_equal. lia.
Qed.

Lemma emits_forward f bs : emits f bs -> forward f.
Proof.
  intros H pb. destruct (H pb) as [P C]. pose proof (len_nonneg bs). split; [lia|].
  intros off Ho. rewrite C. apply patch_below, Ho.
Qed.

Lemma forward_seq f g : forward f -> forward g -> forward (fun pb => g (f pb)).
Proof.
  intros Hf Hg pb. destruct (Hf pb) as [P C]. destruct (Hg (f pb)) as [P' C'].
  split; [lia|]. intros off Ho. rewrite C' by lia. apply C, Ho.
Qed.

(** [put_ebml_size] emits some bytes, whatever its arguments. *)
Lemma put_ebml_size_emits size minbytes :
  exists bs, emits (fun pb => put_ebml_size pb size minbytes) bs.
Proof.
  unfold put_ebml_size.
  destruct (2 ^ 56 - 1 <=? u64 size).
  - exists [0xff]. apply emits_unknown_1.
  - eexists. apply emits_put_be_bytes.
Qed.

Lemma forward_master elementid body :
  forward body -> forward (master elementid body).
Proof.
  intros Hb pb. unfold master, start_ebml_master, end_ebml_master,
    url_ftell, url_fseek.
  destruct (emits_put_ebml_id elementid pb) as [P1 C1].
  set (pb1 := put_ebml_id pb elementid) in *.
  destruct (emits_unknown_8 pb1) as [P2 C2].
  set (pb2 := put_ebml_size_unknown pb1 8) in *.
  destruct (Hb pb2) as [P3 C3].
  set (pb3 := body pb2) in *.
  change (len [1; 255; 255; 255; 255; 255; 255; 255]) with 8 in P2.
  destruct (put_ebml_size_emits (pos pb3 - pos pb2) 8) as [bs Hbs].
  destruct (Hbs (mkPB (content pb3) (pos pb2 - 8))) as [P5 C5].
  cbn [pos content] in *.
  pose proof (len_nonneg (ebml_id_bytes elementid)).
  split; [lia|]. intros off Ho.
  rewrite C5, patch_below by lia.
  rewrite C3 by lia. rewrite C2, patch_below by lia.
  rewrite C1. apply patch_below, Ho.
Qed.

(** *** Packets *)

Section PacketFacts.

Variable ids : matroska_ids.

Lemma mkv_write_block_emits mkv blockid pkt flags :
  exists bs, emits (fun pb => mkv_write_block mkv pb blockid pkt flags) bs.
Proof.
  unfold mkv_write_block.
  destruct (put_ebml_size_emits (pkt_size pkt + 4) 0) as [sz Hsz].
  pose proof (emits_seq _ _ _ _ (emits_put_ebml_id blockid) Hsz) as E1.
  pose proof (emits_seq _ _ _ _ E1
                (emits_put_byte (Z.lor 0x80 (stream_index pkt + 1)))) as E2.
  pose proof (emits_seq _ _ _ _ E2
                (emits_put_be_bytes 2 (pkt_pts pkt - cluster_pts mkv))) as E3.
  pose proof (emits_seq _ _ _ _ E3 (emits_put_byte flags)) as E4.
  pose proof (emits_seq _ _ _ _ E4 (emits_put_buffer (pkt_data pkt))) as E5.
  eexists. exact E5.
Qed.

(** The second part of [mkv_write_packet]: the block of the packet. *)
Definition write_block_part (codec : CodecType) (mkv : MatroskaMuxContext)
  (pkt : AVPacket) (pb : ByteIOContext) : ByteIOContext :=
  match codec with
  | CODEC_TYPE_SUBTITLE =>
      master (MATROSKA_ID_BLOCKGROUP ids)
        (fun pb =>
           put_ebml_uint (mkv_write_block mkv pb (MATROSKA_ID_BLOCK ids) pkt 0)
             (MATROSKA_ID_DURATION ids) (pkt_duration pkt))
        pb
  | _ =>
      mkv_write_block mkv pb (MATROSKA_ID_SIMPLEBLOCK ids) pkt
        (Z.shiftl (if keyframe pkt then 1 else 0) 7)
  end.

Lemma forward_write_block_part codec mkv pkt :
  forward (write_block_part codec mkv pkt).
Proof.
  assert (Hs : forall flags id,
             forward (fun pb => mkv_write_block mkv pb id pkt flags)).
  { intros flags id. destruct (mkv_write_block_emits mkv id pkt flags) as [bs H].
    apply (emits_forward _ bs H). }
  destruct codec; cbn [write_block_part]; try apply Hs.
  apply forward_master.
  apply (forward_seq (fun pb => mkv_write_block mkv pb _ pkt 0)
           (fun pb => put_ebml_uint pb _ _)).
  - apply Hs.
  - apply (emits_forward _ _ (emits_put_ebml_uint _ _)).
Qed.

(** The context after the packet: the cue of a video key frame and the
    duration. *)
Definition finish_packet (codec : CodecType) (mkv : MatroskaMuxContext)
  (pkt : AVPacket) : MatroskaMuxContext :=
  set_duration
    match codec with
    | CODEC_TYPE_VIDEO =>
        if keyframe pkt
        then set_cues mkv (snd (mkv_add_cuepoint (cues mkv) pkt (cluster_pos mkv)))
        else mkv
    | _ => mkv
    end
    (u64 (pkt_pts pkt + pkt_duration pkt)).

Lemma mkv_write_packet_no_cluster streams mkv pb pkt st :
  0 <= stream_index pkt ->
  nth_error streams (Z.to_nat (stream_index pkt)) = Some st ->
  cluster_due mkv pb pkt = false ->
  mkv_write_packet ids streams mkv pb pkt =
  Done (0, finish_packet (codec_type st) mkv pkt,
        write_block_part (codec_type st) mkv pkt pb).
Proof.
  intros Hi Hn Hd. unfold mkv_write_packet. rewrite Hn, Hd.
  destruct (Z.ltb_spec (stream_index pkt) 0) as [E|_]; [lia|].
  unfold finish_packet, write_block_part, master.
  destruct (codec_type st); reflexivity.
Qed.

(** The first part of [mkv_write_packet] when a cluster is due and the
    cluster SeekHead takes the entry. *)
Definition new_cluster_pb (mkv : MatroskaMuxContext) (pb : ByteIOContext)
  (pkt : AVPacket) : ByteIOContext :=
  put_ebml_uint
    (put_ebml_size_unknown
       (put_ebml_id (end_ebml_master pb (cluster mkv)) (MATROSKA_ID_CLUSTER ids))
       8)
    (MATROSKA_ID_CLUSTERTIMECODE ids) (pkt_pts pkt).

Definition new_cluster_mkv (mkv : MatroskaMuxContext) (pb : ByteIOContext)
  (pkt : AVPacket) : MatroskaMuxContext :=
  set_cluster
    (set_cluster_seekhead mkv
       (snd (mkv_add_seekhead_entry (cluster_seekhead mkv)
               (MATROSKA_ID_CLUSTER ids) (url_ftell pb))))
    (url_ftell pb)
    (url_ftell pb + ebml_id_size (MATROSKA_ID_CLUSTER ids) + 8)
    (u64 (pkt_pts pkt))
    (md5_ctx mkv ++ firstn (Z.to_nat (Z.min 200 (pkt_size pkt))) (pkt_data pkt)).

Lemma pos_end_ebml_master pb start : pos (end_ebml_master pb start) = pos pb.
Proof. reflexivity. Qed.

Lemma mkv_write_packet_new_cluster streams mkv pb pkt st :
  0 <= stream_index pkt ->
  nth_error streams (Z.to_nat (stream_index pkt)) = Some st ->
  max_entries (cluster_seekhead mkv) = 0 ->
  cluster_due mkv pb pkt = true ->
  mkv_write_packet ids streams mkv pb pkt =
  Done (0, finish_packet (codec_type st) (new_cluster_mkv mkv pb pkt) pkt,
        write_block_part (codec_type st) (new_cluster_mkv mkv pb pkt) pkt
          (new_cluster_pb mkv pb pkt)).
Proof.
  intros Hi Hn Hm Hd. unfold mkv_write_packet. rewrite Hn, Hd.
  destruct (Z.ltb_spec (stream_index pkt) 0) as [E|_]; [lia|].
  unfold start_new_cluster, mkv_add_seekhead_entry. rewrite Hm.
  cbn [Z.ltb Z.compare andb].
  unfold start_ebml_master at 1. rewrite pos_end_ebml_master.
  assert (Hp : url_ftell
                 (put_ebml_size_unknown
                    (put_ebml_id (end_ebml_master pb (cluster mkv))
                       (MATROSKA_ID_CLUSTER ids)) 8)
               = url_ftell pb + ebml_id_size (MATROSKA_ID_CLUSTER ids) + 8).
  { unfold url_ftell.
    destruct (emits_unknown_8
                (put_ebml_id (end_ebml_master pb (cluster mkv))
                   (MATROSKA_ID_CLUSTER ids))) as [-> _].
    destruct (emits_put_ebml_id (MATROSKA_ID_CLUSTER ids)
                (end_ebml_master pb (cluster mkv))) as [-> _].
    rewrite pos_end_ebml_master, len_ebml_id_bytes. reflexivity. }
  rewrite Hp.
  unfold finish_packet, write_block_part, master, new_cluster_mkv,
    new_cluster_pb, mkv_add_seekhead_entry. rewrite Hm.
  cbn [Z.ltb Z.compare andb snd].
  destruct (codec_type st); reflexivity.
Qed.

Lemma finish_packet_fields codec mkv pkt :
  cluster_seekhead (finish_packet codec mkv pkt) = cluster_seekhead mkv /\
  cluster (finish_packet codec mkv pkt) = cluster mkv /\
  cluster_pos (finish_packet codec mkv pkt) = cluster_pos mkv /\
  cluster_pts (finish_packet codec mkv pkt) = cluster_pts mkv /\
  md5_ctx (finish_packet codec mkv pkt) = md5_ctx mkv /\
  duration (finish_packet codec mkv pkt) = u64 (pkt_pts pkt + pkt_duration pkt).
Proof.
  unfold finish_packet. destruct codec; cbn; destruct (keyframe pkt);
    repeat split; reflexivity.
Qed.

Lemma cluster_due_spec mkv pb pkt :
  cluster_due mkv pb pkt = true <->
  (cluster mkv + 5 * 1024 * 1024 < url_ftell pb \/
   u64 (cluster_pts mkv + 5000) < u64 (pkt_pts pkt)).
Proof.
  unfold cluster_due. rewrite orb_true_iff, !Z.ltb_lt. reflexivity.
Qed.

Lemma emits_size8 size :
  0 <= size <= 2 ^ 56 - 2 ->
  emits (fun pb => put_ebml_size pb size 8) (be_bytes 8 (2 ^ 56 + size)).
Proof.
  intros Hs. pose proof (emits_put_ebml_size size 8 Hs ltac:(lia)) as He.
  destruct (ebml_size_bytes_least size Hs) as (Hw & _).
  replace (Z.max 8 (ebml_size_bytes size)) with 8 in He by lia.
  change (Z.to_nat 8) with 8%nat in He. change (7 * 8) with 56 in He.
  replace (2 ^ 56 + size) with (size + 2 ^ 56) by lia. exact He.
Qed.

Lemma emits_new_cluster_header pkt :
  emits (fun pb =>
           put_ebml_uint
             (put_ebml_size_unknown (put_ebml_id pb (MATROSKA_ID_CLUSTER ids)) 8)
             (MATROSKA_ID_CLUSTERTIMECODE ids) (pkt_pts pkt))
    (ebml_id_bytes (MATROSKA_ID_CLUSTER ids) ++
     [1; 255; 255; 255; 255; 255; 255; 255] ++
     ebml_uint_bytes (MATROSKA_ID_CLUSTERTIMECODE ids) (pkt_pts pkt)).
Proof.
  pose proof (emits_seq _ _ _ _ emits_unknown_8
                (emits_put_ebml_uint (MATROSKA_ID_CLUSTERTIMECODE ids)
                   (pkt_pts pkt))) as E1.
  exact (emits_seq _ _ _ _ (emits_put_ebml_id (MATROSKA_ID_CLUSTER ids)) E1).
Qed.

Lemma packet_okb_spec pkt :
  packet_okb pkt = true ->
  uint_okb (pkt_pts pkt) = true /\ uint_okb (pkt_duration pkt) = true /\
  0 <= pkt_size pkt <= 2 ^ 31 - 5.
Proof.
  unfold packet_okb. rewrite !andb_true_iff, !Z.leb_le, Z.ltb_lt.
  intros [[[H1 H2] H3] H4]. split; [exact H1|]. split.
  - apply uint_okb_spec. assert (2 ^ 31 < 2 ^ 56) by reflexivity. lia.
  - pose proof (len_nonneg (pkt_data pkt)). unfold pkt_size in *. lia.
Qed.

Lemma cluster_okb_spec mkv pb :
  cluster_okb mkv pb = true ->
  8 <= cluster mkv <= pos pb /\ pos pb < 2 ^ 54 /\
  num_entries (cluster_seekhead mkv) < 2 ^ 30 /\
  len (cues_entries (cues mkv)) < 2 ^ 30.
Proof.
  unfold cluster_okb. rewrite !andb_true_iff, !Z.leb_le, !Z.ltb_lt. lia.
Qed.

(** C2.  [mkv_write_packet] on a packet of one of the streams, in a
    context and for a packet it is defined for ([cluster_okb],
    [packet_okb]: the [pts] from 0 to below 2^56, the current Cluster
    opened before the cursor) and with the cluster SeekHead unreserved
    as [mkv_write_header] starts it, writes the packet and returns 0.
    A new Cluster is opened (the cluster SeekHead gains an entry) if
    and only if the file offset exceeds [mkv->cluster], the start of
    the current Cluster master, by more than 5 MiB, or the [pts] of
    the packet exceeds [cluster_pts + 5000], taken as the unsigned
    64-bit number the code compares with (for [cluster_pts] from 0 to
    2^63 - 1 that is the comparison of the numbers themselves).  When
    it is opened, the size of the old Cluster master is written on the
    8 bytes before its start, the new Cluster is entered in the cluster
    SeekHead at the offset it starts at, the file holds there the
    Cluster identifier, the placeholder size and the ClusterTimecode,
    an integer element whose payload reads back as the [pts] of the
    packet, [cluster_pts] is that [pts], and the MD5 context takes the
    first [min (200, size)] bytes of the packet.  Otherwise the cluster
    fields and the MD5 context stay. *)
Theorem mkv_write_packet_cluster_boundary
  (streams : list AVStream) (mkv : MatroskaMuxContext) (pb : ByteIOContext)
  (pkt : AVPacket) (st : AVStream) :
  0 <= stream_index pkt ->
  nth_error streams (Z.to_nat (stream_index pkt)) = Some st ->
  max_entries (cluster_seekhead mkv) = 0 ->
  packet_okb pkt = true -> cluster_okb mkv pb = true ->
  exists mkv' pb',
    mkv_write_packet ids streams mkv pb pkt = Done (0, mkv', pb') /\
    (num_entries (cluster_seekhead mkv') =
     num_entries (cluster_seekhead mkv) + 1 <->
     (cluster mkv + 5 * 1024 * 1024 < url_ftell pb \/
      u64 (cluster_pts mkv + 5000) < pkt_pts pkt)) /\
    ((cluster mkv + 5 * 1024 * 1024 < url_ftell pb \/
      u64 (cluster_pts mkv + 5000) < pkt_pts pkt) ->
     sh_entries (cluster_seekhead mkv') =
     sh_entries (cluster_seekhead mkv) ++
     [mkSeekEntry (MATROSKA_ID_CLUSTER ids)
        (u64 (url_ftell pb - sh_segment_offset (cluster_seekhead mkv)))] /\
     cluster_pos mkv' = url_ftell pb /\
     cluster mkv' = url_ftell pb + ebml_id_width (MATROSKA_ID_CLUSTER ids) + 8 /\
     cluster_pts mkv' = pkt_pts pkt /\
     md5_ctx mkv' =
     md5_ctx mkv ++ firstn (Z.to_nat (Z.min 200 (pkt_size pkt))) (pkt_data pkt) /\
     holds pb' (url_ftell pb)
       (ebml_id_bytes (MATROSKA_ID_CLUSTER ids) ++
        [1; 255; 255; 255; 255; 255; 255; 255] ++
        ebml_uint_bytes (MATROSKA_ID_CLUSTERTIMECODE ids) (pkt_pts pkt)) /\
     (exists n payload,
        ebml_uint_bytes (MATROSKA_ID_CLUSTERTIMECODE ids) (pkt_pts pkt)
        = ebml_id_bytes (MATROSKA_ID_CLUSTERTIMECODE ids) ++
          [0x80 + n] ++ payload /\
        len payload = n /\ be_value payload = pkt_pts pkt) /\
     holds pb' (cluster mkv - 8)
       (be_bytes 8 (2 ^ 56 + (url_ftell pb - cluster mkv)))) /\
    (~ (cluster mkv + 5 * 1024 * 1024 < url_ftell pb \/
        u64 (cluster_pts mkv + 5000) < pkt_pts pkt) ->
     cluster_seekhead mkv' = cluster_seekhead mkv /\
     cluster mkv' = cluster mkv /\ cluster_pos mkv' = cluster_pos mkv /\
     cluster_pts mkv' = cluster_pts mkv /\ md5_ctx mkv' = md5_ctx mkv) /\
    (0 <= cluster_pts mkv < 2 ^ 63 ->
     (u64 (cluster_pts mkv + 5000) < pkt_pts pkt <->
      cluster_pts mkv + 5000 < pkt_pts pkt)).
Proof.
  intros Hi Hn Hm Hpk Hck.
  destruct (packet_okb_spec pkt Hpk) as (Hpts & _ & _).
  destruct (uint_okb_u64 _ Hpts) as [Hu _].
  destruct (cluster_okb_spec mkv pb Hck) as (Hcl & Hpos & _).
  assert (Hplain : 0 <= cluster_pts mkv < 2 ^ 63 ->
                   (u64 (cluster_pts mkv + 5000) < pkt_pts pkt <->
                    cluster_pts mkv + 5000 < pkt_pts pkt)).
  { intros Hc. rewrite !u64_small by lia. reflexivity. }
  destruct (cluster_due mkv pb pkt) eqn:Hd.
  - pose proof (proj1 (cluster_due_spec mkv pb pkt) Hd) as Hc.
    rewrite Hu in Hc.
    eexists. eexists.
    split; [apply (mkv_write_packet_new_cluster streams mkv pb pkt st Hi Hn Hm Hd)|].
    destruct (finish_packet_fields (codec_type st) (new_cluster_mkv mkv pb pkt) pkt)
      as (F1 & F2 & F3 & F4 & F5 & _).
    rewrite F1, F2, F3, F4, F5.
    assert (Hsh : sh_entries (cluster_seekhead (new_cluster_mkv mkv pb pkt)) =
                  sh_entries (cluster_seekhead mkv) ++
                  [mkSeekEntry (MATROSKA_ID_CLUSTER ids)
                     (u64 (url_ftell pb - sh_segment_offset (cluster_seekhead mkv)))]).
    { unfold new_cluster_mkv, mkv_add_seekhead_entry. rewrite Hm. reflexivity. }
    (* the stream *)
    set (hdr := ebml_id_bytes (MATROSKA_ID_CLUSTER ids) ++
                [1; 255; 255; 255; 255; 255; 255; 255] ++
                ebml_uint_bytes (MATROSKA_ID_CLUSTERTIMECODE ids) (pkt_pts pkt)).
    assert (PH : pos (new_cluster_pb mkv pb pkt) = pos pb + len hdr)
      by apply (emits_new_cluster_header pkt (end_ebml_master pb (cluster mkv))).
    assert (CH : forall off,
               content (new_cluster_pb mkv pb pkt) off =
               patch (content (end_ebml_master pb (cluster mkv))) (pos pb) hdr off)
      by apply (emits_new_cluster_header pkt (end_ebml_master pb (cluster mkv))).
    pose proof (len_nonneg hdr) as Hh.
    destruct (forward_write_block_part (codec_type st)
                (new_cluster_mkv mkv pb pkt) pkt (new_cluster_pb mkv pb pkt))
      as [_ CB].
    split; [|split; [|split]].
    + split; [intros _; exact Hc|intros _].
      unfold num_entries. rewrite Hsh, len_app. reflexivity.
    + intros _.
      split; [exact Hsh|]. split; [reflexivity|].
      split; [cbn [new_cluster_mkv set_cluster cluster];
              rewrite ebml_id_size_width; reflexivity|].
      split; [cbn [new_cluster_mkv set_cluster cluster_pts]; exact Hu|].
      split; [reflexivity|]. split; [|split].
      * intros i Hi'. unfold url_ftell.
        rewrite CB by lia. rewrite CH. apply patch_at, Hi'.
      * destruct (ebml_uint_bytes_value (MATROSKA_ID_CLUSTERTIMECODE ids) _ Hpts)
          as (n & payload & E & _ & L & V).
        exists n, payload. repeat split; assumption.
      * intros i Hi'. unfold url_ftell in *.
        rewrite len_be_bytes in Hi'.
        rewrite CB by lia. rewrite CH, patch_below by lia.
        unfold end_ebml_master, url_fseek, url_ftell. cbn [content].
        assert (2 ^ 54 < 2 ^ 56 - 2) by reflexivity.
        assert (Hs : 0 <= pos pb - cluster mkv <= 2 ^ 56 - 2) by lia.
        destruct (emits_size8 _ Hs (mkPB (content pb) (cluster mkv - 8)))
          as [_ C8].
        rewrite C8. cbn [pos content]. apply patch_at.
        rewrite len_be_bytes. exact Hi'.
    + intros Hnc. contradiction.
    + exact Hplain.
  - assert (Hc : ~ (cluster mkv + 5 * 1024 * 1024 < url_ftell pb \/
                    u64 (cluster_pts mkv + 5000) < pkt_pts pkt)).
    { intros H. rewrite <- Hu in H. apply cluster_due_spec in H. congruence. }
    eexists. eexists.
    split; [apply (mkv_write_packet_no_cluster streams mkv pb pkt st Hi Hn Hd)|].
    destruct (finish_packet_fields (codec_type st) mkv pkt)
      as (F1 & F2 & F3 & F4 & F5 & _).
    rewrite F1, F2, F3, F4, F5.
    split; [|split; [|split]].
    + split; [lia|intros H; contradiction].
    + intros H. contradiction.
    + intros _. repeat split; reflexivity.
    + exact Hplain.
Qed.

(** *** The duration *)

Lemma stream_okb_nth streams pkt :
  stream_okb streams pkt = true ->
  0 <= stream_index pkt /\
  exists st, nth_error streams (Z.to_nat (stream_index pkt)) = Some st.
Proof.
  unfold stream_okb. rewrite andb_true_iff, Z.leb_le, Z.ltb_lt.
  intros [H0 H1]. split; [exact H0|].
  destruct (nth_error streams (Z.to_nat (stream_index pkt))) as [st|] eqn:E.
  - exists st. reflexivity.
  - apply nth_error_None in E. unfold len in H1. lia.
Qed.

(** The places reserved by the header: packets leave them alone. *)
Definition same_layout (mkv mkv' : MatroskaMuxContext) : Prop :=
  segment mkv' = segment mkv /\
  segment_uid mkv' = segment_uid mkv /\
  duration_offset mkv' = duration_offset mkv.

Lemma finish_packet_layout codec mkv pkt :
  same_layout mkv (finish_packet codec mkv pkt).
Proof.
  unfold finish_packet, same_layout.
  destruct codec; cbn; destruct (keyframe pkt); repeat split; reflexivity.
Qed.

Lemma mkv_write_packet_duration streams mkv pb pkt :
  stream_okb streams pkt = true ->
  max_entries (cluster_seekhead mkv) = 0 ->
  exists mkv' pb',
    mkv_write_packet ids streams mkv pb pkt = Done (0, mkv', pb') /\
    max_entries (cluster_seekhead mkv') = 0 /\
    same_layout mkv mkv' /\
    duration mkv' = packet_end pkt.
Proof.
  intros Hs Hm. destruct (stream_okb_nth streams pkt Hs) as (Hi & st & Hn).
  destruct (cluster_due mkv pb pkt) eqn:Hd.
  - eexists. eexists.
    split; [apply (mkv_write_packet_new_cluster streams mkv pb pkt st Hi Hn Hm Hd)|].
    destruct (finish_packet_fields (codec_type st) (new_cluster_mkv mkv pb pkt) pkt)
      as (F1 & _ & _ & _ & _ & F6).
    rewrite F1, F6. split; [|split; [|reflexivity]].
    + unfold new_cluster_mkv, mkv_add_seekhead_entry. rewrite Hm. reflexivity.
    + apply (finish_packet_layout (codec_type st) (new_cluster_mkv mkv pb pkt) pkt).
  - eexists. eexists.
    split; [apply (mkv_write_packet_no_cluster streams mkv pb pkt st Hi Hn Hd)|].
    destruct (finish_packet_fields (codec_type st) mkv pkt)
      as (F1 & _ & _ & _ & _ & F6).
    rewrite F1, F6. split; [exact Hm|split; [|reflexivity]].
    apply finish_packet_layout.
Qed.

Lemma mkv_write_packets_duration streams pkts : forall mkv pb pkt,
  forallb (stream_okb streams) (pkts ++ [pkt]) = true ->
  max_entries (cluster_seekhead mkv) = 0 ->
  exists mkv' pb',
    mkv_write_packets ids streams mkv pb (pkts ++ [pkt]) = Done (0, mkv', pb') /\
    same_layout mkv mkv' /\
    duration mkv' = packet_end pkt.
Proof.
  induction pkts as [|p pkts IH]; intros mkv pb pkt Hs Hm;
    cbn [app forallb mkv_write_packets] in *;
    apply andb_true_iff in Hs; destruct Hs as [Hp Hs].
  - destruct (mkv_write_packet_duration streams mkv pb pkt Hp Hm)
      as (mkv' & pb' & -> & _ & Hl & Hd).
    cbn. exists mkv', pb'. split; [reflexivity|split; [exact Hl|exact Hd]].
  - destruct (mkv_write_packet_duration streams mkv pb p Hp Hm)
      as (mkv1 & pb1 & -> & Hm1 & (L1 & L2 & L3) & _).
    cbn [Z.ltb Z.compare].
    destruct (IH mkv1 pb1 pkt Hs Hm1) as (mkv' & pb' & E & (M1 & M2 & M3) & Hd).
    exists mkv', pb'. split; [exact E|]. split; [|exact Hd].
    unfold same_layout. rewrite M1, M2, M3, L1, L2, L3. repeat split.
Qed.

Lemma packet_end_nonneg pkt : 0 <= packet_end pkt.
Proof. unfold packet_end. pose proof (u64_range (pkt_pts pkt + pkt_duration pkt)). lia. Qed.

Lemma max_packet_end_last pkts pkt :
  (forall p, In p pkts -> packet_end p <= packet_end pkt) ->
  max_packet_end (pkts ++ [pkt]) = packet_end pkt.
Proof.
  pose proof (packet_end_nonneg pkt) as H0.
  induction pkts as [|p pkts IH]; intros Hle.
  - cbn. lia.
  - cbn [app max_packet_end fold_right]. fold (max_packet_end (pkts ++ [pkt])).
    rewrite IH by (intros q Hq; apply Hle; right; exact Hq).
    specialize (Hle p (or_introl eq_refl)). lia.
Qed.

End PacketFacts.

(** *** The trailer *)

Section TrailerFacts.

Variable ids : matroska_ids.
Variable dbl_bits : Z -> Z.
Variable md5_digest : list Z -> list Z.

(** The Duration element the trailer writes: identifier, the size byte
    for 8 bytes, and the 8 bytes of the float. *)
Definition duration_bytes (d : Z) : list Z :=
  ebml_id_bytes (MATROSKA_ID_DURATION ids) ++ [0x88] ++ be_bytes 8 (dbl_bits d).

Lemma emits_size1 size :
  0 <= size <= 126 ->
  emits (fun pb => put_ebml_size pb size 0) [0x80 + size].
Proof.
  intros Hs. assert (Hs' : 0 <= size <= 2 ^ 56 - 2) by lia.
  pose proof (emits_put_ebml_size size 0 Hs' ltac:(lia)) as He.
  rewrite ebml_size_bytes_ladder in He by lia.
  destruct (Z.ltb_spec (size + 1) (2 ^ 7)) as [_|E]; [|lia].
  change (Z.max 0 1) with 1 in He. change (Z.to_nat 1) with 1%nat in He.
  change (7 * 1) with 7 in He.
  rewrite be_bytes_1 in He by lia.
  replace (size + 2 ^ 7) with (0x80 + size) in He by lia. exact He.
Qed.

Lemma emits_put_ebml_float elementid val :
  emits (fun pb => put_ebml_float dbl_bits pb elementid val)
    (ebml_id_bytes elementid ++ [0x88] ++ be_bytes 8 (dbl_bits val)).
Proof.
  pose proof (emits_seq _ _ _ _ (emits_size1 8 ltac:(lia))
                (emits_put_be_bytes 8 (dbl_bits val))) as E1.
  exact (emits_seq _ _ _ _ (emits_put_ebml_id elementid) E1).
Qed.

Lemma emits_put_ebml_binary elementid buf :
  len buf <= 126 ->
  emits (fun pb => put_ebml_binary pb elementid buf)
    (ebml_id_bytes elementid ++ [0x80 + len buf] ++ map u8 buf).
Proof.
  intros Hl. pose proof (len_nonneg buf).
  pose proof (emits_seq _ _ _ _ (emits_size1 (len buf) ltac:(lia))
                (emits_put_buffer buf)) as E1.
  exact (emits_seq _ _ _ _ (emits_put_ebml_id elementid) E1).
Qed.

Lemma put_ebml_size_emits8 size :
  exists bs, emits (fun pb => put_ebml_size pb size 8) bs /\ len bs <= 8.
Proof.
  unfold put_ebml_size.
  destruct (Z.leb_spec (2 ^ 56 - 1) (u64 size)) as [E|E].
  - exists [0xff]. split; [apply emits_unknown_1|cbn; lia].
  - pose proof (u64_range size).
    destruct (ebml_size_bytes_least (u64 size) ltac:(lia)) as (Hw & _).
    replace (Z.max 8 (ebml_size_bytes (u64 size))) with 8 by lia.
    eexists. split; [apply emits_put_be_bytes|].
    rewrite len_be_bytes. cbn. lia.
Qed.

(** The end of [mkv_write_trailer], from the stream [pb] that the
    SeekHeads were written to. *)
Definition trailer_tail (st0 : AVStream) (mkv : MatroskaMuxContext)
  (pb : ByteIOContext) : ByteIOContext :=
  let currentpos := url_ftell pb in
  let pb := url_fseek pb (duration_offset mkv) in
  let pb := put_ebml_float dbl_bits pb (MATROSKA_ID_DURATION ids) (duration mkv) in
  let pb :=
    if bitexact st0 then pb
    else
      let pb := url_fseek pb (segment_uid mkv) in
      put_ebml_binary pb (MATROSKA_ID_SEGMENTUID ids)
        (firstn 16 (md5_digest (md5_ctx mkv))) in
  let pb := url_fseek pb currentpos in
  end_ebml_master pb (segment mkv).

Lemma mkv_write_trailer_tail st0 streams mkv pb :
  exists sh pbX,
    mkv_write_trailer ids dbl_bits md5_digest (st0 :: streams) mkv pb =
    Done (0, set_main_seekhead mkv sh,
          trailer_tail st0 (set_main_seekhead mkv sh) pbX).
Proof.
  unfold mkv_write_trailer.
  destruct (mkv_write_cues ids (end_ebml_master pb (cluster mkv)) (cues mkv))
    as [cuespos pb1].
  destruct (mkv_write_seekhead ids pb1 (cluster_seekhead mkv))
    as [second_seekhead pb2].
  destruct (mkv_add_seekhead_entry (main_seekhead mkv)
              (MATROSKA_ID_CUES ids) cuespos) as [r1 sh1].
  destruct (mkv_add_seekhead_entry sh1 (MATROSKA_ID_SEEKHEAD ids)
              second_seekhead) as [r2 sh2].
  destruct (mkv_write_seekhead ids pb2 sh2) as [r3 pb3].
  exists sh2, pb3. reflexivity.
Qed.

Lemma trailer_tail_duration st0 mkv pb :
  segment mkv <= duration_offset mkv ->
  (bitexact st0 = false ->
   segment_uid mkv + ebml_id_size (MATROSKA_ID_SEGMENTUID ids) + 17
   <= duration_offset mkv) ->
  holds (trailer_tail st0 mkv pb) (duration_offset mkv)
    (duration_bytes (duration mkv)).
Proof.
  intros L1 L2 i Hi. unfold trailer_tail, end_ebml_master, url_fseek, url_ftell.
  cbn [pos content].
  destruct (put_ebml_size_emits8 (pos pb - segment mkv)) as (bs & Hbs & Hl8).
  match goal with
  | |- content (put_ebml_size ?x _ _) _ = _ =>
      destruct (Hbs x) as [_ C]; rewrite C; clear C
  end.
  cbn [pos content]. rewrite patch_above by lia.
  assert (HD : forall c,
             content (put_ebml_float dbl_bits (mkPB c (duration_offset mkv))
                        (MATROSKA_ID_DURATION ids) (duration mkv))
               (duration_offset mkv + i) =
             nth (Z.to_nat i) (duration_bytes (duration mkv)) 0).
  { intros c.
    destruct (emits_put_ebml_float (MATROSKA_ID_DURATION ids) (duration mkv)
                (mkPB c (duration_offset mkv))) as [_ C].
    rewrite C. cbn [pos content]. apply patch_at, Hi. }
  destruct (bitexact st0) eqn:Hbe.
  - apply HD.
  - specialize (L2 eq_refl).
    set (dg := firstn 16 (md5_digest (md5_ctx mkv))).
    assert (Hdg : len dg <= 16).
    { unfold dg, len. rewrite length_firstn. lia. }
    match goal with
    | |- content (put_ebml_binary ?x _ _) _ = _ =>
        destruct (emits_put_ebml_binary (MATROSKA_ID_SEGMENTUID ids) dg
                    ltac:(lia) x) as [_ C]; rewrite C; clear C
    end.
    cbn [pos content]. rewrite patch_above.
    + apply HD.
    + rewrite !len_app, len_ebml_id_bytes, len_cons, len_nil.
      unfold len at 1. rewrite length_map. fold (len dg). lia.
Qed.

End TrailerFacts.

(** *** Writing a SeekHead at its reserved place *)

Section SeekHeadFacts.

Variable ids : matroska_ids.

Lemma emits_write_seek_entry e :
  emits (fun pb => write_seek_entry ids pb e) (seek_entry_bytes ids e).
Proof.
  unfold seek_entry_bytes. rewrite <- (ebml_id_size_width (elementid e)).
  pose proof (ebml_id_size_bounds (elementid e)) as Hid.
  pose proof (ebml_id_size_bounds (MATROSKA_ID_SEEKID ids)) as Hsid.
  pose proof (emits_seq _ _ _ _ (emits_put_ebml_id (elementid e))
                (emits_put_ebml_uint (MATROSKA_ID_SEEKPOSITION ids)
                   (segmentpos e))) as E1.
  pose proof (emits_seq _ _ _ _
                (emits_size1 (ebml_id_size (elementid e)) ltac:(lia)) E1) as E2.
  pose proof (emits_seq _ _ _ _
                (emits_put_ebml_id (MATROSKA_ID_SEEKID ids)) E2) as E3.
  assert (Hl : len (ebml_id_bytes (MATROSKA_ID_SEEKID ids) ++
                    [0x80 + ebml_id_size (elementid e)] ++
                    ebml_id_bytes (elementid e) ++
                    ebml_uint_bytes (MATROSKA_ID_SEEKPOSITION ids) (segmentpos e))
               < 2 ^ 56 - 1).
  { pose proof (len_ebml_uint_bytes (MATROSKA_ID_SEEKPOSITION ids) (segmentpos e)).
    pose proof (ebml_id_size_bounds (MATROSKA_ID_SEEKPOSITION ids)).
    rewrite !len_app, !len_ebml_id_bytes, len_cons, len_nil. lia. }
  exact (emits_ext (master (MATROSKA_ID_SEEKENTRY ids) _)
           (fun pb => write_seek_entry ids pb e) _
           (fun pb => eq_refl)
           (emits_master (MATROSKA_ID_SEEKENTRY ids) _ _ E3 Hl)).
Qed.

Lemma emits_write_seek_entries entries :
  emits (fun pb => fold_left (write_seek_entry ids) entries pb)
    (concat (map (seek_entry_bytes ids) entries)).
Proof.
  induction entries as [|e entries IH]; cbn [fold_left map concat].
  - apply emits_id.
  - exact (emits_seq _ _ _ _ (emits_write_seek_entry e) IH).
Qed.

(** The part of [write_seekhead_elements] before the Void. *)
Definition write_seekhead_master (pb : ByteIOContext) (seekhead : mkv_seekhead)
  : ByteIOContext :=
  master (MATROSKA_ID_SEEKHEAD ids)
    (fun pb => fold_left (write_seek_entry ids) (sh_entries seekhead) pb)
    (url_fseek pb (filepos seekhead)).

Lemma write_seekhead_elements_reserved pb seekhead :
  0 < reserved_size seekhead ->
  write_seekhead_elements ids pb seekhead =
  put_ebml_void ids (write_seekhead_master pb seekhead)
    (u64 (filepos seekhead + reserved_size seekhead
          - url_ftell (write_seekhead_master pb seekhead))).
Proof.
  intros Hr. unfold write_seekhead_elements, write_seekhead_master, master.
  destruct (Z.ltb_spec 0 (reserved_size seekhead)) as [_|]; [|lia].
  destruct (start_ebml_master (url_fseek pb (filepos seekhead))
              (MATROSKA_ID_SEEKHEAD ids)).
  reflexivity.
Qed.

Lemma emits_void_header size :
  2 <= size <= 2 ^ 56 ->
  emits (fun pb =>
           let pb := put_ebml_id pb (EBML_ID_VOID ids) in
           if size <? 10 then put_ebml_size pb (size - 1) 0
           else put_ebml_size pb (size - 9) 8)
    (void_header_bytes ids size).
Proof.
  intros Hs. unfold void_header_bytes.
  destruct (Z.ltb_spec size 10) as [H|H].
  - replace (0x80 + (size - 1)) with (0x80 + (size - 1)) by reflexivity.
    exact (emits_seq _ _ _ _ (emits_put_ebml_id (EBML_ID_VOID ids))
             (emits_size1 (size - 1) ltac:(lia))).
  - exact (emits_seq _ _ _ _ (emits_put_ebml_id (EBML_ID_VOID ids))
             (emits_size8 (size - 9) ltac:(lia))).
Qed.

(** With at least two bytes left behind the SeekHead, the Void is
    written and the elements end where the reservation ends: the file
    holds the SeekHead and the head of the Void from the recorded
    position on, and the head of the Void fits the bytes left. *)
Lemma write_seekhead_elements_fills pb seekhead :
  0 <= filepos seekhead ->
  filepos seekhead + reserved_size seekhead < 2 ^ 63 ->
  reserved_size seekhead < 2 ^ 56 ->
  ebml_id_size (EBML_ID_VOID ids) = 1 ->
  len (seekhead_bytes ids (sh_entries seekhead)) + 2 <= reserved_size seekhead ->
  pos (write_seekhead_elements ids pb seekhead) =
    filepos seekhead + reserved_size seekhead /\
  holds (write_seekhead_elements ids pb seekhead) (filepos seekhead)
    (seekhead_bytes ids (sh_entries seekhead) ++
     void_header_bytes ids
       (reserved_size seekhead - len (seekhead_bytes ids (sh_entries seekhead)))) /\
  len (void_header_bytes ids
         (reserved_size seekhead - len (seekhead_bytes ids (sh_entries seekhead))))
  <= reserved_size seekhead - len (seekhead_bytes ids (sh_entries seekhead)).
Proof.
  intros Hf H63 H56 Hv Hl.
  set (sb := seekhead_bytes ids (sh_entries seekhead)) in *.
  pose proof (len_nonneg sb) as Hsb.
  set (R := reserved_size seekhead - len sb).
  assert (HR : 2 <= R <= 2 ^ 56) by (unfold R; lia).
  rewrite write_seekhead_elements_reserved by lia.
  assert (Hm : emits (master (MATROSKA_ID_SEEKHEAD ids)
                        (fun pb => fold_left (write_seek_entry ids)
                                     (sh_entries seekhead) pb)) sb).
  { apply emits_master; [apply emits_write_seek_entries|].
    unfold sb, seekhead_bytes in Hl. rewrite len_ebml_master_bytes in Hl.
    pose proof (ebml_id_size_bounds (MATROSKA_ID_SEEKHEAD ids)). lia. }
  destruct (Hm (url_fseek pb (filepos seekhead))) as [Pm Cm].
  fold (write_seekhead_master pb seekhead) in Pm, Cm.
  set (pbm := write_seekhead_master pb seekhead) in *.
  cbn [url_fseek pos content] in Pm, Cm.
  unfold url_ftell. rewrite Pm.
  replace (filepos seekhead + reserved_size seekhead - (filepos seekhead + len sb))
    with R by (unfold R; lia).
  unfold put_ebml_void. rewrite !(u64_small R) by lia.
  destruct (Z.ltb_spec R 2) as [|_]; [lia|].
  destruct (emits_void_header R HR pbm) as [Pv Cv]. cbn zeta in Pv, Cv.
  assert (Hvl : len (void_header_bytes ids R) <= R).
  { unfold void_header_bytes. rewrite len_app, len_ebml_id_bytes, Hv.
    destruct (Z.ltb_spec R 10); [rewrite len_cons, len_nil|rewrite len_be_bytes];
      lia. }
  unfold url_fseek, url_ftell. cbn [pos content].
  split; [|split; [|exact Hvl]].
  - rewrite Pm, s64_small by (unfold R; lia). unfold R. lia.
  - intros i Hi. cbn [content]. rewrite Cv, Pm.
    rewrite (patch_ext _ (patch (content pb) (filepos seekhead) sb)) by exact Cm.
    rewrite patch_app. apply patch_at, Hi.
Qed.

End SeekHeadFacts.

Lemma mux_okb_spec ids mkv pb :
  mux_okb ids mkv pb = true ->
  ids_okb ids = true /\
  cluster_okb mkv pb = true /\
  max_entries (cluster_seekhead mkv) = 0 /\
  reserved_size (cluster_seekhead mkv) = 0 /\
  0 < reserved_size (main_seekhead mkv) /\
  forallb cue_okb (cues_entries (cues mkv)) = true /\
  forallb seek_entry_okb (sh_entries (cluster_seekhead mkv)) = true.
Proof.
  unfold mux_okb, seekhead_okb.
  rewrite !andb_true_iff, !Z.eqb_eq, !Z.leb_le, !Z.ltb_lt.
  intros H. decompose [and] H. repeat split; trivial. lia.
Qed.

(** C8, as the code has it: the muxer keeps [pts + duration] of the
    packet written last, not the greatest over the packets; the two
    agree when no earlier packet ends after the last one.  After
    packets [pkts ++ [pkt]] for streams [st0 :: rest], written from a
    context the muxer is defined for ([mux_okb], [packet_okb]: every
    [pts] from 0 to below 2^56, no negative duration), the stored
    duration is the end of [pkt], and the trailer then leaves at the
    Duration reservation the identifier, the size byte [0x88] and the 8
    bytes of that value as a float.  The reservations lie after the
    start of the Segment, and the 19 bytes reserved for the SegmentUID
    end before the Duration reservation, as [mkv_write_header] lays
    them out. *)
Theorem mkv_write_trailer_duration_of_last_packet
  (ids : matroska_ids) (dbl_bits : Z -> Z) (md5_digest : list Z -> list Z)
  (st0 : AVStream) (rest : list AVStream)
  (mkv : MatroskaMuxContext) (pb : ByteIOContext)
  (pkts : list AVPacket) (pkt : AVPacket) :
  forallb (stream_okb (st0 :: rest)) (pkts ++ [pkt]) = true ->
  forallb packet_okb (pkts ++ [pkt]) = true ->
  len pkts < 2 ^ 20 ->
  mux_okb ids mkv pb = true ->
  segment mkv <= duration_offset mkv ->
  (bitexact st0 = false ->
   segment_uid mkv + ebml_id_width (MATROSKA_ID_SEGMENTUID ids) + 17
   <= duration_offset mkv) ->
  exists mkv1 pb1 mkv2 pb2,
    mkv_write_packets ids (st0 :: rest) mkv pb (pkts ++ [pkt]) =
      Done (0, mkv1, pb1) /\
    duration mkv1 = packet_end pkt /\
    ((forall p, In p pkts -> packet_end p <= packet_end pkt) ->
     duration mkv1 = max_packet_end (pkts ++ [pkt])) /\
    mkv_write_trailer ids dbl_bits md5_digest (st0 :: rest) mkv1 pb1 =
      Done (0, mkv2, pb2) /\
    duration mkv2 = packet_end pkt /\
    holds pb2 (duration_offset mkv)
      (ebml_id_bytes (MATROSKA_ID_DURATION ids) ++ [0x88] ++
       be_bytes 8 (dbl_bits (packet_end pkt))).
Proof.
  intros Hs _ _ Hok L1 L2.
  destruct (mux_okb_spec ids mkv pb Hok) as (_ & _ & Hm & _).
  destruct (mkv_write_packets_duration ids (st0 :: rest) pkts mkv pb pkt Hs Hm)
    as (mkv1 & pb1 & E1 & (S1 & S2 & S3) & Hd).
  destruct (mkv_write_trailer_tail ids dbl_bits md5_digest st0 rest mkv1 pb1)
    as (sh & pbX & E2).
  exists mkv1, pb1. eexists. eexists.
  split; [exact E1|]. split; [exact Hd|].
  split; [intros Hle; rewrite Hd; symmetry; apply max_packet_end_last, Hle|].
  split; [exact E2|]. split; [exact Hd|].
  pose proof (trailer_tail_duration ids dbl_bits md5_digest st0
                (set_main_seekhead mkv1 sh) pbX) as HT.
  cbn [set_main_seekhead segment duration_offset segment_uid duration] in HT.
  rewrite S1, S2, S3, Hd, ebml_id_size_width in HT. apply HT; assumption.
Qed.

(** *** Examples with the identifiers of the Matroska specification *)

Definition matroska_std : matroska_ids :=
  mkIds 0xEC 0x114D9B74 0x4DBB 0x53AB 0x53AC 0x1C53BB6B 0xBB 0xB3 0xB7 0xF7
        0xF1 0x1F43B675 0xE7 0xA3 0xA0 0xA1 0x4489 0x73A4.

Definition ex_cues : mkv_cues :=
  mkCues 64 [mkCuepoint 0 1 4096; mkCuepoint 0 2 4096;
             mkCuepoint 1000 1 90000; mkCuepoint 0 1 180000].

(** Entries of equal [pts] that do not stand side by side are not
    merged. *)
Example ex_cues_runs :
  pts_runs (cues_entries ex_cues) =
  [[mkCuepoint 0 1 4096; mkCuepoint 0 2 4096];
   [mkCuepoint 1000 1 90000]; [mkCuepoint 0 1 180000]].
Proof. reflexivity. Qed.

Lemma mkv_write_cues_groups_runs_witness :
  emits (fun pb => snd (mkv_write_cues matroska_std pb ex_cues))
    (cues_bytes matroska_std (cues_entries ex_cues)) /\
  len (pts_runs (cues_entries ex_cues)) = 3.
Proof.
  destruct (mkv_write_cues_groups_runs matroska_std ex_cues) as (_ & H & _).
  - cbn. lia.
  - reflexivity.
  - split; [exact H|reflexivity].
Defined.

(** One video stream; the context after a header that left the main
    SeekHead at 48, the SegmentUID reservation at 380 and the Duration
    reservation at 399, with the first Cluster open at 500. *)
Definition ex_stream : AVStream := mkStream CODEC_TYPE_VIDEO false.

Definition ex_mux : MatroskaMuxContext :=
  mkMux 48 48 380 512 500 0 399 0
    (mkSeekhead 48 48 293 10 [])
    (mkSeekhead 0 48 0 0 [mkSeekEntry 0x1F43B675 452])
    (mkCues 48 []) [].

Definition ex_pb2 : ByteIOContext := mkPB (fun _ => 0) 520.

Definition ex_packet (pts dur : Z) : AVPacket :=
  mkPacket [0x17; 0x2A; 0x00] 0 pts dur true.

Example ex_mux_ok : mux_okb matroska_std ex_mux ex_pb2 = true.
Proof. reflexivity. Qed.

Lemma mkv_write_packet_cluster_boundary_witness :
  exists mkv' pb',
    mkv_write_packet matroska_std [ex_stream] ex_mux ex_pb2 (ex_packet 6000 40) =
      Done (0, mkv', pb') /\
    cluster_pts mkv' = 6000 /\
    num_entries (cluster_seekhead mkv') = num_entries (cluster_seekhead ex_mux) + 1.
Proof.
  destruct (mkv_write_packet_cluster_boundary matroska_std [ex_stream] ex_mux
              ex_pb2 (ex_packet 6000 40) ex_stream)
    as (mkv' & pb' & E & Hiff & Hnew & _).
  - cbn. lia.
  - reflexivity.
  - reflexivity.
  - reflexivity.
  - reflexivity.
  - assert (Hc : cluster ex_mux + 5 * 1024 * 1024 < url_ftell ex_pb2 \/
                 u64 (cluster_pts ex_mux + 5000) < pkt_pts (ex_packet 6000 40)).
    { right. vm_compute. reflexivity. }
    exists mkv', pb'. split; [exact E|]. split.
    + destruct (Hnew Hc) as (_ & _ & _ & Hpts & _). rewrite Hpts. reflexivity.
    + apply Hiff, Hc.
Defined.

(** The stand-ins for the float conversion and for MD5 in the examples. *)
Definition ex_dbl_bits (d : Z) : Z := u64 d.
Definition ex_md5_digest (bs : list Z) : list Z := firstn 16 (bs ++ repeat 0 16).

Lemma mkv_write_trailer_duration_of_last_packet_witness :
  exists mkv1 pb1 mkv2 pb2,
    mkv_write_packets matroska_std [ex_stream] ex_mux ex_pb2
      ([ex_packet 1000 40] ++ [ex_packet 920 40]) = Done (0, mkv1, pb1) /\
    duration mkv1 = 960 /\
    mkv_write_trailer matroska_std ex_dbl_bits ex_md5_digest [ex_stream] mkv1 pb1 =
      Done (0, mkv2, pb2) /\
    holds pb2 399 [0x44; 0x89; 0x88; 0; 0; 0; 0; 0; 0; 0x03; 0xC0].
Proof.
  destruct (mkv_write_trailer_duration_of_last_packet matroska_std ex_dbl_bits
              ex_md5_digest ex_stream [] ex_mux ex_pb2
              [ex_packet 1000 40] (ex_packet 920 40))
    as (mkv1 & pb1 & mkv2 & pb2 & E1 & Hd & _ & E2 & _ & Hh).
  - reflexivity.
  - reflexivity.
  - cbn. lia.
  - reflexivity.
  - cbn. lia.
  - intros _. cbn. lia.
  - exists mkv1, pb1, mkv2, pb2.
    split; [exact E1|]. split; [exact Hd|]. split; [exact E2|exact Hh].
Defined.

(** C8, counterexample: a packet ending at 1040 followed by one ending
    at 960, both packets and the context such as the muxer is defined
    for, leaves 960 as the duration, below the greatest end. *)
Lemma mkv_duration_below_maximum :
  mux_okb matroska_std ex_mux ex_pb2 = true /\
  forallb packet_okb [ex_packet 1000 40; ex_packet 920 40] = true /\
  exists mkv1 pb1,
    mkv_write_packets matroska_std [ex_stream] ex_mux ex_pb2
      [ex_packet 1000 40; ex_packet 920 40] = Done (0, mkv1, pb1) /\
    duration mkv1 = 960 /\
    max_packet_end [ex_packet 1000 40; ex_packet 920 40] = 1040 /\
    duration mkv1 <> max_packet_end [ex_packet 1000 40; ex_packet 920 40].
Proof.
  split; [reflexivity|]. split; [reflexivity|].
  destruct (mkv_write_packets_duration matroska_std [ex_stream]
              [ex_packet 1000 40] ex_mux ex_pb2 (ex_packet 920 40)
              eq_refl eq_refl)
    as (mkv1 & pb1 & E & _ & Hd).
  exists mkv1, pb1. split; [exact E|].
  change (packet_end (ex_packet 920 40)) with 960 in Hd.
  split; [exact Hd|]. split; [reflexivity|].
  rewrite Hd. vm_compute. discriminate.
Qed.

(** *** SeekHeads and their reservation *)

Lemma seekhead_room_full sh n :
  (0 <? max_entries sh) && (max_entries sh <=? num_entries sh) = true ->
  seekhead_room sh n = 0%nat.
Proof.
  rewrite andb_true_iff, Z.ltb_lt, Z.leb_le. intros [H1 H2].
  unfold seekhead_room. destruct (Z.ltb_spec 0 (max_entries sh)); lia.
Qed.

Lemma seekhead_room_step sh id fp n :
  (0 <? max_entries sh) && (max_entries sh <=? num_entries sh) = false ->
  seekhead_room sh (S n)
  = S (seekhead_room (snd (mkv_add_seekhead_entry sh id fp)) n).
Proof.
  intros H. unfold mkv_add_seekhead_entry. rewrite H. cbn [snd].
  unfold seekhead_room, num_entries. cbn [max_entries sh_entries].
  apply andb_false_iff in H.
  destruct (Z.ltb_spec 0 (max_entries sh)) as [Hm|Hm]; [|reflexivity].
  destruct H as [H|H]; [discriminate|].
  apply Z.leb_gt in H. unfold num_entries in H.
  rewrite len_app. unfold len in *. cbn [length]. lia.
Qed.

Lemma mkv_add_seekhead_entries_cons sh id fp adds :
  mkv_add_seekhead_entries sh ((id, fp) :: adds)
  = (fst (mkv_add_seekhead_entry sh id fp)
       :: fst (mkv_add_seekhead_entries
                 (snd (mkv_add_seekhead_entry sh id fp)) adds),
     snd (mkv_add_seekhead_entries
            (snd (mkv_add_seekhead_entry sh id fp)) adds)).
Proof.
  cbn [mkv_add_seekhead_entries].
  destruct (mkv_add_seekhead_entry sh id fp) as [r sh1]. cbn [fst snd].
  destruct (mkv_add_seekhead_entries sh1 adds). reflexivity.
Qed.

(** Entries added one after the other: as many as there is room for
    are taken and return 0, the others return -1 and change nothing. *)
Lemma mkv_add_seekhead_entries_spec (adds : list (Z * Z)) :
  forall seekhead : mkv_seekhead,
  fst (mkv_add_seekhead_entries seekhead adds)
  = repeat 0 (Nat.min (seekhead_room seekhead (length adds)) (length adds)) ++
    repeat (-1) (length adds - seekhead_room seekhead (length adds)) /\
  sh_entries (snd (mkv_add_seekhead_entries seekhead adds))
  = sh_entries seekhead ++
    map (seekhead_entry_of seekhead)
      (firstn (seekhead_room seekhead (length adds)) adds) /\
  filepos (snd (mkv_add_seekhead_entries seekhead adds)) = filepos seekhead /\
  sh_segment_offset (snd (mkv_add_seekhead_entries seekhead adds))
  = sh_segment_offset seekhead /\
  reserved_size (snd (mkv_add_seekhead_entries seekhead adds))
  = reserved_size seekhead /\
  max_entries (snd (mkv_add_seekhead_entries seekhead adds))
  = max_entries seekhead /\
  (0 < max_entries seekhead ->
   num_entries seekhead <= max_entries seekhead ->
   num_entries (snd (mkv_add_seekhead_entries seekhead adds))
   <= max_entries seekhead).
Proof.
  induction adds as [|[id fp] adds IH]; intros sh.
  - cbn [mkv_add_seekhead_entries fst snd length Nat.sub repeat].
    rewrite Nat.min_0_r, firstn_nil, app_nil_r. cbn [repeat map].
    rewrite app_nil_r. repeat split. intros _ H. exact H.
  - rewrite mkv_add_seekhead_entries_cons. cbn [fst snd length].
    destruct ((0 <? max_entries sh) && (max_entries sh <=? num_entries sh))
      eqn:Hfull.
    + pose proof (seekhead_room_full sh (S (length adds)) Hfull) as R0.
      pose proof (seekhead_room_full sh (length adds) Hfull) as R1.
      unfold mkv_add_seekhead_entry. rewrite Hfull. cbn [fst snd].
      destruct (IH sh) as (I1 & I2 & I3 & I4 & I5 & I6 & I7).
      rewrite R0. rewrite R1 in I1, I2.
      cbn [Nat.min repeat app firstn map Nat.sub] in *.
      rewrite Nat.sub_0_r in I1. rewrite I1.
      repeat split; assumption.
    + pose proof (seekhead_room_step sh id fp (length adds) Hfull) as RS.
      destruct (IH (snd (mkv_add_seekhead_entry sh id fp)))
        as (I1 & I2 & I3 & I4 & I5 & I6 & I7).
      rewrite RS, I1, I2, I3, I4, I5, I6.
      unfold mkv_add_seekhead_entry in *. rewrite Hfull in *.
      cbn [fst snd Nat.min repeat app firstn map Nat.sub
           sh_entries filepos sh_segment_offset reserved_size max_entries] in *.
      rewrite <- app_assoc.
      repeat split.
      intros Hm Hn. apply I7; [exact Hm|].
      unfold num_entries in *. cbn [sh_entries].
      apply andb_false_iff in Hfull.
      destruct Hfull as [H|H]; [apply Z.ltb_ge in H; lia|].
      apply Z.leb_gt in H.
      rewrite len_app. unfold len in *. cbn [length]. lia.
Qed.

(** With the identifiers of the Matroska specification a Seek entry
    takes at most 28 bytes, and at most 27 when its position is below
    2^56. *)
Lemma len_seek_entry_bytes_std e :
  ebml_id_size (elementid e) <= 4 ->
  len (seek_entry_bytes matroska_std e) <= 28 /\
  (u64 (segmentpos e) < 2 ^ 56 -> len (seek_entry_bytes matroska_std e) <= 27).
Proof.
  intros Hid. unfold seek_entry_bytes, ebml_uint_bytes.
  rewrite len_ebml_master_bytes, !len_app, !len_ebml_id_bytes, !len_cons,
    len_nil, len_be_bytes.
  change (ebml_id_size (MATROSKA_ID_SEEKENTRY matroska_std)) with 2.
  change (ebml_id_size (MATROSKA_ID_SEEKID matroska_std)) with 2.
  change (ebml_id_size (MATROSKA_ID_SEEKPOSITION matroska_std)) with 2.
  pose proof (u64_range (segmentpos e)) as Hu.
  rewrite <- (uint_bytes_width _ Hu).
  pose proof (uint_bytes_bounds _ Hu) as Hb.
  split; [lia|]. intros Hp.
  rewrite uint_bytes_ladder in * by exact Hu.
  repeat match goal with
  | |- context [?a <? ?b] => destruct (Z.ltb_spec a b)
  end; lia.
Qed.

Lemma len_seek_entries_std entries :
  Forall (fun e => ebml_id_size (elementid e) <= 4 /\
                   u64 (segmentpos e) < 2 ^ 56) entries ->
  len (concat (map (seek_entry_bytes matroska_std) entries)) <= 27 * len entries.
Proof.
  induction 1 as [|e entries [Hid Hp] _ IH]; cbn [map concat].
  - cbn. lia.
  - rewrite len_app, len_cons.
    pose proof (proj2 (len_seek_entry_bytes_std e Hid) Hp). lia.
Qed.



Lemma ebml_size_decode_8 s :
  0 <= s < 2 ^ 56 -> ebml_size_decode (be_bytes 8 (2 ^ 56 + s)) = Some s.
Proof.
  intros Hs. pose proof (ebml_size_decode_be_bytes 8 s ltac:(lia)) as H.
  change (7 * 8) with 56 in H. change (Z.to_nat 8) with 8%nat in H.
  rewrite (Z.add_comm (2 ^ 56)). apply H. exact Hs.
Qed.



Definition ex_pb0 : ByteIOContext := mkPB (fun _ => 0) 100.
Definition ex_seekhead0 : mkv_seekhead :=
  fst (mkv_start_seekhead matroska_std ex_pb0 0 1).
Definition ex_pb1 : ByteIOContext :=
  url_fseek (snd (mkv_start_seekhead matroska_std ex_pb0 0 1)) 5000.


End MkvFacts.

(** ** Further properties of the Matroska muxer *)

Module MkvElements.

Import Mkv MkvFacts.

(** *** Identifiers *)

Lemma log2_between x k : 0 <= k -> 2 ^ k <= x < 2 ^ (k + 1) -> Z.log2 x = k.
Proof. intros Hk H. apply Z.log2_unique; [exact Hk|]. rewrite <- Z.add_1_r. exact H. Qed.

Lemma ebml_id_size_class n id :
  1 <= n <= 4 -> 2 ^ (7 * n) <= id + 1 < 2 ^ (7 * n + 1) ->
  ebml_id_size id = n.
Proof.
  intros Hn Hid.
  assert (H32 : 2 ^ (7 * n + 1) <= 2 ^ 32) by (apply Z.pow_le_mono_r; lia).
  assert (H0 : 0 < 2 ^ (7 * n)) by (apply Z.pow_pos_nonneg; lia).
  unfold ebml_id_size, av_log2, u32. rewrite Z.mod_small by lia.
  rewrite (log2_between (id + 1) (7 * n)) by (lia || exact Hid).
  assert (Hc : n = 1 \/ n = 2 \/ n = 3 \/ n = 4) by lia.
  destruct Hc as [->|[->|[->| ->]]]; reflexivity.
Qed.

(** X1.  For an identifier of the EBML class of [n] bytes, [n] from 1 to
    4 (marker bit [2^(7n)] set, not all data bits set), [ebml_id_size]
    is [n] and [put_ebml_id] emits [n] bytes, most significant first,
    from which the identifier reads back: the first byte tells the
    width and the bytes are its value.  The reserved identifier with
    all data bits set is sized one byte longer. *)
Theorem put_ebml_id_round_trip (n id : Z) :
  1 <= n <= 4 -> 2 ^ (7 * n) <= id <= 2 ^ (7 * n + 1) - 2 ->
  ebml_id_size id = n /\
  emits (fun pb => put_ebml_id pb id) (ebml_id_bytes id) /\
  len (ebml_id_bytes id) = n /\
  ebml_id_decode (ebml_id_bytes id) = Some id /\
  ebml_id_size (2 ^ (7 * n + 1) - 1) = n + 1.
Proof.
  intros Hn Hid.
  assert (Hs : ebml_id_size id = n) by (apply ebml_id_size_class; lia).
  split; [exact Hs|]. split; [apply emits_put_ebml_id|].
  split; [rewrite len_ebml_id_bytes; exact Hs|]. split.
  - assert (Hw : 1 <= n <= 8) by lia.
    assert (Hv : 2 ^ (7 * n) <= id < 2 ^ (7 * n + 1)) by lia.
    destruct (log2_first_byte n id Hw Hv) as (Hb & Hpos & Hlog).
    assert (Hl : len (ebml_id_bytes id) = n)
      by (rewrite len_ebml_id_bytes; exact Hs).
    assert (H0 : 0 < 2 ^ (7 * n)) by (apply Z.pow_pos_nonneg; lia).
    assert (Hval : be_value (ebml_id_bytes id) = id).
    { unfold ebml_id_bytes.
      rewrite <- ebml_id_size_width, Hs, be_value_be_bytes by lia.
      rewrite Z2Nat.id by lia. apply Z.mod_small.
      assert (2 ^ (7 * n + 1) <= 256 ^ n).
      { change 256 with (2 ^ 8). rewrite <- Z.pow_mul_r by lia.
        apply Z.pow_le_mono_r; lia. }
      lia. }
    unfold ebml_id_decode. rewrite Hl, Hval.
    unfold ebml_id_bytes in *. rewrite <- ebml_id_size_width in *.
    rewrite Hs in *.
    destruct (Z.to_nat n) as [|m] eqn:Em; [lia|].
    cbn [be_bytes]. replace (Z.of_nat m) with (n - 1) by lia.
    rewrite Hb. destruct (Z.ltb_spec 0 (id / 2 ^ (8 * (n - 1)))); [|lia].
    rewrite Hlog. replace (8 - (8 - n)) with n by lia.
    rewrite Z.eqb_refl. reflexivity.
  - assert (Hc : n = 1 \/ n = 2 \/ n = 3 \/ n = 4) by lia.
    destruct Hc as [->|[->|[->| ->]]]; reflexivity.
Qed.

Lemma put_ebml_id_round_trip_witness :
  ebml_id_size 0x4DBB = 2 /\
  ebml_id_decode (ebml_id_bytes 0x4DBB) = Some 0x4DBB.
Proof.
  destruct (put_ebml_id_round_trip 2 0x4DBB) as (H1 & _ & _ & H4 & _);
    [lia|lia|].
  split; [exact H1|exact H4].
Defined.

(** *** Sizes *)

(** X2.  [put_ebml_size_unknown] with a width of at least 1 emits the
    size field of [min (bytes, 8)] bytes that has the marker bit and
    all data bits set; read as a size, its data bits are all ones. *)
Theorem put_ebml_size_unknown_all_ones (bytes : Z) :
  1 <= bytes ->
  emits (fun pb => put_ebml_size_unknown pb bytes)
    (ebml_unknown_bytes (Z.min bytes 8)) /\
  len (ebml_unknown_bytes (Z.min bytes 8)) = Z.min bytes 8 /\
  ebml_size_decode (ebml_unknown_bytes (Z.min bytes 8))
  = Some (2 ^ (7 * Z.min bytes 8) - 1).
Proof.
  intros Hb. unfold put_ebml_size_unknown.
  remember (Z.min bytes 8) as n eqn:En.
  assert (Hc : n = 1 \/ n = 2 \/ n = 3 \/ n = 4 \/
               n = 5 \/ n = 6 \/ n = 7 \/ n = 8) by lia.
  clear En Hb.
  repeat (destruct Hc as [->|Hc]); try subst n;
    (split; [|split; [reflexivity|reflexivity]]);
    unfold ebml_unknown_bytes;
    match goal with
    | |- emits _ (be_bytes ?k ?v) =>
        apply (emits_ext (put_be_bytes k v)); [reflexivity|];
        apply (emits_put_be_bytes k v)
    end.
Qed.

Lemma put_ebml_size_unknown_all_ones_witness :
  emits (fun pb => put_ebml_size_unknown pb 12)
    (ebml_unknown_bytes (Z.min 12 8)) /\
  len (ebml_unknown_bytes (Z.min 12 8)) = Z.min 12 8 /\
  ebml_size_decode (ebml_unknown_bytes (Z.min 12 8))
  = Some (2 ^ (7 * Z.min 12 8) - 1).
Proof. apply (put_ebml_size_unknown_all_ones 12). lia. Defined.

Lemma be_value_be_bytes_small w v :
  0 <= w -> 0 <= v < 2 ^ (8 * w) ->
  be_value (be_bytes (Z.to_nat w) v) = v.
Proof.
  intros Hw Hv. rewrite be_value_be_bytes by lia.
  rewrite Z2Nat.id by lia. apply Z.mod_small.
  change 256 with (2 ^ 8). rewrite <- Z.pow_mul_r by lia. exact Hv.
Qed.

(** X3.  A size from 0 to 2^56 - 2 is never written as the field that
    stands for an unknown size: [put_ebml_size] emits 1 to 8 bytes that
    differ from the all-ones field of their width (the width is chosen
    for [size + 1]). *)
Theorem put_ebml_size_not_unknown (size minbytes : Z) :
  0 <= size <= 2 ^ 56 - 2 -> minbytes <= 8 ->
  exists bs,
    emits (fun pb => put_ebml_size pb size minbytes) bs /\
    1 <= len bs <= 8 /\
    ebml_size_decode bs = Some size /\
    bs <> ebml_unknown_bytes (len bs).
Proof.
  intros Hs Hm.
  destruct (ebml_size_bytes_least size Hs) as (Hw & Hlt & _).
  set (w := Z.max minbytes (ebml_size_bytes size)).
  assert (Hw8 : 1 <= w <= 8) by (unfold w; lia).
  assert (Hle : 2 ^ (7 * ebml_size_bytes size) <= 2 ^ (7 * w))
    by (apply Z.pow_le_mono_r; unfold w; lia).
  assert (H87 : 2 ^ (7 * w + 1) <= 2 ^ (8 * w)) by (apply Z.pow_le_mono_r; lia).
  assert (Hp1 : 2 ^ (7 * w + 1) = 2 * 2 ^ (7 * w))
    by (rewrite Z.pow_add_r by lia; change (2 ^ 1) with 2; lia).
  assert (H0 : 0 < 2 ^ (7 * w)) by (apply Z.pow_pos_nonneg; lia).
  exists (be_bytes (Z.to_nat w) (size + 2 ^ (7 * w))).
  assert (Hl : len (be_bytes (Z.to_nat w) (size + 2 ^ (7 * w))) = w)
    by (rewrite len_be_bytes; lia).
  split; [apply (emits_put_ebml_size size minbytes Hs Hm)|].
  split; [lia|]. split; [apply ebml_size_decode_be_bytes; lia|].
  rewrite Hl. unfold ebml_unknown_bytes. intros E.
  apply (f_equal be_value) in E.
  rewrite !be_value_be_bytes_small in E by lia. lia.
Qed.

Lemma put_ebml_size_not_unknown_witness :
  exists bs,
    emits (fun pb => put_ebml_size pb 126 0) bs /\
    1 <= len bs <= 8 /\
    ebml_size_decode bs = Some 126 /\
    bs <> ebml_unknown_bytes (len bs).
Proof. apply (put_ebml_size_not_unknown 126 0); lia. Defined.

(** *** Unsigned integer elements *)

(** X4.  For a value from 0 to below 2^56, [put_ebml_uint] emits the
    identifier, one size byte that reads back as the number [n] of
    payload bytes, and the payload, which is the value most significant
    byte first on the fewest bytes that hold it, at least one and at
    most 7. *)
Theorem put_ebml_uint_round_trip (elementid val : Z) :
  0 <= val < 2 ^ 56 ->
  exists n payload,
    emits (fun pb => put_ebml_uint pb elementid val)
      (ebml_id_bytes elementid ++ [0x80 + n] ++ payload) /\
    1 <= n <= 7 /\ len payload = n /\
    ebml_size_decode [0x80 + n] = Some n /\
    be_value payload = val /\
    (n = 1 \/ 2 ^ (8 * (n - 1)) <= val).
Proof.
  intros Hval.
  assert (H64 : 2 ^ 56 < 2 ^ 64) by reflexivity.
  assert (Hu : 0 <= val < 2 ^ 64) by lia.
  pose proof (uint_bytes_bounds _ Hu) as Hb.
  pose proof (emits_put_ebml_uint elementid val) as He.
  unfold ebml_uint_bytes in He. rewrite (u64_small val) in He by lia.
  rewrite <- (uint_bytes_width val Hu) in He.
  exists (uint_bytes val), (be_bytes (Z.to_nat (uint_bytes val)) val).
  split; [exact He|].
  assert (Hlad := uint_bytes_ladder val Hu).
  set (n := uint_bytes val) in *.
  assert (Hv : n <= 7 /\ val < 2 ^ (8 * n) /\
               (n = 1 \/ 2 ^ (8 * (n - 1)) <= val)).
  { rewrite Hlad.
    repeat match goal with
    | |- context [?a <? ?b] => destruct (Z.ltb_spec a b)
    end; cbn; lia. }
  split; [lia|]. split; [rewrite len_be_bytes; lia|].
  split.
  { assert (Hc : n = 1 \/ n = 2 \/ n = 3 \/ n = 4 \/
                 n = 5 \/ n = 6 \/ n = 7) by lia.
    repeat (destruct Hc as [->|Hc]); try rewrite Hc; reflexivity. }
  split; [apply be_value_be_bytes_small; lia|apply Hv].
Qed.

Lemma put_ebml_uint_round_trip_witness :
  exists n payload,
    emits (fun pb => put_ebml_uint pb 0xE7 6000)
      (ebml_id_bytes 0xE7 ++ [0x80 + n] ++ payload) /\
    len payload = n /\ be_value payload = 6000.
Proof.
  destruct (put_ebml_uint_round_trip 0xE7 6000) as (n & payload & H1 & _ & H2 & _ & H3 & _).
  - lia.
  - exists n, payload. split; [exact H1|]. split; [exact H2|exact H3].
Defined.

(** *** Void elements *)

Section VoidFacts.

Variable ids : matroska_ids.

(** X5.  [put_ebml_void] with a Void identifier of one byte.  Below 2
    bytes it writes nothing and leaves the cursor.  From 2 bytes on it
    writes the identifier and a size field and moves the cursor [size]
    bytes on from where it was.  For [size] from 10 on the size field
    has 8 bytes and says [size - 9]: the element takes [size] bytes.
    For [size] from 2 to 9 the size field has one byte and says
    [size - 1]: the element a reader finds takes [size + 1] bytes, one
    more than the cursor moved over. *)
Theorem put_ebml_void_extent (pb : ByteIOContext) (size : Z) :
  ebml_id_size (EBML_ID_VOID ids) = 1 ->
  0 <= size <= 2 ^ 56 -> 0 <= pos pb < 2 ^ 62 ->
  (size < 2 -> put_ebml_void ids pb size = pb) /\
  (2 <= size ->
   pos (put_ebml_void ids pb size) = pos pb + size /\
   holds (put_ebml_void ids pb size) (pos pb) (void_header_bytes ids size) /\
   (forall off, off < pos pb \/ pos pb + len (void_header_bytes ids size) <= off ->
                content (put_ebml_void ids pb size) off = content pb off)) /\
  (2 <= size < 10 ->
   void_header_bytes ids size = ebml_id_bytes (EBML_ID_VOID ids) ++ [0x80 + (size - 1)] /\
   element_extent 1 [0x80 + (size - 1)] = Some (size + 1)) /\
  (10 <= size ->
   void_header_bytes ids size
   = ebml_id_bytes (EBML_ID_VOID ids) ++ be_bytes 8 (2 ^ 56 + (size - 9)) /\
   element_extent 1 (be_bytes 8 (2 ^ 56 + (size - 9))) = Some size).
Proof.
  intros Hv Hs Hp. split; [|split; [|split]].
  - intros H. unfold put_ebml_void. rewrite u64_small by lia.
    destruct (Z.ltb_spec size 2); [reflexivity|lia].
  - intros H. unfold put_ebml_void. rewrite u64_small by lia.
    destruct (Z.ltb_spec size 2) as [|_]; [lia|].
    destruct (emits_void_header ids size ltac:(lia) pb) as [Pv Cv].
    cbn zeta in Pv, Cv. unfold url_fseek, url_ftell. cbn [pos content].
    split; [apply s64_small; lia|]. split.
    + intros i Hi. cbn [content]. rewrite Cv. apply patch_at, Hi.
    + intros off [Ho|Ho]; rewrite Cv.
      * apply patch_below, Ho.
      * apply patch_above, Ho.
  - intros H. unfold void_header_bytes.
    destruct (Z.ltb_spec size 10) as [_|]; [|lia].
    split; [reflexivity|].
    assert (Hc : size = 2 \/ size = 3 \/ size = 4 \/ size = 5 \/
                 size = 6 \/ size = 7 \/ size = 8 \/ size = 9) by lia.
    repeat (destruct Hc as [->|Hc]); try rewrite Hc; reflexivity.
  - intros H. unfold void_header_bytes.
    destruct (Z.ltb_spec size 10) as [|_]; [lia|].
    split; [reflexivity|]. unfold element_extent.
    rewrite ebml_size_decode_8 by lia.
    rewrite len_be_bytes. f_equal. lia.
Qed.

End VoidFacts.

Lemma put_ebml_void_extent_witness :
  pos (put_ebml_void matroska_std (mkPB (fun _ => 0) 100) 5) = 100 + 5 /\
  element_extent 1 [0x80 + (5 - 1)] = Some (5 + 1).
Proof.
  destruct (put_ebml_void_extent matroska_std (mkPB (fun _ => 0) 100) 5)
    as (_ & H2 & H3 & _); [reflexivity|lia|cbn [pos]; lia|].
  split; [apply H2; lia|apply H3; lia].
Defined.

(** *** Master elements *)

(** X6.  A master element opened with [start_ebml_master], whose body
    emits the bytes [bs] (fewer than 2^56 - 1), and closed with
    [end_ebml_master]: [start_ebml_master] returns the offset behind the
    8-byte size field and leaves the field for an unknown size there;
    after closing, the file holds the identifier, a size field of 8
    bytes that reads back as the length of the body, and the body, and
    the cursor is behind the body. *)
Theorem ebml_master_round_trip (elementid : Z)
  (body : ByteIOContext -> ByteIOContext) (bs : list Z) :
  emits body bs -> len bs < 2 ^ 56 - 1 ->
  (forall pb,
      fst (start_ebml_master pb elementid) = pos pb + ebml_id_size elementid + 8 /\
      holds (snd (start_ebml_master pb elementid)) (pos pb)
        (ebml_id_bytes elementid ++ ebml_unknown_bytes 8)) /\
  emits (fun pb =>
           end_ebml_master (body (snd (start_ebml_master pb elementid)))
             (fst (start_ebml_master pb elementid)))
    (ebml_id_bytes elementid ++ be_bytes 8 (2 ^ 56 + len bs) ++ bs) /\
  ebml_size_decode (be_bytes 8 (2 ^ 56 + len bs)) = Some (len bs).
Proof.
  intros Hb Hl. pose proof (len_nonneg bs) as H0. split; [|split].
  - intros pb.
    pose proof (emits_seq _ _ _ _ (emits_put_ebml_id elementid) emits_unknown_8)
      as E.
    destruct (E pb) as [P C]. unfold start_ebml_master, url_ftell. cbn [fst snd].
    change (ebml_unknown_bytes 8) with [1; 255; 255; 255; 255; 255; 255; 255].
    split.
    + rewrite P, len_app, len_ebml_id_bytes.
      change (len [1; 255; 255; 255; 255; 255; 255; 255]) with 8. lia.
    + intros i Hi. rewrite C. apply patch_at, Hi.
  - apply (emits_ext (master elementid body)).
    + intros pb. unfold master. destruct (start_ebml_master pb elementid).
      reflexivity.
    + apply (emits_master elementid body bs Hb Hl).
  - apply ebml_size_decode_8. lia.
Qed.

Lemma ebml_master_round_trip_witness :
  emits (fun pb =>
           end_ebml_master (put_byte (snd (start_ebml_master pb 0xA0)) 7)
             (fst (start_ebml_master pb 0xA0)))
    (ebml_id_bytes 0xA0 ++ be_bytes 8 (2 ^ 56 + len [7]) ++ [7]) /\
  ebml_size_decode (be_bytes 8 (2 ^ 56 + len [7])) = Some (len [7]).
Proof.
  destruct (ebml_master_round_trip 0xA0 (fun pb => put_byte pb 7) [7]
              (emits_put_byte 7)) as (_ & H2 & H3); [reflexivity|].
  split; [exact H2|exact H3].
Defined.

(** *** SeekHeads *)

(** X7.  Entries added to a SeekHead one after the other.  As many as
    the SeekHead has room for are taken, in their order, each with its
    position relative to the Segment, and their additions return 0; all
    later additions return -1 and change nothing.  A SeekHead started
    for [max_entries > 0] never holds more than that many entries; one
    started for any number takes them all.  The reservation is not
    touched. *)
Theorem mkv_add_seekhead_entries_capacity (adds : list (Z * Z)) :
  forall seekhead : mkv_seekhead,
  fst (mkv_add_seekhead_entries seekhead adds)
  = repeat 0 (Nat.min (seekhead_room seekhead (length adds)) (length adds)) ++
    repeat (-1) (length adds - seekhead_room seekhead (length adds)) /\
  sh_entries (snd (mkv_add_seekhead_entries seekhead adds))
  = sh_entries seekhead ++
    map (seekhead_entry_of seekhead)
      (firstn (seekhead_room seekhead (length adds)) adds) /\
  filepos (snd (mkv_add_seekhead_entries seekhead adds)) = filepos seekhead /\
  sh_segment_offset (snd (mkv_add_seekhead_entries seekhead adds))
  = sh_segment_offset seekhead /\
  reserved_size (snd (mkv_add_seekhead_entries seekhead adds))
  = reserved_size seekhead /\
  max_entries (snd (mkv_add_seekhead_entries seekhead adds))
  = max_entries seekhead /\
  (0 < max_entries seekhead ->
   num_entries seekhead <= max_entries seekhead ->
   num_entries (snd (mkv_add_seekhead_entries seekhead adds))
   <= max_entries seekhead).
Proof. apply mkv_add_seekhead_entries_spec. Qed.

Section SeekHeadWrite.

Variable ids : matroska_ids.

Lemma len_seek_entry_bytes_le e : len (seek_entry_bytes ids e) <= 38.
Proof.
  unfold seek_entry_bytes.
  rewrite len_ebml_master_bytes, !len_app, !len_ebml_id_bytes, len_cons, len_nil.
  pose proof (ebml_id_size_bounds (MATROSKA_ID_SEEKENTRY ids)).
  pose proof (ebml_id_size_bounds (MATROSKA_ID_SEEKID ids)).
  pose proof (ebml_id_size_bounds (MATROSKA_ID_SEEKPOSITION ids)).
  pose proof (ebml_id_size_bounds (elementid e)).
  pose proof (len_ebml_uint_bytes (MATROSKA_ID_SEEKPOSITION ids) (segmentpos e)).
  lia.
Qed.

Lemma len_seek_entries_le entries :
  len (concat (map (seek_entry_bytes ids) entries)) <= 38 * len entries.
Proof.
  induction entries as [|e entries IH]; cbn [map concat].
  - cbn. lia.
  - rewrite len_app, len_cons. pose proof (len_seek_entry_bytes_le e). lia.
Qed.

(** A SeekHead without a reservation goes to the cursor. *)
Lemma mkv_write_seekhead_appends_spec (seekhead : mkv_seekhead) :
  reserved_size seekhead <= 0 -> num_entries seekhead < 2 ^ 31 ->
  (forall pb, fst (mkv_write_seekhead ids pb seekhead) = pos pb) /\
  emits (fun pb => snd (mkv_write_seekhead ids pb seekhead))
    (seekhead_bytes ids (sh_entries seekhead)).
Proof.
  intros Hr Hn.
  assert (E : forall pb,
             mkv_write_seekhead ids pb seekhead
             = (pos pb,
                master (MATROSKA_ID_SEEKHEAD ids)
                  (fun pb => fold_left (write_seek_entry ids)
                               (sh_entries seekhead) pb) pb)).
  { intros pb. unfold mkv_write_seekhead, write_seekhead_elements, master.
    destruct (Z.ltb_spec 0 (reserved_size seekhead)) as [|_]; [lia|].
    destruct (start_ebml_master pb (MATROSKA_ID_SEEKHEAD ids)). reflexivity. }
  split; [intros pb; rewrite E; reflexivity|].
  apply (emits_ext (master (MATROSKA_ID_SEEKHEAD ids)
                      (fun pb => fold_left (write_seek_entry ids)
                                   (sh_entries seekhead) pb))).
  - intros pb. rewrite E. reflexivity.
  - apply emits_master; [apply emits_write_seek_entries|].
    pose proof (len_seek_entries_le (sh_entries seekhead)).
    unfold num_entries in Hn.
    assert (38 * 2 ^ 31 < 2 ^ 56 - 1) by reflexivity. lia.
Qed.

(** X9.  A SeekHead that was started without a reservation, with
    entries that can be written (identifiers of at most 4 bytes,
    positions from 0 to below 2^56), is written at the cursor:
    [mkv_write_seekhead] returns the offset it started at and emits the
    SeekHead element with one Seek entry for every entry added, in the
    order they were added, each with the SeekID of the element and its
    position in the Segment; the cursor stays behind the element. *)
Theorem mkv_write_seekhead_appends (seekhead : mkv_seekhead) :
  reserved_size seekhead <= 0 -> num_entries seekhead < 2 ^ 31 ->
  forallb seek_entry_okb (sh_entries seekhead) = true ->
  (forall pb, fst (mkv_write_seekhead ids pb seekhead) = pos pb) /\
  emits (fun pb => snd (mkv_write_seekhead ids pb seekhead))
    (seekhead_bytes ids (sh_entries seekhead)).
Proof.
  intros Hr Hn _. apply mkv_write_seekhead_appends_spec; assumption.
Qed.

(** The file after a SeekHead was written at its reserved place. *)
Lemma mkv_write_seekhead_reserved_content pb seekhead :
  0 <= filepos seekhead ->
  filepos seekhead + reserved_size seekhead < 2 ^ 63 ->
  reserved_size seekhead < 2 ^ 56 ->
  ebml_id_size (EBML_ID_VOID ids) = 1 ->
  len (seekhead_bytes ids (sh_entries seekhead)) + 2 <= reserved_size seekhead ->
  forall off,
    content (snd (mkv_write_seekhead ids pb seekhead)) off
    = patch (content pb) (filepos seekhead)
        (seekhead_bytes ids (sh_entries seekhead) ++
         void_header_bytes ids
           (reserved_size seekhead
            - len (seekhead_bytes ids (sh_entries seekhead)))) off.
Proof.
  intros Hf H63 H56 Hv Hl off.
  set (sb := seekhead_bytes ids (sh_entries seekhead)) in *.
  pose proof (len_nonneg sb) as Hsb.
  set (R := reserved_size seekhead - len sb).
  assert (HR : 2 <= R <= 2 ^ 56) by (unfold R; lia).
  unfold mkv_write_seekhead.
  destruct (Z.ltb_spec 0 (reserved_size seekhead)) as [_|]; [|lia].
  cbn [snd]. unfold url_fseek at 1. cbn [content].
  rewrite write_seekhead_elements_reserved by lia.
  assert (Hm : emits (master (MATROSKA_ID_SEEKHEAD ids)
                        (fun pb => fold_left (write_seek_entry ids)
                                     (sh_entries seekhead) pb)) sb).
  { apply emits_master; [apply emits_write_seek_entries|].
    unfold sb, seekhead_bytes in Hl. rewrite len_ebml_master_bytes in Hl.
    pose proof (ebml_id_size_bounds (MATROSKA_ID_SEEKHEAD ids)). lia. }
  destruct (Hm (url_fseek pb (filepos seekhead))) as [Pm Cm].
  fold (write_seekhead_master ids pb seekhead) in Pm, Cm.
  set (pbm := write_seekhead_master ids pb seekhead) in *.
  cbn [url_fseek pos content] in Pm, Cm.
  unfold url_ftell. rewrite Pm.
  replace (filepos seekhead + reserved_size seekhead - (filepos seekhead + len sb))
    with R by (unfold R; lia).
  unfold put_ebml_void. rewrite !(u64_small R) by lia.
  destruct (Z.ltb_spec R 2) as [|_]; [lia|].
  destruct (emits_void_header ids R HR pbm) as [Pv Cv]. cbn zeta in Pv, Cv.
  unfold url_fseek. cbn [content]. rewrite Cv, Pm.
  rewrite (patch_ext _ (patch (content pb) (filepos seekhead) sb)) by exact Cm.
  apply patch_app.
Qed.

End SeekHeadWrite.

(** X8.  A SeekHead that was started for [k] entries, with the
    identifiers of the Matroska specification, is written over its
    reservation of [28 k + 13] bytes.  With at most [k] entries, of
    identifiers of at most 4 bytes and positions below 2^56,
    [mkv_write_seekhead] returns the reserved offset and puts the
    cursor back where it was; in the file exactly the bytes of the
    SeekHead element and of the head of a Void behind it are written,
    from the reserved offset on, and they end inside the reservation. *)
Theorem mkv_write_seekhead_reserved (pb : ByteIOContext)
  (seekhead : mkv_seekhead) :
  0 <= filepos seekhead < 2 ^ 62 ->
  0 < max_entries seekhead < 2 ^ 24 ->
  reserved_size seekhead = max_entries seekhead * 28 + 13 ->
  num_entries seekhead <= max_entries seekhead ->
  Forall (fun e => ebml_id_size (elementid e) <= 4 /\
                   u64 (segmentpos e) < 2 ^ 56) (sh_entries seekhead) ->
  fst (mkv_write_seekhead matroska_std pb seekhead) = filepos seekhead /\
  pos (snd (mkv_write_seekhead matroska_std pb seekhead)) = pos pb /\
  (forall off,
      content (snd (mkv_write_seekhead matroska_std pb seekhead)) off
      = patch (content pb) (filepos seekhead)
          (seekhead_bytes matroska_std (sh_entries seekhead) ++
           void_header_bytes matroska_std
             (reserved_size seekhead
              - len (seekhead_bytes matroska_std (sh_entries seekhead)))) off) /\
  len (seekhead_bytes matroska_std (sh_entries seekhead) ++
       void_header_bytes matroska_std
         (reserved_size seekhead
          - len (seekhead_bytes matroska_std (sh_entries seekhead))))
  <= reserved_size seekhead.
Proof.
  intros Hf Hk Hr Hn He.
  pose proof (len_seek_entries_std _ He) as Hl.
  pose proof (len_nonneg (sh_entries seekhead)) as H0.
  unfold num_entries in Hn.
  assert (Hlen : len (seekhead_bytes matroska_std (sh_entries seekhead)) + 2
                 <= reserved_size seekhead).
  { unfold seekhead_bytes. rewrite len_ebml_master_bytes.
    change (ebml_id_size (MATROSKA_ID_SEEKHEAD matroska_std)) with 4. lia. }
  split; [|split; [|split]].
  - unfold mkv_write_seekhead.
    destruct (Z.ltb_spec 0 (reserved_size seekhead)); [reflexivity|lia].
  - unfold mkv_write_seekhead.
    destruct (Z.ltb_spec 0 (reserved_size seekhead)); [reflexivity|lia].
  - apply (mkv_write_seekhead_reserved_content matroska_std pb seekhead);
      [lia|lia|lia|reflexivity|exact Hlen].
  - destruct (write_seekhead_elements_fills matroska_std pb seekhead)
      as (_ & _ & Hv); [lia|lia|lia|reflexivity|exact Hlen|].
    rewrite len_app. lia.
Qed.

Lemma mkv_write_seekhead_reserved_witness :
  fst (mkv_write_seekhead matroska_std ex_pb1
         (snd (mkv_add_seekhead_entry ex_seekhead0 0x1F43B675 4096)))
  = 100 /\
  pos (snd (mkv_write_seekhead matroska_std ex_pb1
              (snd (mkv_add_seekhead_entry ex_seekhead0 0x1F43B675 4096))))
  = 5000.
Proof.
  destruct (mkv_write_seekhead_reserved ex_pb1
              (snd (mkv_add_seekhead_entry ex_seekhead0 0x1F43B675 4096)))
    as (H1 & H2 & _).
  - cbn. lia.
  - cbn. lia.
  - reflexivity.
  - cbn. lia.
  - repeat constructor; vm_compute; congruence.
  - split; [exact H1|exact H2].
Defined.

Lemma mkv_write_seekhead_appends_witness :
  fst (mkv_write_seekhead matroska_std ex_pb2 (cluster_seekhead ex_mux)) = 520 /\
  emits (fun pb => snd (mkv_write_seekhead matroska_std pb (cluster_seekhead ex_mux)))
    (seekhead_bytes matroska_std (sh_entries (cluster_seekhead ex_mux))).
Proof.
  destruct (mkv_write_seekhead_appends matroska_std (cluster_seekhead ex_mux))
    as (H1 & H2).
  - cbn. lia.
  - cbn. lia.
  - reflexivity.
  - split; [apply H1|exact H2].
Defined.

End MkvElements.

(** ** Further properties of the packet writer *)

Module MkvPackets.

Import Mkv MkvFacts MkvElements.

Section BlockFacts.

Variable ids : matroska_ids.

Lemma emits_size_field size :
  0 <= size <= 2 ^ 56 - 2 ->
  emits (fun pb => put_ebml_size pb size 0) (ebml_size_field size) /\
  ebml_size_decode (ebml_size_field size) = Some size.
Proof.
  intros Hs. destruct (ebml_size_bytes_least size Hs) as (Hw & Hlt & _).
  pose proof (emits_put_ebml_size size 0 Hs ltac:(lia)) as He.
  replace (Z.max 0 (ebml_size_bytes size)) with (ebml_size_bytes size) in He
    by lia.
  unfold ebml_size_field. rewrite <- (ebml_size_bytes_width size Hs).
  split; [exact He|].
  apply ebml_size_decode_be_bytes; lia.
Qed.






(** What a packet leaves in the context, with or without a new
    Cluster. *)
Lemma mkv_write_packet_step streams mkv pb pkt st :
  0 <= stream_index pkt ->
  nth_error streams (Z.to_nat (stream_index pkt)) = Some st ->
  max_entries (cluster_seekhead mkv) = 0 ->
  exists mkv' pb',
    mkv_write_packet ids streams mkv pb pkt = Done (0, mkv', pb') /\
    max_entries (cluster_seekhead mkv') = 0 /\
    cluster_pts mkv'
    = (if cluster_due mkv pb pkt then u64 (pkt_pts pkt) else cluster_pts mkv) /\
    cluster_pos mkv'
    = (if cluster_due mkv pb pkt then url_ftell pb else cluster_pos mkv) /\
    cues mkv'
    = match codec_type st with
      | CODEC_TYPE_VIDEO =>
          if keyframe pkt
          then snd (mkv_add_cuepoint (cues mkv) pkt (cluster_pos mkv'))
          else cues mkv
      | _ => cues mkv
      end.
Proof.
  intros Hi Hn Hm. destruct (cluster_due mkv pb pkt) eqn:Hd.
  - eexists. eexists.
    split; [apply (mkv_write_packet_new_cluster ids streams mkv pb pkt st
                     Hi Hn Hm Hd)|].
    unfold finish_packet, new_cluster_mkv, mkv_add_seekhead_entry. rewrite Hm.
    destruct (codec_type st); destruct (keyframe pkt); cbn; repeat split.
  - eexists. eexists.
    split; [apply (mkv_write_packet_no_cluster ids streams mkv pb pkt st
                     Hi Hn Hd)|].
    unfold finish_packet.
    destruct (codec_type st); destruct (keyframe pkt); cbn; repeat split;
      exact Hm.
Qed.

(** X11.  The timecode of a block is relative to its Cluster and is
    written on 16 bits.  For a packet and a context the muxer is
    defined for ([packet_okb], [cluster_okb]: the [pts] from 0 to below
    2^56), when the [pts] of the packet is not below the [pts] of the
    current Cluster, the Cluster the block goes to, the current one or
    the one the packet opens, has a [pts] from 0 to 5000 below the
    packet's: the 16-bit field holds the difference as it is, and the
    next packet of no earlier [pts] finds the same condition. *)
Theorem mkv_write_packet_timecode (streams : list AVStream)
  (mkv : MatroskaMuxContext) (pb : ByteIOContext) (pkt : AVPacket)
  (st : AVStream) :
  0 <= stream_index pkt ->
  nth_error streams (Z.to_nat (stream_index pkt)) = Some st ->
  max_entries (cluster_seekhead mkv) = 0 ->
  packet_okb pkt = true -> cluster_okb mkv pb = true ->
  0 <= cluster_pts mkv <= pkt_pts pkt ->
  exists mkv' pb',
    mkv_write_packet ids streams mkv pb pkt = Done (0, mkv', pb') /\
    max_entries (cluster_seekhead mkv') = 0 /\
    cluster_pts mkv <= cluster_pts mkv' <= pkt_pts pkt /\
    0 <= pkt_pts pkt - cluster_pts mkv' <= 5000 /\
    be_value (be_bytes 2 (pkt_pts pkt - cluster_pts mkv'))
    = pkt_pts pkt - cluster_pts mkv'.
Proof.
  intros Hi Hn Hm Hpk _ Hc.
  destruct (packet_okb_spec pkt Hpk) as (Hpts & _).
  apply uint_okb_spec in Hpts.
  assert (H56 : 2 ^ 56 + 5000 < 2 ^ 64) by reflexivity.
  destruct (mkv_write_packet_step streams mkv pb pkt st Hi Hn Hm)
    as (mkv' & pb' & E & Hm' & Hcpts & _).
  exists mkv', pb'. split; [exact E|]. split; [exact Hm'|].
  assert (Hb : cluster_pts mkv <= cluster_pts mkv' <= pkt_pts pkt /\
               0 <= pkt_pts pkt - cluster_pts mkv' <= 5000).
  { rewrite Hcpts. destruct (cluster_due mkv pb pkt) eqn:Hd.
    - rewrite u64_small by lia. lia.
    - unfold cluster_due in Hd. apply orb_false_iff in Hd.
      destruct Hd as [_ Hd]. apply Z.ltb_ge in Hd.
      rewrite !u64_small in Hd by lia. lia. }
  split; [apply Hb|]. split; [apply Hb|].
  rewrite be_value_be_bytes by lia.
  apply Z.mod_small. change (256 ^ Z.of_nat 2) with 65536. lia.
Qed.

End BlockFacts.

(** *** Cues over a run of packets *)

Section CueFacts.

Variable ids : matroska_ids.

Lemma mkv_write_packets_cues_spec (streams : list AVStream)
  (pkts : list AVPacket) :
  forall (mkv : MatroskaMuxContext) (pb : ByteIOContext),
  forallb (stream_okb streams) pkts = true ->
  max_entries (cluster_seekhead mkv) = 0 ->
  exists mkv' pb',
    mkv_write_packets ids streams mkv pb pkts = Done (0, mkv', pb') /\
    map (fun e => (cue_pts e, tracknum e)) (cues_entries (cues mkv'))
    = map (fun e => (cue_pts e, tracknum e)) (cues_entries (cues mkv)) ++
      map cue_key (filter (is_cue_packet streams) pkts) /\
    cues_segment_offset (cues mkv') = cues_segment_offset (cues mkv).
Proof.
  induction pkts as [|p pkts IH]; intros mkv pb Hs Hm.
  - exists mkv, pb. cbn. rewrite app_nil_r. repeat split.
  - cbn [forallb] in Hs. apply andb_true_iff in Hs. destruct Hs as [Hp Hs].
    destruct (stream_okb_nth streams p Hp) as (Hi & st & Hn).
    destruct (mkv_write_packet_step ids streams mkv pb p st Hi Hn Hm)
      as (mkv1 & pb1 & E & Hm1 & _ & _ & Hc).
    destruct (IH mkv1 pb1 Hs Hm1) as (mkv' & pb' & E' & Hk & Ho).
    exists mkv', pb'. cbn [mkv_write_packets]. rewrite E.
    cbn [Z.ltb Z.compare]. split; [exact E'|].
    rewrite Hk, Ho, Hc. cbn [filter]. unfold is_cue_packet at 2. rewrite Hn.
    unfold mkv_add_cuepoint.
    destruct (codec_type st); destruct (keyframe p);
      cbn [snd cues_entries cues_segment_offset map app];
      try (split; reflexivity).
    rewrite map_app, <- app_assoc. cbn [map app cue_pts tracknum].
    split; reflexivity.
Qed.

(** X12.  Over packets of the streams, written one after the other
    from a context the muxer is defined for ([mux_okb], [packet_okb]:
    every [pts] from 0 to below 2^56, no negative duration), every key
    frame of a video stream adds one cue and no other packet adds one:
    the cues gained are, in the order of the packets, those of the
    video key frames, each with the packet's [pts] and the track number
    [stream_index + 1]. *)
Theorem mkv_write_packets_cues (streams : list AVStream)
  (pkts : list AVPacket) (mkv : MatroskaMuxContext) (pb : ByteIOContext) :
  forallb (stream_okb streams) pkts = true ->
  forallb packet_okb pkts = true ->
  len pkts < 2 ^ 20 ->
  mux_okb ids mkv pb = true ->
  exists mkv' pb',
    mkv_write_packets ids streams mkv pb pkts = Done (0, mkv', pb') /\
    map (fun e => (cue_pts e, tracknum e)) (cues_entries (cues mkv'))
    = map (fun e => (cue_pts e, tracknum e)) (cues_entries (cues mkv)) ++
      map (fun pkt => (pkt_pts pkt, stream_index pkt + 1))
        (filter (is_cue_packet streams) pkts) /\
    cues_segment_offset (cues mkv') = cues_segment_offset (cues mkv).
Proof.
  intros Hs Hpk _ Hok.
  destruct (mux_okb_spec ids mkv pb Hok) as (_ & _ & Hm & _).
  destruct (mkv_write_packets_cues_spec streams pkts mkv pb Hs Hm)
    as (mkv' & pb' & E & Hk & Ho).
  exists mkv', pb'. split; [exact E|]. split; [|exact Ho].
  rewrite Hk. f_equal. apply map_ext_in. intros p Hp.
  apply filter_In in Hp. destruct Hp as [Hp _].
  rewrite forallb_forall in Hpk.
  destruct (packet_okb_spec p (Hpk p Hp)) as (Hpts & _).
  unfold cue_key. destruct (uint_okb_u64 _ Hpts) as [-> _]. reflexivity.
Qed.

End CueFacts.

(** *** The trailer *)

Section TrailerLayout.

Variable ids : matroska_ids.
Variable dbl_bits : Z -> Z.
Variable md5_digest : list Z -> list Z.

Lemma emits_mkv_write_cues cues :
  len (cues_entries cues) < 2 ^ 31 ->
  emits (fun pb => snd (mkv_write_cues ids pb cues))
    (cues_bytes ids (cues_entries cues)).
Proof.
  intros Hl. unfold cues_bytes.
  apply (emits_ext
           (master (MATROSKA_ID_CUES ids)
              (fun pb => write_cuepoints ids
                           (List.length (cues_entries cues)) pb
                           (cues_entries cues) 0))).
  - intros pb. unfold mkv_write_cues, master.
    destruct (start_ebml_master pb (MATROSKA_ID_CUES ids)). reflexivity.
  - apply emits_master.
    + apply (emits_write_cuepoints ids (cues_entries cues) Hl
               (List.length (cues_entries cues)) 0).
      * pose proof (len_nonneg (cues_entries cues)). lia.
      * unfold len. lia.
    + pose proof (len_cuepoints_bytes ids _ (pts_runs_uniform (cues_entries cues)))
        as Hb.
      rewrite pts_runs_concat in Hb.
      assert (68 * 2 ^ 31 < 2 ^ 56 - 1) by reflexivity. lia.
Qed.

(** The stream after the Cues and the cluster SeekHead, and the main
    SeekHead with their two entries. *)
Definition trailer_cues_pb (mkv : MatroskaMuxContext) (pb : ByteIOContext)
  : ByteIOContext :=
  snd (mkv_write_cues ids (end_ebml_master pb (cluster mkv)) (cues mkv)).

Definition trailer_seekhead_pb (mkv : MatroskaMuxContext) (pb : ByteIOContext)
  : ByteIOContext :=
  snd (mkv_write_seekhead ids (trailer_cues_pb mkv pb) (cluster_seekhead mkv)).

Definition trailer_main_seekhead (mkv : MatroskaMuxContext)
  (pb : ByteIOContext) : mkv_seekhead :=
  snd (mkv_add_seekhead_entries (main_seekhead mkv)
         [(MATROSKA_ID_CUES ids,
           fst (mkv_write_cues ids (end_ebml_master pb (cluster mkv)) (cues mkv)));
          (MATROSKA_ID_SEEKHEAD ids,
           fst (mkv_write_seekhead ids (trailer_cues_pb mkv pb)
                  (cluster_seekhead mkv)))]).

Lemma mkv_write_trailer_parts st0 streams mkv pb :
  mkv_write_trailer ids dbl_bits md5_digest (st0 :: streams) mkv pb =
  Done (0, set_main_seekhead mkv (trailer_main_seekhead mkv pb),
        trailer_tail ids dbl_bits md5_digest st0
          (set_main_seekhead mkv (trailer_main_seekhead mkv pb))
          (snd (mkv_write_seekhead ids (trailer_seekhead_pb mkv pb)
                  (trailer_main_seekhead mkv pb)))).
Proof.
  unfold mkv_write_trailer, trailer_main_seekhead, trailer_seekhead_pb,
    trailer_cues_pb.
  cbn [mkv_add_seekhead_entries].
  destruct (mkv_write_cues ids (end_ebml_master pb (cluster mkv)) (cues mkv))
    as [cuespos pb1].
  cbn [fst snd].
  destruct (mkv_write_seekhead ids pb1 (cluster_seekhead mkv))
    as [second_seekhead pb2].
  cbn [fst snd].
  destruct (mkv_add_seekhead_entry (main_seekhead mkv)
              (MATROSKA_ID_CUES ids) cuespos) as [r1 sh1].
  destruct (mkv_add_seekhead_entry sh1 (MATROSKA_ID_SEEKHEAD ids)
              second_seekhead) as [r2 sh2].
  cbn [fst snd].
  destruct (mkv_write_seekhead ids pb2 sh2) as [r3 pb3].
  reflexivity.
Qed.

(** X13.  [mkv_write_trailer], for a context as [mkv_write_header] and
    the packets leave it and the muxer is defined for ([mux_okb]: what
    the Cues and the SeekHeads hold can be written, the cluster
    SeekHead is unreserved, the main SeekHead reserved): it returns 0;
    the Cues go to the offset the cursor was at and the cluster
    SeekHead behind them, and the two are offered to the main SeekHead,
    in that order, at these offsets; the cursor ends behind the cluster
    SeekHead, which is the end of the file; and the size field of the
    Segment, the 8 bytes before its start, then reads back as the
    distance from the start of the Segment to that end.  No other field
    of the context changes. *)
Theorem mkv_write_trailer_layout (st0 : AVStream) (rest : list AVStream)
  (mkv : MatroskaMuxContext) (pb : ByteIOContext) :
  mux_okb ids mkv pb = true ->
  exists mkv' pb',
    mkv_write_trailer ids dbl_bits md5_digest (st0 :: rest) mkv pb
    = Done (0, mkv', pb') /\
    mkv' = set_main_seekhead mkv (main_seekhead mkv') /\
    main_seekhead mkv'
    = snd (mkv_add_seekhead_entries (main_seekhead mkv)
             [(MATROSKA_ID_CUES ids, pos pb);
              (MATROSKA_ID_SEEKHEAD ids,
               pos pb + len (cues_bytes ids (cues_entries (cues mkv))))]) /\
    pos pb'
    = pos pb + len (cues_bytes ids (cues_entries (cues mkv)))
      + len (seekhead_bytes ids (sh_entries (cluster_seekhead mkv))) /\
    (segment mkv <= pos pb' -> pos pb' - segment mkv <= 2 ^ 56 - 2 ->
     holds pb' (segment mkv - 8) (be_bytes 8 (2 ^ 56 + (pos pb' - segment mkv))) /\
     ebml_size_decode (be_bytes 8 (2 ^ 56 + (pos pb' - segment mkv)))
     = Some (pos pb' - segment mkv)).
Proof.
  intros Hok.
  destruct (mux_okb_spec ids mkv pb Hok) as (_ & Hck & _ & Hc0 & Hmain & _).
  destruct (cluster_okb_spec mkv pb Hck) as (_ & _ & Hn30 & Hl30).
  assert (H30 : 2 ^ 30 < 2 ^ 31) by reflexivity.
  assert (Hc : reserved_size (cluster_seekhead mkv) <= 0) by lia.
  assert (Hn : num_entries (cluster_seekhead mkv) < 2 ^ 31) by lia.
  assert (Hl : len (cues_entries (cues mkv)) < 2 ^ 31) by lia.
  eexists. eexists. split; [apply mkv_write_trailer_parts|].
  (* the offsets of the Cues and of the cluster SeekHead *)
  assert (Hcp : fst (mkv_write_cues ids (end_ebml_master pb (cluster mkv))
                       (cues mkv)) = pos pb).
  { unfold mkv_write_cues.
    destruct (start_ebml_master (end_ebml_master pb (cluster mkv))
                (MATROSKA_ID_CUES ids)). reflexivity. }
  destruct (emits_mkv_write_cues (cues mkv) Hl (end_ebml_master pb (cluster mkv)))
    as [P1 _].
  fold (trailer_cues_pb mkv pb) in P1. rewrite pos_end_ebml_master in P1.
  assert (Hsh : mkv_write_seekhead ids (trailer_cues_pb mkv pb)
                  (cluster_seekhead mkv)
                = (pos (trailer_cues_pb mkv pb), trailer_seekhead_pb mkv pb)).
  { unfold trailer_seekhead_pb.
    unfold mkv_write_seekhead.
    destruct (Z.ltb_spec 0 (reserved_size (cluster_seekhead mkv))); [lia|].
    reflexivity. }
  assert (P2 : pos (trailer_seekhead_pb mkv pb)
               = pos (trailer_cues_pb mkv pb)
                 + len (seekhead_bytes ids (sh_entries (cluster_seekhead mkv)))).
  { pose proof (mkv_write_seekhead_appends_spec ids (cluster_seekhead mkv) Hc Hn)
      as [_ He].
    apply (He (trailer_cues_pb mkv pb)). }
  assert (Hms : trailer_main_seekhead mkv pb
                = snd (mkv_add_seekhead_entries (main_seekhead mkv)
                         [(MATROSKA_ID_CUES ids, pos pb);
                          (MATROSKA_ID_SEEKHEAD ids,
                           pos pb + len (cues_bytes ids (cues_entries (cues mkv))))])).
  { unfold trailer_main_seekhead. rewrite Hcp, Hsh. cbn [fst]. rewrite P1.
    reflexivity. }
  assert (Hres : reserved_size (trailer_main_seekhead mkv pb)
                 = reserved_size (main_seekhead mkv)).
  { rewrite Hms. apply mkv_add_seekhead_entries_spec. }
  assert (P3 : pos (snd (mkv_write_seekhead ids (trailer_seekhead_pb mkv pb)
                           (trailer_main_seekhead mkv pb)))
               = pos (trailer_seekhead_pb mkv pb)).
  { unfold mkv_write_seekhead. rewrite Hres.
    destruct (Z.ltb_spec 0 (reserved_size (main_seekhead mkv))); [|lia].
    reflexivity. }
  set (pbX := snd (mkv_write_seekhead ids (trailer_seekhead_pb mkv pb)
                     (trailer_main_seekhead mkv pb))) in *.
  split; [reflexivity|]. split; [exact Hms|].
  assert (Pend : pos (trailer_tail ids dbl_bits md5_digest st0
                        (set_main_seekhead mkv (trailer_main_seekhead mkv pb)) pbX)
                 = pos pbX) by reflexivity.
  split; [rewrite Pend, P3, P2, P1; lia|].
  rewrite Pend. intros Hseg H56.
  split; [|apply ebml_size_decode_8; lia].
  intros i Hi. unfold trailer_tail, end_ebml_master, url_fseek, url_ftell.
  cbn [pos content segment set_main_seekhead].
  match goal with
  | |- content (put_ebml_size ?x _ _) _ = _ =>
      destruct (emits_size8 (pos pbX - segment mkv) ltac:(lia) x) as [_ C];
      rewrite C; clear C
  end.
  cbn [pos]. apply patch_at, Hi.
Qed.

End TrailerLayout.

(** *** Examples *)


Lemma mkv_write_packet_timecode_witness :
  exists mkv' pb',
    mkv_write_packet matroska_std [ex_stream] ex_mux ex_pb2 (ex_packet 6000 40)
    = Done (0, mkv', pb') /\
    0 <= 6000 - cluster_pts mkv' <= 5000.
Proof.
  destruct (mkv_write_packet_timecode matroska_std [ex_stream] ex_mux ex_pb2
              (ex_packet 6000 40) ex_stream)
    as (mkv' & pb' & E & _ & _ & H & _).
  - cbn. lia.
  - reflexivity.
  - reflexivity.
  - reflexivity.
  - reflexivity.
  - cbn. lia.
  - exists mkv', pb'. split; [exact E|exact H].
Defined.

Lemma mkv_write_packets_cues_witness :
  exists mkv' pb',
    mkv_write_packets matroska_std
      [ex_stream; mkStream CODEC_TYPE_AUDIO false] ex_mux ex_pb2
      [ex_packet 0 40; mkPacket [0x55] 1 10 20 true; ex_packet 40 40]
    = Done (0, mkv', pb') /\
    map (fun e => (cue_pts e, tracknum e)) (cues_entries (cues mkv'))
    = [(0, 1); (40, 1)].
Proof.
  destruct (mkv_write_packets_cues matroska_std
              [ex_stream; mkStream CODEC_TYPE_AUDIO false]
              [ex_packet 0 40; mkPacket [0x55] 1 10 20 true; ex_packet 40 40]
              ex_mux ex_pb2)
    as (mkv' & pb' & E & H & _).
  - reflexivity.
  - reflexivity.
  - cbn. lia.
  - reflexivity.
  - exists mkv', pb'. split; [exact E|exact H].
Defined.

Lemma mkv_write_trailer_layout_witness :
  exists mkv' pb',
    mkv_write_trailer matroska_std ex_dbl_bits ex_md5_digest [ex_stream]
      ex_mux ex_pb2
    = Done (0, mkv', pb') /\
    map elementid (sh_entries (main_seekhead mkv')) = [0x1C53BB6B; 0x114D9B74] /\
    pos pb' = 520 + 12 + 34.
Proof.
  destruct (mkv_write_trailer_layout matroska_std ex_dbl_bits ex_md5_digest
              ex_stream [] ex_mux ex_pb2)
    as (mkv' & pb' & E & _ & Hm & Hp & _).
  - reflexivity.
  - exists mkv', pb'. split; [exact E|]. split.
    + rewrite Hm. reflexivity.
    + rewrite Hp. reflexivity.
Defined.

End MkvPackets.

(** ** Codec private data and AAC sample rates *)

Module MkvCodec.

Import Mkv MkvFacts MkvElements.

(** *** Xiph lacing *)

Lemma emits_put_xiph_size_loop n :
  emits (put_xiph_size_loop n) (repeat 255 n).
Proof.
  induction n as [|n IH]; cbn [put_xiph_size_loop repeat].
  - apply emits_id.
  - exact (emits_seq _ _ _ _ (emits_put_byte 255) IH).
Qed.

Definition xiph_size_bytes (size : Z) : list Z :=
  repeat 255 (Z.to_nat (size / 255)) ++ [size mod 255].

Lemma emits_put_xiph_size size :
  0 <= size -> emits (fun pb => put_xiph_size pb size) (xiph_size_bytes size).
Proof.
  intros Hs. unfold put_xiph_size, xiph_size_bytes.
  rewrite Z.quot_div_nonneg, Z.rem_mod_nonneg by lia.
  pose proof (Z.mod_pos_bound size 255 ltac:(lia)) as Hm.
  pose proof (emits_seq _ _ _ _
                (emits_put_xiph_size_loop (Z.to_nat (size / 255)))
                (emits_put_byte (size mod 255))) as E.
  unfold u8 in E. rewrite (Z.mod_small (size mod 255)) in E by lia. exact E.
Qed.

Lemma xiph_size_decode_repeat n r rest :
  0 <= r < 255 ->
  xiph_size_decode (repeat 255 n ++ [r] ++ rest)
  = Some (255 * Z.of_nat n + r, rest).
Proof.
  intros Hr. induction n as [|n IH].
  - cbn [repeat app xiph_size_decode].
    destruct (Z.ltb_spec r 255); [|lia].
    replace (255 * Z.of_nat 0 + r) with r by lia. reflexivity.
  - cbn [repeat app xiph_size_decode]. cbn [app] in IH. rewrite IH.
    change (255 <? 255) with false. cbv iota.
    replace (255 * Z.of_nat (S n) + r) with (255 + (255 * Z.of_nat n + r))
      by lia.
    reflexivity.
Qed.

Lemma xiph_size_decode_bytes size rest :
  0 <= size ->
  xiph_size_decode (xiph_size_bytes size ++ rest) = Some (size, rest).
Proof.
  intros Hs. unfold xiph_size_bytes. rewrite <- app_assoc.
  pose proof (Z.mod_pos_bound size 255 ltac:(lia)) as Hm.
  rewrite xiph_size_decode_repeat by lia.
  rewrite Z2Nat.id by (apply Z.div_pos; lia).
  replace (255 * (size / 255) + size mod 255) with size
    by (pose proof (Z.div_mod size 255 ltac:(lia)); lia).
  reflexivity.
Qed.

(** X14.  [put_xiph_size] of a size that is not negative emits
    [size / 255] bytes 255 and one byte below 255; adding the bytes up
    to the first one below 255 gives the size back, whatever follows. *)
Theorem put_xiph_size_round_trip (size : Z) :
  0 <= size ->
  exists bs,
    emits (fun pb => put_xiph_size pb size) bs /\
    len bs = size / 255 + 1 /\
    forall rest, xiph_size_decode (bs ++ rest) = Some (size, rest).
Proof.
  intros Hs. exists (xiph_size_bytes size).
  split; [apply emits_put_xiph_size, Hs|]. split.
  - unfold xiph_size_bytes. rewrite len_app, len_cons, len_nil.
    unfold len. rewrite repeat_length, Z2Nat.id by (apply Z.div_pos; lia). lia.
  - intros rest. apply xiph_size_decode_bytes, Hs.
Qed.

Lemma put_xiph_size_round_trip_witness :
  exists bs,
    emits (fun pb => put_xiph_size pb 600) bs /\
    len bs = 600 / 255 + 1 /\
    forall rest, xiph_size_decode (bs ++ rest) = Some (600, rest).
Proof. apply (put_xiph_size_round_trip 600). lia. Defined.

(** *** CodecPrivate *)

Section CodecPrivateFacts.

Variable MATROSKA_ID_CODECPRIVATE : Z.
Variable ff_split_xiph_headers :
  list Z -> Z -> option (list Z * list Z * list Z).

(** X15.  [put_flac_codecpriv] opens the CodecPrivate element before it
    looks at the extradata.  With fewer than 34 bytes it returns -1 and
    leaves the identifier and the size field for an unknown size
    written, the element not closed.  With 34 bytes, the STREAMINFO
    alone, it returns 0 and the element holds a byte 0, the Xiph-laced
    size 34 and the extradata; with more it holds the extradata as it
    is. *)
Theorem put_flac_codecpriv_cases (extradata : list Z) :
  (len extradata < 34 ->
   (forall pb, fst (put_flac_codecpriv MATROSKA_ID_CODECPRIVATE pb extradata) = -1) /\
   emits (fun pb => snd (put_flac_codecpriv MATROSKA_ID_CODECPRIVATE pb extradata))
     (ebml_id_bytes MATROSKA_ID_CODECPRIVATE ++ ebml_unknown_bytes 8)) /\
  (len extradata = 34 ->
   (forall pb, fst (put_flac_codecpriv MATROSKA_ID_CODECPRIVATE pb extradata) = 0) /\
   emits (fun pb => snd (put_flac_codecpriv MATROSKA_ID_CODECPRIVATE pb extradata))
     (ebml_master_bytes MATROSKA_ID_CODECPRIVATE
        ([0; 34] ++ map u8 extradata))) /\
  (34 < len extradata < 2 ^ 31 ->
   (forall pb, fst (put_flac_codecpriv MATROSKA_ID_CODECPRIVATE pb extradata) = 0) /\
   emits (fun pb => snd (put_flac_codecpriv MATROSKA_ID_CODECPRIVATE pb extradata))
     (ebml_master_bytes MATROSKA_ID_CODECPRIVATE (map u8 extradata))).
Proof.
  assert (Hlm : len (map u8 extradata) = len extradata)
    by (unfold len; rewrite length_map; reflexivity).
  split; [|split]; intros Hl.
  - assert (E : forall pb,
               put_flac_codecpriv MATROSKA_ID_CODECPRIVATE pb extradata
               = (-1, put_ebml_size_unknown
                        (put_ebml_id pb MATROSKA_ID_CODECPRIVATE) 8)).
    { intros pb. unfold put_flac_codecpriv, start_ebml_master,
        FLAC_STREAMINFO_SIZE.
      destruct (Z.ltb_spec (len extradata) 34); [reflexivity|lia]. }
    split; [intros pb; rewrite E; reflexivity|].
    apply (emits_ext (fun pb => put_ebml_size_unknown
                                  (put_ebml_id pb MATROSKA_ID_CODECPRIVATE) 8)).
    + intros pb. rewrite E. reflexivity.
    + exact (emits_seq _ _ _ _ (emits_put_ebml_id MATROSKA_ID_CODECPRIVATE)
               emits_unknown_8).
  - assert (E : forall pb,
               put_flac_codecpriv MATROSKA_ID_CODECPRIVATE pb extradata
               = (0, master MATROSKA_ID_CODECPRIVATE
                       (fun pb => put_buffer
                                    (put_xiph_size (put_byte pb 0) 34)
                                    extradata) pb)).
    { intros pb. unfold put_flac_codecpriv, master, FLAC_STREAMINFO_SIZE.
      destruct (start_ebml_master pb MATROSKA_ID_CODECPRIVATE).
      rewrite Hl. reflexivity. }
    split; [intros pb; rewrite E; reflexivity|].
    apply (emits_ext (master MATROSKA_ID_CODECPRIVATE
                        (fun pb => put_buffer
                                     (put_xiph_size (put_byte pb 0) 34)
                                     extradata))).
    + intros pb. rewrite E. reflexivity.
    + apply emits_master.
      * pose proof (emits_seq _ _ _ _ (emits_put_xiph_size 34 ltac:(lia))
                      (emits_put_buffer extradata)) as E1.
        exact (emits_seq _ _ _ _ (emits_put_byte 0) E1).
      * rewrite len_app, Hlm, Hl. reflexivity.
  - assert (E : forall pb,
               put_flac_codecpriv MATROSKA_ID_CODECPRIVATE pb extradata
               = (0, master MATROSKA_ID_CODECPRIVATE
                       (fun pb => put_buffer pb extradata) pb)).
    { intros pb. unfold put_flac_codecpriv, master, FLAC_STREAMINFO_SIZE.
      destruct (start_ebml_master pb MATROSKA_ID_CODECPRIVATE).
      destruct (Z.ltb_spec (len extradata) 34); [lia|].
      destruct (Z.eqb_spec (len extradata) 34); [lia|]. reflexivity. }
    split; [intros pb; rewrite E; reflexivity|].
    apply (emits_ext (master MATROSKA_ID_CODECPRIVATE
                        (fun pb => put_buffer pb extradata))).
    + intros pb. rewrite E. reflexivity.
    + apply emits_master; [apply emits_put_buffer|].
      rewrite Hlm. assert (2 ^ 31 < 2 ^ 56 - 1) by reflexivity. lia.
Qed.

(** X16.  [put_xiph_codecpriv] writes nothing and returns -1 when the
    extradata does not split into the three Xiph headers (asked for a
    first header of 30 bytes for Vorbis, of 42 otherwise).  When it
    splits, the CodecPrivate element holds the byte 2, the Xiph-laced
    sizes of the first two headers, which read back as their lengths,
    and the three headers. *)
Theorem put_xiph_codecpriv_laced (vorbis : bool) (extradata h0 h1 h2 : list Z) :
  len h0 + len h1 + len h2 < 2 ^ 31 ->
  (ff_split_xiph_headers extradata (if vorbis then 30 else 42) = None ->
   forall pb,
     put_xiph_codecpriv MATROSKA_ID_CODECPRIVATE ff_split_xiph_headers
       pb vorbis extradata = (-1, pb)) /\
  (ff_split_xiph_headers extradata (if vorbis then 30 else 42)
   = Some (h0, h1, h2) ->
   exists lace0 lace1,
     (forall pb,
         fst (put_xiph_codecpriv MATROSKA_ID_CODECPRIVATE ff_split_xiph_headers
                pb vorbis extradata) = 0) /\
     emits (fun pb =>
              snd (put_xiph_codecpriv MATROSKA_ID_CODECPRIVATE
                     ff_split_xiph_headers pb vorbis extradata))
       (ebml_master_bytes MATROSKA_ID_CODECPRIVATE
          ([2] ++ lace0 ++ lace1 ++ map u8 h0 ++ map u8 h1 ++ map u8 h2)) /\
     (forall rest, xiph_size_decode (lace0 ++ rest) = Some (len h0, rest)) /\
     (forall rest, xiph_size_decode (lace1 ++ rest) = Some (len h1, rest))).
Proof.
  intros Hl. pose proof (len_nonneg h0) as H0. pose proof (len_nonneg h1) as H1.
  pose proof (len_nonneg h2) as H2.
  split; intros Hs.
  - intros pb. unfold put_xiph_codecpriv. rewrite Hs. reflexivity.
  - exists (xiph_size_bytes (len h0)), (xiph_size_bytes (len h1)).
    assert (E : forall pb,
               put_xiph_codecpriv MATROSKA_ID_CODECPRIVATE ff_split_xiph_headers
                 pb vorbis extradata
               = (0, master MATROSKA_ID_CODECPRIVATE
                       (fun pb =>
                          put_buffer
                            (put_buffer
                               (put_buffer
                                  (put_xiph_size
                                     (put_xiph_size (put_byte pb 2) (len h0))
                                     (len h1)) h0) h1) h2) pb)).
    { intros pb. unfold put_xiph_codecpriv, master. rewrite Hs.
      destruct (start_ebml_master pb MATROSKA_ID_CODECPRIVATE). reflexivity. }
    split; [intros pb; rewrite E; reflexivity|].
    split; [|split; intros rest; apply xiph_size_decode_bytes; lia].
    apply (emits_ext (master MATROSKA_ID_CODECPRIVATE
                        (fun pb =>
                           put_buffer
                             (put_buffer
                                (put_buffer
                                   (put_xiph_size
                                      (put_xiph_size (put_byte pb 2) (len h0))
                                      (len h1)) h0) h1) h2))).
    + intros pb. rewrite E. reflexivity.
    + apply emits_master.
      * pose proof (emits_seq _ _ _ _ (emits_put_buffer h1)
                      (emits_put_buffer h2)) as E1.
        pose proof (emits_seq _ _ _ _ (emits_put_buffer h0) E1) as E2.
        pose proof (emits_seq _ _ _ _ (emits_put_xiph_size (len h1) H1) E2)
          as E3.
        pose proof (emits_seq _ _ _ _ (emits_put_xiph_size (len h0) H0) E3)
          as E4.
        exact (emits_seq _ _ _ _ (emits_put_byte 2) E4).
      * assert (Hx : forall s, 0 <= s -> len (xiph_size_bytes s) = s / 255 + 1).
        { intros s Hs0. unfold xiph_size_bytes.
          rewrite len_app, len_cons, len_nil. unfold len.
          rewrite repeat_length, Z2Nat.id by (apply Z.div_pos; lia). lia. }
        assert (Hm : forall h : list Z, len (map u8 h) = len h)
          by (intros h; unfold len; rewrite length_map; reflexivity).
        rewrite !len_app, !Hm, !Hx, len_cons, len_nil by lia.
        pose proof (Z.div_le_upper_bound (len h0) 255 (len h0) ltac:(lia)
                      ltac:(lia)).
        pose proof (Z.div_le_upper_bound (len h1) 255 (len h1) ltac:(lia)
                      ltac:(lia)).
        assert (2 * 2 ^ 31 + 3 < 2 ^ 56 - 1) by reflexivity. lia.
Qed.

End CodecPrivateFacts.

Lemma put_xiph_codecpriv_laced_witness :
  exists lace0 lace1,
    emits (fun pb =>
             snd (put_xiph_codecpriv 0x63A2
                    (fun _ _ => Some ([1; 2; 3], [4; 5], [6])) pb true [0]))
      (ebml_master_bytes 0x63A2
         ([2] ++ lace0 ++ lace1 ++ map u8 [1; 2; 3] ++ map u8 [4; 5] ++ map u8 [6])) /\
    (forall rest, xiph_size_decode (lace0 ++ rest) = Some (3, rest)) /\
    (forall rest, xiph_size_decode (lace1 ++ rest) = Some (2, rest)).
Proof.
  destruct (put_xiph_codecpriv_laced 0x63A2
              (fun _ _ => Some ([1; 2; 3], [4; 5], [6])) true [0]
              [1; 2; 3] [4; 5] [6]) as [_ H]; [reflexivity|].
  destruct (H eq_refl) as (lace0 & lace1 & _ & He & H0 & H1).
  exists lace0, lace1. split; [exact He|]. split; [exact H0|exact H1].
Defined.

(** *** AAC sample rates *)

Definition zrange (n : nat) : list Z := map Z.of_nat (seq 0 n).

Lemma in_zrange n x : 0 <= x < Z.of_nat n -> In x (zrange n).
Proof.
  intros H. unfold zrange. rewrite <- (Z2Nat.id x) by lia.
  apply in_map, in_seq. lia.
Qed.

(** The index [get_aac_sample_rates] takes from the first two bytes. *)
Definition aac_index (extradata : list Z) : Z :=
  Z.lor (Z.land (Z.shiftl (nth 0 extradata 0) 1) 0xE)
        (Z.shiftr (nth 1 extradata 0) 7).

Lemma aac_index_config_all :
  forallb (fun aot =>
    forallb (fun sri =>
      forallb (fun ch => aac_index (aac_config aot sri ch) =? sri)
        (zrange 16)) (zrange 16)) (zrange 32) = true.
Proof. vm_compute. reflexivity. Qed.

Lemma aac_index_config aot sri ch :
  0 <= aot < 32 -> 0 <= sri < 16 -> 0 <= ch < 16 ->
  aac_index (aac_config aot sri ch) = sri.
Proof.
  intros Ha Hs Hc. pose proof aac_index_config_all as H.
  rewrite forallb_forall in H. specialize (H aot (in_zrange 32 aot Ha)).
  rewrite forallb_forall in H. specialize (H sri (in_zrange 16 sri Hs)).
  rewrite forallb_forall in H. specialize (H ch (in_zrange 16 ch Hc)).
  apply Z.eqb_eq, H.
Qed.

(** X17.  From the two bytes of an AAC AudioSpecificConfig (object
    type, sampling frequency index, channel configuration)
    [get_aac_sample_rates] takes the sampling frequency index: for an
    index from 0 to 11 the sample rate becomes the entry of the table
    for it, and the output sample rate stays; for the indices 13 to 15
    both stay as the caller had them. *)
Theorem get_aac_sample_rates_config (aot sri ch sample_rate output_sample_rate : Z) :
  0 <= aot < 32 -> 0 <= ch < 16 ->
  (0 <= sri < 12 ->
   get_aac_sample_rates (aac_config aot sri ch) sample_rate output_sample_rate
   = Done (nth (Z.to_nat sri) aac_sample_rates 0, output_sample_rate)) /\
  (13 <= sri < 16 ->
   get_aac_sample_rates (aac_config aot sri ch) sample_rate output_sample_rate
   = Done (sample_rate, output_sample_rate)).
Proof.
  intros Ha Hc.
  assert (E : forall s, 0 <= s < 16 ->
              get_aac_sample_rates (aac_config aot s ch) sample_rate
                output_sample_rate
              = if 12 <? s then Done (sample_rate, output_sample_rate)
                else match aac_sample_rate_at s with
                     | Fault => Fault
                     | Done rate => Done (rate, output_sample_rate)
                     end).
  { intros s Hs. unfold get_aac_sample_rates.
    change (len (aac_config aot s ch)) with 2.
    change (2 <? 2) with false. change (2 =? 5) with false. cbv iota.
    fold (aac_index (aac_config aot s ch)).
    rewrite (aac_index_config aot s ch Ha Hs Hc). reflexivity. }
  split; intros Hs; rewrite E by lia.
  - destruct (Z.ltb_spec 12 sri); [lia|].
    assert (Hc12 : sri = 0 \/ sri = 1 \/ sri = 2 \/ sri = 3 \/ sri = 4 \/
                   sri = 5 \/ sri = 6 \/ sri = 7 \/ sri = 8 \/ sri = 9 \/
                   sri = 10 \/ sri = 11) by lia.
    repeat (destruct Hc12 as [->|Hc12]); try rewrite Hc12; reflexivity.
  - destruct (Z.ltb_spec 12 sri); [reflexivity|lia].
Qed.

Lemma get_aac_sample_rates_config_witness :
  get_aac_sample_rates (aac_config 2 4 2) 0 0 = Done (44100, 0).
Proof.
  destruct (get_aac_sample_rates_config 2 4 2 0 0) as [H _]; [lia|lia|].
  apply H. lia.
Defined.

End MkvCodec.

(** ** The tracks and the header *)

Module MkvHeader.

Import Mkv MkvFacts MkvElements MkvPackets MkvCodec.

(** *** How far a writer moves the cursor *)

(** From a cursor that is not negative, [f] moves it on by at most [d]
    bytes (as long as that stays below 2^62). *)
Definition advances (f : ByteIOContext -> ByteIOContext) (d : Z) : Prop :=
  forall pb, 0 <= pos pb -> pos pb + d < 2 ^ 62 ->
             pos pb <= pos (f pb) <= pos pb + d.

Lemma advances_emits f bs d : emits f bs -> len bs <= d -> advances f d.
Proof.
  intros He Hd pb H0 H1. destruct (He pb) as [P _].
  pose proof (len_nonneg bs). lia.
Qed.

Lemma advances_seq f g d1 d2 :
  advances f d1 -> advances g d2 -> 0 <= d2 ->
  advances (fun pb => g (f pb)) (d1 + d2).
Proof.
  intros Hf Hg H2 pb H0 H1.
  assert (Hf' := Hf pb H0 ltac:(lia)).
  assert (Hg' := Hg (f pb) ltac:(lia) ltac:(lia)). lia.
Qed.

Lemma advances_weaken f d d' : advances f d -> d <= d' -> advances f d'.
Proof. intros Hf Hd pb H0 H1. specialize (Hf pb H0 ltac:(lia)). lia. Qed.

Lemma advances_id : advances (fun pb => pb) 0.
Proof. intros pb H0 H1. lia. Qed.

Lemma advances_uint id val : advances (fun pb => put_ebml_uint pb id val) 14.
Proof.
  apply (advances_emits _ _ _ (emits_put_ebml_uint id val)).
  pose proof (len_ebml_uint_bytes id val).
  pose proof (ebml_id_size_bounds id). lia.
Qed.

Lemma emits_put_ebml_binary_any elementid buf :
  len buf <= 2 ^ 56 - 2 ->
  emits (fun pb => put_ebml_binary pb elementid buf)
    (ebml_id_bytes elementid ++ ebml_size_field (len buf) ++ map u8 buf).
Proof.
  intros Hl. pose proof (len_nonneg buf).
  destruct (emits_size_field (len buf) ltac:(lia)) as [Hs _].
  pose proof (emits_seq _ _ _ _ Hs (emits_put_buffer buf)) as E1.
  exact (emits_seq _ _ _ _ (emits_put_ebml_id elementid) E1).
Qed.

Lemma len_ebml_size_field size :
  0 <= size <= 2 ^ 56 - 2 -> 1 <= len (ebml_size_field size) <= 8.
Proof.
  intros Hs. destruct (ebml_size_bytes_least size Hs) as (Hw & _).
  unfold ebml_size_field. rewrite <- (ebml_size_bytes_width size Hs).
  rewrite len_be_bytes. lia.
Qed.

Lemma advances_binary id buf :
  len buf < 2 ^ 31 ->
  advances (fun pb => put_ebml_binary pb id buf) (len buf + 13).
Proof.
  intros Hl. pose proof (len_nonneg buf).
  assert (2 ^ 31 < 2 ^ 56 - 2) by reflexivity.
  apply (advances_emits _ _ _ (emits_put_ebml_binary_any id buf ltac:(lia))).
  rewrite !len_app, len_ebml_id_bytes.
  pose proof (ebml_id_size_bounds id).
  pose proof (len_ebml_size_field (len buf) ltac:(lia)).
  unfold len at 3. rewrite length_map. fold (len buf). lia.
Qed.

Lemma pos_start_ebml_master pb id :
  fst (start_ebml_master pb id) = pos (snd (start_ebml_master pb id)) /\
  pos (snd (start_ebml_master pb id)) = pos pb + ebml_id_size id + 8.
Proof.
  unfold start_ebml_master, url_ftell. cbn [fst snd]. split; [reflexivity|].
  destruct (emits_unknown_8 (put_ebml_id pb id)) as [-> _].
  destruct (emits_put_ebml_id id pb) as [-> _].
  rewrite len_ebml_id_bytes.
  change (len [1; 255; 255; 255; 255; 255; 255; 255]) with 8. lia.
Qed.

Lemma pos_put_ebml_void ids pb size :
  2 <= size <= 2 ^ 56 -> 0 <= pos pb < 2 ^ 62 ->
  pos (put_ebml_void ids pb size) = pos pb + size.
Proof.
  intros Hs Hp. unfold put_ebml_void. rewrite u64_small by lia.
  destruct (Z.ltb_spec size 2); [lia|].
  unfold url_fseek, url_ftell. cbn [pos]. apply s64_small. lia.
Qed.

(** *** The tracks *)

Section TrackFacts.

Variable ids : matroska_ids.
Variable hids : matroska_header_ids.
Variable cids : codec_ids.
Variable dbl_bits : Z -> Z.
Variable ff_mkv_codec_tags : list (Z * list Z).
Variable av_get_bits_per_sample : Z -> Z.
Variable codec_get_bmp_tag : Z -> Z.
Variable codec_get_wav_tag : Z -> Z.
Variable put_bmp_header : ByteIOContext -> AVCodecContext -> ByteIOContext.
Variable put_wav_header : ByteIOContext -> AVCodecContext -> ByteIOContext.
Variable ff_split_xiph_headers :
  list Z -> Z -> option (list Z * list Z * list Z).

(** The codec private data can be written: the Xiph headers split, or
    the FLAC extradata has its 34 bytes. *)
Definition codec_private_okb (codec : AVCodecContext) : bool :=
  if (cc_codec_id codec =? CODEC_ID_VORBIS cids)
     || (cc_codec_id codec =? CODEC_ID_THEORA cids)
  then
    match ff_split_xiph_headers (cc_extradata codec)
            (if cc_codec_id codec =? CODEC_ID_VORBIS cids then 30 else 42) with
    | Some _ => true
    | None => false
    end
  else if cc_codec_id codec =? CODEC_ID_FLAC cids
  then 34 <=? len (cc_extradata codec)
  else true.

(** A stream that [mkv_write_tracks] takes: with a Matroska codec ID
    its codec private data can be written, and without one an audio
    stream has a WAVE format tag.  Where the lookup leaves a table that
    has no final entry the function does not return, and nothing is
    asked of the stream. *)
Definition track_okb (st : MuxStream) : bool :=
  match mkv_codec_tag_lookup (CODEC_ID_NONE cids) ff_mkv_codec_tags
          (cc_codec_id (ms_codec st)) with
  | Done (Some _) => codec_private_okb (ms_codec st)
  | Done None =>
      match cc_codec_type (ms_codec st) with
      | CODEC_TYPE_AUDIO =>
          negb (codec_get_wav_tag (cc_codec_id (ms_codec st)) =? 0)
      | _ => true
      end
  | Fault => true
  end.

Lemma write_codec_private_result pb codec :
  fst (write_codec_private hids cids ff_split_xiph_headers pb codec)
  = if codec_private_okb codec then 0 else -1.
Proof.
  unfold write_codec_private, codec_private_okb, put_xiph_codecpriv,
    put_flac_codecpriv, FLAC_STREAMINFO_SIZE.
  destruct ((cc_codec_id codec =? CODEC_ID_VORBIS cids)
            || (cc_codec_id codec =? CODEC_ID_THEORA cids)).
  - destruct (ff_split_xiph_headers (cc_extradata codec) _) as [[[h0 h1] h2]|];
      [|reflexivity].
    destruct (start_ebml_master pb (MATROSKA_ID_CODECPRIVATE hids)).
    reflexivity.
  - destruct (cc_codec_id codec =? CODEC_ID_FLAC cids).
    + destruct (start_ebml_master pb (MATROSKA_ID_CODECPRIVATE hids)).
      destruct (Z.ltb_spec (len (cc_extradata codec)) 34);
        destruct (Z.leb_spec 34 (len (cc_extradata codec))); try lia;
        reflexivity.
    + destruct (negb (len (cc_extradata codec) =? 0)); reflexivity.
Qed.

Lemma write_track_audio_result pb codec native bit_depth sr osr :
  fst (fst (write_track_audio hids dbl_bits codec_get_wav_tag put_wav_header
              pb codec native bit_depth sr osr))
  = if native || negb (codec_get_wav_tag (cc_codec_id codec) =? 0)
    then 0 else -1.
Proof.
  unfold write_track_audio. destruct native; cbn [orb].
  - cbn [Z.ltb Z.compare].
    destruct (start_ebml_master _ (MATROSKA_ID_TRACKAUDIO hids)). reflexivity.
  - unfold set_codec_tag at 1. cbn [cc_codec_tag].
    destruct (codec_get_wav_tag (cc_codec_id codec) =? 0); cbn [negb].
    + reflexivity.
    + destruct (start_ebml_master _ (MATROSKA_ID_CODECPRIVATE hids)).
      cbn [Z.ltb Z.compare].
      destruct (start_ebml_master _ (MATROSKA_ID_TRACKAUDIO hids)). reflexivity.
Qed.

Lemma write_track_result pb i st r pb' st' :
  write_track hids cids dbl_bits ff_mkv_codec_tags av_get_bits_per_sample
    codec_get_bmp_tag codec_get_wav_tag put_bmp_header put_wav_header
    ff_split_xiph_headers pb i st = Done (r, pb', st') ->
  ms_language st' = ms_language st /\
  ((r = 0 /\ track_okb st = true /\ ms_time_base st' = (1, 1000)) \/
   (r = -1 /\ track_okb st = false /\ ms_time_base st' = ms_time_base st)).
Proof.
  unfold write_track, track_okb.
  destruct (if cc_codec_id (ms_codec st) =? CODEC_ID_AAC cids
            then get_aac_sample_rates _ _ 0 else Done _) as [[sr osr]|];
    [|discriminate].
  destruct (start_ebml_master pb (MATROSKA_ID_TRACKENTRY hids)) as [track pb0].
  set (pb1 := match ms_language st with [] => _ | _ :: _ => _ end).
  destruct (mkv_codec_tag_lookup (CODEC_ID_NONE cids) ff_mkv_codec_tags
              (cc_codec_id (ms_codec st))) as [tag|]; [|discriminate].
  destruct tag as [str|].
  - pose proof (write_codec_private_result
                  (put_ebml_string pb1 (MATROSKA_ID_CODECID hids) str)
                  (ms_codec st)) as Hc.
    destruct (write_codec_private hids cids ff_split_xiph_headers
                (put_ebml_string pb1 (MATROSKA_ID_CODECID hids) str)
                (ms_codec st)) as [rc pbc].
    cbn [fst] in Hc. subst rc.
    destruct (codec_private_okb (ms_codec st)); cbn [Z.ltb Z.compare].
    + destruct (cc_codec_type (ms_codec st)).
      * destruct (write_track_video _ _ _ _ _ _) as [pbv cv].
        cbn [Z.ltb Z.compare]. intros E. injection E as <- <- <-.
        split; [reflexivity|]. left. repeat split.
      * pose proof (write_track_audio_result pbc (ms_codec st) true
                      (av_get_bits_per_sample (cc_codec_id (ms_codec st)))
                      sr osr) as Ha.
        destruct (write_track_audio _ _ _ _ _ _ _ _ _ _) as [[ra pba] ca].
        cbn [fst orb] in Ha. subst ra. cbn [Z.ltb Z.compare].
        intros E. injection E as <- <- <-.
        split; [reflexivity|]. left. repeat split.
      * cbn [Z.ltb Z.compare]. intros E. injection E as <- <- <-.
        split; [reflexivity|]. left. repeat split.
      * cbn [Z.ltb Z.compare]. intros E. injection E as <- <- <-.
        split; [reflexivity|]. left. repeat split.
    + intros E. injection E as <- <- <-.
      split; [reflexivity|]. right. repeat split.
  - cbn [Z.ltb Z.compare].
    destruct (cc_codec_type (ms_codec st)).
    + destruct (write_track_video _ _ _ _ _ _) as [pbv cv].
      cbn [Z.ltb Z.compare]. intros E. injection E as <- <- <-.
      split; [reflexivity|]. left. repeat split.
    + pose proof (write_track_audio_result pb1 (ms_codec st) false
                    (av_get_bits_per_sample (cc_codec_id (ms_codec st)))
                    sr osr) as Ha.
      destruct (write_track_audio _ _ _ _ _ _ _ _ _ _) as [[ra pba] ca].
      cbn [fst orb] in Ha. subst ra.
      destruct (codec_get_wav_tag (cc_codec_id (ms_codec st)) =? 0);
        cbn [negb Z.ltb Z.compare]; intros E; injection E as <- <- <-;
        (split; [reflexivity|]); [right|left]; repeat split.
    + cbn [Z.ltb Z.compare]. intros E. injection E as <- <- <-.
      split; [reflexivity|]. left. repeat split.
    + cbn [Z.ltb Z.compare]. intros E. injection E as <- <- <-.
      split; [reflexivity|]. left. repeat split.
Qed.

Lemma write_tracks_loop_result streams : forall pb i r pb' streams',
  write_tracks_loop hids cids dbl_bits ff_mkv_codec_tags av_get_bits_per_sample
    codec_get_bmp_tag codec_get_wav_tag put_bmp_header put_wav_header
    ff_split_xiph_headers pb i streams = Done (r, pb', streams') ->
  map ms_language streams' = map ms_language streams /\
  ((r = 0 /\ forallb track_okb streams = true /\
    Forall (fun st => ms_time_base st = (1, 1000)) streams') \/
   (r = -1 /\ forallb track_okb streams = false)).
Proof.
  induction streams as [|st rest IH]; intros pb i r pb' streams';
    cbn [write_tracks_loop forallb map].
  - intros E. injection E as <- <- <-. split; [reflexivity|]. left.
    repeat split. constructor.
  - destruct (write_track _ _ _ _ _ _ _ _ _ _ pb i st) as [[[r1 pb1] st1]|] eqn:E1;
      [|discriminate].
    destruct (write_track_result pb i st r1 pb1 st1 E1)
      as [Hl [(-> & Hok & Htb)|(-> & Hok & Htb)]]; rewrite Hok;
      cbn [Z.ltb Z.compare andb].
    + destruct (write_tracks_loop _ _ _ _ _ _ _ _ _ _ pb1 (i + 1) rest)
        as [[[r2 pb2] rest2]|] eqn:E2; [|discriminate].
      intros E. injection E as <- <- <-.
      destruct (IH pb1 (i + 1) r2 pb2 rest2 E2)
        as [Hl2 [(-> & Hok2 & Hf)|(-> & Hok2)]].
      * split; [cbn [map]; rewrite Hl, Hl2; reflexivity|]. left.
        split; [reflexivity|]. split; [exact Hok2|].
        constructor; assumption.
      * split; [cbn [map]; rewrite Hl, Hl2; reflexivity|]. right.
        split; [reflexivity|exact Hok2].
    + intros E. injection E as <- <- <-.
      split; [cbn [map]; rewrite Hl; reflexivity|]. right. split; reflexivity.
Qed.

(** The context after the tracks: only the main SeekHead may differ. *)
Lemma mkv_write_tracks_context streams mkv pb r mkv' pb' streams' :
  mkv_write_tracks hids cids dbl_bits ff_mkv_codec_tags av_get_bits_per_sample
    codec_get_bmp_tag codec_get_wav_tag put_bmp_header put_wav_header
    ff_split_xiph_headers streams mkv pb = Done (r, mkv', pb', streams') ->
  mkv' = set_main_seekhead mkv
           (snd (mkv_add_seekhead_entry (main_seekhead mkv)
                   (MATROSKA_ID_TRACKS hids) (pos pb))) /\
  map ms_language streams' = map ms_language streams /\
  ((r = 0 /\
    fst (mkv_add_seekhead_entry (main_seekhead mkv)
           (MATROSKA_ID_TRACKS hids) (pos pb)) = 0 /\
    forallb track_okb streams = true /\
    Forall (fun st => ms_time_base st = (1, 1000)) streams') \/
   (r = -1 /\
    ((fst (mkv_add_seekhead_entry (main_seekhead mkv)
             (MATROSKA_ID_TRACKS hids) (pos pb)) = -1 /\
      streams' = streams /\ pb' = pb) \/
     forallb track_okb streams = false))).
Proof.
  unfold mkv_write_tracks, url_ftell.
  assert (Hr : fst (mkv_add_seekhead_entry (main_seekhead mkv)
                      (MATROSKA_ID_TRACKS hids) (pos pb)) = 0 \/
               fst (mkv_add_seekhead_entry (main_seekhead mkv)
                      (MATROSKA_ID_TRACKS hids) (pos pb)) = -1).
  { unfold mkv_add_seekhead_entry.
    destruct ((0 <? max_entries (main_seekhead mkv))
              && (max_entries (main_seekhead mkv)
                  <=? num_entries (main_seekhead mkv))); [right|left];
      reflexivity. }
  destruct (mkv_add_seekhead_entry (main_seekhead mkv)
              (MATROSKA_ID_TRACKS hids) (pos pb)) as [r0 sh].
  cbn [fst snd] in *.
  destruct Hr as [-> | ->]; cbn [Z.ltb Z.compare].
  - destruct (start_ebml_master pb (MATROSKA_ID_TRACKS hids)) as [tracks pb0].
    destruct (write_tracks_loop _ _ _ _ _ _ _ _ _ _ pb0 0 streams)
      as [[[r1 pb1] streams1]|] eqn:E1; [|discriminate].
    destruct (write_tracks_loop_result streams pb0 0 r1 pb1 streams1 E1)
      as [Hl [(-> & Hok & Hf)|(-> & Hok)]]; cbn [Z.ltb Z.compare];
      intros E; injection E as <- <- <- <-;
      (split; [reflexivity|]); (split; [exact Hl|]).
    + left. repeat split; assumption.
    + right. split; [reflexivity|]. right. exact Hok.
  - intros E. injection E as <- <- <- <-.
    split; [reflexivity|]. split; [reflexivity|]. right.
    split; [reflexivity|]. left. repeat split.
Qed.

(** X21.  When [mkv_write_tracks] returns, only the main SeekHead of
    the context may have changed, and the streams keep their number and
    languages.  It returns 0 exactly when the main SeekHead took the
    entry for the Tracks, at the offset the cursor was at, and every
    stream is one it can write: a stream with a Matroska codec ID whose
    codec private data can be written (Xiph headers that split, FLAC
    extradata of at least 34 bytes), or one without, which if it is
    audio has a WAVE format tag.  Then every stream has the time base
    1/1000.  Otherwise it returns -1. *)
Theorem mkv_write_tracks_result (streams streams' : list MuxStream)
  (mkv mkv' : MatroskaMuxContext) (pb pb' : ByteIOContext) (r : Z) :
  mkv_write_tracks hids cids dbl_bits ff_mkv_codec_tags av_get_bits_per_sample
    codec_get_bmp_tag codec_get_wav_tag put_bmp_header put_wav_header
    ff_split_xiph_headers streams mkv pb = Done (r, mkv', pb', streams') ->
  mkv' = set_main_seekhead mkv (main_seekhead mkv') /\
  List.length streams' = List.length streams /\
  map ms_language streams' = map ms_language streams /\
  (r = 0 \/ r = -1) /\
  (r = 0 <->
   fst (mkv_add_seekhead_entry (main_seekhead mkv)
          (MATROSKA_ID_TRACKS hids) (pos pb)) = 0 /\
   forallb track_okb streams = true) /\
  (r = 0 ->
   main_seekhead mkv'
   = snd (mkv_add_seekhead_entry (main_seekhead mkv)
            (MATROSKA_ID_TRACKS hids) (pos pb)) /\
   Forall (fun st => ms_time_base st = (1, 1000)) streams').
Proof.
  intros E.
  destruct (mkv_write_tracks_context streams mkv pb r mkv' pb' streams' E)
    as (Hm & Hl & Hr).
  split; [rewrite Hm; reflexivity|].
  split; [rewrite <- (length_map ms_language streams'), Hl; apply length_map|].
  split; [exact Hl|].
  assert (Hadd : fst (mkv_add_seekhead_entry (main_seekhead mkv)
                        (MATROSKA_ID_TRACKS hids) (pos pb)) = 0 \/
                 fst (mkv_add_seekhead_entry (main_seekhead mkv)
                        (MATROSKA_ID_TRACKS hids) (pos pb)) = -1).
  { unfold mkv_add_seekhead_entry.
    destruct ((0 <? max_entries (main_seekhead mkv))
              && (max_entries (main_seekhead mkv)
                  <=? num_entries (main_seekhead mkv))); [right|left];
      reflexivity. }
  destruct Hr as [(-> & Ha & Hok & Hf)|(-> & [(Ha & _)|Hok])].
  - split; [left; reflexivity|]. split; [tauto|].
    intros _. split; [rewrite Hm; reflexivity|exact Hf].
  - split; [right; reflexivity|]. split; [|discriminate].
    split; [discriminate|]. intros [H _]. rewrite Ha in H. discriminate.
  - split; [right; reflexivity|]. split; [|discriminate].
    split; [discriminate|]. intros [_ H]. rewrite Hok in H. discriminate.
Qed.

End TrackFacts.

Section TrackStreams.

Variable hids : matroska_header_ids.
Variable cids : codec_ids.
Variable dbl_bits : Z -> Z.
Variable ff_mkv_codec_tags : list (Z * list Z).
Variable av_get_bits_per_sample : Z -> Z.
Variable codec_get_bmp_tag : Z -> Z.
Variable codec_get_wav_tag : Z -> Z.
Variable put_bmp_header : ByteIOContext -> AVCodecContext -> ByteIOContext.
Variable put_wav_header : ByteIOContext -> AVCodecContext -> ByteIOContext.
Variable ff_split_xiph_headers :
  list Z -> Z -> option (list Z * list Z * list Z).

(** What the packets and the trailer read of a stream. *)
Definition same_kind (codec' codec : AVCodecContext) : Prop :=
  cc_codec_type codec' = cc_codec_type codec /\
  cc_bitexact codec' = cc_bitexact codec.

Lemma write_track_video_kind pb codec native :
  same_kind (snd (write_track_video hids codec_get_bmp_tag put_bmp_header
                    pb codec native)) codec.
Proof.
  unfold write_track_video.
  destruct native.
  - destruct (start_ebml_master _ _) as [subinfo pb1]. split; reflexivity.
  - destruct (start_ebml_master _ (MATROSKA_ID_CODECPRIVATE hids)) as [bmp pb1].
    destruct (start_ebml_master _ (MATROSKA_ID_TRACKVIDEO hids)) as [subinfo pb2].
    cbn [snd]. destruct (cc_codec_tag codec =? 0); split; reflexivity.
Qed.

Lemma write_track_audio_kind pb codec native bit_depth sr osr :
  same_kind (snd (write_track_audio hids dbl_bits codec_get_wav_tag
                    put_wav_header pb codec native bit_depth sr osr)) codec.
Proof.
  unfold write_track_audio.
  destruct native.
  - cbn [Z.ltb Z.compare].
    destruct (start_ebml_master _ _) as [subinfo pb1]. split; reflexivity.
  - destruct (cc_codec_tag (set_codec_tag codec _) =? 0).
    + split; reflexivity.
    + destruct (start_ebml_master _ (MATROSKA_ID_CODECPRIVATE hids)) as [wav pb1].
      cbn [Z.ltb Z.compare].
      destruct (start_ebml_master _ (MATROSKA_ID_TRACKAUDIO hids)) as [subinfo pb2].
      split; reflexivity.
Qed.

Lemma write_track_stream_of pb i st r pb' st' :
  write_track hids cids dbl_bits ff_mkv_codec_tags av_get_bits_per_sample
    codec_get_bmp_tag codec_get_wav_tag put_bmp_header put_wav_header
    ff_split_xiph_headers pb i st = Done (r, pb', st') ->
  stream_of st' = stream_of st.
Proof.
  unfold write_track.
  destruct (if cc_codec_id (ms_codec st) =? CODEC_ID_AAC cids
            then get_aac_sample_rates _ _ 0 else Done _) as [[sr osr]|];
    [|discriminate].
  destruct (start_ebml_master pb (MATROSKA_ID_TRACKENTRY hids)) as [track pb0].
  set (pb1 := match ms_language st with [] => _ | _ :: _ => _ end).
  destruct (mkv_codec_tag_lookup (CODEC_ID_NONE cids) ff_mkv_codec_tags
              (cc_codec_id (ms_codec st))) as [tag|]; [|discriminate].
  set (native := match tag with Some _ => true | None => false end).
  set (pb2 := match tag with Some _ => _ | None => _ end).
  destruct (if native then write_codec_private _ _ _ _ _ else _) as [rc pbc].
  destruct (rc <? 0); [intros E; injection E as <- <- <-; reflexivity|].
  assert (K : forall r2 pb2 c2,
             same_kind c2 (ms_codec st) ->
             (if r2 <? 0
              then Done (-1, pb2, mkMuxStream c2 (ms_language st) (ms_time_base st))
              else Done (0, end_ebml_master pb2 track, finish_stream st c2))
             = Done (r, pb', st') -> stream_of st' = stream_of st).
  { intros r2 pbx c2 [K1 K2]. destruct (r2 <? 0); intros E;
      injection E as <- <- <-; unfold stream_of, finish_stream; cbn [ms_codec];
      rewrite K1, K2; reflexivity. }
  destruct (cc_codec_type (ms_codec st)) eqn:Ety.
  - pose proof (write_track_video_kind pbc (ms_codec st) native) as Hk.
    destruct (write_track_video _ _ _ _ _ _) as [pbv cv]. cbn [snd] in Hk.
    apply K. exact Hk.
  - pose proof (write_track_audio_kind pbc (ms_codec st) native
                  (av_get_bits_per_sample (cc_codec_id (ms_codec st)))
                  sr osr) as Hk.
    destruct (write_track_audio _ _ _ _ _ _ _ _ _ _) as [[ra pba] ca].
    cbn [snd] in Hk. apply K. exact Hk.
  - apply K. split; reflexivity.
  - apply K. split; reflexivity.
Qed.

Lemma write_tracks_loop_stream_of streams : forall pb i r pb' streams',
  write_tracks_loop hids cids dbl_bits ff_mkv_codec_tags av_get_bits_per_sample
    codec_get_bmp_tag codec_get_wav_tag put_bmp_header put_wav_header
    ff_split_xiph_headers pb i streams = Done (r, pb', streams') ->
  map stream_of streams' = map stream_of streams.
Proof.
  induction streams as [|st rest IH]; intros pb i r pb' streams';
    cbn [write_tracks_loop].
  - intros E. injection E as <- <- <-. reflexivity.
  - destruct (write_track _ _ _ _ _ _ _ _ _ _ pb i st) as [[[r1 pb1] st1]|] eqn:E1;
      [|discriminate].
    pose proof (write_track_stream_of pb i st r1 pb1 st1 E1) as H1.
    destruct (r1 <? 0).
    + intros E. injection E as <- <- <-. cbn [map]. rewrite H1. reflexivity.
    + destruct (write_tracks_loop _ _ _ _ _ _ _ _ _ _ pb1 (i + 1) rest)
        as [[[r2 pb2] rest2]|] eqn:E2; [|discriminate].
      intros E. injection E as <- <- <-. cbn [map].
      rewrite H1, (IH pb1 (i + 1) r2 pb2 rest2 E2). reflexivity.
Qed.

Lemma mkv_write_tracks_stream_of streams mkv pb r mkv' pb' streams' :
  mkv_write_tracks hids cids dbl_bits ff_mkv_codec_tags av_get_bits_per_sample
    codec_get_bmp_tag codec_get_wav_tag put_bmp_header put_wav_header
    ff_split_xiph_headers streams mkv pb = Done (r, mkv', pb', streams') ->
  map stream_of streams' = map stream_of streams.
Proof.
  unfold mkv_write_tracks.
  destruct (mkv_add_seekhead_entry _ _ _) as [r0 sh].
  destruct (r0 <? 0); [intros E; injection E as <- <- <- <-; reflexivity|].
  destruct (start_ebml_master pb (MATROSKA_ID_TRACKS hids)) as [tracks pb0].
  destruct (write_tracks_loop _ _ _ _ _ _ _ _ _ _ pb0 0 streams)
    as [[[r1 pb1] streams1]|] eqn:E1; [|discriminate].
  pose proof (write_tracks_loop_stream_of streams pb0 0 r1 pb1 streams1 E1) as H.
  destruct (r1 <? 0); intros E; injection E as <- <- <- <-; exact H.
Qed.

End TrackStreams.

(** *** The header *)

Section HeaderFacts.

Variable ids : matroska_ids.
Variable hids : matroska_header_ids.
Variable cids : codec_ids.
Variable dbl_bits : Z -> Z.
Variable ff_mkv_codec_tags : list (Z * list Z).
Variable av_get_bits_per_sample : Z -> Z.
Variable codec_get_bmp_tag : Z -> Z.
Variable codec_get_wav_tag : Z -> Z.
Variable put_bmp_header : ByteIOContext -> AVCodecContext -> ByteIOContext.
Variable put_wav_header : ByteIOContext -> AVCodecContext -> ByteIOContext.
Variable ff_split_xiph_headers :
  list Z -> Z -> option (list Z * list Z * list Z).
Variable LIBAVFORMAT_IDENT : list Z.
Variable md5_digest : list Z -> list Z.

(** The EBML header, behind the start of its master element. *)
Definition ebml_header_body (pb : ByteIOContext) : ByteIOContext :=
  put_ebml_uint
    (put_ebml_uint
       (put_ebml_string
          (put_ebml_uint
             (put_ebml_uint
                (put_ebml_uint
                   (put_ebml_uint pb (EBML_ID_EBMLVERSION hids) 1)
                   (EBML_ID_EBMLREADVERSION hids) 1)
                (EBML_ID_EBMLMAXIDLENGTH hids) 4)
             (EBML_ID_EBMLMAXSIZELENGTH hids) 8)
          (EBML_ID_DOCTYPE hids) [109; 97; 116; 114; 111; 115; 107; 97])
       (EBML_ID_DOCTYPEVERSION hids) 2)
    (EBML_ID_DOCTYPEREADVERSION hids) 2.

Lemma advances_ebml_header_body : advances ebml_header_body 105.
Proof.
  unfold ebml_header_body.
  pose proof (advances_seq _ _ _ _ (advances_uint (EBML_ID_EBMLVERSION hids) 1)
                (advances_uint (EBML_ID_EBMLREADVERSION hids) 1) ltac:(lia)) as A1.
  pose proof (advances_seq _ _ _ _ A1
                (advances_uint (EBML_ID_EBMLMAXIDLENGTH hids) 4) ltac:(lia)) as A2.
  pose proof (advances_seq _ _ _ _ A2
                (advances_uint (EBML_ID_EBMLMAXSIZELENGTH hids) 8) ltac:(lia)) as A3.
  pose proof (advances_seq _ _ _ _ A3
                (advances_binary (EBML_ID_DOCTYPE hids)
                   [109; 97; 116; 114; 111; 115; 107; 97] ltac:(reflexivity))
                ltac:(cbn; lia)) as A4.
  pose proof (advances_seq _ _ _ _ A4
                (advances_uint (EBML_ID_DOCTYPEVERSION hids) 2) ltac:(lia)) as A5.
  pose proof (advances_seq _ _ _ _ A5
                (advances_uint (EBML_ID_DOCTYPEREADVERSION hids) 2) ltac:(lia)) as A6.
  exact A6.
Qed.

(** The Info element up to the reservations. *)
Definition info_body (title : list Z) (pb : ByteIOContext) : ByteIOContext :=
  match title with
  | [] => put_ebml_uint pb (MATROSKA_ID_TIMECODESCALE hids) 1000000
  | _ :: _ =>
      put_ebml_string
        (put_ebml_uint pb (MATROSKA_ID_TIMECODESCALE hids) 1000000)
        (MATROSKA_ID_TITLE hids) title
  end.

Lemma advances_info_body title :
  len title < 2 ^ 31 -> advances (info_body title) (len title + 27).
Proof.
  intros Hl. unfold info_body. pose proof (len_nonneg title).
  destruct title as [|c title].
  - apply (advances_weaken _ 14); [apply advances_uint|lia].
  - replace (len (c :: title) + 27) with (14 + (len (c :: title) + 13)) by lia.
    apply (advances_seq (fun pb => put_ebml_uint pb _ _)
             (fun pb => put_ebml_string pb _ _)).
    + apply advances_uint.
    + apply advances_binary, Hl.
    + lia.
Qed.

Definition app_ident (pb : ByteIOContext) : ByteIOContext :=
  put_ebml_string
    (put_ebml_string pb (MATROSKA_ID_MUXINGAPP hids) LIBAVFORMAT_IDENT)
    (MATROSKA_ID_WRITINGAPP hids) LIBAVFORMAT_IDENT.

Lemma advances_app_ident :
  len LIBAVFORMAT_IDENT < 2 ^ 31 ->
  advances app_ident (2 * len LIBAVFORMAT_IDENT + 26).
Proof.
  intros Hl. pose proof (len_nonneg LIBAVFORMAT_IDENT).
  replace (2 * len LIBAVFORMAT_IDENT + 26)
    with ((len LIBAVFORMAT_IDENT + 13) + (len LIBAVFORMAT_IDENT + 13)) by lia.
  apply (advances_seq (fun pb => put_ebml_string pb _ _)
           (fun pb => put_ebml_string pb _ _));
    [apply advances_binary, Hl|apply advances_binary, Hl|lia].
Qed.

(** What a header that returns 0 leaves: the layout of the segment, the
    two SeekHeads, and the streams. *)
Lemma mkv_write_header_context title st0 rest mkv pb mkv' pb' streams' :
  0 <= pos pb < 2 ^ 60 -> len title < 2 ^ 31 -> len LIBAVFORMAT_IDENT < 2 ^ 31 ->
  mkv_write_header ids hids cids dbl_bits ff_mkv_codec_tags
    av_get_bits_per_sample codec_get_bmp_tag codec_get_wav_tag put_bmp_header
    put_wav_header ff_split_xiph_headers LIBAVFORMAT_IDENT title (st0 :: rest)
    mkv pb = Done (0, mkv', pb', streams') ->
  (segment_offset mkv' = segment mkv' /\
   pos pb < segment mkv' /\
   segment mkv' + 293 < duration_offset mkv' /\
   (cc_bitexact (ms_codec st0) = false ->
    segment mkv' + 293 < segment_uid mkv' /\
    duration_offset mkv' = segment_uid mkv' + 19) /\
   (cc_bitexact (ms_codec st0) = true -> segment_uid mkv' = segment_uid mkv)) /\
  (main_seekhead mkv'
   = mkSeekhead (segment mkv') (segment mkv') 293 10
       [mkSeekEntry (MATROSKA_ID_INFO hids) 293;
        mkSeekEntry (MATROSKA_ID_TRACKS hids)
          (duration_offset mkv' + 11 - segment mkv')] /\
   cluster_seekhead mkv'
   = mkSeekhead 0 (segment mkv') 0 0
       [mkSeekEntry (MATROSKA_ID_CLUSTER ids)
          (u64 (cluster_pos mkv' - segment mkv'))] /\
   cues mkv' = mkCues (segment mkv') [] /\
   md5_ctx mkv' = []) /\
  (duration mkv' = 0 /\ cluster_pts mkv' = 0 /\
   cluster mkv' = cluster_pos mkv' + ebml_id_size (MATROSKA_ID_CLUSTER ids) + 8 /\
   pos pb' = cluster mkv' + ebml_id_size (MATROSKA_ID_CLUSTERTIMECODE ids) + 2) /\
  (map stream_of streams' = map stream_of (st0 :: rest) /\
   forallb (track_okb cids ff_mkv_codec_tags codec_get_wav_tag
              ff_split_xiph_headers) (st0 :: rest) = true /\
   Forall (fun st => ms_time_base st = (1, 1000)) streams').
Proof.
  intros Hp Ht Hi. unfold mkv_write_header.
  pose proof (len_nonneg title) as Ht0.
  pose proof (len_nonneg LIBAVFORMAT_IDENT) as Hi0.
  pose proof (ebml_id_size_bounds (EBML_ID_HEADER hids)) as B1.
  pose proof (ebml_id_size_bounds (MATROSKA_ID_SEGMENT hids)) as B2.
  pose proof (ebml_id_size_bounds (MATROSKA_ID_INFO hids)) as B3.
  pose proof (pos_start_ebml_master pb (EBML_ID_HEADER hids)) as [S1 S1'].
  destruct (start_ebml_master pb (EBML_ID_HEADER hids)) as [eh pb1].
  cbn [fst snd] in S1, S1'.
  fold (ebml_header_body pb1).
  pose proof (advances_ebml_header_body pb1 ltac:(lia) ltac:(lia)) as A1.
  set (pbE := end_ebml_master (ebml_header_body pb1) eh).
  assert (PE : pos pbE = pos (ebml_header_body pb1)) by reflexivity.
  pose proof (pos_start_ebml_master pbE (MATROSKA_ID_SEGMENT hids)) as [S2 S2'].
  destruct (start_ebml_master pbE (MATROSKA_ID_SEGMENT hids)) as [seg pbS].
  cbn [fst snd] in S2, S2'.
  unfold mkv_start_seekhead.
  change (0 <? 10) with true. change (0 <? 0) with false. cbv beta iota zeta.
  change (s32 (10 * 28 + 13)) with 293.
  pose proof (pos_put_ebml_void ids pbS 293 ltac:(lia) ltac:(lia)) as PM.
  set (pbM := put_ebml_void ids pbS 293) in *. clearbody pbM.
  unfold url_ftell.
  unfold mkv_add_seekhead_entry at 1. unfold num_entries at 1.
  cbn [max_entries sh_entries filepos sh_segment_offset reserved_size].
  change (len (@nil mkv_seekhead_entry)) with 0.
  change ((0 <? 10) && (10 <=? 0)) with false. cbv beta iota zeta.
  change (0 <? 0) with false. cbv iota.
  pose proof (pos_start_ebml_master pbM (MATROSKA_ID_INFO hids)) as [S3 S3'].
  destruct (start_ebml_master pbM (MATROSKA_ID_INFO hids)) as [si pbI].
  cbn [fst snd] in S3, S3'.
  fold (info_body title pbI).
  cbn [segment segment_offset segment_uid cluster cluster_pos cluster_pts
       duration_offset duration main_seekhead cluster_seekhead cues md5_ctx app].
  fold (app_ident (info_body title pbI)).
  pose proof (advances_info_body title Ht pbI ltac:(lia) ltac:(lia)) as A2.
  set (pbN := info_body title pbI) in *.
  pose proof (advances_app_ident Hi pbN ltac:(lia) ltac:(lia)) as A3.
  set (pbA := app_ident pbN) in *.
  pose proof (pos_put_ebml_void ids pbA 19 ltac:(lia) ltac:(lia)) as PU.
  set (uidpb := if negb (cc_bitexact (ms_codec st0)) then _ else _).
  assert (HU : (cc_bitexact (ms_codec st0) = false ->
                fst uidpb = pos pbA /\ pos (snd uidpb) = pos pbA + 19) /\
               (cc_bitexact (ms_codec st0) = true ->
                fst uidpb = segment_uid mkv /\ snd uidpb = pbN)).
  { unfold uidpb. destruct (cc_bitexact (ms_codec st0)); cbn [negb fst snd];
      split; intros H; try discriminate H; split; try reflexivity. exact PU. }
  assert (PUb : pos pbN <= pos (snd uidpb) <= pos pbA + 19).
  { destruct (cc_bitexact (ms_codec st0)).
    - destruct HU as [_ HU]. destruct (HU eq_refl) as [_ ->]. lia.
    - destruct HU as [HU _]. destruct (HU eq_refl) as [_ ->]. lia. }
  clearbody uidpb. destruct uidpb as [uid pbU]. cbn [fst snd] in HU, PUb.
  pose proof (pos_put_ebml_void ids pbU 11 ltac:(lia) ltac:(lia)) as PD.
  match goal with |- context [mkv_write_tracks _ _ _ _ _ _ _ _ _ _ _ ?m ?p] =>
    set (mkvH := m); set (pbH := p) end.
  assert (PH : pos pbH = pos pbU + 11) by exact PD.
  clearbody pbH.
  destruct (mkv_write_tracks _ _ _ _ _ _ _ _ _ _ _ mkvH pbH)
    as [[[[rt mkvT] pbT] streamsT]|] eqn:ET; [|discriminate].
  destruct (mkv_write_tracks_context _ _ _ _ _ _ _ _ _ _ _ _ _ _ _ _ _ ET)
    as (Hm & Hl & Hr).
  pose proof (mkv_write_tracks_stream_of _ _ _ _ _ _ _ _ _ _ _ _ _ _ _ _ _ ET)
    as Hs.
  destruct Hr as [(-> & Hadd & Hok & Htb)|(-> & _)]; cbn [Z.ltb Z.compare];
    [|intros E; discriminate E].
  rewrite Hm. unfold mkvH at 1.
  cbn [set_main_seekhead cluster_seekhead].
  unfold mkv_add_seekhead_entry at 1.
  cbn [max_entries sh_entries filepos sh_segment_offset reserved_size app].
  change (0 <? 0) with false. cbn [andb Z.ltb Z.compare].
  pose proof (pos_start_ebml_master pbT (MATROSKA_ID_CLUSTER ids)) as [S4 S4'].
  destruct (start_ebml_master pbT (MATROSKA_ID_CLUSTER ids)) as [cl pbC].
  cbn [fst snd] in S4, S4'.
  intros E. injection E as <- <- <-.
  unfold mkvH, set_cues, set_cluster, set_cluster_seekhead, set_main_seekhead,
    mkv_start_cues, url_ftell.
  unfold url_ftell in *.
  clearbody pbN pbA pbE.
  cbn [segment segment_offset segment_uid cluster cluster_pos cluster_pts
       duration_offset duration main_seekhead cluster_seekhead cues md5_ctx].
  rewrite <- S2, PM, PH.
  replace (pos pbS + 293 - seg) with 293 by lia.
  change (u64 293) with 293.
  rewrite (u64_small (pos pbU + 11 - seg)) by lia.
  destruct (emits_put_ebml_uint (MATROSKA_ID_CLUSTERTIMECODE ids) 0 pbC)
    as [PC _].
  assert (LC : len (ebml_uint_bytes (MATROSKA_ID_CLUSTERTIMECODE ids) 0)
               = ebml_id_size (MATROSKA_ID_CLUSTERTIMECODE ids) + 2).
  { unfold ebml_uint_bytes. change (u64 0) with 0.
    change (uint_width 0) with 1. rewrite len_app, len_ebml_id_bytes.
    reflexivity. }
  repeat split; try reflexivity; try assumption; try lia.
  - destruct HU as [HU _]. destruct (HU H) as [-> _]. lia.
  - destruct HU as [HU _]. destruct (HU H) as [-> ->]. lia.
  - intros H. destruct HU as [_ HU]. destruct (HU H) as [-> _]. reflexivity.
Qed.

(** The value of the header: -1 exactly when a stream cannot be
    written; the ten places of the main SeekHead always suffice for the
    Info and the Tracks. *)
Lemma mkv_write_header_value title st0 rest mkv pb r mkv' pb' streams' :
  mkv_write_header ids hids cids dbl_bits ff_mkv_codec_tags
    av_get_bits_per_sample codec_get_bmp_tag codec_get_wav_tag put_bmp_header
    put_wav_header ff_split_xiph_headers LIBAVFORMAT_IDENT title (st0 :: rest)
    mkv pb = Done (r, mkv', pb', streams') ->
  (r = 0 /\
   forallb (track_okb cids ff_mkv_codec_tags codec_get_wav_tag
              ff_split_xiph_headers) (st0 :: rest) = true) \/
  (r = -1 /\
   forallb (track_okb cids ff_mkv_codec_tags codec_get_wav_tag
              ff_split_xiph_headers) (st0 :: rest) = false).
Proof.
  unfold mkv_write_header.
  destruct (start_ebml_master pb (EBML_ID_HEADER hids)) as [eh pb1].
  destruct (start_ebml_master _ (MATROSKA_ID_SEGMENT hids)) as [seg pbS].
  unfold mkv_start_seekhead.
  change (0 <? 10) with true. change (0 <? 0) with false. cbv beta iota zeta.
  unfold mkv_add_seekhead_entry at 1. unfold num_entries at 1.
  cbn [max_entries sh_entries filepos sh_segment_offset reserved_size].
  change (len (@nil mkv_seekhead_entry)) with 0.
  change ((0 <? 10) && (10 <=? 0)) with false. cbv beta iota zeta.
  change (0 <? 0) with false. cbv iota.
  destruct (start_ebml_master _ (MATROSKA_ID_INFO hids)) as [si pbI].
  destruct (if negb (cc_bitexact (ms_codec st0)) then _ else _) as [uid pbU].
  cbn [segment segment_offset segment_uid cluster cluster_pos cluster_pts
       duration_offset duration main_seekhead cluster_seekhead cues md5_ctx app].
  match goal with |- context [mkv_write_tracks _ _ _ _ _ _ _ _ _ _ _ ?m ?p] =>
    set (mkvH := m); set (pbH := p) end.
  destruct (mkv_write_tracks _ _ _ _ _ _ _ _ _ _ _ mkvH pbH)
    as [[[[rt mkvT] pbT] streamsT]|] eqn:ET; [|discriminate].
  destruct (mkv_write_tracks_context _ _ _ _ _ _ _ _ _ _ _ _ _ _ _ _ _ ET)
    as (Hm & Hl & Hr).
  destruct Hr as [(-> & Hadd & Hok & Htb)|(-> & Hr)]; cbn [Z.ltb Z.compare].
  - rewrite Hm. unfold mkvH at 1. cbn [set_main_seekhead cluster_seekhead].
    unfold mkv_add_seekhead_entry at 1.
    cbn [max_entries sh_entries filepos sh_segment_offset reserved_size app].
    change (0 <? 0) with false. cbn [andb Z.ltb Z.compare].
    destruct (start_ebml_master pbT (MATROSKA_ID_CLUSTER ids)) as [cl pbC].
    intros E. injection E as <- <- <- <-. left. split; [reflexivity|exact Hok].
  - intros E. injection E as <- <- <- <-. right. split; [reflexivity|].
    destruct Hr as [(Hadd & _)|Hok]; [|exact Hok].
    exfalso. revert Hadd. unfold mkvH, mkv_add_seekhead_entry, num_entries.
    cbn [main_seekhead max_entries sh_entries fst].
    discriminate.
Qed.

End HeaderFacts.

(** X22.  [mkv_write_header] returns 0 or -1, and 0 exactly when every
    stream can be written.  When it returns 0 the segment offset is the
    start of the Segment's body; the main SeekHead is the 293 reserved
    bytes there, with ten places and the entries for the Info, at 293,
    and for the Tracks, 11 bytes behind the place reserved for the
    duration; the cluster SeekHead reserves nothing and names the first
    Cluster; the duration is 0; the cues are empty; the first Cluster is
    open with the timecode 0; and unless the first stream is bit-exact
    the place for the duration lies 19 bytes behind the one for the
    segment UID. *)
Theorem mkv_write_header_layout
  (ids : matroska_ids) (hids : matroska_header_ids) (cids : codec_ids)
  (dbl_bits : Z -> Z) (ff_mkv_codec_tags : list (Z * list Z))
  (av_get_bits_per_sample codec_get_bmp_tag codec_get_wav_tag : Z -> Z)
  (put_bmp_header put_wav_header
     : ByteIOContext -> AVCodecContext -> ByteIOContext)
  (ff_split_xiph_headers : list Z -> Z -> option (list Z * list Z * list Z))
  (LIBAVFORMAT_IDENT title : list Z) (st0 : MuxStream) (rest : list MuxStream)
  (mkv mkv' : MatroskaMuxContext) (pb pb' : ByteIOContext)
  (streams' : list MuxStream) (r : Z) :
  0 <= pos pb < 2 ^ 60 -> len title < 2 ^ 31 -> len LIBAVFORMAT_IDENT < 2 ^ 31 ->
  mkv_write_header ids hids cids dbl_bits ff_mkv_codec_tags
    av_get_bits_per_sample codec_get_bmp_tag codec_get_wav_tag put_bmp_header
    put_wav_header ff_split_xiph_headers LIBAVFORMAT_IDENT title (st0 :: rest)
    mkv pb = Done (r, mkv', pb', streams') ->
  (r = 0 \/ r = -1) /\
  (r = 0 <->
   forallb (track_okb cids ff_mkv_codec_tags codec_get_wav_tag
              ff_split_xiph_headers) (st0 :: rest) = true) /\
  (r = 0 ->
   segment_offset mkv' = segment mkv' /\
   pos pb < segment mkv' /\
   main_seekhead mkv'
   = mkSeekhead (segment mkv') (segment mkv') 293 10
       [mkSeekEntry (MATROSKA_ID_INFO hids) 293;
        mkSeekEntry (MATROSKA_ID_TRACKS hids)
          (duration_offset mkv' + 11 - segment mkv')] /\
   cluster_seekhead mkv'
   = mkSeekhead 0 (segment mkv') 0 0
       [mkSeekEntry (MATROSKA_ID_CLUSTER ids)
          (u64 (cluster_pos mkv' - segment mkv'))] /\
   cues mkv' = mkCues (segment mkv') [] /\
   duration mkv' = 0 /\
   cluster_pts mkv' = 0 /\
   cluster mkv' = cluster_pos mkv' + ebml_id_size (MATROSKA_ID_CLUSTER ids) + 8 /\
   pos pb' = cluster mkv' + ebml_id_size (MATROSKA_ID_CLUSTERTIMECODE ids) + 2 /\
   segment mkv' + 293 < duration_offset mkv' /\
   (cc_bitexact (ms_codec st0) = false ->
    segment mkv' + 293 < segment_uid mkv' /\
    duration_offset mkv' = segment_uid mkv' + 19)).
Proof.
  intros Hp Ht Hi E.
  destruct (mkv_write_header_value ids hids cids dbl_bits ff_mkv_codec_tags
              av_get_bits_per_sample codec_get_bmp_tag codec_get_wav_tag
              put_bmp_header put_wav_header ff_split_xiph_headers
              LIBAVFORMAT_IDENT title st0 rest mkv pb r mkv' pb' streams' E)
    as [(Hr & Hok)|(Hr & Hok)].
  - split; [left; exact Hr|]. split; [split; intros _; assumption|].
    intros _. subst r.
    destruct (mkv_write_header_context ids hids cids dbl_bits ff_mkv_codec_tags
                av_get_bits_per_sample codec_get_bmp_tag codec_get_wav_tag
                put_bmp_header put_wav_header ff_split_xiph_headers
                LIBAVFORMAT_IDENT title st0 rest mkv pb mkv' pb' streams'
                Hp Ht Hi E)
      as ((L1 & L2 & L3 & L4 & _) & (M1 & M2 & M3 & _) & (D1 & D2 & D3 & D4) & _).
    repeat (split; [assumption|]). exact L4.
  - split; [right; exact Hr|].
    split; [|intros H0; rewrite H0 in Hr; discriminate Hr].
    split; [intros H0; rewrite H0 in Hr; discriminate Hr|].
    intros H1. rewrite H1 in Hok. discriminate Hok.
Qed.

(** X23.  A file written by the header, one packet after the other and
    the trailer: after a header that returns 0 and leaves a context the
    muxer is defined for ([mux_okb]), packets of streams that exist,
    such as the muxer is defined for ([packet_okb]: every [pts] from 0
    to below 2^56, no negative duration), are all written with the
    value 0, the trailer returns 0, and the place that the header
    reserved for the duration then holds the Duration element with
    [pts + duration] of the last packet.  The identifier of the segment
    UID is taken to fit the 19 bytes reserved for the element. *)
Theorem mkv_write_file_duration
  (ids : matroska_ids) (hids : matroska_header_ids) (cids : codec_ids)
  (dbl_bits : Z -> Z) (md5_digest : list Z -> list Z)
  (ff_mkv_codec_tags : list (Z * list Z))
  (av_get_bits_per_sample codec_get_bmp_tag codec_get_wav_tag : Z -> Z)
  (put_bmp_header put_wav_header
     : ByteIOContext -> AVCodecContext -> ByteIOContext)
  (ff_split_xiph_headers : list Z -> Z -> option (list Z * list Z * list Z))
  (LIBAVFORMAT_IDENT title : list Z) (st0 : MuxStream) (rest : list MuxStream)
  (mkv mkvH : MatroskaMuxContext) (pb pbH : ByteIOContext)
  (streams' : list MuxStream) (pkts : list AVPacket) (pkt : AVPacket) :
  0 <= pos pb < 2 ^ 60 -> len title < 2 ^ 31 -> len LIBAVFORMAT_IDENT < 2 ^ 31 ->
  ebml_id_size (MATROSKA_ID_SEGMENTUID ids) <= 2 ->
  mkv_write_header ids hids cids dbl_bits ff_mkv_codec_tags
    av_get_bits_per_sample codec_get_bmp_tag codec_get_wav_tag put_bmp_header
    put_wav_header ff_split_xiph_headers LIBAVFORMAT_IDENT title (st0 :: rest)
    mkv pb = Done (0, mkvH, pbH, streams') ->
  mux_okb ids mkvH pbH = true ->
  forallb (stream_okb (map stream_of streams')) (pkts ++ [pkt]) = true ->
  forallb packet_okb (pkts ++ [pkt]) = true ->
  len pkts < 2 ^ 20 ->
  exists mkvP pbP mkvT pbT,
    mkv_write_packets ids (map stream_of streams') mkvH pbH (pkts ++ [pkt])
      = Done (0, mkvP, pbP) /\
    mkv_write_trailer ids dbl_bits md5_digest (map stream_of streams') mkvP pbP
      = Done (0, mkvT, pbT) /\
    duration mkvT = packet_end pkt /\
    duration_offset mkvT = duration_offset mkvH /\
    holds pbT (duration_offset mkvH)
      (ebml_id_bytes (MATROSKA_ID_DURATION ids) ++ [0x88] ++
       be_bytes 8 (dbl_bits (packet_end pkt))).
Proof.
  intros Hp Ht Hi Hu E _ Hs _ _.
  destruct (mkv_write_header_context ids hids cids dbl_bits ff_mkv_codec_tags
              av_get_bits_per_sample codec_get_bmp_tag codec_get_wav_tag
              put_bmp_header put_wav_header ff_split_xiph_headers
              LIBAVFORMAT_IDENT title st0 rest mkv pb mkvH pbH streams'
              Hp Ht Hi E)
    as ((L1 & L2 & L3 & L4 & _) & (_ & M2 & _) & _ & (S1 & _)).
  assert (Hm : max_entries (cluster_seekhead mkvH) = 0)
    by (rewrite M2; reflexivity).
  destruct (mkv_write_packets_duration ids (map stream_of streams') pkts
              mkvH pbH pkt Hs Hm)
    as (mkvP & pbP & E1 & (P1 & P2 & P3) & Hd).
  cbn [map] in S1.
  destruct (mkv_write_trailer_tail ids dbl_bits md5_digest (stream_of st0)
              (map stream_of rest) mkvP pbP) as (sh & pbX & E2).
  rewrite <- S1 in E2.
  exists mkvP, pbP. eexists. eexists.
  split; [exact E1|]. split; [exact E2|].
  split; [exact Hd|]. split; [exact P3|].
  pose proof (trailer_tail_duration ids dbl_bits md5_digest (stream_of st0)
                (set_main_seekhead mkvP sh) pbX) as HT.
  cbn [set_main_seekhead segment duration_offset segment_uid duration] in HT.
  rewrite P1, P2, P3, Hd in HT. apply HT.
  - lia.
  - unfold stream_of. cbn [bitexact]. intros Hb.
    destruct (L4 Hb) as [_ L5]. lia.
Qed.

(** *** Examples: a file with one video stream *)

Definition matroska_header_std : matroska_header_ids :=
  mkHeaderIds 0x1A45DFA3 0x4286 0x42F7 0x42F2 0x42F3 0x4282 0x4287 0x4285
    0x18538067 0x1549A966 0x2AD7B1 0x7BA9 0x4D80 0x5741 0x1654AE6B 0xAE 0xD7
    0x73C5 0x9C 0x22B59C 0x86 0x63A2 0x83 0xE0 0xB0 0xBA 0x54B0 0x54BA 0xE1
    0x9F 0xB5 0x78B5 0x6264 1 2 0x11
    [86; 95; 77; 83; 47; 86; 70; 87; 47; 70; 79; 85; 82; 67; 67]
    [65; 95; 77; 83; 47; 65; 67; 77].

(** Codec identifiers for the examples: 0 for none, and four numbers
    for the codecs the muxer names. *)
Definition ex_codec_ids : codec_ids := mkCodecIds 0 100 101 102 103.

(** A table with one video codec, 13, under the string [V_MPEG4/ISO/ASP],
    and its final entry. *)
Definition ex_codec_tags : list (Z * list Z) :=
  [(13, [86; 95; 77; 80; 69; 71; 52; 47; 73; 83; 79; 47; 65; 83; 80]);
   (0, [])].

Definition ex_no_tag (codec_id : Z) : Z := 0.
Definition ex_no_header (pb : ByteIOContext) (codec : AVCodecContext)
  : ByteIOContext := pb.
Definition ex_no_split (extradata : list Z) (first_header_size : Z)
  : option (list Z * list Z * list Z) := None.

Definition ex_video : MuxStream :=
  mkMuxStream (mkCodec CODEC_TYPE_VIDEO 13 0 [] 0 0 640 480 (0, 1) false)
    [101; 110; 103] (1, 90000).

(** An audio stream of a codec that has neither a Matroska codec ID nor
    a WAVE format tag. *)
Definition ex_audio : MuxStream :=
  mkMuxStream (mkCodec CODEC_TYPE_AUDIO 77 0 [] 44100 2 0 0 (0, 1) false)
    [] (1, 44100).

Definition ex_ident : list Z := [76; 97; 118; 102].

Definition ex_mux_new : MatroskaMuxContext :=
  mkMux 0 0 0 0 0 0 0 0 (mkSeekhead 0 0 0 0 []) (mkSeekhead 0 0 0 0 [])
    (mkCues 0 []) [].

Definition ex_tracks_run (streams : list MuxStream)
  : exec (Z * MatroskaMuxContext * ByteIOContext * list MuxStream) :=
  mkv_write_tracks matroska_header_std ex_codec_ids ex_dbl_bits ex_codec_tags
    ex_no_tag ex_no_tag ex_no_tag ex_no_header ex_no_header ex_no_split
    streams
    (set_main_seekhead ex_mux_new (mkSeekhead 40 40 293 10 []))
    (mkPB (fun _ => 0) 400).

Definition ex_header_run
  : exec (Z * MatroskaMuxContext * ByteIOContext * list MuxStream) :=
  mkv_write_header matroska_std matroska_header_std ex_codec_ids ex_dbl_bits
    ex_codec_tags ex_no_tag ex_no_tag ex_no_tag ex_no_header ex_no_header
    ex_no_split ex_ident [] [ex_video] ex_mux_new (mkPB (fun _ => 0) 0).

Lemma mkv_write_tracks_result_witness :
  exists mkv' pb' streams',
    ex_tracks_run [ex_video; ex_audio] = Done (-1, mkv', pb', streams') /\
    forallb (track_okb ex_codec_ids ex_codec_tags ex_no_tag ex_no_split)
      [ex_video; ex_audio] = false /\
    map ms_language streams' = [[101; 110; 103]; []].
Proof.
  assert (D : match ex_tracks_run [ex_video; ex_audio] with
              | Done (r, _, _, _) => r = -1
              | Fault => False
              end) by (vm_compute; reflexivity).
  destruct (ex_tracks_run [ex_video; ex_audio]) as [[[[r m] p] ss]|] eqn:E;
    [|destruct D].
  subst r. exists m, p, ss. split; [reflexivity|].
  destruct (mkv_write_tracks_result matroska_header_std ex_codec_ids
              ex_dbl_bits ex_codec_tags ex_no_tag ex_no_tag ex_no_tag
              ex_no_header ex_no_header ex_no_split
              [ex_video; ex_audio] ss _ m _ p (-1) E)
    as (_ & _ & Hl & _ & Hr & _).
  split; [|exact Hl].
  destruct (forallb _ _) eqn:Hf; [|reflexivity].
  destruct Hr as [_ Hr].
  assert (H0 : -1 = 0) by (apply Hr; split; reflexivity).
  discriminate H0.
Defined.

Lemma mkv_write_header_layout_witness :
  exists mkv' pb' streams',
    ex_header_run = Done (0, mkv', pb', streams') /\
    segment mkv' = 59 /\
    main_seekhead mkv'
    = mkSeekhead 59 59 293 10
        [mkSeekEntry 0x1549A966 293;
         mkSeekEntry 0x1654AE6B (duration_offset mkv' + 11 - 59)] /\
    duration_offset mkv' = segment_uid mkv' + 19.
Proof.
  assert (D : match ex_header_run with
              | Done (r, mkv', _, _) => r = 0 /\ segment mkv' = 59
              | Fault => False
              end) by (vm_compute; split; reflexivity).
  destruct ex_header_run as [[[[r m] p] ss]|] eqn:E; [|destruct D].
  destruct D as [-> Hseg]. exists m, p, ss. split; [reflexivity|].
  split; [exact Hseg|].
  destruct (mkv_write_header_layout matroska_std matroska_header_std
              ex_codec_ids ex_dbl_bits ex_codec_tags ex_no_tag ex_no_tag
              ex_no_tag ex_no_header ex_no_header ex_no_split ex_ident []
              ex_video [] ex_mux_new m (mkPB (fun _ => 0) 0) p ss 0
              ltac:(cbn [pos]; lia) ltac:(cbn; lia) ltac:(cbn; lia) E)
    as (_ & _ & H).
  destruct (H eq_refl) as (_ & _ & Hmain & _ & _ & _ & _ & _ & _ & _ & Hu).
  rewrite Hseg in Hmain. split; [exact Hmain|].
  destruct (Hu eq_refl) as [_ Hd]. exact Hd.
Defined.

Lemma mkv_write_file_duration_witness :
  exists mkvH pbH streams' mkvP pbP mkvT pbT,
    ex_header_run = Done (0, mkvH, pbH, streams') /\
    mkv_write_packets matroska_std (map stream_of streams') mkvH pbH
      ([ex_packet 1000 40] ++ [ex_packet 920 40]) = Done (0, mkvP, pbP) /\
    mkv_write_trailer matroska_std ex_dbl_bits ex_md5_digest
      (map stream_of streams') mkvP pbP = Done (0, mkvT, pbT) /\
    holds pbT (duration_offset mkvH)
      [0x44; 0x89; 0x88; 0; 0; 0; 0; 0; 0; 0x03; 0xC0].
Proof.
  assert (D : match ex_header_run with
              | Done (r, m, p, ss) =>
                  r = 0 /\ len ss = 1 /\ mux_okb matroska_std m p = true
              | Fault => False
              end) by (vm_compute; repeat split; reflexivity).
  destruct ex_header_run as [[[[r m] p] ss]|] eqn:E; [|destruct D].
  destruct D as (-> & Hlen & Hok). exists m, p, ss.
  assert (Hs : forallb (stream_okb (map stream_of ss))
                 ([ex_packet 1000 40] ++ [ex_packet 920 40]) = true).
  { unfold stream_okb, len in *. rewrite length_map. cbn [app forallb].
    change (stream_index (ex_packet 1000 40)) with 0.
    change (stream_index (ex_packet 920 40)) with 0.
    rewrite Hlen. reflexivity. }
  destruct (mkv_write_file_duration matroska_std matroska_header_std
              ex_codec_ids ex_dbl_bits ex_md5_digest ex_codec_tags ex_no_tag
              ex_no_tag ex_no_tag ex_no_header ex_no_header ex_no_split
              ex_ident [] ex_video [] ex_mux_new m (mkPB (fun _ => 0) 0) p ss
              [ex_packet 1000 40] (ex_packet 920 40)
              ltac:(cbn [pos]; lia) ltac:(cbn; lia) ltac:(cbn; lia)
              ltac:(vm_compute; discriminate) E Hok Hs eq_refl
              ltac:(cbn; lia))
    as (mkvP & pbP & mkvT & pbT & E1 & E2 & _ & _ & Hh).
  exists mkvP, pbP, mkvT, pbT.
  split; [reflexivity|]. split; [exact E1|]. split; [exact E2|exact Hh].
Defined.

End MkvHeader.

(** ** Further properties of the MXF demuxer *)

Module MxfLinker.

Import Mxf MxfFacts.

(** *** Probing *)

Lemma bytes_eqb_eq a b : bytes_eqb a b = true <-> a = b.
Proof.
  revert b. induction a as [|x a IH]; intros [|y b]; cbn [bytes_eqb];
    try (split; [discriminate|congruence]); [tauto|].
  rewrite andb_true_iff, Z.eqb_eq, IH. split.
  - intros [-> ->]. reflexivity.
  - intros E. injection E as -> ->. split; reflexivity.
Qed.

(** X18.  [mxf_probe] gives the full score exactly to the buffers that
    begin with the 14 bytes of the header partition pack key, and 0 to
    all others, among them every buffer of fewer than 14 bytes. *)
Theorem mxf_probe_prefix (AVPROBE_SCORE_MAX : Z) (buf : list Z) :
  ((exists rest, buf = mxf_header_partition_pack_key ++ rest) ->
   mxf_probe AVPROBE_SCORE_MAX buf = AVPROBE_SCORE_MAX) /\
  ((forall rest, buf <> mxf_header_partition_pack_key ++ rest) ->
   mxf_probe AVPROBE_SCORE_MAX buf = 0) /\
  (len buf < 14 -> mxf_probe AVPROBE_SCORE_MAX buf = 0).
Proof.
  unfold mxf_probe. change (len mxf_header_partition_pack_key) with 14.
  split; [|split].
  - intros [rest ->].
    destruct (Z.ltb_spec (len (mxf_header_partition_pack_key ++ rest)) 14)
      as [H|_].
    + rewrite len_app in H. pose proof (len_nonneg rest).
      change (len mxf_header_partition_pack_key) with 14 in H. lia.
    + unfold IS_KLV_KEY, memcmp_eq.
      rewrite firstn_app, Nat.sub_diag, firstn_O, app_nil_r, !firstn_all.
      replace (bytes_eqb _ _) with true; [reflexivity|].
      symmetry. apply bytes_eqb_eq. reflexivity.
  - intros Hn. destruct (Z.ltb_spec (len buf) 14); [reflexivity|].
    destruct (IS_KLV_KEY buf mxf_header_partition_pack_key) eqn:E;
      [|reflexivity].
    exfalso. unfold IS_KLV_KEY, memcmp_eq in E. rewrite firstn_all in E.
    apply bytes_eqb_eq in E.
    apply (Hn (skipn (List.length mxf_header_partition_pack_key) buf)).
    rewrite <- E at 1. symmetry. apply firstn_skipn.
  - intros H. destruct (Z.ltb_spec (len buf) 14); [reflexivity|lia].
Qed.

(** *** The codec table *)

(** X19.  [mxf_get_codec_id] returns the identifier of the first entry
    that either carries [CODEC_ID_NONE] or matches the 16 bytes of the
    label, and runs past the end of a table that has no such entry.
    The table of the demuxer, [mxf_codec_uls], has no entry with
    [CODEC_ID_NONE]: looking up a label that none of its ten entries
    matches runs off the table, and no lookup in it yields
    [CODEC_ID_NONE]. *)
Theorem mxf_get_codec_id_first_match (uid : UID) :
  (forall uls,
      mxf_get_codec_id uls uid
      = match find (fun u => CodecID_eqb (ul_id u) CODEC_ID_NONE
                             || memcmp_eq (ul_uid u) uid 16) uls with
        | Some u => Done (ul_id u)
        | None => Fault
        end) /\
  (mxf_get_codec_id mxf_codec_uls uid = Fault <->
   forall u, In u mxf_codec_uls -> memcmp_eq (ul_uid u) uid 16 = false) /\
  mxf_get_codec_id mxf_codec_uls uid <> Done CODEC_ID_NONE.
Proof.
  assert (G : forall uls,
             mxf_get_codec_id uls uid
             = match find (fun u => CodecID_eqb (ul_id u) CODEC_ID_NONE
                                    || memcmp_eq (ul_uid u) uid 16) uls with
               | Some u => Done (ul_id u)
               | None => Fault
               end).
  { induction uls as [|u uls IH]; cbn [mxf_get_codec_id find]; [reflexivity|].
    destruct (CodecID_eqb (ul_id u) CODEC_ID_NONE) eqn:E1; cbn [orb].
    - destruct (ul_id u); try discriminate; reflexivity.
    - destruct (memcmp_eq (ul_uid u) uid 16); [reflexivity|exact IH]. }
  assert (N : forall u, In u mxf_codec_uls ->
                        CodecID_eqb (ul_id u) CODEC_ID_NONE = false).
  { intros u Hu. cbn in Hu.
    repeat (destruct Hu as [<-|Hu]; [reflexivity|]). contradiction. }
  split; [exact G|]. rewrite G.
  destruct (find _ mxf_codec_uls) as [u|] eqn:F.
  - apply find_some in F. destruct F as [Hin Hm].
    rewrite (N u Hin) in Hm. cbn [orb] in Hm. split.
    + split; [discriminate|]. intros H. rewrite (H u Hin) in Hm. discriminate.
    + intros E. injection E as E. specialize (N u Hin). rewrite E in N.
      discriminate.
  - split; [|discriminate]. split; [|reflexivity].
    intros _ u Hu. pose proof (find_none _ _ F u Hu) as H.
    apply orb_false_iff in H. apply H.
Qed.

(** *** The streams the linker makes *)

Section LinkerFacts.

Variable AV_NOPTS_VALUE : Z.

Lemma find_source_package_in pkgs uid p :
  find_source_package pkgs uid = Done (Some p) -> In (Some p) pkgs.
Proof.
  induction pkgs as [|[q|] pkgs IH]; cbn [find_source_package];
    try discriminate.
  destruct (memcmp_eq (package_uid q) uid 16).
  - intros E. injection E as ->. left. reflexivity.
  - intros E. right. apply IH, E.
Qed.

Lemma find_source_track_in trks id t :
  find_source_track trks id = Done (Some t) -> In (Some t) trks.
Proof.
  induction trks as [|[q|] trks IH]; cbn [find_source_track];
    try discriminate.
  destruct (track_id q =? id).
  - intros E. injection E as ->. left. reflexivity.
  - intros E. right. apply IH, E.
Qed.

(** What the loop variables point to lies in the packages. *)
Definition package_known (pkgs : list (option MXFPackage))
  (sp : option MXFPackage) : Prop :=
  forall p, sp = Some p -> In (Some p) pkgs.

Definition track_known (pkgs : list (option MXFPackage))
  (st : option MXFTrack) : Prop :=
  forall t, st = Some t -> exists p, In (Some p) pkgs /\ In (Some t) (tracks p).

Lemma walk_components_known pkgs comps : forall v v',
  package_known pkgs (source_package v) ->
  track_known pkgs (source_track v) ->
  walk_components pkgs comps v = Done v' ->
  package_known pkgs (source_package v') /\
  track_known pkgs (source_track v').
Proof.
  induction comps as [|c comps IH]; intros v v' Hp Ht; cbn [walk_components].
  - intros E. injection E as <-. split; assumption.
  - destruct c as [comp|]; [|apply IH; assumption].
    destruct (sc_type comp); [apply IH; assumption|].
    destruct (find_source_package pkgs (source_package_uid comp))
      as [found|] eqn:Ef; [|discriminate].
    assert (Hp1 : package_known pkgs (or_else found (source_package v))).
    { intros p E. destruct found as [q|]; cbn [or_else] in E.
      - injection E as <-. apply (find_source_package_in _ _ _ Ef).
      - apply Hp, E. }
    destruct (or_else found (source_package v)) as [sp|] eqn:Esp.
    + destruct (find_source_track (tracks sp) (source_track_id comp))
        as [foundt|] eqn:Et; [|discriminate].
      assert (Ht1 : track_known pkgs (or_else foundt (source_track v))).
      { intros t E. destruct foundt as [q|]; cbn [or_else] in E.
        - injection E as <-. exists sp. split; [apply Hp1; reflexivity|].
          apply (find_source_track_in _ _ _ Et).
        - apply Ht, E. }
      cbn [source_track].
      destruct (or_else foundt (source_track v)) as [t|] eqn:Est.
      * apply IH; cbn [source_package source_track]; assumption.
      * intros E. injection E as <-. cbn [source_package source_track].
        split; [exact Hp1|]. intros t E. discriminate.
    + intros E. inversion E; subst v'. cbn [source_package source_track].
      split; [exact Hp|exact Ht].
Qed.

Lemma set_codec_keeps st d st' :
  set_codec st d = Done st' ->
  st_index st' = st_index st /\ st_id st' = st_id st /\
  priv_data st' = priv_data st.
Proof.
  unfold set_codec.
  destruct (mxf_get_codec_id mxf_codec_uls (essence_codec_ul d)); [|discriminate].
  destruct (codec_type st);
    try (intros E; injection E as <-; repeat split; reflexivity).
  destruct (den (sample_rate d) =? 0); [discriminate|].
  intros E; injection E as <-; repeat split; reflexivity.
Qed.

(** A stream the linker made at the end of [streams]. *)
Definition linked_stream (pkgs : list (option MXFPackage))
  (streams : list AVStream) (st : AVStream) : Prop :=
  st_index st = len streams /\
  st_id st = track_id (priv_data st) /\
  exists p, In (Some p) pkgs /\ In (Some (priv_data st)) (tracks p).

Lemma link_track_known pkgs mt streams sp0 streams' sp1 :
  package_known pkgs sp0 ->
  link_track AV_NOPTS_VALUE pkgs mt (streams, sp0) = Done (streams', sp1) ->
  package_known pkgs sp1 /\
  (streams' = streams \/
   exists st, streams' = streams ++ [st] /\ linked_stream pkgs streams st).
Proof.
  intros Hp. unfold link_track.
  destruct mt as [mt|]; [|discriminate].
  destruct (sequence mt) as [sq|]; [|discriminate].
  destruct (walk_components pkgs (structural_components sq)
              (mkVars None sp0 None)) as [v|] eqn:Ew; [|discriminate].
  destruct (walk_components_known pkgs (structural_components sq)
              (mkVars None sp0 None) v Hp
              ltac:(intros t E; discriminate) Ew) as [Hp' Ht'].
  destruct (source_track v) as [st_track|] eqn:Est.
  - destruct (component v) as [comp|]; [|discriminate].
    destruct (source_package v) as [sp|] eqn:Esp; [|discriminate].
    destruct (sequence st_track) as [ssq|]; [|discriminate].
    assert (Hl : forall st,
               st_index st = len streams -> st_id st = track_id st_track ->
               priv_data st = st_track -> linked_stream pkgs streams st).
    { intros st H1 H2 H3. unfold linked_stream. rewrite H1, H2, H3.
      repeat split. apply Ht'. reflexivity. }
    destruct (choose_descriptor sp st_track) as [d|].
    + match goal with
      | |- context [set_codec ?s d] =>
          destruct (set_codec s d) as [st'|] eqn:Ec; [|discriminate];
          destruct (set_codec_keeps s d st' Ec) as (K1 & K2 & K3)
      end.
      intros E. injection E as <- <-. split; [exact Hp'|]. right.
      exists st'. split; [reflexivity|].
      apply Hl; [rewrite K1|rewrite K2|rewrite K3]; reflexivity.
    + intros E. injection E as <- <-. split; [exact Hp'|]. right.
      eexists. split; [reflexivity|]. apply Hl; reflexivity.
  - intros E. injection E as <- <-. split; [exact Hp'|]. left. reflexivity.
Qed.

Lemma link_tracks_known pkgs trks : forall streams sp0 streams' sp1,
  package_known pkgs sp0 ->
  link_tracks AV_NOPTS_VALUE pkgs trks (streams, sp0) = Done (streams', sp1) ->
  exists new,
    streams' = streams ++ new /\
    (List.length new <= List.length trks)%nat /\
    forall i st, nth_error new i = Some st ->
                 st_index st = len streams + Z.of_nat i /\
                 st_id st = track_id (priv_data st) /\
                 exists p, In (Some p) pkgs /\
                           In (Some (priv_data st)) (tracks p).
Proof.
  induction trks as [|t trks IH]; intros streams sp0 streams' sp1 Hp;
    cbn [link_tracks].
  - intros E. injection E as <- <-. exists []. rewrite app_nil_r.
    split; [reflexivity|]. split; [cbn; lia|].
    intros [|i] st E; discriminate.
  - destruct (link_track AV_NOPTS_VALUE pkgs t (streams, sp0))
      as [[streams1 spA]|] eqn:El; [|discriminate].
    destruct (link_track_known pkgs t streams sp0 streams1 spA Hp El)
      as [HpA Hs].
    intros E. destruct (IH streams1 spA streams' sp1 HpA E)
      as (new & -> & Hlen & Hnew).
    destruct Hs as [->|(st0 & -> & Hst0)].
    + exists new. split; [reflexivity|]. split; [cbn; lia|exact Hnew].
    + exists (st0 :: new). rewrite <- app_assoc. split; [reflexivity|].
      split; [cbn; lia|].
      intros [|i] st Hn; cbn [nth_error] in Hn.
      * injection Hn as <-. destruct Hst0 as (H1 & H2 & H3).
        rewrite H1. split; [lia|]. split; [exact H2|exact H3].
      * destruct (Hnew i st Hn) as (H1 & H2 & H3).
        rewrite H1, len_app, len_cons, len_nil.
        split; [lia|]. split; [exact H2|exact H3].
Qed.

(** X20.  When [mxf_parse_structural_metadata] returns, its value and
    the streams are as follows.  Without a material package among the
    packages it returns -1 and makes no stream.  Otherwise it returns 0
    and has added, behind the streams there were, at most one stream
    for every track of the first material package, in the order of the
    tracks; the streams made have consecutive indices, and each is
    bound to a track of a package of the header and carries the
    [track_id] of that track as its id. *)
Theorem mxf_parse_structural_metadata_streams (mxf : MXFContext)
  (streams streams' : list AVStream) (r : Z) :
  mxf_parse_structural_metadata AV_NOPTS_VALUE mxf streams = Done (r, streams') ->
  (r = -1 /\ streams' = streams /\
   find_material_package (packages mxf) = Done None) \/
  (r = 0 /\
   exists material_package new,
     find_material_package (packages mxf) = Done (Some material_package) /\
     streams' = streams ++ new /\
     (List.length new <= List.length (tracks material_package))%nat /\
     forall i st, nth_error new i = Some st ->
                  st_index st = len streams + Z.of_nat i /\
                  st_id st = track_id (priv_data st) /\
                  exists p, In (Some p) (packages mxf) /\
                            In (Some (priv_data st)) (tracks p)).
Proof.
  unfold mxf_parse_structural_metadata.
  destruct (find_material_package (packages mxf)) as [[mp|]|] eqn:Ef;
    [| |discriminate].
  - destruct (link_tracks AV_NOPTS_VALUE (packages mxf) (tracks mp)
                (streams, None)) as [[s1 sp1]|] eqn:El; [|discriminate].
    intros E. injection E as <- <-. right. split; [reflexivity|].
    destruct (link_tracks_known (packages mxf) (tracks mp) streams None s1 sp1
                ltac:(intros p E; discriminate) El) as (new & H1 & H2 & H3).
    exists mp, new. split; [reflexivity|]. split; [exact H1|].
    split; [exact H2|exact H3].
  - intros E. injection E as <- <-. left. repeat split.
Qed.

(** *** The codec of the streams *)

(** The codec type that the data definition of a sequence stands for. *)
Definition essence_kind (ul : UID) : CodecType :=
  if memcmp_eq ul picture_essence_track_ul 16 then CODEC_TYPE_VIDEO
  else if memcmp_eq ul sound_essence_track_ul 16 then CODEC_TYPE_AUDIO
  else CODEC_TYPE_DATA.

(** The codec fields of a stream for which the descriptor [d] was
    chosen, [id] being what the table gives for its codec label. *)
Definition described_by (st : AVStream) (d : MXFDescriptor) (id : CodecID)
  : Prop :=
  match codec_type st with
  | CODEC_TYPE_VIDEO =>
      codec_id st = id /\
      codec_width st = width d /\ codec_height st = height d /\
      codec_channels st = 0 /\ codec_bits_per_sample st = 0 /\
      codec_sample_rate st = 0
  | CODEC_TYPE_AUDIO =>
      den (sample_rate d) <> 0 /\
      codec_id st = promote_pcm id (bits_per_sample d) /\
      codec_channels st = channels d /\
      codec_bits_per_sample st = bits_per_sample d /\
      codec_sample_rate st
      = Z.quot (num (sample_rate d)) (den (sample_rate d)) /\
      codec_width st = 0 /\ codec_height st = 0
  | _ =>
      codec_id st = id /\
      codec_width st = 0 /\ codec_height st = 0 /\
      codec_channels st = 0 /\ codec_bits_per_sample st = 0 /\
      codec_sample_rate st = 0
  end.

(** A stream without a descriptor. *)
Definition undescribed (st : AVStream) : Prop :=
  codec_id st = CODEC_ID_NONE /\
  codec_width st = 0 /\ codec_height st = 0 /\
  codec_channels st = 0 /\ codec_bits_per_sample st = 0 /\
  codec_sample_rate st = 0.

(** The codec of a stream the linker made for a track of the material
    package: [mt] is that track and [v] what the walk over the
    components of its sequence ends with, [sp0] being the source
    package the tracks before left; the stream is bound to the source
    track of [v], and its descriptor is the one chosen in the source
    package of [v]. *)
Definition stream_codec (pkgs : list (option MXFPackage))
  (material_tracks : list (option MXFTrack)) (st : AVStream) : Prop :=
  exists mt sq sp0 v sp ssq,
    In (Some mt) material_tracks /\ sequence mt = Some sq /\
    package_known pkgs sp0 /\
    walk_components pkgs (structural_components sq) (mkVars None sp0 None)
    = Done v /\
    source_track v = Some (priv_data st) /\
    source_package v = Some sp /\
    sequence (priv_data st) = Some ssq /\
    codec_type st = essence_kind (seq_data_definition_ul ssq) /\
    match choose_descriptor sp (priv_data st) with
    | None => undescribed st
    | Some d =>
        exists id,
          mxf_get_codec_id mxf_codec_uls (essence_codec_ul d) = Done id /\
          described_by st d id
    end.

Lemma set_codec_described st d st' :
  codec_type st <> CODEC_TYPE_UNKNOWN ->
  undescribed st ->
  set_codec st d = Done st' ->
  codec_type st' = codec_type st /\
  exists id,
    mxf_get_codec_id mxf_codec_uls (essence_codec_ul d) = Done id /\
    described_by st' d id.
Proof.
  intros Hk (U1 & U2 & U3 & U4 & U5 & U6). unfold set_codec.
  destruct (mxf_get_codec_id mxf_codec_uls (essence_codec_ul d)) as [id|];
    [|discriminate].
  destruct (codec_type st) eqn:Ety.
  - contradiction Hk; reflexivity.
  - intros E. injection E as <-. split; [reflexivity|]. exists id.
    split; [reflexivity|]. unfold described_by.
    cbn [codec_type codec_id codec_width codec_height codec_channels
         codec_bits_per_sample codec_sample_rate].
    repeat split; assumption.
  - destruct (Z.eqb_spec (den (sample_rate d)) 0) as [|Hd]; [discriminate|].
    intros E. injection E as <-. split; [reflexivity|]. exists id.
    split; [reflexivity|]. unfold described_by.
    cbn [codec_type codec_id codec_width codec_height codec_channels
         codec_bits_per_sample codec_sample_rate].
    repeat split; assumption.
  - intros E. injection E as <-. split; [reflexivity|]. exists id.
    split; [reflexivity|]. unfold described_by.
    cbn [codec_type codec_id codec_width codec_height codec_channels
         codec_bits_per_sample codec_sample_rate].
    repeat split; assumption.
Qed.

Lemma link_track_codec pkgs mt streams sp0 streams' sp1 :
  package_known pkgs sp0 ->
  link_track AV_NOPTS_VALUE pkgs mt (streams, sp0) = Done (streams', sp1) ->
  streams' = streams \/
  exists st, streams' = streams ++ [st] /\ stream_codec pkgs [mt] st.
Proof.
  intros Hp. unfold link_track.
  destruct mt as [mt|]; [|discriminate].
  destruct (sequence mt) as [sq|] eqn:Emt; [|discriminate].
  destruct (walk_components pkgs (structural_components sq)
              (mkVars None sp0 None)) as [v|] eqn:Ew; [|discriminate].
  destruct (source_track v) as [st_track|] eqn:Est.
  - destruct (component v) as [comp|]; [|discriminate].
    destruct (source_package v) as [sp|] eqn:Esp; [|discriminate].
    destruct (sequence st_track) as [ssq|] eqn:Esq; [|discriminate].
    fold (essence_kind (seq_data_definition_ul ssq)).
    match goal with
    | |- context [set_codec ?s _] => set (st := s)
    end.
    assert (Hk : codec_type st <> CODEC_TYPE_UNKNOWN).
    { unfold st, essence_kind. cbn [codec_type].
      destruct (memcmp_eq _ picture_essence_track_ul 16); [discriminate|].
      destruct (memcmp_eq _ sound_essence_track_ul 16); discriminate. }
    assert (Hu : undescribed st) by (repeat split).
    assert (Hmade : forall st',
               priv_data st' = st_track ->
               codec_type st' = essence_kind (seq_data_definition_ul ssq) ->
               match choose_descriptor sp st_track with
               | None => undescribed st'
               | Some d =>
                   exists id,
                     mxf_get_codec_id mxf_codec_uls (essence_codec_ul d)
                     = Done id /\ described_by st' d id
               end ->
               stream_codec pkgs [Some mt] st').
    { intros st' K3 K4 Hd. exists mt, sq, sp0, v, sp, ssq. rewrite K3.
      split; [left; reflexivity|]. split; [exact Emt|]. split; [exact Hp|].
      split; [exact Ew|]. split; [exact Est|]. split; [exact Esp|].
      split; [exact Esq|]. split; [exact K4|exact Hd]. }
    destruct (choose_descriptor sp st_track) as [d|] eqn:Ed.
    + destruct (set_codec st d) as [st'|] eqn:Ec; [|discriminate].
      destruct (set_codec_keeps st d st' Ec) as (_ & _ & K3).
      destruct (set_codec_described st d st' Hk Hu Ec) as (K4 & id & K5 & K6).
      intros E. injection E as <- <-. right. exists st'.
      split; [reflexivity|]. apply Hmade.
      * rewrite K3. reflexivity.
      * rewrite K4. reflexivity.
      * exists id. split; [exact K5|exact K6].
    + intros E. injection E as <- <-. right. exists st.
      split; [reflexivity|]. apply Hmade; [reflexivity|reflexivity|exact Hu].
  - intros E. injection E as <- <-. left. reflexivity.
Qed.

Lemma stream_codec_incl pkgs trks trks' st :
  (forall t, In t trks -> In t trks') ->
  stream_codec pkgs trks st -> stream_codec pkgs trks' st.
Proof.
  intros Hi (mt & sq & sp0 & v & sp & ssq & H1 & H).
  exists mt, sq, sp0, v, sp, ssq. split; [apply Hi, H1|exact H].
Qed.

Lemma link_tracks_codec pkgs trks : forall streams sp0 streams' sp1,
  package_known pkgs sp0 ->
  link_tracks AV_NOPTS_VALUE pkgs trks (streams, sp0) = Done (streams', sp1) ->
  exists new, streams' = streams ++ new /\ Forall (stream_codec pkgs trks) new.
Proof.
  induction trks as [|t trks IH]; intros streams sp0 streams' sp1 Hp;
    cbn [link_tracks].
  - intros E. injection E as <- <-. exists []. rewrite app_nil_r.
    split; [reflexivity|constructor].
  - destruct (link_track AV_NOPTS_VALUE pkgs t (streams, sp0))
      as [[streams1 spA]|] eqn:El; [|discriminate].
    destruct (link_track_known pkgs t streams sp0 streams1 spA Hp El)
      as [HpA _].
    pose proof (link_track_codec pkgs t streams sp0 streams1 spA Hp El) as Hs.
    intros E. destruct (IH streams1 spA streams' sp1 HpA E)
      as (new & -> & Hnew).
    assert (Hnew' : Forall (stream_codec pkgs (t :: trks)) new).
    { apply (Forall_impl _ (fun st => stream_codec_incl pkgs trks (t :: trks) st
                                        (fun x Hx => or_intror Hx)) Hnew). }
    destruct Hs as [->|(st0 & -> & Hst0)].
    + exists new. split; [reflexivity|exact Hnew'].
    + exists (st0 :: new). rewrite <- app_assoc. split; [reflexivity|].
      constructor; [|exact Hnew'].
      apply (stream_codec_incl pkgs [t] (t :: trks) st0); [|exact Hst0].
      intros x [<-|[]]. left. reflexivity.
Qed.

(** X24.  Every stream that [mxf_parse_structural_metadata] makes comes
    from a track of the first material package: it is bound to the
    source track that the walk over the components of that track ends
    with, which has a sequence, and its codec type is the one the data
    definition of that sequence stands for: video for the picture
    label, audio for the sound label, data otherwise.  The descriptor
    is looked for in the source package that the same walk ends with.
    Where that package has no descriptor for the track, the stream
    keeps [CODEC_ID_NONE] and no codec field is set.  Where it has one,
    the codec identifier is what the table gives for the codec label of
    the descriptor; a video stream takes its width and height, and an
    audio stream its channels, bits per sample and the quotient of its
    sample rate, with 16-bit PCM identifiers turned into the 24-bit or
    32-bit ones by the bits per sample. *)
Theorem mxf_parse_structural_metadata_codecs (mxf : MXFContext)
  (streams streams' : list AVStream) :
  mxf_parse_structural_metadata AV_NOPTS_VALUE mxf streams = Done (0, streams') ->
  exists material_package new,
    find_material_package (packages mxf) = Done (Some material_package) /\
    streams' = streams ++ new /\
    Forall (stream_codec (packages mxf) (tracks material_package)) new.
Proof.
  unfold mxf_parse_structural_metadata.
  destruct (find_material_package (packages mxf)) as [[mp|]|] eqn:Ef;
    [| |discriminate].
  - destruct (link_tracks AV_NOPTS_VALUE (packages mxf) (tracks mp)
                (streams, None)) as [[s1 sp1]|] eqn:El; [|discriminate].
    intros E. injection E as <-. exists mp.
    destruct (link_tracks_codec (packages mxf) (tracks mp) streams None s1 sp1
                ltac:(intros p E; discriminate) El) as (new & H1 & H2).
    exists new. split; [reflexivity|]. split; [exact H1|exact H2].
  - intros E. discriminate E.
Qed.

End LinkerFacts.

Lemma mxf_parse_structural_metadata_streams_witness :
  exists st0 st1,
    mxf_parse_structural_metadata (- 2 ^ 63) ex_context [] = Done (0, [st0; st1]) /\
    st_index st0 = 0 /\ st_index st1 = 1.
Proof.
  assert (E : exists st0 st1,
             mxf_parse_structural_metadata (- 2 ^ 63) ex_context []
             = Done (0, [st0; st1])).
  { eexists. eexists. vm_compute. reflexivity. }
  destruct E as (st0 & st1 & E). exists st0, st1. split; [exact E|].
  destruct (mxf_parse_structural_metadata_streams (- 2 ^ 63) ex_context []
              [st0; st1] 0 E) as [(H & _)|(_ & mp & new & _ & Hs & _ & Hn)].
  - discriminate.
  - cbn [app] in Hs. subst new.
    destruct (Hn 0%nat st0 eq_refl) as (H0 & _).
    destruct (Hn 1%nat st1 eq_refl) as (H1 & _).
    split; [exact H0|exact H1].
Defined.

(** A source package with a descriptor: MPEG-2 video of 720 by 576. *)
Definition ex_mpeg_descriptor : MXFDescriptor :=
  mkDescriptor (repeat 0xe1 16) []
    [0x06;0x0E;0x2B;0x34;0x04;0x01;0x01;0x03;
     0x04;0x01;0x02;0x02;0x01;0x02;0x02;0x00]
    (mkRational 25 1) (mkRational 4 3) 720 576 0 0 [] [] 0.

Definition ex_described_package : MXFPackage :=
  mkPackage (repeat 0xd1 16) ex_uid_p [Some ex_source_track]
    [repeat 0xb1 16] (Some ex_mpeg_descriptor) (repeat 0xe1 16) SourcePackage.

Definition ex_single_material_package : MXFPackage :=
  mkPackage (repeat 0xd2 16) (repeat 0 16)
    [Some (ex_material_track 1 ex_clip_a)] [repeat 0xb2 16] None []
    MaterialPackage.

Definition ex_described_context : MXFContext :=
  mkContext [Some ex_single_material_package; Some ex_described_package]
    [repeat 0xd2 16; repeat 0xd1 16] [] [] [].

Example ex_described_stream :
  mxf_parse_structural_metadata (- 2 ^ 63) ex_described_context []
  = Done (0, [mkStream 0 1 ex_source_track 250 0 (mkRational 25 1)
                CODEC_TYPE_VIDEO CODEC_ID_MPEG2VIDEO 720 576 0 0 0]).
Proof. reflexivity. Qed.

Lemma mxf_parse_structural_metadata_codecs_witness :
  exists st,
    mxf_parse_structural_metadata (- 2 ^ 63) ex_described_context []
    = Done (0, [st]) /\
    codec_id st = CODEC_ID_MPEG2VIDEO /\ codec_width st = 720 /\
    Forall (stream_codec (packages ex_described_context)
              (tracks ex_single_material_package)) [st].
Proof.
  eexists. split; [exact ex_described_stream|].
  split; [reflexivity|]. split; [reflexivity|].
  destruct (mxf_parse_structural_metadata_codecs (- 2 ^ 63)
              ex_described_context [] _ ex_described_stream)
    as (mp & new & Hf & Hs & Hc).
  cbn [app] in Hs. subst new.
  cbn in Hf. injection Hf as <-. exact Hc.
Defined.

End MxfLinker.

(** ** The header of the MXF demuxer *)

Module MxfHeader.

Import Mxf MxfFacts MxfLinker.

(** *** KLV packets that the header skips *)

(** For the statements: the keys that [mxf_read_header] hands to a
    reader, in the order of its tests. *)
Definition mxf_metadata_keys : list UID :=
  [mxf_metadata_track_key; mxf_metadata_static_track_key;
   mxf_metadata_source_package_key; mxf_metadata_sequence_key;
   mxf_metadata_material_package_key; mxf_metadata_source_clip_key;
   mxf_metadata_multiple_descriptor_key; mxf_metadata_wave_descriptor_key;
   mxf_metadata_mpegvideo_descriptor_key; mxf_metadata_cdci_descriptor_key;
   mxf_metadata_generic_sound_descriptor_key; mxf_metadata_preface_key;
   mxf_metadata_content_storage_key].

Definition is_metadata (k : klv_item) : bool :=
  existsb (IS_KLV_KEY (k_key k)) mxf_metadata_keys.

(** A KLV triple that is neither a metadata set of these keys nor an
    essence element. *)
Definition is_dark (k : klv_item) : bool :=
  negb (is_metadata k) && negb (is_essence k).

Lemma bytes_eqb_nth a b n :
  bytes_eqb a b = true -> nth n a 0 = nth n b 0.
Proof.
  intros H. apply bytes_eqb_eq in H. rewrite H. reflexivity.
Qed.

Lemma key_fifth key y :
  (5 <= List.length y)%nat -> IS_KLV_KEY key y = true ->
  nth 4 key 0 = nth 4 y 0.
Proof.
  unfold IS_KLV_KEY, memcmp_eq. intros Hl H.
  apply (bytes_eqb_nth _ _ 4) in H.
  rewrite firstn_all, nth_firstn in H.
  destruct (Nat.ltb_spec 4 (List.length y)) as [_|]; [exact H|lia].
Qed.

(** The keys of the metadata sets and the key of the essence elements
    differ in their fifth byte. *)
Lemma essence_not_metadata k : is_essence k = true -> is_metadata k = false.
Proof.
  unfold is_essence, is_metadata. intros He.
  apply key_fifth in He; [|cbn; lia].
  cbn [nth mxf_essence_element_key] in He.
  apply not_true_is_false. intros Hm.
  apply existsb_exists in Hm. destruct Hm as (y & Hy & Hm).
  assert (H5 : nth 4 (k_key k) 0 = 2).
  { cbn [mxf_metadata_keys In] in Hy.
    repeat (destruct Hy as [<-|Hy];
            [apply key_fifth in Hm; [exact Hm|cbn; lia]|]).
    contradiction. }
  rewrite He in H5. discriminate H5.
Qed.

Section HeaderLoop.

Variable av_malloc_bytes : Z -> list Z.
Variable AV_NOPTS_VALUE : Z.

Lemma header_dispatch_dark fuel mxf k off l pb :
  is_dark k = true ->
  header_dispatch av_malloc_bytes fuel mxf (mkKLV (k_key k) off l) pb = Skip.
Proof.
  unfold is_dark, is_metadata, is_essence, mxf_metadata_keys.
  intros H. apply andb_true_iff in H. destruct H as [Hm He].
  apply negb_true_iff in Hm. apply negb_true_iff in He.
  cbn [existsb] in Hm.
  repeat (apply orb_false_iff in Hm; destruct Hm as [? Hm]).
  unfold header_dispatch. cbn [key].
  repeat match goal with
         | H : IS_KLV_KEY _ _ = false |- _ => rewrite H; clear H
         end.
  reflexivity.
Qed.

(** A run of well-formed dark triples is read and skipped in as many
    turns of the loop. *)
Lemma header_loop_skips mxf ret streams pre : forall fuel klv pb rest,
  0 <= ret -> 0 <= pos pb -> eof_reached pb = false ->
  forallb klv_okb pre = true -> forallb is_dark pre = true ->
  remaining pb = klv_run pre ++ rest ->
  exists klv',
    mxf_read_header_loop av_malloc_bytes AV_NOPTS_VALUE
      (List.length pre + fuel) mxf klv ret streams pb =
    mxf_read_header_loop av_malloc_bytes AV_NOPTS_VALUE
      fuel mxf klv' ret streams (advance (len (klv_run pre)) pb).
Proof.
  induction pre as [|k pre IH]; intros fuel klv pb rest Hret Hp He Hok Hd Hr.
  - exists klv. cbn [List.length Nat.add]. unfold klv_run. cbn.
    rewrite advance_0. reflexivity.
  - cbn [forallb] in Hok, Hd.
    apply andb_true_iff in Hok. destruct Hok as [Hk Hok].
    apply andb_true_iff in Hd. destruct Hd as [Hdk Hd].
    rewrite klv_run_cons, <- app_assoc in Hr.
    cbn [List.length Nat.add mxf_read_header_loop]. unfold url_feof.
    rewrite He.
    rewrite (klv_read_packet_ok klv pb k _ Hp Hk Hr).
    cbn [Z.ltb Z.compare].
    rewrite (header_dispatch_dark _ mxf k _ _ _ Hdk).
    cbn [length]. destruct (Z.ltb_spec ret 0) as [|_]; [lia|].
    rewrite s64_small
      by (pose proof (len_nonneg (k_value k));
          apply klv_okb_spec in Hk; lia).
    unfold url_fskip. rewrite advance_advance, <- len_klv_bytes.
    destruct (IH fuel (mkKLV (k_key k) (pos pb) (len (k_value k)))
                (advance (len (klv_bytes k)) pb) rest)
      as (klv' & Heq); trivial.
    + cbn. pose proof (len_nonneg (klv_bytes k)). lia.
    + apply (remaining_advance pb _ _ Hp Hr).
    + exists klv'. rewrite Heq, advance_advance, klv_run_cons, len_app.
      reflexivity.
Qed.

(** One turn of the loop at an essence element: the file is put back
    to the key of the element. *)
Lemma header_loop_essence mxf ret streams fuel klv pb e rest :
  0 <= pos pb -> eof_reached pb = false ->
  klv_okb e = true -> is_essence e = true ->
  remaining pb = klv_bytes e ++ rest ->
  mxf_read_header_loop av_malloc_bytes AV_NOPTS_VALUE (S fuel) mxf klv ret
    streams pb =
  header_end AV_NOPTS_VALUE mxf (mkPB (buffer pb) (pos pb) false) streams.
Proof.
  intros Hp He Hk Hess Hr.
  pose proof (essence_not_metadata e Hess) as Hm.
  cbn [mxf_read_header_loop]. unfold url_feof. rewrite He.
  rewrite (klv_read_packet_ok klv pb e _ Hp Hk Hr).
  cbn [Z.ltb Z.compare].
  unfold is_metadata, mxf_metadata_keys in Hm. cbn [existsb] in Hm.
  repeat (apply orb_false_iff in Hm; destruct Hm as [? Hm]).
  unfold is_essence in Hess.
  unfold header_dispatch. cbn [key].
  repeat match goal with
         | H : IS_KLV_KEY _ _ = false |- _ => rewrite H; clear H
         end.
  rewrite Hess. cbn [offset]. reflexivity.
Qed.

End HeaderLoop.

(** X25.  Before a run of well-formed KLV triples that are neither
    metadata sets nor essence elements, followed by an essence element,
    the loop of [mxf_read_header] (at its start or after any sets it has
    read without error) skips the triples by their lengths, stops at the
    essence element and puts the file back to the first byte of its key;
    the context is as it was, and the value and the streams are those of
    [mxf_parse_structural_metadata].  The first [mxf_read_packet] after
    it then delivers this essence element, when its value has fewer
    than 2^31 bytes (the length is passed on as an [int]). *)
Theorem mxf_read_header_stops_at_essence
  (av_malloc_bytes : Z -> list Z) (AV_NOPTS_VALUE AVERROR_IO : Z)
  (mxf : MXFHeaderContext) (klv0 klv1 : KLVPacket) (ret : Z)
  (streams : list AVStream) (pb : ByteIOContext)
  (pre : list klv_item) (e : klv_item) (rest : list Z) (fuel : nat)
  (tracks : list MXFTrack) (pkt0 : AVPacket) :
  0 <= ret -> 0 <= pos pb -> eof_reached pb = false ->
  forallb klv_okb pre = true -> forallb is_dark pre = true ->
  klv_okb e = true -> is_essence e = true ->
  len (k_value e) < 2 ^ 31 ->
  remaining pb = klv_run pre ++ klv_bytes e ++ rest ->
  (List.length pre < fuel)%nat ->
  let pb' := mkPB (buffer pb) (pos pb + len (klv_run pre)) false in
  mxf_read_header_loop av_malloc_bytes AV_NOPTS_VALUE fuel mxf klv0 ret
    streams pb
  = match mxf_parse_structural_metadata AV_NOPTS_VALUE (hc_context mxf)
            streams with
    | Done (r, streams') => Some (Done (r, mxf, pb', streams'))
    | Fault => Some Fault
    end /\
  exists idx,
    mxf_read_packet AVERROR_IO 1 tracks klv1 pkt0 pb'
    = Some ((if idx =? -1 then -1 else 0), mkPacket (k_value e) idx,
            advance (len (klv_bytes e)) pb') /\
    routed_to tracks e idx.
Proof.
  intros Hret Hp He Hok Hd Hk Hess H31 Hr Hf pb'.
  assert (Hp1 : 0 <= pos pb + len (klv_run pre))
    by (pose proof (len_nonneg (klv_run pre)); lia).
  assert (Hr1 : remaining (advance (len (klv_run pre)) pb)
                = klv_bytes e ++ rest)
    by (apply (remaining_advance pb _ _ Hp Hr)).
  split.
  - destruct (header_loop_skips av_malloc_bytes AV_NOPTS_VALUE mxf ret streams
                pre (fuel - List.length pre) klv0 pb _ Hret Hp He Hok Hd Hr)
      as (klv' & Heq).
    replace (List.length pre + (fuel - List.length pre))%nat with fuel
      in Heq by lia.
    rewrite Heq.
    destruct (fuel - List.length pre)%nat as [|n] eqn:En; [lia|].
    rewrite (header_loop_essence av_malloc_bytes AV_NOPTS_VALUE mxf ret
               streams n klv' (advance (len (klv_run pre)) pb) e rest
               Hp1 He Hk Hess Hr1).
    unfold header_end, advance. cbn [buffer pos].
    fold pb'. destruct (mxf_parse_structural_metadata _ _ _) as [[r s']|];
      reflexivity.
  - apply (read_packet_essence AVERROR_IO tracks pkt0 0 klv1 pb' e rest
             Hp1 eq_refl Hk Hess H31 Hr1).
Qed.

(** *** Big-endian reads *)

Lemma get_be16_bytes pb a b rest :
  0 <= pos pb -> is_byte a -> is_byte b ->
  remaining pb = a :: b :: rest ->
  get_be16 pb = (a * 256 + b, advance 2 pb).
Proof.
  intros Hp Ha Hb Hr. unfold get_be16.
  rewrite (get_byte_cons pb a _ Hr).
  assert (Hr1 : remaining (advance 1 pb) = b :: rest)
    by (apply (remaining_advance pb [a] _ Hp Hr)).
  rewrite (get_byte_cons _ b _ Hr1), advance_advance.
  unfold is_byte in *. rewrite lor_shiftl_low by lia. reflexivity.
Qed.

Lemma get_be32_bytes pb a b c d rest :
  0 <= pos pb -> Forall is_byte [a; b; c; d] ->
  remaining pb = a :: b :: c :: d :: rest ->
  get_be32 pb = (be_value [a; b; c; d], advance 4 pb).
Proof.
  intros Hp Hb Hr. unfold get_be32.
  inversion_clear Hb as [|? ? Ha Hb']. inversion_clear Hb' as [|? ? Hb Hc'].
  inversion_clear Hc' as [|? ? Hc Hd']. inversion_clear Hd' as [|? ? Hd _].
  rewrite (get_be16_bytes pb a b _ Hp Ha Hb Hr).
  assert (Hr1 : remaining (advance 2 pb) = c :: d :: rest)
    by (apply (remaining_advance pb [a; b] _ Hp Hr)).
  rewrite (get_be16_bytes (advance 2 pb) c d _ ltac:(cbn; lia) Hc Hd Hr1),
    advance_advance.
  unfold is_byte in *. rewrite lor_shiftl_low by lia.
  unfold be_value. cbn [fold_left]. f_equal. lia.
Qed.

Lemma get_be32_be_bytes pb v rest :
  0 <= pos pb -> 0 <= v < 2 ^ 32 ->
  remaining pb = be_bytes 4 v ++ rest ->
  get_be32 pb = (v, advance 4 pb).
Proof.
  intros Hp Hv Hr.
  pose proof (be_bytes_is_byte 4 v) as Hb.
  pose proof (be_value_be_bytes 4 v ltac:(lia)) as Hval.
  cbn [be_bytes] in Hr, Hb, Hval. cbn [app] in Hr.
  rewrite (get_be32_bytes pb _ _ _ _ _ Hp Hb Hr), Hval.
  change (256 ^ Z.of_nat 4) with (2 ^ 32). rewrite Z.mod_small by lia.
  reflexivity.
Qed.

Lemma s32_u32 v : - 2 ^ 31 <= v < 2 ^ 31 -> s32 (u32 v) = v.
Proof.
  intros Hv. unfold s32, u32.
  rewrite Zplus_mod_idemp_l.
  rewrite Z.mod_small by lia. lia.
Qed.

Lemma u32_range v : 0 <= u32 v < 2 ^ 32.
Proof. unfold u32. apply Z.mod_pos_bound. lia. Qed.

Lemma read_array_full n old pb bs rest :
  List.length bs = n -> remaining pb = bs ++ rest ->
  read_array n old pb = (bs, advance (Z.of_nat n) pb).
Proof.
  intros Hn Hr. unfold read_array.
  replace (Z.of_nat n) with (len bs) by (unfold len; lia).
  rewrite (get_buffer_full pb bs rest Hr).
  rewrite firstn_app, Hn, Nat.sub_diag, firstn_O, app_nil_r.
  rewrite firstn_all2 by lia. reflexivity.
Qed.

(** *** Local sets *)

(** For the statements: an item of a local set, and its bytes: the tag
    and the length of the value on two bytes each, and the value. *)
Record set_item := mkSetItem {
  it_tag : Z;
  it_value : list Z
}.

Definition item_bytes (it : set_item) : list Z :=
  be_bytes 2 (it_tag it) ++ be_bytes 2 (len (it_value it)) ++ it_value it.

Definition set_bytes (items : list set_item) : list Z :=
  concat (map item_bytes items).

Definition item_okb (it : set_item) : bool :=
  (0 <=? it_tag it) && (it_tag it <? 2 ^ 16) &&
  (len (it_value it) <? 2 ^ 16).

(** The case of the [switch] for the item reads its value, no more and
    no less, and makes [obj'] of [obj]. *)
Definition reads {A : Type}
  (read_tag : Z -> Z -> A -> ByteIOContext -> set_result A)
  (it : set_item) (obj obj' : A) : Prop :=
  forall pb rest,
    0 <= pos pb -> remaining pb = it_value it ++ rest ->
    read_tag (it_tag it) (len (it_value it)) obj pb
    = Continue obj' (advance (len (it_value it)) pb).

Inductive set_reads {A : Type}
  (read_tag : Z -> Z -> A -> ByteIOContext -> set_result A)
  : list set_item -> A -> A -> Prop :=
  | set_reads_nil obj : set_reads read_tag [] obj obj
  | set_reads_cons it items obj obj1 obj2 :
      reads read_tag it obj obj1 ->
      set_reads read_tag items obj1 obj2 ->
      set_reads read_tag (it :: items) obj obj2.

Lemma len_item_bytes it : len (item_bytes it) = 4 + len (it_value it).
Proof.
  unfold item_bytes. rewrite !len_app. unfold len at 1 2.
  rewrite !be_bytes_length. lia.
Qed.

Lemma set_bytes_cons it items :
  set_bytes (it :: items) = item_bytes it ++ set_bytes items.
Proof. reflexivity. Qed.

Lemma be_bytes_2 v :
  0 <= v < 2 ^ 16 ->
  exists a b, be_bytes 2 v = [a; b] /\ is_byte a /\ is_byte b /\
              a * 256 + b = v.
Proof.
  intros Hv. pose proof (be_bytes_is_byte 2 v) as Hb.
  pose proof (be_value_be_bytes 2 v ltac:(lia)) as Hval.
  cbn [be_bytes] in *.
  inversion_clear Hb as [|? ? Ha Hb']. inversion_clear Hb' as [|? ? Hb _].
  eexists. eexists. split; [reflexivity|]. split; [exact Ha|].
  split; [exact Hb|].
  unfold be_value in Hval. cbn [fold_left] in Hval.
  change (256 ^ Z.of_nat 2) with (2 ^ 16) in Hval.
  rewrite Z.mod_small in Hval by lia. lia.
Qed.

(** A local set whose items the cases read by their lengths is read
    item by item, and the loop ends behind the last of them. *)
Lemma read_local_set_items {A : Type}
  (read_tag : Z -> Z -> A -> ByteIOContext -> set_result A) items :
  forall fuel bytes_read obj obj' pb rest,
    0 <= pos pb -> 0 <= bytes_read ->
    bytes_read + len (set_bytes items) <= INT_MAX ->
    forallb item_okb items = true ->
    set_reads read_tag items obj obj' ->
    remaining pb = set_bytes items ++ rest ->
    (List.length items < fuel)%nat ->
    read_local_set fuel read_tag (bytes_read + len (set_bytes items))
      bytes_read obj pb
    = Some (Done (Continue obj' (advance (len (set_bytes items)) pb))).
Proof.
  unfold INT_MAX.
  induction items as [|it items IH];
    intros fuel bytes_read obj obj' pb rest Hp Hb Hmax Hok Hrd Hr Hf.
  - destruct fuel as [|fuel]; [cbn in Hf; lia|].
    inversion Hrd; subst. cbn [read_local_set].
    change (len (set_bytes [])) with 0 in *.
    rewrite u64_small by lia.
    destruct (Z.ltb_spec bytes_read (bytes_read + 0)); [lia|].
    rewrite advance_0. reflexivity.
  - destruct fuel as [|fuel]; [cbn in Hf; lia|].
    inversion Hrd as [|? ? ? obj1 ? Hit Hrest]; subst.
    cbn [forallb] in Hok. apply andb_true_iff in Hok.
    destruct Hok as [Hi Hok]. unfold item_okb in Hi.
    rewrite !andb_true_iff, Z.leb_le, !Z.ltb_lt in Hi.
    destruct Hi as [[Ht0 Ht1] Hv].
    pose proof (len_nonneg (it_value it)) as Hv0.
    pose proof (len_nonneg (set_bytes items)) as Hs0.
    rewrite set_bytes_cons, len_app, len_item_bytes in *.
    cbn [read_local_set]. rewrite u64_small by lia.
    destruct (Z.ltb_spec bytes_read (bytes_read
                + (4 + len (it_value it) + len (set_bytes items)))); [|lia].
    destruct (be_bytes_2 (it_tag it) ltac:(lia)) as (a & b & Et & Ha & Hb' & Hab).
    destruct (be_bytes_2 (len (it_value it)) ltac:(lia))
      as (c & d & Es & Hc & Hd & Hcd).
    unfold item_bytes in Hr. rewrite Et, Es in Hr. cbn [app] in Hr.
    rewrite <- app_assoc in Hr.
    rewrite (get_be16_bytes pb a b _ Hp Ha Hb' Hr).
    assert (Hr1 : remaining (advance 2 pb)
                  = c :: d :: it_value it ++ set_bytes items ++ rest)
      by (apply (remaining_advance pb [a; b] _ Hp Hr)).
    rewrite (get_be16_bytes (advance 2 pb) c d _ ltac:(cbn; lia) Hc Hd Hr1).
    rewrite advance_advance. change (2 + 2) with 4.
    assert (Hr2 : remaining (advance 4 pb)
                  = it_value it ++ set_bytes items ++ rest)
      by (apply (remaining_advance pb [a; b; c; d] _ Hp Hr)).
    rewrite Hab, Hcd, !s32_small by lia.
    rewrite (Hit (advance 4 pb) _ ltac:(cbn; lia) Hr2).
    rewrite advance_advance. unfold INT_MAX, INT_MIN.
    destruct (Z.ltb_spec (2 ^ 31 - 1) (len (it_value it) + 4)); [lia|].
    destruct (Z.ltb_spec (2 ^ 31 - 1)
                (bytes_read + (len (it_value it) + 4))); [lia|].
    destruct (Z.ltb_spec (bytes_read + (len (it_value it) + 4)) (- 2 ^ 31));
      [lia|].
    cbn [orb].
    replace (bytes_read + (4 + len (it_value it) + len (set_bytes items)))
      with (bytes_read + (len (it_value it) + 4) + len (set_bytes items))
      by lia.
    assert (Hr3 : remaining (advance (4 + len (it_value it)) pb)
                  = set_bytes items ++ rest).
    { apply (remaining_advance (advance 4 pb) _ _ ltac:(cbn; lia)) in Hr2.
      rewrite advance_advance in Hr2. exact Hr2. }
    rewrite (IH fuel (bytes_read + (len (it_value it) + 4)) obj1 obj'
               (advance (4 + len (it_value it)) pb) rest
               ltac:(unfold advance; cbn [pos]; lia) ltac:(lia) ltac:(lia)
               Hok Hrest Hr3
               ltac:(cbn [List.length] in Hf; lia)).
    rewrite advance_advance. reflexivity.
Qed.

(** *** The local set of a track *)

(** For the statements: the items that carry the fields of a track,
    integers in two's complement. *)
Definition track_items (t : MXFTrack) : list set_item :=
  [mkSetItem 0x3C0A (t_uid t);
   mkSetItem 0x4801 (be_bytes 4 (u32 (track_id t)));
   mkSetItem 0x4804 (track_number t);
   mkSetItem 0x4B01 (be_bytes 4 (u32 (den (edit_rate t))) ++
                     be_bytes 4 (u32 (num (edit_rate t))));
   mkSetItem 0x4803 (sequence_ref t)].

Definition int_okb (v : Z) : bool := (- 2 ^ 31 <=? v) && (v <? 2 ^ 31).

(** A track as a reader leaves it: arrays of their sizes, integers in
    the range of [int], and no sequence yet. *)
Definition track_set_okb (t : MXFTrack) : bool :=
  (len (t_uid t) =? 16) && (len (track_number t) =? 4) &&
  (len (sequence_ref t) =? 16) && int_okb (track_id t) &&
  int_okb (num (edit_rate t)) && int_okb (den (edit_rate t)) &&
  match sequence t with None => true | Some _ => false end.

(** An item with a tag that [mxf_read_metadata_track] has no case for. *)
Definition track_unknown (it : set_item) : bool :=
  item_okb it &&
  negb (existsb (Z.eqb (it_tag it)) [0x3C0A; 0x4801; 0x4804; 0x4B01; 0x4803]).

Lemma set_reads_app {A : Type}
  (read_tag : Z -> Z -> A -> ByteIOContext -> set_result A) xs : forall ys a b c,
  set_reads read_tag xs a b -> set_reads read_tag ys b c ->
  set_reads read_tag (xs ++ ys) a c.
Proof.
  induction xs as [|x xs IH]; intros ys a b c Hx Hy; cbn [app].
  - inversion Hx; subst. exact Hy.
  - inversion Hx; subst. econstructor; [eassumption|].
    eapply IH; eassumption.
Qed.

Lemma track_unknown_reads it t :
  track_unknown it = true -> reads track_tag it t t.
Proof.
  unfold track_unknown. intros H. apply andb_true_iff in H.
  destruct H as [_ H]. apply negb_true_iff in H. cbn [existsb] in H.
  repeat (apply orb_false_iff in H; destruct H as [? H]).
  intros pb rest Hp Hr. unfold track_tag.
  repeat match goal with
         | E : (it_tag it =? _) = false |- _ => rewrite E; clear E
         end.
  reflexivity.
Qed.

Lemma track_unknown_set_reads items t :
  forallb track_unknown items = true -> set_reads track_tag items t t.
Proof.
  induction items as [|it items IH]; cbn [forallb]; intros H.
  - constructor.
  - apply andb_true_iff in H. destruct H as [Hi H].
    econstructor; [apply track_unknown_reads, Hi|apply IH, H].
Qed.

Lemma track_unknown_item_okb items :
  forallb track_unknown items = true -> forallb item_okb items = true.
Proof.
  induction items as [|it items IH]; cbn [forallb]; intros H;
    [reflexivity|].
  apply andb_true_iff in H. destruct H as [Hi H].
  unfold track_unknown in Hi. apply andb_true_iff in Hi.
  destruct Hi as [-> _]. exact (IH H).
Qed.

Lemma int_okb_spec v : int_okb v = true -> - 2 ^ 31 <= v < 2 ^ 31.
Proof. unfold int_okb. rewrite andb_true_iff, Z.leb_le, Z.ltb_lt. tauto. Qed.

Lemma get_be32_int pb v rest :
  0 <= pos pb -> int_okb v = true ->
  remaining pb = be_bytes 4 (u32 v) ++ rest ->
  get_be32 pb = (u32 v, advance 4 pb) /\ s32 (u32 v) = v.
Proof.
  intros Hp Hv Hr. split.
  - apply (get_be32_be_bytes pb (u32 v) rest Hp (u32_range v) Hr).
  - apply s32_u32, int_okb_spec, Hv.
Qed.

Lemma len_be_bytes_4 v : len (be_bytes 4 v) = 4.
Proof. reflexivity. Qed.

(** The items of a track make the track of the cleared object. *)
Lemma track_items_reads t :
  track_set_okb t = true ->
  set_reads track_tag (track_items t)
    (mkTrack zero_uid None zero_uid 0 (repeat 0 4) (mkRational 0 0)) t.
Proof.
  unfold track_set_okb. rewrite !andb_true_iff, !Z.eqb_eq.
  intros [[[[[[Hu Hn] Hs] Hid] Hnum] Hden] Hsq].
  destruct t as [uid sq sref tid tnum [rn rd]].
  cbn [t_uid sequence sequence_ref track_id track_number edit_rate num den]
    in *.
  destruct sq; [discriminate|]. clear Hsq.
  assert (Lu : List.length uid = 16%nat) by (unfold len in Hu; lia).
  assert (Ln : List.length tnum = 4%nat) by (unfold len in Hn; lia).
  assert (Ls : List.length sref = 16%nat) by (unfold len in Hs; lia).
  unfold track_items.
  cbn [t_uid sequence sequence_ref track_id track_number edit_rate num den].
  econstructor.
  { intros pb rest Hp Hr. unfold track_tag. cbn [it_tag it_value] in *.
    change (0x3C0A =? 0x3C0A) with true. cbv iota.
    cbn [t_uid sequence sequence_ref track_id track_number edit_rate].
    rewrite (read_array_full 16 _ pb uid rest Lu Hr), Hu. reflexivity. }
  econstructor.
  { intros pb rest Hp Hr. unfold track_tag. cbn [it_tag it_value] in *.
    change (0x4801 =? 0x3C0A) with false. change (0x4801 =? 0x4801) with true.
    cbv iota.
    destruct (get_be32_int pb tid rest Hp Hid Hr) as [-> ->].
    cbn [t_uid sequence sequence_ref track_id track_number edit_rate].
    reflexivity. }
  econstructor.
  { intros pb rest Hp Hr. unfold track_tag. cbn [it_tag it_value] in *.
    change (0x4804 =? 0x3C0A) with false. change (0x4804 =? 0x4801) with false.
    change (0x4804 =? 0x4804) with true. cbv iota.
    cbn [t_uid sequence sequence_ref track_id track_number edit_rate].
    rewrite (read_array_full 4 _ pb tnum rest Ln Hr), Hn. reflexivity. }
  econstructor.
  { intros pb rest Hp Hr. unfold track_tag. cbn [it_tag it_value] in *.
    change (0x4B01 =? 0x3C0A) with false. change (0x4B01 =? 0x4801) with false.
    change (0x4B01 =? 0x4804) with false. change (0x4B01 =? 0x4B01) with true.
    cbv iota. rewrite <- app_assoc in Hr.
    destruct (get_be32_int pb rd _ Hp Hden Hr) as [-> ->].
    assert (Hr1 : remaining (advance 4 pb) = be_bytes 4 (u32 rn) ++ rest)
      by (apply (remaining_advance pb (be_bytes 4 (u32 rd)) _ Hp Hr)).
    destruct (get_be32_int (advance 4 pb) rn rest
                ltac:(unfold advance; cbn [pos]; lia) Hnum Hr1) as [-> ->].
    rewrite advance_advance, len_app.
    cbn [t_uid sequence sequence_ref track_id track_number edit_rate].
    reflexivity. }
  econstructor.
  { intros pb rest Hp Hr. unfold track_tag. cbn [it_tag it_value] in *.
    change (0x4803 =? 0x3C0A) with false. change (0x4803 =? 0x4801) with false.
    change (0x4803 =? 0x4804) with false. change (0x4803 =? 0x4B01) with false.
    change (0x4803 =? 0x4803) with true. cbv iota.
    cbn [t_uid sequence sequence_ref track_id track_number edit_rate].
    rewrite (read_array_full 16 _ pb sref rest Ls Hr), Hs. reflexivity. }
  constructor.
Qed.

Lemma track_items_okb t :
  track_set_okb t = true -> forallb item_okb (track_items t) = true.
Proof.
  unfold track_set_okb. rewrite !andb_true_iff, !Z.eqb_eq.
  intros [[[[[[Hu Hn] Hs] _] _] _] _].
  unfold track_items, item_okb. cbn [forallb it_tag it_value].
  rewrite Hu, Hn, Hs, len_app. reflexivity.
Qed.

(** The reader on the local set of a track. *)
Lemma mxf_read_metadata_track_parse
  (mxf : MXFContext) (klv : KLVPacket) (pb : ByteIOContext) (t : MXFTrack)
  (before behind : list set_item) (rest : list Z) (fuel : nat) :
  let items := before ++ track_items t ++ behind in
  0 <= pos pb -> track_set_okb t = true ->
  forallb track_unknown before = true ->
  forallb track_unknown behind = true ->
  length klv = len (set_bytes items) -> len (set_bytes items) <= INT_MAX ->
  remaining pb = set_bytes items ++ rest ->
  (List.length items < fuel)%nat ->
  mxf_read_metadata_track fuel mxf klv pb
  = Some (Done
            match attach_track mxf t with
            | Some pkgs =>
                (0, set_packages mxf pkgs, advance (len (set_bytes items)) pb)
            | None => (-1, mxf, advance (len (set_bytes items)) pb)
            end).
Proof.
  intros items Hp Ht Hb1 Hb2 Hl Hmax Hr Hf.
  unfold mxf_read_metadata_track. rewrite Hl.
  assert (Hrd : set_reads track_tag items
                  (mkTrack zero_uid None zero_uid 0 (repeat 0 4)
                     (mkRational 0 0)) t).
  { unfold items.
    eapply set_reads_app; [apply track_unknown_set_reads, Hb1|].
    eapply set_reads_app; [apply track_items_reads, Ht|].
    apply track_unknown_set_reads, Hb2. }
  assert (Hok : forallb item_okb items = true).
  { unfold items. rewrite !forallb_app.
    rewrite (track_unknown_item_okb _ Hb1), (track_unknown_item_okb _ Hb2),
      (track_items_okb _ Ht). reflexivity. }
  pose proof (read_local_set_items track_tag items fuel 0 _ t pb rest
                Hp ltac:(lia) Hmax Hok Hrd Hr Hf) as E.
  cbn [Z.add] in E. rewrite E.
  unfold object_reader_result, attached.
  destruct (attach_track mxf t); reflexivity.
Qed.

(** X26.  A local set that carries the fields of a track (the UID, the
    track ID, the track number, the edit rate with the denominator
    first, and the reference to the sequence), with items of other tags
    before and behind them: [mxf_read_metadata_track] steps over the
    other items by their lengths, reads each field back as it was
    written, and leaves the file behind the set.  It then returns 0 with
    the track in the context where the attachment finds a place for it,
    and -1 with the context unchanged where it finds none. *)
Theorem mxf_read_metadata_track_round_trip
  (mxf : MXFContext) (klv : KLVPacket) (pb : ByteIOContext) (t : MXFTrack)
  (before behind : list set_item) (rest : list Z) (fuel : nat) :
  let items := before ++ track_items t ++ behind in
  0 <= pos pb -> track_set_okb t = true ->
  forallb track_unknown before = true ->
  forallb track_unknown behind = true ->
  length klv = len (set_bytes items) -> len (set_bytes items) <= INT_MAX ->
  remaining pb = set_bytes items ++ rest ->
  (List.length items < fuel)%nat ->
  mxf_read_metadata_track fuel mxf klv pb
  = Some (Done
            match attach_track mxf t with
            | Some pkgs =>
                (0, set_packages mxf pkgs, advance (len (set_bytes items)) pb)
            | None => (-1, mxf, advance (len (set_bytes items)) pb)
            end).
Proof.
  intros items Hp Ht Hb1 Hb2 Hl Hmax Hr Hf.
  apply (mxf_read_metadata_track_parse mxf klv pb t before behind rest fuel
           Hp Ht Hb1 Hb2 Hl Hmax Hr Hf).
Qed.

(** *** The attachment of a track *)

Lemma attach_ref_spec {A : Type} (uid : UID) (obj : A) refs :
  forall slots,
    match attach_ref refs slots uid obj with
    | Some l =>
        exists j,
          (j < Nat.min (List.length refs) (List.length slots))%nat /\
          memcmp_eq (nth j refs []) uid 16 = true /\
          (forall j', (j' < j)%nat ->
                      memcmp_eq (nth j' refs []) uid 16 = false) /\
          l = firstn j slots ++ Some obj :: skipn (S j) slots
    | None =>
        forall j, (j < Nat.min (List.length refs) (List.length slots))%nat ->
                  memcmp_eq (nth j refs []) uid 16 = false
    end.
Proof.
  induction refs as [|r refs IH]; intros slots; cbn [attach_ref].
  - intros j Hj. cbn in Hj. lia.
  - destruct slots as [|s slots].
    + intros j Hj. cbn in Hj. lia.
    + destruct (memcmp_eq r uid 16) eqn:Er.
      * exists 0%nat. split; [cbn; lia|]. split; [exact Er|].
        split; [intros j' Hj'; lia|]. reflexivity.
      * specialize (IH slots).
        destruct (attach_ref refs slots uid obj) as [l|].
        -- destruct IH as (j & Hj & Hm & Hfirst & ->).
           exists (S j). split; [cbn; lia|]. split; [exact Hm|].
           split; [|reflexivity].
           intros [|j'] Hj'; [exact Er|]. apply Hfirst. lia.
        -- intros [|j] Hj; [exact Er|]. apply IH. cbn in Hj. lia.
Qed.

Lemma attach_first_spec {A : Type} (f : A -> option A) slots :
  match attach_first f slots with
  | Some l =>
      exists i a a',
        nth_error slots i = Some (Some a) /\ f a = Some a' /\
        (forall i' b, (i' < i)%nat -> nth_error slots i' = Some (Some b) ->
                      f b = None) /\
        l = firstn i slots ++ Some a' :: skipn (S i) slots
  | None => forall b, In (Some b) slots -> f b = None
  end.
Proof.
  induction slots as [|s slots IH]; cbn [attach_first].
  - intros b [].
  - destruct s as [a|].
    + destruct (f a) as [a'|] eqn:Ef.
      * exists 0%nat, a, a'. split; [reflexivity|]. split; [exact Ef|].
        split; [intros i' b Hi'; lia|]. reflexivity.
      * destruct (attach_first f slots) as [l|].
        -- destruct IH as (i & b & b' & Hn & Hf & Hfirst & ->).
           exists (S i), b, b'. split; [exact Hn|]. split; [exact Hf|].
           split; [|reflexivity].
           intros [|i'] c Hi' Hc; cbn [nth_error] in Hc.
           ++ injection Hc as <-. exact Ef.
           ++ apply (Hfirst i' c); [lia|exact Hc].
        -- intros b [E|Hb]; [injection E as <-; exact Ef|apply IH, Hb].
    + destruct (attach_first f slots) as [l|].
      * destruct IH as (i & b & b' & Hn & Hf & Hfirst & ->).
        exists (S i), b, b'. split; [exact Hn|]. split; [exact Hf|].
        split; [|reflexivity].
        intros [|i'] c Hi' Hc; cbn [nth_error] in Hc; [discriminate|].
        apply (Hfirst i' c); [lia|exact Hc].
      * intros b [E|Hb]; [discriminate|apply IH, Hb].
Qed.

(** A loop whose cases all go on never returns from inside. *)
Lemma read_local_set_goes_on {A : Type}
  (read_tag : Z -> Z -> A -> ByteIOContext -> set_result A) :
  (forall tag size obj pb,
      exists obj' pb', read_tag tag size obj pb = Continue obj' pb') ->
  forall fuel length bytes_read obj pb r obj' pb',
    read_local_set fuel read_tag length bytes_read obj pb
    <> Some (Done (Return r obj' pb')).
Proof.
  intros Hgo. induction fuel as [|fuel IH];
    intros length bytes_read obj pb r obj' pb'; cbn [read_local_set];
    [discriminate|].
  destruct (u64 bytes_read <? length); [|discriminate].
  destruct (get_be16 pb) as [tag pb1]. destruct (get_be16 pb1) as [size pb2].
  destruct (Hgo (s32 tag) (s32 size) obj pb2) as (o & p & ->).
  destruct (_ || _); [discriminate|apply IH].
Qed.

Lemma track_tag_goes_on tag size t pb :
  exists t' pb', track_tag tag size t pb = Continue t' pb'.
Proof.
  unfold track_tag.
  repeat match goal with
         | |- context [if ?c then _ else _] => destruct c
         | |- context [let '(_, _) := ?x in _] => destruct x
         end; eexists; eexists; reflexivity.
Qed.

(** For the statements: no reference of the package names [uid], as
    far as the arrays of the package reach. *)
Definition no_track_ref (p : MXFPackage) (uid : UID) : Prop :=
  forall j,
    (j < Nat.min (List.length (tracks_refs p)) (List.length (tracks p)))%nat ->
    memcmp_eq (nth j (tracks_refs p) []) uid 16 = false.

(** The slot [j] of the package is the first whose reference names
    [uid]. *)
Definition first_track_ref (p : MXFPackage) (uid : UID) (j : nat) : Prop :=
  (j < Nat.min (List.length (tracks_refs p)) (List.length (tracks p)))%nat /\
  memcmp_eq (nth j (tracks_refs p) []) uid 16 = true /\
  forall j', (j' < j)%nat ->
             memcmp_eq (nth j' (tracks_refs p) []) uid 16 = false.

Lemma attach_track_spec mxf t :
  match attach_track mxf t with
  | Some pkgs =>
      exists i p j,
        nth_error (packages mxf) i = Some (Some p) /\
        first_track_ref p (t_uid t) j /\
        (forall i' p', (i' < i)%nat ->
                       nth_error (packages mxf) i' = Some (Some p') ->
                       no_track_ref p' (t_uid t)) /\
        pkgs = firstn i (packages mxf) ++
               Some (set_tracks p (firstn j (tracks p) ++ Some t ::
                                   skipn (S j) (tracks p))) ::
               skipn (S i) (packages mxf)
  | None =>
      forall p, In (Some p) (packages mxf) -> no_track_ref p (t_uid t)
  end.
Proof.
  unfold attach_track.
  set (f := fun p => option_map (set_tracks p)
                       (attach_ref (tracks_refs p) (tracks p) (t_uid t) t)).
  assert (Hnone : forall p, f p = None -> no_track_ref p (t_uid t)).
  { intros p Hp. unfold f in Hp.
    pose proof (attach_ref_spec (t_uid t) t (tracks_refs p) (tracks p)) as S.
    destruct (attach_ref _ _ _ _); [discriminate|]. exact S. }
  pose proof (attach_first_spec f (packages mxf)) as S.
  destruct (attach_first f (packages mxf)) as [pkgs|].
  - destruct S as (i & p & p' & Hn & Hf & Hfirst & ->).
    unfold f in Hf.
    pose proof (attach_ref_spec (t_uid t) t (tracks_refs p) (tracks p)) as R.
    destruct (attach_ref _ _ _ _) as [l|]; [|discriminate].
    cbn [option_map] in Hf. injection Hf as <-.
    destruct R as (j & Hj & Hm & Hj' & ->).
    exists i, p, j. split; [exact Hn|].
    split; [split; [exact Hj|split; [exact Hm|exact Hj']]|].
    split; [|reflexivity].
    intros i' q Hi' Hq. apply Hnone, (Hfirst i' q Hi' Hq).
  - intros p Hp. apply Hnone, S, Hp.
Qed.

(** X27.  Whenever [mxf_read_metadata_track] returns, it has read a
    track, the one [read_local_set] makes of the local set with the
    tags of a track, starting from a track of zeros, and the stream is
    where that read left it.  With this track it either returns -1 and
    leaves the context as it was, no package that is present having a
    reference that names the track, or returns 0 and has set one slot:
    in the first package, in the order of the context, that is present
    and has a reference naming the track, the slot of the first such
    reference.  A package that is not present yet is passed over, and
    so is a track that such a package would take. *)
Theorem mxf_read_metadata_track_attaches
  (fuel : nat) (mxf mxf' : MXFContext) (klv : KLVPacket)
  (pb pb' : ByteIOContext) (r : Z) :
  mxf_read_metadata_track fuel mxf klv pb = Some (Done (r, mxf', pb')) ->
  exists t,
    read_local_set fuel track_tag (length klv) 0
      (mkTrack zero_uid None zero_uid 0 (repeat 0 4) (mkRational 0 0)) pb
    = Some (Done (Continue t pb')) /\
    ((r = -1 /\ mxf' = mxf /\
      forall p, In (Some p) (packages mxf) -> no_track_ref p (t_uid t)) \/
     (r = 0 /\
      exists i p j,
        nth_error (packages mxf) i = Some (Some p) /\
        first_track_ref p (t_uid t) j /\
        (forall i' p', (i' < i)%nat ->
                       nth_error (packages mxf) i' = Some (Some p') ->
                       no_track_ref p' (t_uid t)) /\
        mxf' = set_packages mxf
                 (firstn i (packages mxf) ++
                  Some (set_tracks p (firstn j (tracks p) ++ Some t ::
                                      skipn (S j) (tracks p))) ::
                  skipn (S i) (packages mxf)))).
Proof.
  unfold mxf_read_metadata_track, object_reader_result.
  pose proof (read_local_set_goes_on track_tag track_tag_goes_on fuel
                (length klv) 0
                (mkTrack zero_uid None zero_uid 0 (repeat 0 4)
                   (mkRational 0 0)) pb) as Hgo.
  destruct (read_local_set fuel track_tag (length klv) 0 _ pb)
    as [[[t pb1|r1 t pb1]|]|]; try discriminate.
  - unfold attached. pose proof (attach_track_spec mxf t) as S.
    destruct (attach_track mxf t) as [pkgs|]; intros E;
      injection E as <- <- <-; exists t; (split; [reflexivity|]).
    + right. split; [reflexivity|].
      destruct S as (i & p & j & H1 & H2 & H3 & ->).
      exists i, p, j.
      split; [exact H1|split; [exact H2|split; [exact H3|reflexivity]]].
    + left. repeat split. exact S.
  - exfalso. apply (Hgo r1 t pb1). reflexivity.
Qed.

(** *** A track ahead of its package *)

Lemma attach_track_none mxf t :
  (forall p, In (Some p) (packages mxf) -> no_track_ref p (t_uid t)) ->
  attach_track mxf t = None.
Proof.
  intros Hno. pose proof (attach_track_spec mxf t) as S.
  destruct (attach_track mxf t) as [pkgs|]; [|reflexivity].
  destruct S as (i & p & j & Hn & (Hj & Hm & _) & _).
  apply nth_error_In in Hn. rewrite (Hno p Hn j Hj) in Hm. discriminate Hm.
Qed.

(** X28.  A well-formed KLV triple with the key of a track, whose value
    is the local set of a track that no package present in the context
    has a reference to: the loop of [mxf_read_header], having skipped
    the triples before it that are neither metadata sets nor essence
    elements, returns -1 behind the triple, with the context as it was
    and no stream made.  So it is with every track set that stands in
    the file before the set of its package. *)
Theorem mxf_read_header_orphan_track
  (av_malloc_bytes : Z -> list Z) (AV_NOPTS_VALUE : Z)
  (mxf : MXFHeaderContext) (klv0 : KLVPacket) (ret : Z)
  (streams : list AVStream) (pb : ByteIOContext)
  (pre : list klv_item) (k : klv_item) (t : MXFTrack) (rest : list Z)
  (fuel : nat) :
  0 <= ret -> 0 <= pos pb -> eof_reached pb = false ->
  forallb klv_okb pre = true -> forallb is_dark pre = true ->
  klv_okb k = true ->
  IS_KLV_KEY (k_key k) mxf_metadata_track_key = true ->
  track_set_okb t = true -> k_value k = set_bytes (track_items t) ->
  (forall p, In (Some p) (packages (hc_context mxf)) ->
             no_track_ref p (t_uid t)) ->
  remaining pb = klv_run pre ++ klv_bytes k ++ rest ->
  (List.length pre + 6 < fuel)%nat ->
  mxf_read_header_loop av_malloc_bytes AV_NOPTS_VALUE fuel mxf klv0 ret
    streams pb
  = Some (Done (-1, mxf,
                advance (len (klv_run pre) + len (klv_bytes k)) pb, streams)).
Proof.
  intros Hret Hp He Hok Hd Hk Hkey Ht Hv Hno Hr Hf.
  destruct (header_loop_skips av_malloc_bytes AV_NOPTS_VALUE mxf ret streams
              pre (fuel - List.length pre) klv0 pb _ Hret Hp He Hok Hd Hr)
    as (klv' & Heq).
  replace (List.length pre + (fuel - List.length pre))%nat with fuel
    in Heq by lia.
  rewrite Heq. clear Heq.
  destruct (fuel - List.length pre)%nat as [|n] eqn:En; [lia|].
  assert (Hp1 : 0 <= pos pb + len (klv_run pre))
    by (pose proof (len_nonneg (klv_run pre)); lia).
  assert (Hr1 : remaining (advance (len (klv_run pre)) pb)
                = klv_bytes k ++ rest)
    by (apply (remaining_advance pb _ _ Hp Hr)).
  set (pb1 := advance (len (klv_run pre)) pb) in *.
  cbn [mxf_read_header_loop]. unfold url_feof.
  change (eof_reached pb1) with (eof_reached pb). rewrite He.
  rewrite (klv_read_packet_ok klv' pb1 k _ Hp1 Hk Hr1).
  cbn [Z.ltb Z.compare].
  unfold header_dispatch. cbn [key]. rewrite Hkey.
  pose proof (klv_okb_spec k Hk) as (Hk16 & _ & _ & Hlt).
  assert (Hr2 : remaining (advance (len (k_key k) + len (k_ber k)) pb1)
                = set_bytes ([] ++ track_items t ++ []) ++ rest).
  { rewrite app_nil_r. cbn [app]. rewrite <- Hv.
    assert (Hr1' : remaining pb1 = (k_key k ++ k_ber k) ++ k_value k ++ rest)
      by (rewrite Hr1; unfold klv_bytes; rewrite <- !app_assoc; reflexivity).
    pose proof (remaining_advance pb1 (k_key k ++ k_ber k) _ Hp1 Hr1') as R.
    rewrite len_app in R. exact R. }
  pose proof (len_nonneg (k_key k)) as L1.
  pose proof (len_nonneg (k_ber k)) as L2.
  assert (Hmax : len (set_bytes ([] ++ track_items t ++ [])) <= INT_MAX).
  { rewrite app_nil_r. cbn [app]. pose proof Ht as Ht'.
    unfold track_set_okb in Ht'. rewrite !andb_true_iff, !Z.eqb_eq in Ht'.
    destruct Ht' as [[[[[[Hu Hn] Hs] _] _] _] _].
    unfold track_items, set_bytes. cbn [map concat].
    rewrite !len_app, !len_item_bytes. cbn [it_value].
    rewrite Hu, Hn, Hs, len_app, !len_be_bytes_4, len_nil.
    unfold INT_MAX. lia. }
  rewrite (mxf_read_metadata_track_parse (hc_context mxf)
             (mkKLV (k_key k) (pos pb1) (len (k_value k)))
             (advance (len (k_key k) + len (k_ber k)) pb1) t [] [] rest n
             ltac:(unfold pb1, advance; cbn [pos]; lia) Ht eq_refl eq_refl
             ltac:(cbn [length]; rewrite Hv, app_nil_r; reflexivity)
             Hmax Hr2
             ltac:(rewrite app_nil_r; cbn [app track_items List.length]; lia)).
  rewrite (attach_track_none _ _ Hno).
  unfold on_context. cbn [Z.ltb Z.compare].
  rewrite app_nil_r. cbn [app]. rewrite <- Hv.
  unfold pb1. rewrite !advance_advance, len_klv_bytes.
  destruct mxf as [ctx ds dr]. cbn [hc_context essence_container_data_sets
    essence_container_data_sets_refs].
  reflexivity.
Qed.

(** *** Batches of references *)

Lemma uids_concat us : forall tail,
  Forall (fun u => List.length u = 16%nat) us ->
  uids (List.length us) (concat us ++ tail) = us.
Proof.
  induction us as [|u us IH]; intros tail Hf; [reflexivity|].
  inversion_clear Hf as [|? ? Hu Hus].
  cbn [List.length uids concat]. rewrite <- app_assoc.
  rewrite firstn_app, <- Hu, Nat.sub_diag, firstn_O, app_nil_r, firstn_all.
  rewrite skipn_app, Nat.sub_diag, skipn_all, skipn_O. cbn [app].
  rewrite (IH tail Hus). reflexivity.
Qed.

Lemma len_concat_uids (us : list (list Z)) :
  Forall (fun u => List.length u = 16%nat) us ->
  len (concat us) = 16 * len us.
Proof.
  induction us as [|u us IH]; intros Hf; [reflexivity|].
  inversion_clear Hf as [|? ? Hu Hus]. cbn [concat].
  rewrite len_app, (IH Hus). unfold len. cbn [List.length]. lia.
Qed.

Lemma length_uids n : forall bs, List.length (uids n bs) = n.
Proof.
  induction n as [|n IH]; intros bs; cbn [uids List.length];
    [reflexivity|]. rewrite IH. reflexivity.
Qed.

(** X29.  The batch of track references of a package set (tag 0x4403
    of [mxf_read_metadata_material_package] and
    [mxf_read_metadata_source_package]): a count of 268435455 or more,
    among them every count that is negative as an [int], makes the
    reader return -1.  Below it the package gets as many empty track
    slots and references as the count says.  For a count below 2^27
    the references are the UIDs that follow the count and the four
    bytes of the object size, and the file advances behind them; for a
    count from 2^27 on, the size in bytes does not fit the [int] that
    [get_buffer] takes, no reference is read, and the file advances by
    the eight bytes only. *)
Theorem package_tracks_count_guard
  (av_malloc_bytes : Z -> list Z) (p : MXFPackage) (pb : ByteIOContext)
  (c : Z) (rest : list Z) :
  0 <= pos pb -> 0 <= c < 2 ^ 32 ->
  remaining pb = be_bytes 4 c ++ rest ->
  (268435455 <= c ->
   package_tracks_tag av_malloc_bytes p pb = Return (-1) p (advance 4 pb)) /\
  (c < 268435455 ->
   exists refs pb',
     package_tracks_tag av_malloc_bytes p pb
     = Continue (mkPackage (p_uid p) (package_uid p)
                   (repeat None (Z.to_nat c)) refs (descriptor p)
                   (descriptor_ref p) (p_type p)) pb' /\
     len refs = c /\
     (2 ^ 27 <= c -> pb' = advance 8 pb) /\
     (c < 2 ^ 27 ->
      forall size us tail,
        rest = size ++ concat us ++ tail -> len size = 4 -> len us = c ->
        Forall (fun u => List.length u = 16%nat) us ->
        refs = us /\ pb' = advance (8 + 16 * c) pb)).
Proof.
  intros Hp Hc Hr. unfold package_tracks_tag.
  rewrite (get_be32_be_bytes pb c rest Hp Hc Hr).
  assert (Hr1 : remaining (advance 4 pb) = rest)
    by (apply (remaining_advance pb (be_bytes 4 c) _ Hp Hr)).
  unfold count_exceeds, sizeof_pointer, UINT_MAX.
  change ((2 ^ 32 - 1) / 16) with 268435455.
  change ((2 ^ 32 - 1) / 8) with 536870911.
  split.
  - intros Hbig.
    assert (Hu : 268435455 <= u64 (s32 c)).
    { unfold s32, u64.
      destruct (Z_lt_le_dec c (2 ^ 31)) as [Hlt|Hge].
      - rewrite (Z.mod_small (c + 2 ^ 31)) by lia.
        rewrite Z.mod_small by lia. lia.
      - replace (c + 2 ^ 31) with (c - 2 ^ 31 + 1 * 2 ^ 32) by lia.
        rewrite Z.mod_add by lia. rewrite (Z.mod_small (c - 2 ^ 31)) by lia.
        replace (c - 2 ^ 31 - 2 ^ 31) with (c + (2 ^ 64 - 2 ^ 32) + (-1) * 2 ^ 64)
          by lia.
        rewrite Z.mod_add by lia. rewrite Z.mod_small by lia. lia. }
    destruct (Z.leb_spec 268435455 (u64 (s32 c))); [reflexivity|lia].
  - intros Hsmall.
    rewrite (s32_small c) by lia. rewrite (u64_small c) by lia.
    destruct (Z.leb_spec 268435455 c); [lia|].
    destruct (Z.leb_spec 536870911 c); [lia|]. cbn [orb].
    unfold read_refs.
    destruct (get_buffer (url_fskip (advance 4 pb) 4) (s32 (c * 16)))
      as [bs pb'] eqn:Eg.
    eexists. exists pb'. split; [reflexivity|].
    split; [unfold len; rewrite length_uids; lia|].
    split.
    + intros Hmid.
      assert (Hneg : s32 (c * 16) < 0).
      { unfold s32.
        replace (c * 16 + 2 ^ 31) with (c * 16 - 2 ^ 31 + 1 * 2 ^ 32) by lia.
        rewrite Z.mod_add by lia. rewrite Z.mod_small by lia. lia. }
      unfold get_buffer in Eg.
      replace (Z.to_nat (s32 (c * 16))) with 0%nat in Eg by lia.
      cbn [firstn] in Eg. change (len (@nil Z)) with 0 in Eg.
      destruct (Z.ltb_spec 0 (s32 (c * 16))); [lia|].
      injection Eg as _ <-. unfold url_fskip, advance. cbn [buffer pos eof_reached].
      rewrite orb_false_r. f_equal. lia.
    + intros Hlow size us tail -> Hsz Hus Hf.
      assert (Hr2 : remaining (url_fskip (advance 4 pb) 4)
                    = concat us ++ tail).
      { pose proof (remaining_advance (advance 4 pb) size _
                      ltac:(unfold advance; cbn [pos]; lia) Hr1) as R.
        rewrite Hsz in R. exact R. }
      rewrite (s32_small (c * 16)) in Eg by lia.
      replace (c * 16) with (len (concat us)) in Eg
        by (rewrite (len_concat_uids us Hf); lia).
      rewrite (get_buffer_full _ _ _ Hr2) in Eg. injection Eg as <- <-.
      split.
      * replace (Z.to_nat c) with (List.length us) by (unfold len in Hus; lia).
        apply uids_concat, Hf.
      * unfold url_fskip. rewrite !advance_advance.
        rewrite (len_concat_uids us Hf), Hus. f_equal. lia.
Qed.

(** *** Examples *)

Definition ex_header_context : MXFHeaderContext :=
  mkHeaderContext ex_context [] [].

Definition ex_av_malloc_bytes (n : Z) : list Z := repeat 0xcd (Z.to_nat n).

Definition ex_file : ByteIOContext :=
  mkPB (klv_run [ex_filler] ++ klv_bytes ex_audio_element ++ [0x99]) 0 false.

Lemma mxf_read_header_stops_at_essence_witness :
  let pb' := mkPB (buffer ex_file) (pos ex_file + len (klv_run [ex_filler]))
               false in
  mxf_read_header_loop ex_av_malloc_bytes (- 2 ^ 63) 2 ex_header_context
    ex_klv0 0 [] ex_file
  = match mxf_parse_structural_metadata (- 2 ^ 63)
            (hc_context ex_header_context) [] with
    | Done (r, streams') => Some (Done (r, ex_header_context, pb', streams'))
    | Fault => Some Fault
    end /\
  exists idx,
    mxf_read_packet (-2) 1 ex_streams ex_klv0 ex_pkt0 pb'
    = Some ((if idx =? -1 then -1 else 0),
            mkPacket (k_value ex_audio_element) idx,
            advance (len (klv_bytes ex_audio_element)) pb') /\
    routed_to ex_streams ex_audio_element idx.
Proof.
  apply (mxf_read_header_stops_at_essence ex_av_malloc_bytes (- 2 ^ 63) (-2)
           ex_header_context ex_klv0 ex_klv0 0 [] ex_file [ex_filler]
           ex_audio_element [0x99] 2 ex_streams ex_pkt0).
  - lia.
  - cbn. lia.
  - reflexivity.
  - reflexivity.
  - reflexivity.
  - reflexivity.
  - reflexivity.
  - reflexivity.
  - reflexivity.
  - cbn. lia.
Defined.

(** A track, and a context whose only package has a reference to it
    in its second slot. *)
Definition ex_track : MXFTrack :=
  mkTrack (repeat 0xb1 16) None (repeat 0xc1 16) 1 [0x15; 0x01; 0x05; 0x00]
    (mkRational 25 1).

Definition ex_waiting_package : MXFPackage :=
  mkPackage (repeat 0xd1 16) ex_uid_p [None; None]
    [repeat 0xb7 16; repeat 0xb1 16] None (repeat 0 16) SourcePackage.

Definition ex_waiting_context : MXFContext :=
  mkContext [None; Some ex_waiting_package]
    [repeat 0xd2 16; repeat 0xd1 16] [] (repeat 0 16) (repeat 0 16).

Definition ex_track_set : list set_item :=
  [mkSetItem 0x3C0B [7; 7; 7]] ++ track_items ex_track ++ [].

Definition ex_track_klv : KLVPacket :=
  mkKLV mxf_metadata_track_key 0 (len (set_bytes ex_track_set)).

Definition ex_track_file : ByteIOContext :=
  mkPB (set_bytes ex_track_set ++ [0x99]) 0 false.

Lemma mxf_read_metadata_track_round_trip_witness :
  mxf_read_metadata_track 8 ex_waiting_context ex_track_klv ex_track_file
  = Some (Done
            match attach_track ex_waiting_context ex_track with
            | Some pkgs =>
                (0, set_packages ex_waiting_context pkgs,
                 advance (len (set_bytes ex_track_set)) ex_track_file)
            | None =>
                (-1, ex_waiting_context,
                 advance (len (set_bytes ex_track_set)) ex_track_file)
            end).
Proof.
  apply (mxf_read_metadata_track_round_trip ex_waiting_context ex_track_klv
           ex_track_file ex_track [mkSetItem 0x3C0B [7; 7; 7]] [] [0x99] 8).
  - cbn. lia.
  - reflexivity.
  - reflexivity.
  - reflexivity.
  - reflexivity.
  - vm_compute. discriminate.
  - reflexivity.
  - cbn. lia.
Defined.

Lemma mxf_read_metadata_track_attaches_witness :
  exists mxf' pb' i p j,
    mxf_read_metadata_track 8 ex_waiting_context ex_track_klv ex_track_file
    = Some (Done (0, mxf', pb')) /\
    nth_error (packages ex_waiting_context) i = Some (Some p) /\
    first_track_ref p (t_uid ex_track) j /\
    mxf' = set_packages ex_waiting_context
             (firstn i (packages ex_waiting_context) ++
              Some (set_tracks p (firstn j (tracks p) ++ Some ex_track ::
                                  skipn (S j) (tracks p))) ::
              skipn (S i) (packages ex_waiting_context)).
Proof.
  assert (E : exists mxf' pb',
             mxf_read_metadata_track 8 ex_waiting_context ex_track_klv
               ex_track_file = Some (Done (0, mxf', pb'))).
  { eexists. eexists. vm_compute. reflexivity. }
  destruct E as (mxf' & pb' & E).
  destruct (mxf_read_metadata_track_attaches 8 ex_waiting_context mxf'
              ex_track_klv ex_track_file pb' 0 E)
    as (t & Hread & [(H & _)|(_ & i & p & j & Hn & Hj & Hfirst & Hm)]);
    [discriminate H|].
  assert (Ht : t = ex_track).
  { assert (R : exists pbR,
               read_local_set 8 track_tag (length ex_track_klv) 0
                 (mkTrack zero_uid None zero_uid 0 (repeat 0 4)
                    (mkRational 0 0)) ex_track_file
               = Some (Done (Continue ex_track pbR)))
      by (eexists; vm_compute; reflexivity).
    destruct R as (pbR & R). rewrite R in Hread.
    injection Hread as <- _. reflexivity. }
  subst t.
  exists mxf', pb', i, p, j.
  split; [exact E|]. split; [exact Hn|]. split; [exact Hj|exact Hm].
Defined.

Definition ex_empty_context : MXFHeaderContext :=
  mkHeaderContext (mkContext [] [] [] (repeat 0 16) (repeat 0 16)) [] [].

Definition ex_track_triple : klv_item :=
  mkItem mxf_metadata_track_key [68] (set_bytes (track_items ex_track)).

Definition ex_orphan_file : ByteIOContext :=
  mkPB (klv_run [ex_filler] ++ klv_bytes ex_track_triple
          ++ klv_bytes ex_audio_element) 0 false.

Lemma mxf_read_header_orphan_track_witness :
  mxf_read_header_loop ex_av_malloc_bytes (- 2 ^ 63) 8 ex_empty_context
    ex_klv0 0 [] ex_orphan_file
  = Some (Done (-1, ex_empty_context,
                advance (len (klv_run [ex_filler])
                         + len (klv_bytes ex_track_triple)) ex_orphan_file,
                [])).
Proof.
  apply (mxf_read_header_orphan_track ex_av_malloc_bytes (- 2 ^ 63)
           ex_empty_context ex_klv0 0 [] ex_orphan_file [ex_filler]
           ex_track_triple ex_track (klv_bytes ex_audio_element) 8).
  - lia.
  - cbn. lia.
  - reflexivity.
  - reflexivity.
  - reflexivity.
  - reflexivity.
  - reflexivity.
  - reflexivity.
  - reflexivity.
  - intros p [].
  - reflexivity.
  - cbn. lia.
Defined.

Definition ex_batch_file : ByteIOContext :=
  mkPB ([0; 0; 0; 2] ++ [0; 0; 0; 16] ++
        concat [repeat 0xb7 16; repeat 0xb1 16] ++ [0x99]) 0 false.

Lemma package_tracks_count_guard_witness :
  exists refs pb',
    package_tracks_tag ex_av_malloc_bytes ex_waiting_package ex_batch_file
    = Continue (mkPackage (p_uid ex_waiting_package)
                  (package_uid ex_waiting_package)
                  (repeat None (Z.to_nat 2)) refs
                  (descriptor ex_waiting_package)
                  (descriptor_ref ex_waiting_package)
                  (p_type ex_waiting_package)) pb' /\
    refs = [repeat 0xb7 16; repeat 0xb1 16] /\
    pb' = advance (8 + 16 * 2) ex_batch_file.
Proof.
  destruct (package_tracks_count_guard ex_av_malloc_bytes ex_waiting_package
              ex_batch_file 2
              ([0; 0; 0; 16] ++ concat [repeat 0xb7 16; repeat 0xb1 16]
                 ++ [0x99])
              ltac:(cbn; lia) ltac:(lia) eq_refl) as [_ H].
  destruct (H ltac:(lia)) as (refs & pb' & E & _ & _ & Hlow).
  exists refs, pb'. split; [exact E|].
  apply (Hlow ltac:(lia) [0; 0; 0; 16] [repeat 0xb7 16; repeat 0xb1 16]
           [0x99] eq_refl eq_refl eq_refl).
  repeat constructor.
Defined.

(** *** A small file, from the preface to the first packet

    The header metadata from the top down: the preface, the content
    storage with its two packages, the material and the source package,
    a track and a sequence for each, the source clip of the material
    track and a wave descriptor of the source package; then a filler
    and an essence element of the source track. *)

Definition ex_uid (b : Z) : UID := repeat b 16.

Definition ex_set (key : UID) (items : list set_item) : klv_item :=
  mkItem key [len (set_bytes items)] (set_bytes items).

Definition ex_batch (us : list UID) : list Z :=
  be_bytes 4 (len us) ++ [0; 0; 0; 16] ++ concat us.

Definition ex_pcm_ul : UID :=
  [0x06;0x0E;0x2B;0x34;0x04;0x01;0x01;0x01;
   0x04;0x02;0x02;0x01;0x7F;0x00;0x00;0x00].

Definition ex_small_header : list klv_item :=
  [ex_set mxf_metadata_preface_key
     [mkSetItem 0x3B03 (ex_uid 0x01); mkSetItem 0x3B09 (ex_uid 0x02)];
   ex_set mxf_metadata_content_storage_key
     [mkSetItem 0x1901 (ex_batch [ex_uid 0xd2; ex_uid 0xd1])];
   ex_set mxf_metadata_material_package_key
     [mkSetItem 0x3C0A (ex_uid 0xd2);
      mkSetItem 0x4403 (ex_batch [ex_uid 0xb2])];
   ex_set mxf_metadata_source_package_key
     [mkSetItem 0x3C0A (ex_uid 0xd1);
      mkSetItem 0x4401 (ex_uid 0 ++ ex_uid 0x11);
      mkSetItem 0x4403 (ex_batch [ex_uid 0xb1]);
      mkSetItem 0x4701 (ex_uid 0xe1)];
   ex_set mxf_metadata_track_key
     (track_items (mkTrack (ex_uid 0xb2) None (ex_uid 0xc2) 1 [0; 0; 0; 0]
                     (mkRational 25 1)));
   ex_set mxf_metadata_track_key
     (track_items (mkTrack (ex_uid 0xb1) None (ex_uid 0xc1) 1
                     [0x16; 0x01; 0x01; 0x00] (mkRational 25 1)));
   ex_set mxf_metadata_sequence_key
     [mkSetItem 0x3C0A (ex_uid 0xc2);
      mkSetItem 0x0201 sound_essence_track_ul;
      mkSetItem 0x1001 (ex_batch [ex_uid 0xa1])];
   ex_set mxf_metadata_sequence_key
     [mkSetItem 0x3C0A (ex_uid 0xc1);
      mkSetItem 0x0201 sound_essence_track_ul;
      mkSetItem 0x1001 (ex_batch [])];
   ex_set mxf_metadata_source_clip_key
     [mkSetItem 0x3C0A (ex_uid 0xa1);
      mkSetItem 0x0202 (be_bytes 8 250);
      mkSetItem 0x1101 (ex_uid 0 ++ ex_uid 0x11);
      mkSetItem 0x1102 (be_bytes 4 1)];
   ex_set mxf_metadata_wave_descriptor_key
     [mkSetItem 0x3C0A (ex_uid 0xe1);
      mkSetItem 0x3D03 (be_bytes 4 48000 ++ be_bytes 4 1);
      mkSetItem 0x3D07 (be_bytes 4 2);
      mkSetItem 0x3D01 (be_bytes 4 24);
      mkSetItem 0x3D06 ex_pcm_ul];
   ex_filler].

Definition ex_small_file : ByteIOContext :=
  mkPB (klv_run ex_small_header ++ klv_bytes ex_audio_element ++ [0x99])
       0 false.

(** The header gives one audio stream, 24-bit PCM at 48000 Hz on two
    channels, and leaves the file at the essence element, which the
    first [mxf_read_packet] delivers for that stream. *)
Example mxf_read_header_small_file :
  exists mxf st pb,
    mxf_read_header ex_av_malloc_bytes (- 2 ^ 63) 40 ex_empty_context ex_klv0
      [] ex_small_file = Some (Done (0, mxf, pb, [st])) /\
    pos pb = len (klv_run ex_small_header) /\
    (codec_type st, codec_id st, codec_channels st, codec_sample_rate st)
    = (CODEC_TYPE_AUDIO, CODEC_ID_PCM_S24LE, 2, 48000) /\
    exists pb',
      mxf_read_packet (-2) 1 [priv_data st] ex_klv0 ex_pkt0 pb
      = Some (0, mkPacket [0xaa; 0xbb; 0xcc] 0, pb').
Proof.
  eexists. eexists. eexists. split; [vm_compute; reflexivity|].
  split; [reflexivity|]. split; [reflexivity|].
  eexists. vm_compute. reflexivity.
Qed.

(** *** A set at the end of the file *)

Lemma get_be16_at_end pb :
  remaining pb = [] ->
  get_be16 pb = (0, mkPB (buffer pb) (pos pb) true).
Proof.
  intros Hr. unfold get_be16, get_byte. rewrite Hr.
  assert (Hr' : remaining (mkPB (buffer pb) (pos pb) true) = [])
    by exact Hr.
  rewrite Hr'. reflexivity.
Qed.

(** Behind the end of the file every turn of the loop reads the tag 0
    and the size 0. *)
Lemma read_local_set_at_end {A : Type}
  (read_tag : Z -> Z -> A -> ByteIOContext -> set_result A)
  (length : Z) (obj : A) (pb : ByteIOContext) :
  (forall pb', read_tag 0 0 obj pb' = Continue obj (url_fskip pb' 0)) ->
  remaining pb = [] -> eof_reached pb = true -> length <= 2 ^ 31 - 4 ->
  forall n fuel bytes_read,
    0 <= bytes_read < length + 4 ->
    length <= bytes_read + 4 * Z.of_nat n -> (n < fuel)%nat ->
    read_local_set fuel read_tag length bytes_read obj pb
    = Some (Done (Continue obj pb)).
Proof.
  intros Htag Hr He Hmax.
  assert (Hpb : mkPB (buffer pb) (pos pb) true = pb)
    by (destruct pb; cbn in *; subst; reflexivity).
  induction n as [|n IH]; intros fuel bytes_read Hb Hn Hf;
    (destruct fuel as [|fuel]; [lia|]); cbn [read_local_set];
    rewrite u64_small by lia.
  - destruct (Z.ltb_spec bytes_read length); [lia|reflexivity].
  - destruct (Z.ltb_spec bytes_read length); [|reflexivity].
    rewrite (get_be16_at_end pb Hr), Hpb, (get_be16_at_end pb Hr), Hpb.
    change (s32 0) with 0. rewrite Htag.
    unfold url_fskip. rewrite advance_0.
    unfold INT_MAX, INT_MIN. change (0 + 4) with 4.
    destruct (Z.ltb_spec (2 ^ 31 - 1) 4); [lia|].
    destruct (Z.ltb_spec (2 ^ 31 - 1) (bytes_read + 4)); [lia|].
    destruct (Z.ltb_spec (bytes_read + 4) (- 2 ^ 31)); [lia|].
    cbn [orb]. apply IH; lia.
Qed.

(** X30.  A preface set whose value lies behind the end of the file is
    read without an error: every turn of the loop reads the tag 0 and
    the size 0 and counts four bytes, so that after a fourth of the
    length in turns [mxf_read_metadata_preface] returns 0 with the
    context as it was; the end of the file is raised and the cursor has
    not moved.  The length is taken to leave the [int] that counts the
    bytes in its range. *)
Theorem mxf_read_metadata_preface_at_end
  (av_malloc_bytes : Z -> list Z) (fuel : nat) (mxf : MXFContext)
  (klv : KLVPacket) (pb : ByteIOContext) :
  remaining pb = [] -> 0 < length klv <= 2 ^ 31 - 4 ->
  (Z.to_nat (length klv / 4) + 2 < fuel)%nat ->
  mxf_read_metadata_preface av_malloc_bytes fuel mxf klv pb
  = Some (Done (0, mxf, mkPB (buffer pb) (pos pb) true)).
Proof.
  intros Hr Hl Hf. unfold mxf_read_metadata_preface.
  destruct fuel as [|fuel]; [lia|]. cbn [read_local_set].
  change (u64 0) with 0.
  destruct (Z.ltb_spec 0 (length klv)); [|lia].
  rewrite (get_be16_at_end pb Hr).
  set (pbE := mkPB (buffer pb) (pos pb) true).
  assert (HrE : remaining pbE = []) by exact Hr.
  rewrite (get_be16_at_end pbE HrE). change (s32 0) with 0.
  unfold preface_tag at 1. cbn [Z.eqb]. unfold url_fskip.
  rewrite advance_0. cbn [buffer pos pbE].
  fold pbE. unfold INT_MAX, INT_MIN. cbn [Z.add Z.ltb Z.compare orb].
  rewrite (read_local_set_at_end (preface_tag av_malloc_bytes) (length klv)
             mxf pbE ltac:(reflexivity) HrE eq_refl ltac:(lia)
             (Z.to_nat (length klv / 4)) fuel 4 ltac:(lia)).
  - reflexivity.
  - rewrite Z2Nat.id by (apply Z.div_pos; lia).
    pose proof (Z.mod_pos_bound (length klv) 4 ltac:(lia)).
    pose proof (Z.div_mod (length klv) 4 ltac:(lia)). lia.
  - lia.
Qed.

Lemma mxf_read_metadata_preface_at_end_witness :
  mxf_read_metadata_preface ex_av_malloc_bytes 20 ex_context
    (mkKLV mxf_metadata_preface_key 0 40) (mkPB [1; 2; 3] 3 false)
  = Some (Done (0, ex_context, mkPB [1; 2; 3] 3 true)).
Proof.
  apply (mxf_read_metadata_preface_at_end ex_av_malloc_bytes 20 ex_context
           (mkKLV mxf_metadata_preface_key 0 40) (mkPB [1; 2; 3] 3 false)).
  - reflexivity.
  - cbn. lia.
  - cbn. lia.
Defined.

End MxfHeader.

